(* ===== verification/_CoqProject ===== *)
-Q . S2P
Prelude.v
Io.v
Text.v
Float.v
Net.v
Domain.v
Validation.v
StateMachine.v
LifecycleSpec.v
LifecycleProps.v
Retry.v
Runtime.v
Socks5.v
Relay.v
Russh.v
HostKey.v
SshClient.v
Chain.v
LocalForward.v
RemoteForward.v
Supervisor.v
Clients.v
RemoteSupervisor.v
Status.v
Recovery.v
Path.v
Schema.v
Fs.v
Store.v
Secrets.v
Persist.v
SshImport.v
Manager.v
Frames.v
ManagerProps.v
Prompts.v
Trust.v
Engine.v
Editor.v
Document.v
Credentials.v
Attempt.v
Workspace.v
WorkspaceProps.v
Desktop.v
View.v
Application.v
Tray.v
Shell.v
Host.v
Instance.v
Main.v
Probe.v
