(* ===== verification/Prelude.v ===== *)
(** * TunnelWarden: a verification development

    TunnelWarden keeps SSH tunnels up: it listens on local ports (or asks a
    server to listen), carries the connections through a chain of SSH hosts,
    notices when a chain dies, and reconnects. This library models the
    program's Rust crates as executable definitions and proves what makes them
    correct. Paths below are relative to src/crates/.

    ** The parts and their files

    tunnel-domain (configuration, errors, states): Domain, and Validation for
    [TunnelConfig::validate].

    tunnel-core: StateMachine is the lifecycle reducer (state_machine.rs);
    LifecycleSpec gives its rules as a step relation, LifecycleProps what
    follows for every reachable lifecycle. Retry is the backoff arithmetic
    (retry.rs), Runtime the owner of a listening socket (runtime.rs),
    LocalForward and RemoteForward the workers that carry connections
    (local_forward.rs, remote_forward.rs, health.rs), Supervisor and
    RemoteSupervisor the loops that reconnect (supervisor.rs,
    remote_supervisor.rs), Status the specification of what they publish, Recovery
    what happens to dead connections in the long run, Clients what the clients
    of a tunnel read on their sockets.
    Manager is the actor that owns all supervisors (manager.rs): every command
    and event of its loop; Frames what its operations leave alone, ManagerProps
    what holds of every reachable manager, Prompts the dialogue about unknown
    host keys and Trust the verifications of HostKey that wait for it; Engine the manager and its supervisors as one system; Attempt one
    connection attempt of a running tunnel, from its configuration to the
    verified servers; Persist is its [persist_config].

    ssh-engine: HostKey (host_key.rs), SshClient (client.rs,
    cancellable_stream.rs) and Chain (chain.rs), against Russh, the interface of
    the russh library.

    forwarding: Socks5 (socks5.rs) and Relay (relay.rs).

    config-store: Schema (schema.rs), Document (its serde attributes, between
    the tables of a TOML file and the stored records), Store over the file system of Fs
    (store.rs), Secrets (secrets.rs, startup.rs), SshImport (ssh_import.rs),
    Path (what these use of std::path).

    app: Editor (editor.rs), Workspace with WorkspaceProps (the state of
    workspace.rs), View (its render functions), Tray (tray.rs and the decisions
    of main.rs), Shell (the windows and loops of main.rs), Host (runtime_host.rs,
    network.rs, the startup of main.rs), Instance (instance.rs), Main ([main] from
    the guard to the shell), Probe (examples/window_probe.rs), Credentials
    (the credential source of runtime_host.rs, from the form to the hop), and
    Desktop, which puts the window, the command queue, the manager and the disk
    together. Application is the whole: Desktop with the supervisors of Engine.

    Prelude holds results, the state-and-error monad, tactics and shared lemmas;
    Io, Text, Float and Net model what the program uses of std (streams, strings
    and number formatting, the f32 seconds of a delay, addresses).

    ** How the code is modelled

    A struct is a Record, an enum an Inductive in a module of its name, a
    function a Definition that takes and returns the state it changes; [?] is
    the monad's bind, so state changed before an early return is kept. Integers
    are Z with the bounds and wrap-around of their Rust types written out.
    Answers of the outside world (the operating system, the network, the
    clock, the user, random numbers) are arguments or a state with faults, so a
    theorem holds for all of them. Concurrency is explicit: the relay, the
    workers and the supervisors are loops over arbitrary sequences of events,
    the manager reacts to one input at a time, the processes of Instance
    interleave between any two system calls, Engine interleaves the manager's
    reactions with what its supervisors publish, Desktop is a transition system
    over the window, the queue, the manager and the disk, Trust one over any
    number of verifications, the channel of prompts, the manager and the user,
    and Shell one over the tray, the windows and what the manager has published.

    Libraries outside the repository are classes (Russh, TomlSyntax with
    TomlSyntaxLaws, of which Document builds the Toml the store is over, Keyring, Registry, Glob, InputState with InputStateLaws, Os, Gpui with
    GpuiLaws); each class with laws has an instance that satisfies them, and every theorem under hypotheses
    a witness on concrete data.

    ** What the theorems show

    Lifecycle: [transition] implements the rules in both directions; every
    reachable lifecycle is well formed; a Stop is final; superseded events are
    ignored; a chain of any length starts up. Connections: the sessions of a
    running tunnel are those of its configured chain, each with a trusted key; a
    changed key is refused, a chain is built wholly or not at all, the relay
    loses no byte, a SOCKS client reads success only for the very destination
    whose channel is open, supervisors keep their port and leak no session;
    under every fair schedule a worker whose chain is dead ends, and a
    supervisor that nobody stops recovers from any number of failures, where
    after an error that blocks it tries again exactly if the user asks. Status: both supervisors implement one transition
    system of published states, and what the window is shown of a tunnel is
    what its own supervisor published, the latest after each tick - up to the
    text of its row. A decision about a host key reaches the connection that
    asked, and no other, and a verification accepts a key only because a file
    had it or the user said so to this very question. Manager: the
    running tasks are exactly those of the active tunnels on their current
    configuration, through every configuration change, stop and shutdown. Store:
    every outcome of a save; a file that loads can be saved, what is saved loads
    back, down to the tables of the TOML text, and every absent field has one
    default; the secret of a refused save; and a secret typed into a form is the
    one the connection uses. Application: at most one instance and one window; the
    one instance runs the file as loaded and shows it, or the error of the file
    or the runtime in every window; the window shows what runs, as long as none is
    opened while an earlier save is queued, and its buttons are the steps of the
    system; forms round-trip and keep secrets and jump chains in order; the tray
    shows the state it was last given, unless the system refused a part of it;
    and the defects the counterexamples prove (lost saves of a reopened window,
    the order of tunnels, a key path that changes, a stale tray, a lost wake-up,
    an empty page, an application without window or icon).

    ** Bounds and fuel

    Reading included files has fuel [READ_FUEL], one more than the limit of
    files, and [preview_spec] shows that this always suffices; the search for
    a free id has one more try than there are entries, which suffices by the
    pigeonhole principle ([fresh_id_spec]); decoding and printing have the
    length of their input. Every other recursion is structural.

    ** Not modelled

    Layout, colours and fonts of the window (View has its texts, fields and
    buttons), the registration of tray event handlers, the hashing of the
    per-user object names, and panics of tasks other than a supervisor's. Paths
    are UTF-8 texts without UNC or verbatim prefixes. The grammar of TOML, from
    text to tables, is a parameter; so are russh, the keyring, the registry and
    gpui-kit. The handlers of one actor are not interleaved with themselves, as
    in the code; waiting is a choice of events, not time. The lib.rs files are
    module declarations and re-exports, [TunnelSnapshot] of tunnel-domain is
    used nowhere, the accessors that only clone a channel end have no
    definition, and the vendored window library is third-party code. The other
    functions of the crates have definitions here. *)
From stdpp Require Export base gmap strings list fin_maps numbers relations.
From Stdlib Require Export ZArith Lia.

#[global] Open Scope Z_scope.

(** ** Rust results and the state-and-error monad *)

Inductive result (A E : Type) : Type :=
  | Ok (a : A)
  | Err (e : E).
Arguments Ok {A E} a.
Arguments Err {A E} e.

Definition is_ok {A E} (r : result A E) : bool :=
  match r with Ok _ => true | Err _ => false end.

Definition is_err {A E} (r : result A E) : bool := negb (is_ok r).

Definition map_err {A E F} (f : E -> F) (r : result A E) : result A F :=
  match r with Ok a => Ok a | Err e => Err (f e) end.

Definition result_map {A B E} (f : A -> B) (r : result A E) : result B E :=
  match r with Ok a => Ok (f a) | Err e => Err e end.

Definition ok_or {A E} (o : option A) (e : E) : result A E :=
  match o with Some a => Ok a | None => Err e end.

(** A method on [&mut self] that may return early with [?]: the state at the
    point of the early return is kept, exactly as in Rust (nothing is rolled
    back). *)
Definition ST (S E A : Type) : Type := S -> result A E * S.

Definition ret {S E A} (a : A) : ST S E A := fun s => (Ok a, s).
Definition throw {S E A} (e : E) : ST S E A := fun s => (Err e, s).
Definition bind {S E A B} (m : ST S E A) (k : A -> ST S E B) : ST S E B :=
  fun s => match m s with
           | (Ok a, s') => k a s'
           | (Err e, s') => (Err e, s')
           end.
Definition get {S E} : ST S E S := fun s => (Ok s, s).
Definition modify {S E} (f : S -> S) : ST S E unit := fun s => (Ok tt, f s).
Definition lift {S E A} (r : result A E) : ST S E A := fun s => (r, s).

Declare Scope rust_scope.
Delimit Scope rust_scope with rust.
#[global] Open Scope rust_scope.

Notation "'let!' x ':=' m 'in' k" := (bind m (fun x => k))
  (at level 10, x pattern, m at level 100, k at level 200)
  : rust_scope.
Notation "m ';;;' k" := (bind m (fun _ => k))
  (at level 100, right associativity) : rust_scope.
Notation "'let?' x ':=' r 'in' k" :=
  (match r with Ok x => k | Err e => Err e end)
  (at level 10, x pattern, r at level 100, k at level 200)
  : rust_scope.

(** ** Machine integers *)

Definition u8_max : Z := 255.
Definition u16_max : Z := 65535.
Definition u32_max : Z := 4294967295.
Definition u64_max : Z := 18446744073709551615.
Definition u128_max : Z := 2 ^ 128 - 1.
Definition usize_max : Z := u64_max.

Definition u8 (n : Z) : Prop := 0 <= n <= u8_max.
Definition u16 (n : Z) : Prop := 0 <= n <= u16_max.
Definition u32 (n : Z) : Prop := 0 <= n <= u32_max.
Definition u64 (n : Z) : Prop := 0 <= n <= u64_max.

(** [checked_add], [saturating_add], [saturating_mul], [saturating_sub] and
    [wrapping_add] of an unsigned type whose largest value is [max]. *)
Definition checked_add (max a b : Z) : option Z :=
  if decide (a + b <= max) then Some (a + b) else None.
Definition saturating_add (max a b : Z) : Z := Z.min (a + b) max.
Definition saturating_mul (max a b : Z) : Z := Z.min (a * b) max.
Definition saturating_sub (a b : Z) : Z := Z.max (a - b) 0.
Definition wrapping_add (max a b : Z) : Z := (a + b) mod (max + 1).
(** [clamp lo hi]: Rust's [Ord::clamp]. *)
Definition clamp (lo hi x : Z) : Z := Z.max lo (Z.min x hi).

(** ** Durations: [std::time::Duration], counted in nanoseconds *)

Definition Duration : Type := Z.
Definition NANOS_PER_MILLI : Z := 1000000.
Definition NANOS_PER_SEC : Z := 1000000000.
Definition from_millis (ms : Z) : Duration := ms * NANOS_PER_MILLI.
Definition from_secs (s : Z) : Duration := s * NANOS_PER_SEC.
Definition as_millis (d : Duration) : Z := d / NANOS_PER_MILLI.
Definition is_zero (d : Duration) : bool := bool_decide (d = 0).

(** [std::time::Instant] and [SystemTime]: points on a clock, in nanoseconds. *)
Definition Instant : Type := Z.
Definition SystemTime : Type := Z.

(** ** Tactics and hints *)

Create HintDb rust.

(** Splits the innermost [match] of the goal or of a hypothesis. *)
Ltac split_match :=
  match goal with
  | |- context [match ?x with _ => _ end] =>
      lazymatch x with context [match _ with _ => _ end] => fail | _ => destruct x eqn:? end
  | H : context [match ?x with _ => _ end] |- _ =>
      lazymatch x with context [match _ with _ => _ end] => fail | _ => destruct x eqn:? end
  end.

Ltac split_matches := repeat (split_match; simplify_eq/=).

(** Turns boolean tests of the code into the propositions they decide. *)
Ltac bools :=
  repeat match goal with
  | H : bool_decide _ = true |- _ => apply bool_decide_eq_true_1 in H
  | H : bool_decide _ = false |- _ => apply bool_decide_eq_false_1 in H
  | H : _ && _ = true |- _ => apply andb_prop in H as [? ?]
  | H : _ && _ = false |- _ => apply andb_false_iff in H
  | H : _ || _ = false |- _ => apply orb_false_elim in H as [? ?]
  | H : _ || _ = true |- _ => apply orb_true_iff in H
  | H : negb _ = true |- _ => apply negb_true_iff in H
  | H : negb _ = false |- _ => apply negb_false_iff in H
  end.

(** Takes apart every conjunction, disjunction and existential hypothesis. *)
Ltac unpack :=
  repeat match goal with
  | H : _ /\ _ |- _ => destruct H
  | H : _ \/ _ |- _ => destruct H
  | H : exists _, _ |- _ => destruct H
  end; simplify_eq/=.

(** ** Monad equations *)

Lemma bind_ok {S E A B} (m : ST S E A) (k : A -> ST S E B) s b s' :
  bind m k s = (Ok b, s') ->
  exists a s1, m s = (Ok a, s1) /\ k a s1 = (Ok b, s').
Proof. unfold bind. destruct (m s) as [[a|e] s1]; naive_solver. Qed.

Lemma bind_err {S E A B} (m : ST S E A) (k : A -> ST S E B) s e s' :
  bind m k s = (Err e, s') ->
  m s = (Err e, s') \/ exists a s1, m s = (Ok a, s1) /\ k a s1 = (Err e, s').
Proof. unfold bind. destruct (m s) as [[a|e'] s1]; naive_solver. Qed.

Lemma checked_add_Some max a b c :
  checked_add max a b = Some c <-> c = a + b /\ a + b <= max.
Proof. unfold checked_add. case_decide; naive_solver. Qed.

Lemma checked_add_None max a b : checked_add max a b = None <-> max < a + b.
Proof. unfold checked_add. case_decide; split; intros; try done; lia. Qed.

Lemma saturating_add_le max a b : saturating_add max a b <= max.
Proof. unfold saturating_add. lia. Qed.

Lemma clamp_range lo hi x : lo <= hi -> lo <= clamp lo hi x <= hi.
Proof. unfold clamp. lia. Qed.

#[export] Hint Resolve saturating_add_le clamp_range : rust.

(** ** Lists *)

(** [VecDeque] with a length cap: drop the front when full, push at the back. *)
Definition push_bounded {A} (cap : nat) (l : list A) (x : A) : list A :=
  (if decide (length l = cap) then tail l else l) ++ [x].

Lemma push_bounded_length {A} cap (l : list A) x :
  (0 < cap)%nat -> (length l <= cap)%nat ->
  length (push_bounded cap l x) = Nat.min (S (length l)) cap.
Proof.
  intros Hc Hl. unfold push_bounded. rewrite length_app.
  case_decide as E; cbn [length]; [|lia].
  destruct l; cbn [tail length] in *; lia.
Qed.

Lemma push_bounded_last {A} cap (l : list A) x : last (push_bounded cap l x) = Some x.
Proof. unfold push_bounded. apply last_snoc. Qed.
