(* ===== verification/Io.v ===== *)
(** * Io: what the program uses of [std::io] and of tokio's streams.

    An I/O error is its kind and its displayed text. Everything the operating
    system or the peer decides (the outcome of a bind, the bytes a read
    returns, whether a write succeeds, when a cancellation token fires) is an
    argument of the definitions, so a theorem about them holds for every
    behaviour of the environment. *)
From S2P Require Import Prelude.

Module ErrorKind.
(** The kinds the program distinguishes; every other kind is [Other name]. *)
Inductive t :=
  | NotFound | PermissionDenied | AddrInUse | AddrNotAvailable | AlreadyExists
  | InvalidInput | InvalidData | WriteZero | UnexpectedEof | Interrupted
  | Other (name : string).
#[global] Instance t_eq_dec : EqDecision t.
Proof. solve_decision. Defined.
End ErrorKind.

Record IoError := mkIoError {
  io_kind : ErrorKind.t;
  io_text : string
}.
#[export] Instance IoError_eq_dec : EqDecision IoError.
Proof. solve_decision. Defined.

(** [io::Error::from(ErrorKind::WriteZero)], tokio's error of a [read_exact]
    that meets the end of the stream, and [io::Error::other(text)]. *)
Definition write_zero : IoError := mkIoError ErrorKind.WriteZero "write zero".
Definition early_eof : IoError := mkIoError ErrorKind.UnexpectedEof "early eof".
Definition io_other (text : string) : IoError := mkIoError (ErrorKind.Other "other") text.

(** The result of a future raced against a [CancellationToken] in a biased
    [select!]: the token fired first, or the future completed. *)
Inductive raced (A : Type) : Type :=
  | Cancelled
  | Completed (a : A).
Arguments Cancelled {A}.
Arguments Completed {A} a.

(** [tokio::time::timeout]: the future completed in time, or not. *)
Inductive timed (A : Type) : Type :=
  | InTime (a : A)
  | Elapsed.
Arguments InTime {A} a.
Arguments Elapsed {A}.

(** ** Byte streams

    [rx] are the bytes the peer still sends before the read side ends with the
    error [rx_end] (end of stream or a failure); [tx] is what was written so
    far; with [tx_fault = Some (n, e)] the write side takes [n] more bytes and
    then fails with [e]. *)
Record Stream := mkStream {
  rx : list Z;
  rx_end : IoError;
  tx : list Z;
  tx_fault : option (nat * IoError)
}.

(** [AsyncReadExt::read_exact] into a buffer of [n] bytes. *)
Definition read_exact (n : nat) : ST Stream IoError (list Z) := fun s =>
  if decide (n <= length (rx s))%nat then
    (Ok (take n (rx s)), mkStream (drop n (rx s)) (rx_end s) (tx s) (tx_fault s))
  else (Err (rx_end s), mkStream [] (rx_end s) (tx s) (tx_fault s)).

(** [AsyncWriteExt::write_all]. *)
Definition write_all (l : list Z) : ST Stream IoError unit := fun s =>
  match tx_fault s with
  | None => (Ok tt, mkStream (rx s) (rx_end s) (tx s ++ l) None)
  | Some (n, e) =>
      if decide (length l <= n)%nat then
        (Ok tt, mkStream (rx s) (rx_end s) (tx s ++ l) (Some ((n - length l)%nat, e)))
      else (Err e, mkStream (rx s) (rx_end s) (tx s ++ take n l) (Some (O, e)))
  end.

(** [?] on a call whose error converts with [From]. *)
Definition with_err {S E F A} (f : E -> F) (m : ST S E A) : ST S F A := fun s =>
  let '(r, s') := m s in (map_err f r, s').

(** A stream whose peer has sent [l], with a healthy write side. *)
Definition fed (l : list Z) : Stream := mkStream l early_eof [] None.

Lemma read_exact_app l rest e out f :
  read_exact (length l) (mkStream (l ++ rest) e out f) = (Ok l, mkStream rest e out f).
Proof.
  unfold read_exact. cbn. rewrite decide_True by (rewrite length_app; lia).
  by rewrite take_app_length, drop_app_length.
Qed.

Lemma read_exact_ok n s l s' :
  read_exact n s = (Ok l, s') ->
  length l = n /\ rx s = l ++ rx s' /\ rx_end s' = rx_end s /\ tx s' = tx s.
Proof.
  unfold read_exact. case_decide; [|done]. intros ?; simplify_eq/=.
  split_and!; [rewrite length_take; lia|by rewrite take_drop|done..].
Qed.

Lemma read_exact_err n s e s' :
  read_exact n s = (Err e, s') ->
  e = rx_end s /\ (length (rx s) < n)%nat /\ rx s' = [] /\ tx s' = tx s.
Proof.
  unfold read_exact. case_decide; [done|]. intros ?; simplify_eq/=. split_and!; [done|lia|done..].
Qed.

Lemma write_all_ok l s u s' :
  write_all l s = (Ok u, s') ->
  rx s' = rx s /\ rx_end s' = rx_end s /\ tx s' = tx s ++ l.
Proof. unfold write_all. intros. split_matches; naive_solver. Qed.

Lemma write_all_err l s e s' :
  write_all l s = (Err e, s') ->
  exists n, (n < length l)%nat /\ rx s' = rx s /\ tx s' = tx s ++ take n l.
Proof.
  unfold write_all. destruct (tx_fault s) as [[n e']|]; [|done].
  case_decide; intros ?; simplify_eq. exists n. split_and!; [lia|done|done].
Qed.

Lemma write_all_healthy l r e out :
  write_all l (mkStream r e out None) = (Ok tt, mkStream r e (out ++ l) None).
Proof. done. Qed.

(** The successful step of a bind. *)
Lemma bind_step {S E A B} (m : ST S E A) (k : A -> ST S E B) s a s1 :
  m s = (Ok a, s1) -> bind m k s = k a s1.
Proof. unfold bind. by intros ->. Qed.

Lemma with_err_ok {S E F A} (f : E -> F) (m : ST S E A) s a s' :
  with_err f m s = (Ok a, s') -> m s = (Ok a, s').
Proof. unfold with_err. destruct (m s) as [[?|?] ?]; naive_solver. Qed.

Lemma with_err_err {S E F A} (f : E -> F) (m : ST S E A) s e s' :
  with_err f m s = (Err e, s') -> exists e0, e = f e0 /\ m s = (Err e0, s').
Proof. unfold with_err. destruct (m s) as [[?|?] ?]; naive_solver. Qed.

(** Takes a run of a stream program apart, one call at a time. *)
Ltac stream_inv :=
  repeat match goal with
  | H : bind _ _ _ = (Ok _, _) |- _ => apply bind_ok in H as (? & ? & ? & ?)
  | H : bind _ _ _ = (Err _, _) |- _ => apply bind_err in H as [?|(? & ? & ? & ?)]
  | H : with_err _ _ _ = (Ok _, _) |- _ => apply with_err_ok in H
  | H : with_err _ _ _ = (Err _, _) |- _ => apply with_err_err in H as (? & ? & ?)
  | H : ret _ _ = _ |- _ => unfold ret in H; simplify_eq
  | H : throw _ _ = _ |- _ => unfold throw in H; simplify_eq
  | H : read_exact _ _ = (Ok _, _) |- _ => apply read_exact_ok in H as (? & ? & ? & ?)
  | H : read_exact _ _ = (Err _, _) |- _ => apply read_exact_err in H as (? & ? & ? & ?)
  | H : write_all _ _ = (Ok _, _) |- _ => apply write_all_ok in H as (? & ? & ?)
  | H : write_all _ _ = (Err _, _) |- _ => apply write_all_err in H as (? & ? & ? & ?)
  end.
