(* ===== verification/Text.v ===== *)
(** * Text: the parts of Rust's [str], [char] and integer formatting and
    parsing that the program uses. A Rust [String] is the Rocq [string] of its
    UTF-8 bytes, so [String.length] is [str::len] (a number of bytes) and
    [chars] decodes the Unicode scalar values. *)
From S2P Require Import Prelude.
From Stdlib Require Export Ascii.


(** ** Bytes *)

Definition byte_of_ascii (a : ascii) : Z := Z.of_N (N_of_ascii a).
Definition ascii_of_byte (b : Z) : ascii := ascii_of_N (Z.to_N b).
Definition bytes (s : string) : list Z := byte_of_ascii <$> String.list_ascii_of_string s.
Definition of_bytes (l : list Z) : string :=
  String.string_of_list_ascii (ascii_of_byte <$> l).
Definition str_len (s : string) : Z := Z.of_nat (String.length s).
Definition str_is_empty (s : string) : bool := bool_decide (s = "").

(** ** UTF-8 *)

Definition is_cont (b : Z) : bool := (0x80 <=? b) && (b <=? 0xBF).

(** One scalar value at the front, under the rules of [std::str::from_utf8]:
    no overlong form, no surrogate, nothing above U+10FFFF. *)
Definition utf8_next (l : list Z) : option (Z * list Z) :=
  match l with
  | [] => None
  | b0 :: r =>
      if (b0 <? 0x80) then Some (b0, r)
      else if (0xC2 <=? b0) && (b0 <=? 0xDF) then
        match r with
        | b1 :: r' => if is_cont b1 then Some ((b0 - 0xC0) * 64 + (b1 - 0x80), r') else None
        | _ => None
        end
      else if (0xE0 <=? b0) && (b0 <=? 0xEF) then
        match r with
        | b1 :: b2 :: r' =>
            if is_cont b1 && is_cont b2
               && (if b0 =? 0xE0 then 0xA0 <=? b1 else true)
               && (if b0 =? 0xED then b1 <=? 0x9F else true)
            then Some ((b0 - 0xE0) * 4096 + (b1 - 0x80) * 64 + (b2 - 0x80), r')
            else None
        | _ => None
        end
      else if (0xF0 <=? b0) && (b0 <=? 0xF4) then
        match r with
        | b1 :: b2 :: b3 :: r' =>
            if is_cont b1 && is_cont b2 && is_cont b3
               && (if b0 =? 0xF0 then 0x90 <=? b1 else true)
               && (if b0 =? 0xF4 then b1 <=? 0x8F else true)
            then Some ((b0 - 0xF0) * 262144 + (b1 - 0x80) * 4096
                       + (b2 - 0x80) * 64 + (b3 - 0x80), r')
            else None
        | _ => None
        end
      else None
  end.

Fixpoint utf8_decode_fuel (fuel : nat) (l : list Z) : option (list Z) :=
  match l, fuel with
  | [], _ => Some []
  | _, O => None
  | _, S fuel =>
      match utf8_next l with
      | Some (c, r) => cons c <$> utf8_decode_fuel fuel r
      | None => None
      end
  end.

Definition utf8_decode (l : list Z) : option (list Z) := utf8_decode_fuel (length l) l.

(** [std::str::from_utf8(..).is_ok()] *)
Definition from_utf8_ok (l : list Z) : bool :=
  match utf8_decode l with Some _ => true | None => false end.

(** [str::chars]; a byte that starts no scalar value, which no Rust string
    holds, reads as U+FFFD. *)
Fixpoint chars_fuel (fuel : nat) (l : list Z) : list Z :=
  match l, fuel with
  | [], _ | _, O => []
  | _ :: r0, S fuel =>
      match utf8_next l with
      | Some (c, r) => c :: chars_fuel fuel r
      | None => 0xFFFD :: chars_fuel fuel r0
      end
  end.

Definition chars (s : string) : list Z := chars_fuel (String.length s) (bytes s).

(** [s.chars().take(n).collect::<String>()], on the bytes: a byte that is not a
    continuation byte starts the next character. *)
Fixpoint take_chars (n : nat) (s : string) : string :=
  match s with
  | EmptyString => EmptyString
  | String a r =>
      if is_cont (byte_of_ascii a) then String a (take_chars n r)
      else match n with
           | O => EmptyString
           | S n' => String a (take_chars n' r)
           end
  end.

(** ** Characters *)

(** [char::is_whitespace]: the Unicode White_Space property. *)
Definition is_whitespace (c : Z) : bool :=
  ((9 <=? c) && (c <=? 13)) || (c =? 32) || (c =? 0x85) || (c =? 0xA0) || (c =? 0x1680)
  || ((0x2000 <=? c) && (c <=? 0x200A)) || (c =? 0x2028) || (c =? 0x2029)
  || (c =? 0x202F) || (c =? 0x205F) || (c =? 0x3000).

(** [s.trim().is_empty()] *)
Definition trim_is_empty (s : string) : bool := forallb is_whitespace (chars s).

(** [str::trim], on the bytes: the text between the first and the last character
    that is not white space. A malformed byte, which no [String] holds, ends
    the white space on either side. *)
Fixpoint trim_start_fuel (fuel : nat) (l : list Z) : list Z :=
  match fuel with
  | O => l
  | S fuel =>
      match utf8_next l with
      | Some (c, rest) => if is_whitespace c then trim_start_fuel fuel rest else l
      | None => l
      end
  end.

Fixpoint trim_end_fuel (fuel : nat) (l : list Z) : list Z :=
  match fuel with
  | O => l
  | S fuel =>
      match utf8_next l with
      | Some (c, rest) =>
          let kept := trim_end_fuel fuel rest in
          if is_whitespace c && bool_decide (kept = []) then []
          else take (length l - length rest) l ++ kept
      | None => l
      end
  end.

Definition trim (s : string) : string :=
  let l := trim_start_fuel (String.length s) (bytes s) in
  of_bytes (trim_end_fuel (length l) l).

(** [s.contains(pattern)] for a string pattern. *)
Fixpoint str_contains (pattern s : string) : bool :=
  String.prefix pattern s
  || match s with EmptyString => false | String _ rest => str_contains pattern rest end.

(** [u8::is_ascii_alphanumeric] *)
Definition is_ascii_alphanumeric (b : Z) : bool :=
  ((48 <=? b) && (b <=? 57)) || ((65 <=? b) && (b <=? 90)) || ((97 <=? b) && (b <=? 122)).

Definition ascii_lower (a : ascii) : ascii :=
  let b := byte_of_ascii a in
  if (65 <=? b) && (b <=? 90) then ascii_of_byte (b + 32) else a.

(** [str::to_ascii_lowercase] *)
Definition to_ascii_lowercase (s : string) : string :=
  String.string_of_list_ascii (ascii_lower <$> String.list_ascii_of_string s).

(** ** Numbers *)

(** [char::to_digit(radix)] for radix at most 16. *)
Definition to_digit (radix : Z) (a : ascii) : option Z :=
  let b := byte_of_ascii a in
  let d := if (48 <=? b) && (b <=? 57) then b - 48
           else if (97 <=? b) && (b <=? 102) then b - 87
           else if (65 <=? b) && (b <=? 70) then b - 55
           else 99 in
  if d <? radix then Some d else None.

Definition digit_char (d : Z) : ascii :=
  ascii_of_byte (if d <? 10 then d + 48 else d + 87).

Fixpoint digits_fuel (fuel : nat) (radix n : Z) (acc : list ascii) : list ascii :=
  match fuel with
  | O => acc
  | S fuel =>
      let acc := digit_char (n mod radix) :: acc in
      if n / radix =? 0 then acc else digits_fuel fuel radix (n / radix) acc
  end.

(** The digits of a non-negative number; a number below [2 ^ k] has at most [k]
    digits in any radix, so the fuel is never used up. *)
Definition digits (radix n : Z) : list ascii :=
  digits_fuel (S (Z.to_nat (Z.log2 n))) radix n [].

(** [{n}] and [{n:x}] *)
Definition show_dec (n : Z) : string := String.string_of_list_ascii (digits 10 n).
Definition show_hex (n : Z) : string := String.string_of_list_ascii (digits 16 n).

(** [{n:0w$}] of a number shown as [s] *)
Definition zero_pad (width : nat) (s : string) : string :=
  String.string_of_list_ascii (repeat "0"%char (width - String.length s)) +:+ s.

(** [str::parse::<uN>()], [max] the largest value of the type: an optional
    [+], then at least one decimal digit, no overflow. *)
Fixpoint parse_digits (max acc : Z) (l : list ascii) : option Z :=
  match l with
  | [] => Some acc
  | a :: r =>
      match to_digit 10 a with
      | Some d => if acc * 10 + d <=? max then parse_digits max (acc * 10 + d) r else None
      | None => None
      end
  end.

Definition parse_uint (max : Z) (s : string) : option Z :=
  let l := String.list_ascii_of_string s in
  let l := match l with "+"%char :: r => r | _ => l end in
  match l with [] => None | _ => parse_digits max 0 l end.

(** ** Facts *)

Lemma to_digit_char radix d :
  0 <= d < radix -> radix <= 16 -> to_digit radix (digit_char d) = Some d.
Proof.
  intros Hd Hr.
  assert (Hc : forall d, 0 <= d < 16 ->
     let b := byte_of_ascii (digit_char d) in
     b = if d <? 10 then d + 48 else d + 87).
  { intros d' Hd'. unfold digit_char, byte_of_ascii, ascii_of_byte.
    destruct (d' <? 10) eqn:?; rewrite N_ascii_embedding; lia. }
  specialize (Hc d ltac:(lia)). cbv zeta in Hc. unfold to_digit. rewrite Hc.
  destruct (d <? 10) eqn:E.
  - replace ((48 <=? d + 48) && (d + 48 <=? 57)) with true by lia.
    replace (d + 48 - 48) with d by lia. replace (d <? radix) with true by lia. done.
  - replace ((48 <=? d + 87) && (d + 87 <=? 57)) with false by lia.
    replace ((97 <=? d + 87) && (d + 87 <=? 102)) with true by lia.
    replace (d + 87 - 87) with d by lia. replace (d <? radix) with true by lia. done.
Qed.

(** The value a list of digits denotes. *)
Definition digits_value (radix acc : Z) (ds : list Z) : Z :=
  foldl (fun a d => a * radix + d) acc ds.

Lemma digits_fuel_spec radix fuel n acc :
  2 <= radix -> 0 <= n < radix ^ Z.of_nat fuel -> (0 < fuel)%nat ->
  exists ds, digits_fuel fuel radix n acc = (digit_char <$> ds) ++ acc
    /\ Forall (fun d => 0 <= d < radix) ds /\ ds <> [] /\ digits_value radix 0 ds = n.
Proof.
  intros Hr. revert n acc.
  induction fuel as [|fuel IH]; intros n acc Hn Hf; [lia|]. simpl.
  destruct (Z.eqb_spec (n / radix) 0) as [Hz|Hz].
  - exists [n mod radix]. assert (n mod radix = n) as ->.
    { pose proof (Z.div_mod n radix ltac:(lia)). lia. }
    split_and!; [done| |done|]; [|unfold digits_value; simpl; lia].
    constructor; [|done]. apply Z.div_small_iff in Hz; lia.
  - assert (Hpos : 0 < n / radix) by (pose proof (Z.div_pos n radix); lia).
    assert (fuel <> O) by (intros ->; simpl in *; rewrite Z.div_small in Hz; lia).
    destruct (IH (n / radix) (digit_char (n mod radix) :: acc)) as (ds & -> & Hds & Hne & Hv);
      [|lia|].
    { split; [lia|]. apply Z.div_lt_upper_bound; [lia|].
      rewrite <- Z.pow_succ_r by lia. rewrite <- Nat2Z.inj_succ. apply Hn. }
    exists (ds ++ [n mod radix]). split_and!.
    + by rewrite fmap_app, <- app_assoc.
    + apply Forall_app; split; [done|]. constructor; [|done].
      apply Z.mod_pos_bound; lia.
    + by destruct ds.
    + unfold digits_value in *. rewrite foldl_app, Hv. simpl.
      pose proof (Z.div_mod n radix ltac:(lia)). lia.
Qed.

Lemma digits_spec radix n :
  2 <= radix -> 0 <= n ->
  exists ds, digits radix n = digit_char <$> ds
    /\ Forall (fun d => 0 <= d < radix) ds /\ ds <> [] /\ digits_value radix 0 ds = n.
Proof.
  intros Hr Hn. unfold digits.
  destruct (digits_fuel_spec radix (S (Z.to_nat (Z.log2 n))) n [] Hr) as (ds & H & ?); [|lia|].
  { split; [done|]. rewrite Nat2Z.inj_succ, Z2Nat.id by apply Z.log2_nonneg.
    destruct (Z.eq_dec n 0) as [->|]; [simpl; lia|].
    apply Z.lt_le_trans with (2 ^ Z.succ (Z.log2 n)); [apply Z.log2_spec; lia|].
    apply Z.pow_le_mono_l; lia. }
  exists ds. rewrite app_nil_r in H. by rewrite H.
Qed.

Lemma digits_value_ge radix acc ds :
  1 <= radix -> Forall (fun d => 0 <= d < radix) ds -> 0 <= acc ->
  acc <= digits_value radix acc ds.
Proof.
  intros Hr Hds. revert acc. unfold digits_value.
  induction Hds as [|d ds Hd Hds IH]; intros acc Ha; simpl; [lia|].
  specialize (IH (acc * radix + d)). nia.
Qed.

Lemma parse_digits_spec max acc ds :
  Forall (fun d => 0 <= d < 10) ds -> 0 <= acc -> digits_value 10 acc ds <= max ->
  parse_digits max acc (digit_char <$> ds) = Some (digits_value 10 acc ds).
Proof.
  intros Hds. revert acc.
  induction Hds as [|d ds Hd Hds IH]; intros acc Ha Hm; simpl; [done|].
  rewrite to_digit_char by lia.
  pose proof (digits_value_ge 10 (acc * 10 + d) ds ltac:(lia) Hds ltac:(lia)).
  unfold digits_value in *. simpl in *.
  replace (acc * 10 + d <=? max) with true by lia. apply IH; lia.
Qed.

Lemma digit_char_not_plus d : 0 <= d < 16 -> digit_char d <> "+"%char.
Proof.
  intros Hd H. pose proof (to_digit_char 16 d Hd ltac:(lia)) as E. by rewrite H in E.
Qed.

(** Printing an integer and parsing it back. *)
Lemma parse_show_dec max n : 0 <= n <= max -> parse_uint max (show_dec n) = Some n.
Proof.
  intros Hn. unfold parse_uint, show_dec.
  rewrite String.list_ascii_of_string_of_list_ascii.
  destruct (digits_spec 10 n) as (ds & -> & Hds & Hne & Hv); [lia..|].
  destruct ds as [|d ds]; [done|].
  assert (Hp : digit_char d <> "+"%char) by (apply digit_char_not_plus; inv Hds; lia).
  transitivity (parse_digits max 0 (digit_char <$> (d :: ds))).
  - cbn [fmap list_fmap]. destruct (digit_char d) as [[] [] [] [] [] [] [] []]; by try (by exfalso).
  - rewrite parse_digits_spec by (try done; lia). by rewrite Hv.
Qed.

Lemma parse_digits_le max acc l n : acc <= max -> parse_digits max acc l = Some n -> n <= max.
Proof.
  revert acc. induction l as [|a l IH]; intros acc Hacc; simpl; [intros [= <-]; done|].
  destruct (to_digit 10 a); [|done]. destruct (_ <=? max) eqn:E; [|done]. apply IH. lia.
Qed.

Lemma parse_uint_le max s n : 0 <= max -> parse_uint max s = Some n -> n <= max.
Proof.
  intros Hm. unfold parse_uint. repeat case_match; try done; by apply parse_digits_le.
Qed.

(** The number of characters of a string: bytes that are not continuations. *)
Fixpoint char_count (s : string) : nat :=
  match s with
  | EmptyString => O
  | String a r => if is_cont (byte_of_ascii a) then char_count r else S (char_count r)
  end.

Lemma take_chars_count n s : (char_count (take_chars n s) <= n)%nat.
Proof.
  revert n. induction s as [|a s IH]; intros n; simpl; [lia|].
  destruct (is_cont (byte_of_ascii a)) eqn:E; simpl.
  - rewrite E. apply IH.
  - destruct n; simpl; [lia|]. rewrite E. specialize (IH n). lia.
Qed.

Lemma take_chars_all n s : (char_count s <= n)%nat -> take_chars n s = s.
Proof.
  revert n. induction s as [|a s IH]; intros n H; simpl in *; [done|].
  destruct (is_cont (byte_of_ascii a)) eqn:E; simpl; [by rewrite IH|].
  destruct n; [lia|]. rewrite IH; [done|lia].
Qed.

Lemma take_chars_prefix n s : exists t, s = take_chars n s +:+ t.
Proof.
  revert n. induction s as [|a s IH]; intros n; simpl; [by exists ""|].
  destruct (is_cont (byte_of_ascii a)) eqn:E.
  - destruct (IH n) as [t Ht]. exists t. by rewrite Ht at 1.
  - destruct n; [by exists (String a s)|]. destruct (IH n) as [t Ht].
    exists t. by rewrite Ht at 1.
Qed.

#[export] Hint Resolve take_chars_count : rust.

(** ** Bytes and strings *)

Lemma byte_of_ascii_range a : u8 (byte_of_ascii a).
Proof.
  unfold u8, u8_max, byte_of_ascii. pose proof (N_ascii_bounded a). lia.
Qed.

Lemma ascii_of_byte_of_ascii a : ascii_of_byte (byte_of_ascii a) = a.
Proof. unfold ascii_of_byte, byte_of_ascii. by rewrite N2Z.id, ascii_N_embedding. Qed.

Lemma byte_of_ascii_of_byte b : u8 b -> byte_of_ascii (ascii_of_byte b) = b.
Proof.
  unfold u8, u8_max, ascii_of_byte, byte_of_ascii. intros ?.
  rewrite N_ascii_embedding by lia. lia.
Qed.

Lemma of_bytes_bytes s : of_bytes (bytes s) = s.
Proof.
  unfold of_bytes, bytes. rewrite <-list_fmap_compose.
  rewrite <-(String.string_of_list_ascii_of_string s) at 2. f_equal.
  induction (String.list_ascii_of_string s); [done|].
  cbn. rewrite ascii_of_byte_of_ascii. by f_equal.
Qed.

Lemma bytes_of_bytes l : Forall u8 l -> bytes (of_bytes l) = l.
Proof.
  intros Hl. unfold of_bytes, bytes.
  rewrite String.list_ascii_of_string_of_list_ascii, <-list_fmap_compose.
  induction Hl; [done|]. cbn. rewrite byte_of_ascii_of_byte by done. by f_equal.
Qed.

Lemma length_bytes s : Z.of_nat (length (bytes s)) = str_len s.
Proof.
  unfold bytes, str_len. rewrite length_fmap. f_equal.
  induction s; cbn; congruence.
Qed.

Lemma bytes_u8 s : Forall u8 (bytes s).
Proof. unfold bytes. apply Forall_fmap, Forall_true. intros a. apply byte_of_ascii_range. Qed.
