(* ===== verification/Float.v ===== *)
(** * Float: the single-precision arithmetic and printing of
    [Duration::as_secs_f32], which crates/app/src/workspace.rs shows.

    A non-negative [f32] is a pair [(m, e)] that stands for [m * 2 ^ e]; a
    normal one has 2^23 <= m < 2^24. Durations are far from overflow. *)
From S2P Require Import Prelude Text.

Notation f32 := (Z * Z)%type.

(** [a / b] rounded to the nearest integer, ties to even. *)
Definition round_half_even (a b : Z) : Z :=
  let q := a / b in
  let r := a mod b in
  if bool_decide (2 * r < b) then q
  else if bool_decide (b < 2 * r) then q + 1
  else if Z.even q then q else q + 1.

(** The fraction [num / den] times [2 ^ e], as a fraction. *)
Definition scale2 (num den e : Z) : Z * Z :=
  if bool_decide (0 <= e) then (num * 2 ^ e, den) else (num, den * 2 ^ (- e)).

(** The [f32] nearest to [num / den]. *)
Definition f32_round (num den : Z) : f32 :=
  if bool_decide (num = 0) then (0, 0)
  else
    let l := Z.log2 num - Z.log2 den in
    let '(n, d) := scale2 num den (- l) in
    let e := Z.max (if bool_decide (d <= n) then l - 23 else l - 24) (-149) in
    let '(n, d) := scale2 num den (- e) in
    let m := round_half_even n d in
    if bool_decide (m = 2 ^ 24) then (2 ^ 23, e + 1) else (m, e).

(** The value as a fraction. *)
Definition f32_fraction (x : f32) : Z * Z := scale2 x.1 1 x.2.

Definition f32_of_int (n : Z) : f32 := f32_round n 1.
Definition f32_add (x y : f32) : f32 :=
  let '(a, b) := f32_fraction x in
  let '(c, d) := f32_fraction y in f32_round (a * d + c * b) (b * d).
Definition f32_div (x y : f32) : f32 :=
  let '(a, b) := f32_fraction x in
  let '(c, d) := f32_fraction y in f32_round (a * d) (b * c).

(** [(secs as f32) + (nanos as f32) / (NANOS_PER_SEC as f32)] *)
Definition as_secs_f32 (d : Duration) : f32 :=
  f32_add (f32_of_int (d / NANOS_PER_SEC))
    (f32_div (f32_of_int (d mod NANOS_PER_SEC)) (f32_of_int NANOS_PER_SEC)).

(** ** Printing: [impl Display for f32]: the shortest decimal that reads back as
    the same number, and of those the nearest; never in exponent form. *)

(** [digits * 10 ^ k], as a fraction. *)
Definition scale10 (digits k : Z) : Z * Z :=
  if bool_decide (0 <= k) then (digits * 10 ^ k, 1) else (digits, 10 ^ (- k)).

Definition reads_back (x : f32) (digits k : Z) : bool :=
  let '(n, d) := scale10 digits k in bool_decide (f32_round n d = x).

(** The candidate with last digit at 10^k, if one reads back: of the two
    neighbours the nearer, the upper one on a tie. *)
Definition candidate (x : f32) (k : Z) : option Z :=
  let '(n, d) := f32_fraction x in
  let '(p, q) := scale10 1 k in
  let lo := n * q / (d * p) in
  let hi := lo + 1 in
  let far := bool_decide (d * p <= 2 * (n * q - lo * (d * p))) in
  match reads_back x lo k, reads_back x hi k with
  | true, true => Some (if far then hi else lo)
  | true, false => Some lo
  | false, true => Some hi
  | false, false => None
  end.

(** Every [f32] is a finite decimal. *)
Definition exact_decimal (x : f32) : Z * Z :=
  if bool_decide (0 <= x.2) then (x.1 * 2 ^ x.2, 0) else (x.1 * 5 ^ (- x.2), x.2).

(** Fewer digits first: the last digit's place goes down from [k]. Nine
    significant digits are enough for every [f32]; were the places to run out,
    the exact decimal is left. *)
Fixpoint shortest (places : nat) (x : f32) (k : Z) : Z * Z :=
  match places with
  | O => exact_decimal x
  | S places =>
      match candidate x k with
      | Some digits => (digits, k)
      | None => shortest places x (k - 1)
      end
  end.

(** The digits of [n], without the zeros at its end, and how many those were. *)
Fixpoint strip_zeros (fuel : nat) (n k : Z) : Z * Z :=
  match fuel with
  | O => (n, k)
  | S fuel => if bool_decide (n mod 10 = 0) then strip_zeros fuel (n / 10) (k + 1) else (n, k)
  end.

Definition show_decimal (digits k : Z) : string :=
  if bool_decide (0 <= k) then show_dec (digits * 10 ^ k)
  else
    show_dec (digits / 10 ^ (- k)) +:+ "."
    +:+ zero_pad (Z.to_nat (- k)) (show_dec (digits mod 10 ^ (- k))).

Definition show_f32 (x : f32) : string :=
  if bool_decide (x.1 = 0) then "0"
  else
    let '(n, d) := f32_fraction x in
    (* the place of the first digit, or one above it *)
    let top := Z.log2 (n / d + 1) / 3 + 1 in
    let '(digits, k) := shortest (Z.to_nat (top + 60)) x top in
    let '(n, k) := strip_zeros 60 digits k in show_decimal n k.

(** What is printed reads back as the number: the candidate did. *)
Lemma shortest_reads_back places x k :
  let '(digits, k') := shortest places x k in
  reads_back x digits k' = true \/ (digits, k') = exact_decimal x.
Proof.
  revert k. induction places as [|places IH]; intros k; cbn [shortest].
  { destruct (exact_decimal x). by right. }
  destruct (candidate x k) as [digits|] eqn:E; [|apply IH]. left. unfold candidate in E.
  destruct (f32_fraction x) as [n d], (scale10 1 k) as [p q]. cbv zeta in E.
  destruct (reads_back x (n * q / (d * p)) k) eqn:El, (reads_back x (n * q / (d * p) + 1) k) eqn:Eh;
    simplify_eq; [|done..]. by case_bool_decide.
Qed.

Example show_delays :
  (fun ms => show_f32 (as_secs_f32 (from_millis ms))) <$> [0; 1; 500; 1050; 30000; 123456789]
  = ["0"; "0.001"; "0.5"; "1.05"; "30"; "123456.79"].
Proof. vm_compute. reflexivity. Qed.
