(* ===== verification/Net.v ===== *)
(** * Net: [std::net] addresses: [IpAddr] and [SocketAddr], their [FromStr]
    parsers (the recursive-descent parser of Rust's core library, in which a
    failed alternative consumes nothing) and their [Display] forms. *)
From S2P Require Import Prelude Text.

(** An IPv4 address is its four octets, an IPv6 address its eight 16-bit
    segments. *)
Inductive IpAddr :=
  | V4 (octets : list Z)
  | V6 (segments : list Z).

Inductive SocketAddr :=
  | SAV4 (octets : list Z) (port : Z)
  | SAV6 (segments : list Z) (port scope_id : Z).

#[export] Instance IpAddr_eq_dec : EqDecision IpAddr.
Proof. solve_decision. Defined.
#[export] Instance SocketAddr_eq_dec : EqDecision SocketAddr.
Proof. solve_decision. Defined.

(** [SocketAddr::new], [ip] and [port]. *)
Definition socket_addr (ip : IpAddr) (port : Z) : SocketAddr :=
  match ip with V4 o => SAV4 o port | V6 s => SAV6 s port 0 end.
Definition sa_ip (a : SocketAddr) : IpAddr :=
  match a with SAV4 o _ => V4 o | SAV6 s _ _ => V6 s end.
Definition sa_port (a : SocketAddr) : Z :=
  match a with SAV4 _ p => p | SAV6 _ p _ => p end.

(** ** Display *)

Definition join (sep : string) (l : list string) : string :=
  match l with
  | [] => ""
  | x :: r => foldl (fun acc y => acc +:+ sep +:+ y) x r
  end.

Definition show_ipv4 (o : list Z) : string := join "." (show_dec <$> o).

(** The first longest run of zero segments: [(start, len)]. *)
Fixpoint zero_run (l : list Z) (i : nat) (cur best : nat * nat) : nat * nat :=
  match l with
  | [] => best
  | s :: r =>
      if s =? 0 then
        let cur := if (cur.2 =? 0)%nat then (i, 1%nat) else (cur.1, S cur.2) in
        let best := if (best.2 <? cur.2)%nat then cur else best in
        zero_run r (S i) cur best
      else zero_run r (S i) (O, O) best
  end.

Definition show_ipv6 (s : list Z) : string :=
  match s with
  | [0; 0; 0; 0; 0; 65535; ab; cd] =>
      "::ffff:" +:+ show_ipv4 [ab / 256; ab mod 256; cd / 256; cd mod 256]
  | _ =>
      let '(start, len) := zero_run s O (O, O) (O, O) in
      if (1 <? len)%nat then
        join ":" (show_hex <$> take start s) +:+ "::"
          +:+ join ":" (show_hex <$> drop (start + len) s)
      else join ":" (show_hex <$> s)
  end.

Definition show_ip (a : IpAddr) : string :=
  match a with V4 o => show_ipv4 o | V6 s => show_ipv6 s end.

Definition show_socket_addr (a : SocketAddr) : string :=
  match a with
  | SAV4 o p => show_ipv4 o +:+ ":" +:+ show_dec p
  | SAV6 s p 0 => "[" +:+ show_ipv6 s +:+ "]:" +:+ show_dec p
  | SAV6 s p scope =>
      "[" +:+ show_ipv6 s +:+ "%" +:+ show_dec scope +:+ "]:" +:+ show_dec p
  end.

(** ** The parser *)

(** A parser returns its value and the rest of the input; [None] is failure,
    with nothing consumed ([read_atomically]). *)
Definition parser (A : Type) : Type := list ascii -> option (A * list ascii).

Definition read_char (c : ascii) : parser unit := fun l =>
  match l with a :: r => if decide (a = c) then Some (tt, r) else None | [] => None end.

(** [read_number(radix, max_digits, allow_zero_prefix)] into a type whose
    largest value is [max]. With a digit limit the accumulation is in [u32] and
    the final [try_into] checks the range; without one the arithmetic is
    checked digit by digit. *)
Fixpoint read_digits (radix : Z) (limit : option nat) (max acc : Z) (count : nat)
    (l : list ascii) : option (Z * nat * list ascii) :=
  match l with
  | a :: r =>
      match to_digit radix a with
      | Some d =>
          let acc := acc * radix + d in
          let count := S count in
          match limit with
          | Some n => if (n <? count)%nat then None else read_digits radix limit max acc count r
          | None => if acc <=? max then read_digits radix limit max acc count r else None
          end
      | None => Some (acc, count, l)
      end
  | [] => Some (acc, count, [])
  end.

Definition read_number (radix : Z) (limit : option nat) (allow_zero_prefix : bool) (max : Z)
    : parser Z := fun l =>
  let zero := match l with "0"%char :: _ => true | _ => false end in
  match read_digits radix limit max 0 O l with
  | Some (n, count, r) =>
      if (count =? 0)%nat then None
      else if negb allow_zero_prefix && zero && (1 <? count)%nat then None
      else if n <=? max then Some (n, r) else None
  | None => None
  end.

Definition read_separator {A} (sep : ascii) (index : nat) (p : parser A) : parser A := fun l =>
  if (index =? 0)%nat then p l
  else match read_char sep l with Some (_, r) => p r | None => None end.

Definition read_octet (i : nat) : parser Z :=
  read_separator "."%char i (read_number 10 (Some 3%nat) false u8_max).

Definition read_ipv4_addr : parser (list Z) := fun l =>
  match read_octet 0 l with
  | Some (a, l) =>
      match read_octet 1 l with
      | Some (b, l) =>
          match read_octet 2 l with
          | Some (c, l) =>
              match read_octet 3 l with
              | Some (d, l) => Some ([a; b; c; d], l)
              | None => None
              end
          | None => None
          end
      | None => None
      end
  | None => None
  end.

(** [read_groups]: the groups read, whether the last two came from an embedded
    IPv4 address, and the rest. [left] groups are still wanted, [i] are read. *)
Fixpoint read_groups (left i : nat) (l : list ascii) : list Z * bool * list ascii :=
  match left with
  | O => ([], false, l)
  | S left' =>
      let v4 := if (1 <? left)%nat then read_separator ":"%char i read_ipv4_addr l else None in
      match v4 with
      | Some ([a; b; c; d], r) => ([a * 256 + b; c * 256 + d], true, r)
      | Some (_, r) => ([], false, r)
      | None =>
          match read_separator ":"%char i (read_number 16 (Some 4%nat) true u16_max) l with
          | Some (g, r) =>
              let '(gs, v4, r) := read_groups left' (S i) r in (g :: gs, v4, r)
          | None => ([], false, l)
          end
      end
  end.

Definition read_ipv6_addr : parser (list Z) := fun l =>
  let '(head, head_ipv4, l) := read_groups 8 0 l in
  if (length head =? 8)%nat then Some (head, l)
  else if head_ipv4 then None
  else match read_char ":"%char l with
       | Some (_, l) =>
           match read_char ":"%char l with
           | Some (_, l) =>
               let limit := (8 - (length head + 1))%nat in
               let '(tl, _, l) := read_groups limit 0 l in
               Some (head ++ replicate (8 - length head - length tl) 0 ++ tl, l)
           | None => None
           end
       | None => None
       end.

Definition read_ip_addr : parser IpAddr := fun l =>
  match read_ipv4_addr l with
  | Some (o, r) => Some (V4 o, r)
  | None => match read_ipv6_addr l with Some (s, r) => Some (V6 s, r) | None => None end
  end.

Definition read_port : parser Z := fun l =>
  match read_char ":"%char l with
  | Some (_, l) => read_number 10 None true u16_max l
  | None => None
  end.

Definition read_scope_id : parser Z := fun l =>
  match read_char "%"%char l with
  | Some (_, l) => read_number 10 None true u32_max l
  | None => None
  end.

Definition read_socket_addr_v4 : parser SocketAddr := fun l =>
  match read_ipv4_addr l with
  | Some (o, l) => match read_port l with Some (p, l) => Some (SAV4 o p, l) | None => None end
  | None => None
  end.

Definition read_socket_addr_v6 : parser SocketAddr := fun l =>
  match read_char "["%char l with
  | Some (_, l) =>
      match read_ipv6_addr l with
      | Some (s, l) =>
          let '(scope, l) := match read_scope_id l with
                             | Some (n, l') => (n, l') | None => (0, l) end in
          match read_char "]"%char l with
          | Some (_, l) =>
              match read_port l with Some (p, l) => Some (SAV6 s p scope, l) | None => None end
          | None => None
          end
      | None => None
      end
  | None => None
  end.

Definition read_socket_addr : parser SocketAddr := fun l =>
  match read_socket_addr_v4 l with Some x => Some x | None => read_socket_addr_v6 l end.

(** [parse_with]: the whole input must be consumed. *)
Definition parse_with {A} (p : parser A) (s : string) : option A :=
  match p (String.list_ascii_of_string s) with Some (a, []) => Some a | _ => None end.

Definition parse_ip_addr (s : string) : option IpAddr := parse_with read_ip_addr s.
Definition parse_socket_addr (s : string) : option SocketAddr := parse_with read_socket_addr s.

Example parse_ip_v4 : parse_ip_addr "127.0.0.1" = Some (V4 [127; 0; 0; 1]).
Proof. reflexivity. Qed.
Example parse_ip_octal : parse_ip_addr "127.0.0.01" = None.
Proof. reflexivity. Qed.
Example parse_ip_v6 : parse_ip_addr "fe80::1:2" = Some (V6 [65152; 0; 0; 0; 0; 0; 1; 2]).
Proof. reflexivity. Qed.
Example parse_ip_mapped : parse_ip_addr "::ffff:10.0.0.1" = Some (V6 [0; 0; 0; 0; 0; 65535; 2560; 1]).
Proof. reflexivity. Qed.
Example parse_sa_v6 : parse_socket_addr "[::1]:80" = Some (SAV6 [0; 0; 0; 0; 0; 0; 0; 1] 80 0).
Proof. reflexivity. Qed.
Example show_v6 : show_ip (V6 [8193; 3512; 0; 0; 1; 0; 0; 1]) = "2001:db8::1:0:0:1".
Proof. vm_compute. reflexivity. Qed.

(** ** Maximal munch: appending text that cannot extend a number *)

(** A parser is stable under [c] when more input starting with [c] changes
    nothing but the rest. *)
Definition stable_under {A} (c : ascii) (p : parser A) : Prop :=
  forall l t, p (l ++ c :: t) = match p l with Some (a, r) => Some (a, r ++ c :: t) | None => None end.

Lemma read_digits_app radix limit max acc count l c t :
  to_digit radix c = None ->
  read_digits radix limit max acc count (l ++ c :: t) =
  match read_digits radix limit max acc count l with
  | Some (n, k, r) => Some (n, k, r ++ c :: t)
  | None => None
  end.
Proof.
  intros Hc. revert acc count.
  induction l as [|a l IH]; intros acc count; simpl; [by rewrite Hc|].
  destruct (to_digit radix a); [|done].
  destruct limit as [n|]; [destruct (n <? S count)%nat|destruct (acc * radix + z <=? max)];
    by rewrite ?IH.
Qed.

Lemma read_number_stable radix limit zp max c :
  2 <= radix <= 16 -> to_digit radix c = None ->
  stable_under c (read_number radix limit zp max).
Proof.
  intros Hr Hc l t. unfold read_number.
  assert (Hz : match l ++ c :: t with "0"%char :: _ => true | _ => false end =
               match l with "0"%char :: _ => true | _ => false end).
  { destruct l; [simpl|done]. assert (c <> "0"%char) as H0.
    { intros ->. change "0"%char with (digit_char 0) in Hc.
      rewrite to_digit_char in Hc by lia. done. }
    destruct c as [[] [] [] [] [] [] [] []]; done. }
  rewrite Hz, read_digits_app by done.
  destruct (read_digits radix limit max 0 0 l) as [[[n k] r]|]; [|done].
  destruct (k =? 0)%nat; [done|].
  match goal with |- context [negb zp && ?z && ?w] => destruct (negb zp && z && w) end; [done|].
  by destruct (n <=? max).
Qed.

Lemma read_char_stable a c : a <> c -> stable_under c (read_char a).
Proof. intros Hn [|b l] t; simpl; repeat case_decide; congruence. Qed.

Lemma read_separator_stable {A} sep i (p : parser A) c :
  sep <> c -> stable_under c p -> stable_under c (read_separator sep i p).
Proof.
  intros Hs Hp l t. unfold read_separator. destruct (i =? 0)%nat; [apply Hp|].
  rewrite read_char_stable by done. destruct (read_char sep l) as [[[] r]|]; [apply Hp|done].
Qed.

Lemma read_octet_stable i c :
  c <> "."%char -> to_digit 10 c = None -> stable_under c (read_octet i).
Proof.
  intros Hd Hc. apply read_separator_stable; [congruence|].
  apply read_number_stable; [lia|done].
Qed.

Lemma read_ipv4_stable c :
  c <> "."%char -> to_digit 10 c = None -> stable_under c read_ipv4_addr.
Proof.
  intros Hd Hc l t. unfold read_ipv4_addr.
  rewrite (read_octet_stable 0 c Hd Hc l t). destruct (read_octet 0 l) as [[a l1]|]; [|done].
  rewrite (read_octet_stable 1 c Hd Hc l1 t). destruct (read_octet 1 l1) as [[b l2]|]; [|done].
  rewrite (read_octet_stable 2 c Hd Hc l2 t). destruct (read_octet 2 l2) as [[e l3]|]; [|done].
  rewrite (read_octet_stable 3 c Hd Hc l3 t). by destruct (read_octet 3 l3) as [[f l4]|].
Qed.

Lemma read_digits_show radix max acc count ds :
  radix <= 16 -> 1 <= radix -> Forall (fun d => 0 <= d < radix) ds -> 0 <= acc ->
  digits_value radix acc ds <= max ->
  read_digits radix None max acc count (digit_char <$> ds)
  = Some (digits_value radix acc ds, (count + length ds)%nat, []).
Proof.
  intros Hr Hr1 Hds. revert acc count.
  induction Hds as [|d ds Hd Hds IH]; intros acc count Ha Hm; simpl.
  { by rewrite Nat.add_0_r. }
  rewrite to_digit_char by lia.
  pose proof (digits_value_ge radix (acc * radix + d) ds Hr1 Hds ltac:(nia)).
  unfold digits_value in *. simpl in *.
  replace (acc * radix + d <=? max) with true by lia. rewrite IH by nia.
  do 2 f_equal. f_equal. lia.
Qed.

Lemma read_port_show p :
  u16 p -> read_port (":"%char :: String.list_ascii_of_string (show_dec p)) = Some (p, []).
Proof.
  intros [Hp Hp']. unfold read_port, read_char. rewrite decide_True by done.
  unfold show_dec. rewrite String.list_ascii_of_string_of_list_ascii.
  destruct (digits_spec 10 p) as (ds & -> & Hds & Hne & Hv); [lia..|].
  unfold read_number. rewrite read_digits_show by (try done; lia). rewrite Hv.
  destruct ds; [done|]. simpl. replace (p <=? u16_max) with true by lia. done.
Qed.

Lemma list_ascii_app (a b : string) :
  String.list_ascii_of_string (a +:+ b) =
  String.list_ascii_of_string a ++ String.list_ascii_of_string b.
Proof. unfold String.app. induction a as [|c a IH]; simpl; [done|]. by rewrite IH. Qed.

(** An IPv6 literal never starts with a bracket. *)
Lemma read_ipv6_no_bracket l x :
  read_ipv6_addr l = Some x -> forall t, l <> "["%char :: t.
Proof.
  intros H t ->. unfold read_ipv6_addr in H.
  assert (Hg : read_groups 8 0 ("["%char :: t) = ([], false, "["%char :: t)) by reflexivity.
  rewrite Hg in H. simpl in H. done.
Qed.

(** The text ["{host}:{port}"] parses as a socket address exactly when the
    host is an IPv4 literal: [SocketAddr::from_str] wants brackets around IPv6. *)
Lemma parse_host_port host ip port :
  u16 port -> parse_ip_addr host = Some ip ->
  parse_socket_addr (host +:+ ":" +:+ show_dec port) =
  match ip with V4 o => Some (SAV4 o port) | V6 _ => None end.
Proof.
  intros Hp H. unfold parse_ip_addr, parse_socket_addr, parse_with in *.
  rewrite list_ascii_app. set (l := String.list_ascii_of_string host) in *.
  change (String.list_ascii_of_string (":" +:+ show_dec port))
    with (":"%char :: String.list_ascii_of_string (show_dec port)).
  assert (Hs : stable_under ":"%char read_ipv4_addr) by (apply read_ipv4_stable; done).
  unfold read_socket_addr, read_socket_addr_v4. rewrite Hs.
  unfold read_ip_addr in H. destruct (read_ipv4_addr l) as [[o r]|] eqn:E4.
  - destruct r; simplify_eq. simpl app. rewrite read_port_show by done. done.
  - destruct (read_ipv6_addr l) as [[s r]|] eqn:E6; [|done]. destruct r; simplify_eq.
    unfold read_socket_addr_v6, read_char.
    destruct l as [|a l]; [done|]. cbn [app]. case_decide as Ha; [|done]. subst.
    by apply read_ipv6_no_bracket with (t := l) in E6.
Qed.

(** The first character of an IP literal is a hexadecimal digit or a colon. *)
Lemma read_number_no_digit radix limit zp max a l :
  to_digit radix a = None -> read_number radix limit zp max (a :: l) = None.
Proof. intros H. unfold read_number. simpl. by rewrite H. Qed.

Lemma to_digit_10_16 a : to_digit 16 a = None -> to_digit 10 a = None.
Proof.
  unfold to_digit. intros H.
  match type of H with (if ?d <? 16 then _ else _) = _ => destruct (Z.ltb_spec d 16) end;
    [done|]. by rewrite (proj2 (Z.ltb_ge _ 10)) by lia.
Qed.

Lemma read_ip_first_char a l x :
  read_ip_addr (a :: l) = Some x -> to_digit 16 a <> None \/ a = ":"%char.
Proof.
  intros H. destruct (to_digit 16 a) eqn:Hd; [by left|right].
  assert (Hn : forall r lim zp m, (r = 10 \/ r = 16) -> read_number r lim zp m (a :: l) = None).
  { intros r lim zp m [-> | ->]; apply read_number_no_digit; [by apply to_digit_10_16|done]. }
  assert (H4 : read_ipv4_addr (a :: l) = None).
  { unfold read_ipv4_addr, read_octet, read_separator. simpl. by rewrite Hn by auto. }
  unfold read_ip_addr in H. rewrite H4 in H. unfold read_ipv6_addr in H.
  assert (Hg : read_groups 8 0 (a :: l) = ([], false, a :: l)).
  { unfold read_groups. cbn [Nat.ltb Nat.leb]. unfold read_separator. simpl.
    rewrite H4. by rewrite Hn by auto. }
  rewrite Hg in H. simpl in H. by case_decide.
Qed.
