(* ===== verification/Domain.v ===== *)
(** * Domain: the configuration, error and state types of [crates/tunnel-domain]
    (error.rs, group.rs, host.rs, tunnel.rs, state.rs). *)
From S2P Require Import Prelude Text Net.

(** ** Errors: error.rs *)

Inductive TunnelErrorKind :=
  | Network | Dns | Timeout | Authentication | HostKeyUnknown | HostKeyMismatch
  | PortConflict | PermissionDenied | RemoteForwardRejected | InvalidConfig
  | Cancelled | Internal.

Module FailureStage.
Inductive t :=
  | ConfigValidation | BindLocalPort | ResolveHost | ConnectTcp | SshHandshake
  | HostKeyVerification | Authentication | BuildJumpChain | RegisterForward
  | Relay | HealthCheck | Shutdown.
#[global] Instance t_eq_dec : EqDecision t.
Proof. solve_decision. Defined.
End FailureStage.

Module Retryability.
Inductive t := Transient | Blocked.
#[global] Instance t_eq_dec : EqDecision t.
Proof. solve_decision. Defined.
End Retryability.

#[export] Instance TunnelErrorKind_eq_dec : EqDecision TunnelErrorKind.
Proof. solve_decision. Defined.

Record TunnelError := mkTunnelError {
  err_kind : TunnelErrorKind;
  err_stage : FailureStage.t;
  err_message : string;
  err_retryability : Retryability.t;
  err_source_chain : list string
}.
#[export] Instance TunnelError_eq_dec : EqDecision TunnelError.
Proof. solve_decision. Defined.

(** ** Identifiers: newtypes over strings *)

Record TunnelId := mkTunnelId { tunnel_id_0 : string }.
Record HostId := mkHostId { host_id_0 : string }.
Record GroupId := mkGroupId { group_id_0 : string }.
Record SecretRef := mkSecretRef { secret_ref_0 : string }.

#[export] Instance TunnelId_eq_dec : EqDecision TunnelId.
Proof. solve_decision. Defined.
#[export] Instance HostId_eq_dec : EqDecision HostId.
Proof. solve_decision. Defined.
#[export] Instance GroupId_eq_dec : EqDecision GroupId.
Proof. solve_decision. Defined.
#[export] Instance SecretRef_eq_dec : EqDecision SecretRef.
Proof. solve_decision. Defined.
#[export] Instance TunnelId_countable : Countable TunnelId.
Proof. by apply (inj_countable' tunnel_id_0 mkTunnelId); intros []. Defined.
#[export] Instance HostId_countable : Countable HostId.
Proof. by apply (inj_countable' host_id_0 mkHostId); intros []. Defined.

(** ** Groups and hosts: group.rs, host.rs *)

Record TunnelGroup := mkTunnelGroup {
  group_id : GroupId;
  group_name : string;
  group_sort_order : Z
}.
#[export] Instance TunnelGroup_eq_dec : EqDecision TunnelGroup.
Proof. solve_decision. Defined.

(** [std::path::PathBuf], as its text. *)
Definition PathBuf : Type := string.
#[export] Instance PathBuf_eq_dec : EqDecision PathBuf := _ : EqDecision string.

Module AuthConfig.
Inductive t :=
  | Password (credential_ref : SecretRef)
  | PrivateKey (key_path : PathBuf) (passphrase_ref : option SecretRef)
  | Agent (socket : option string)
  | KeyboardInteractive.
#[global] Instance t_eq_dec : EqDecision t.
Proof. solve_decision. Defined.
End AuthConfig.

Module HostKeyPolicy.
Inductive t := Strict | Bypass.
Definition default : t := Strict.
#[global] Instance t_eq_dec : EqDecision t.
Proof. solve_decision. Defined.
End HostKeyPolicy.

Record SshHost := mkSshHost {
  host_id : HostId;
  host_name : string;
  host_hostname : string;
  host_port : Z;
  host_username : string;
  host_auth : AuthConfig.t;
  host_host_key_policy : HostKeyPolicy.t;
  host_connect_timeout : Duration;
  host_keepalive_interval : Duration;
  host_keepalive_max : Z;
  host_notes : string
}.
#[export] Instance SshHost_eq_dec : EqDecision SshHost.
Proof. solve_decision. Defined.

(** ** Tunnels: tunnel.rs *)

Module TunnelMode.
Inductive t := Local | Remote | Dynamic.
#[global] Instance t_eq_dec : EqDecision t.
Proof. solve_decision. Defined.
End TunnelMode.

Record LocalEndpoint := mkLocalEndpoint { local_host : string; local_port : Z }.
Record RemoteEndpoint := mkRemoteEndpoint { remote_host : string; remote_port : Z }.
#[export] Instance LocalEndpoint_eq_dec : EqDecision LocalEndpoint.
Proof. solve_decision. Defined.
#[export] Instance RemoteEndpoint_eq_dec : EqDecision RemoteEndpoint.
Proof. solve_decision. Defined.

Record RetryPolicy := mkRetryPolicy {
  base_delay : Duration;
  max_delay : Duration;
  reset_after_healthy : Duration;
  jitter_percent : Z
}.
#[export] Instance RetryPolicy_eq_dec : EqDecision RetryPolicy.
Proof. solve_decision. Defined.

Definition RetryPolicy_default : RetryPolicy := {|
  base_delay := from_secs 1;
  max_delay := from_secs 30;
  reset_after_healthy := from_secs 60;
  jitter_percent := 20
|}.

Record TunnelConfig := mkTunnelConfig {
  tunnel_id : TunnelId;
  tunnel_name : string;
  tunnel_group_id : option GroupId;
  tunnel_mode : TunnelMode.t;
  tunnel_jump_chain : list HostId;
  tunnel_local : LocalEndpoint;
  tunnel_remote : option RemoteEndpoint;
  tunnel_auto_start : bool;
  tunnel_reconnect : RetryPolicy;
  tunnel_description : string
}.
#[export] Instance TunnelConfig_eq_dec : EqDecision TunnelConfig.
Proof. solve_decision. Defined.

(** ** Runtime state: state.rs *)

Module DesiredState.
Inductive t := Stopped | Running.
#[global] Instance t_eq_dec : EqDecision t.
Proof. solve_decision. Defined.
End DesiredState.

Module StartPhase.
Inductive t :=
  | Validating | AcquiringListener | BuildingJumpChain | RegisteringRemoteForward
  | StartingHealthMonitor.
#[global] Instance t_eq_dec : EqDecision t.
Proof. solve_decision. Defined.
End StartPhase.

Inductive HealthIssue := PingTimeout | SessionLost.
#[export] Instance HealthIssue_eq_dec : EqDecision HealthIssue.
Proof. solve_decision. Defined.

Module RuntimeState.
Inductive t :=
  | Stopped
  | Starting (phase : StartPhase.t)
  | Connecting (hop total_hops attempt : Z)
  | Authenticating (hop total_hops : Z)
  | EstablishingForward
  | Healthy (since : Instant)
  | Degraded (since : Instant) (reason : HealthIssue)
  | Reconnecting (attempt : Z) (next_retry_at : Instant) (reason : TunnelError)
  | Blocked (reason : TunnelError)
  | Stopping
  | Failed (reason : TunnelError).
End RuntimeState.

Module ListenerState.
Inductive t :=
  | NotRequired
  | Unbound
  | Bound (address : SocketAddr)
  | Conflict (address : SocketAddr) (owner_hint : option string).
End ListenerState.

Record HealthState := mkHealthState {
  authenticated : bool;
  forward_ready : bool;
  last_rtt_ms : option Z;
  consecutive_ping_failures : Z
}.
Definition HealthState_default : HealthState := mkHealthState false false None 0.
