(* ===== verification/Validation.v ===== *)
(** * Validation: [TunnelConfig::validate] (crates/tunnel-domain/src/validation.rs) *)
From S2P Require Import Prelude Text Net Domain.

Module TunnelValidationError.
Inductive t :=
  | EmptyId | EmptyName | EmptyJumpChain
  | RepeatedHop (id : string) | UnknownHost (id : string) | AmbiguousHost (id : string)
  | UnknownGroup (id : string) | AmbiguousGroup (id : string)
  | InvalidBindAddress | InvalidLocalEndpoint | InvalidRemoteEndpoint
  | UnexpectedRemoteEndpoint | InvalidReconnectPolicy.
End TunnelValidationError.
Import TunnelValidationError.

(** The [#[error(..)]] texts. *)
Definition show_validation_error (e : TunnelValidationError.t) : string :=
  match e with
  | EmptyId => "tunnel ID is empty"
  | EmptyName => "tunnel name is empty"
  | EmptyJumpChain => "jump chain must contain a final SSH host"
  | RepeatedHop id => "jump chain repeats host " +:+ id
  | UnknownHost id => "jump chain refers to unknown host " +:+ id
  | AmbiguousHost id => "host ID " +:+ id +:+ " is ambiguous"
  | UnknownGroup id => "tunnel refers to unknown group " +:+ id
  | AmbiguousGroup id => "group ID " +:+ id +:+ " is ambiguous"
  | InvalidBindAddress => "local listener must use an IP address"
  | InvalidLocalEndpoint => "local endpoint is invalid"
  | InvalidRemoteEndpoint => "remote endpoint is missing or invalid"
  | UnexpectedRemoteEndpoint => "Dynamic forwarding must not have a remote endpoint"
  | InvalidReconnectPolicy => "reconnect policy is invalid"
  end.

(** [.filter(p).take(2).count()] *)
Definition count_upto2 {A} (p : A -> bool) (l : list A) : nat :=
  length (take 2 (List.filter p l)).

(** The loop over the jump chain; [seen] is [jump_chain[..index]]. *)
Fixpoint check_hops (hosts : list SshHost) (seen rest : list HostId)
    : result unit TunnelValidationError.t :=
  match rest with
  | [] => Ok tt
  | hop :: rest =>
      if bool_decide (hop ∈ seen) then Err (RepeatedHop (host_id_0 hop))
      else match count_upto2 (fun h => bool_decide (host_id h = hop)) hosts with
           | O => Err (UnknownHost (host_id_0 hop))
           | 1%nat => check_hops hosts (seen ++ [hop]) rest
           | _ => Err (AmbiguousHost (host_id_0 hop))
           end
  end.

Definition check_group (groups : list TunnelGroup) (g : option GroupId)
    : result unit TunnelValidationError.t :=
  match g with
  | None => Ok tt
  | Some id =>
      match count_upto2 (fun g => bool_decide (group_id g = id)) groups with
      | O => Err (UnknownGroup (group_id_0 id))
      | 1%nat => Ok tt
      | _ => Err (AmbiguousGroup (group_id_0 id))
      end
  end.

Definition retry_policy_invalid (r : RetryPolicy) : bool :=
  is_zero (base_delay r)
  || bool_decide (max_delay r < base_delay r)
  || is_zero (reset_after_healthy r)
  || bool_decide (100 < jitter_percent r).

Definition is_ip (host : string) : bool :=
  match parse_ip_addr host with Some _ => true | None => false end.

Definition check_endpoints (mode : TunnelMode.t) (remote : option RemoteEndpoint)
    : result unit TunnelValidationError.t :=
  match mode, remote with
  | TunnelMode.Dynamic, None => Ok tt
  | TunnelMode.Dynamic, Some _ => Err UnexpectedRemoteEndpoint
  | _, Some r =>
      if negb (trim_is_empty (remote_host r))
         && bool_decide (str_len (remote_host r) <= 255)
         && (negb (bool_decide (remote_port r = 0)) || bool_decide (mode = TunnelMode.Remote))
      then if bool_decide (mode = TunnelMode.Remote) && negb (is_ip (remote_host r))
           then Err InvalidBindAddress
           else Ok tt
      else Err InvalidRemoteEndpoint
  | _, None => Err InvalidRemoteEndpoint
  end.

Definition validate (self : TunnelConfig) (hosts : list SshHost) (groups : list TunnelGroup)
    : result unit TunnelValidationError.t :=
  if trim_is_empty (tunnel_id_0 (tunnel_id self)) then Err EmptyId
  else if trim_is_empty (tunnel_name self) then Err EmptyName
  else if bool_decide (tunnel_jump_chain self = []) then Err EmptyJumpChain
  else
    let? _ := check_hops hosts [] (tunnel_jump_chain self) in
    let? _ := check_group groups (tunnel_group_id self) in
    if retry_policy_invalid (tunnel_reconnect self) then Err InvalidReconnectPolicy
    else if trim_is_empty (local_host (tunnel_local self))
            || bool_decide (255 < str_len (local_host (tunnel_local self)))
            || bool_decide (local_port (tunnel_local self) = 0)
    then Err InvalidLocalEndpoint
    else match tunnel_mode self with
         | TunnelMode.Local | TunnelMode.Dynamic =>
             if is_ip (local_host (tunnel_local self))
             then check_endpoints (tunnel_mode self) (tunnel_remote self)
             else Err InvalidBindAddress
         | TunnelMode.Remote => check_endpoints (tunnel_mode self) (tunnel_remote self)
         end.

#[global] Arguments check_endpoints : simpl never.

(** ** Specification *)

(** A host id resolves when exactly one configured host has it. *)
Definition resolves_to (hosts : list SshHost) (hop : HostId) (h : SshHost) : Prop :=
  List.filter (fun h => bool_decide (host_id h = hop)) hosts = [h].

Definition group_resolves (groups : list TunnelGroup) (id : GroupId) : Prop :=
  exists g, List.filter (fun g => bool_decide (group_id g = id)) groups = [g].

Definition blank (s : string) : Prop := Forall (fun c => is_whitespace c = true) (chars s).

Record retry_policy_ok (r : RetryPolicy) : Prop := {
  rp_base : base_delay r <> 0;
  rp_max : base_delay r <= max_delay r;
  rp_reset : reset_after_healthy r <> 0;
  rp_jitter : jitter_percent r <= 100
}.

(** What a remote endpoint has to be in each mode. *)
Definition remote_ok (mode : TunnelMode.t) (remote : option RemoteEndpoint) : Prop :=
  match mode, remote with
  | TunnelMode.Dynamic, r => r = None
  | TunnelMode.Local, Some r =>
      ~ blank (remote_host r) /\ str_len (remote_host r) <= 255 /\ remote_port r <> 0
  | TunnelMode.Remote, Some r =>
      str_len (remote_host r) <= 255 /\ exists ip, parse_ip_addr (remote_host r) = Some ip
  | _, None => False
  end.

Record valid_tunnel (hosts : list SshHost) (groups : list TunnelGroup) (t : TunnelConfig)
    : Prop := {
  vt_id : ~ blank (tunnel_id_0 (tunnel_id t));
  vt_name : ~ blank (tunnel_name t);
  vt_chain : tunnel_jump_chain t <> [];
  vt_nodup : NoDup (tunnel_jump_chain t);
  vt_hosts : forall hop, hop ∈ tunnel_jump_chain t -> exists h, resolves_to hosts hop h;
  vt_group : forall id, tunnel_group_id t = Some id -> group_resolves groups id;
  vt_retry : retry_policy_ok (tunnel_reconnect t);
  vt_local : ~ blank (local_host (tunnel_local t))
             /\ str_len (local_host (tunnel_local t)) <= 255
             /\ local_port (tunnel_local t) <> 0;
  vt_bind : tunnel_mode t <> TunnelMode.Remote ->
            exists ip, parse_ip_addr (local_host (tunnel_local t)) = Some ip;
  vt_remote : remote_ok (tunnel_mode t) (tunnel_remote t)
}.

(** ** Lemmas *)

Lemma trim_is_empty_blank s : trim_is_empty s = true <-> blank s.
Proof.
  unfold trim_is_empty, blank. rewrite forallb_forall, Forall_forall.
  by setoid_rewrite list_elem_of_In.
Qed.

Lemma trim_is_empty_not_blank s : trim_is_empty s = false <-> ~ blank s.
Proof. rewrite <- trim_is_empty_blank. by destruct (trim_is_empty s). Qed.

Lemma is_ip_true host : is_ip host = true <-> exists ip, parse_ip_addr host = Some ip.
Proof. unfold is_ip. destruct (parse_ip_addr host); naive_solver. Qed.

#[export] Hint Rewrite trim_is_empty_blank trim_is_empty_not_blank is_ip_true : rust.

Lemma count_upto2_one {A} (p : A -> bool) l :
  count_upto2 p l = 1%nat <-> exists x, List.filter p l = [x].
Proof. unfold count_upto2. destruct (List.filter p l) as [|x [|y r]]; naive_solver. Qed.

Lemma count_upto2_zero {A} (p : A -> bool) l :
  count_upto2 p l = O <-> List.filter p l = [].
Proof. unfold count_upto2. destruct (List.filter p l) as [|x [|y r]]; naive_solver. Qed.

Lemma check_hops_ok hosts seen rest :
  NoDup seen ->
  check_hops hosts seen rest = Ok tt <->
  NoDup (seen ++ rest) /\ forall hop, hop ∈ rest -> exists h, resolves_to hosts hop h.
Proof.
  revert seen. induction rest as [|hop rest IH]; intros seen Hseen; simpl.
  { rewrite app_nil_r. split; [|done]. split; [done|]. intros ? []%elem_of_nil. }
  case_bool_decide as Hin.
  { split; [done|]. intros [Hnd _]. apply NoDup_app in Hnd as (_ & Hd & _).
    destruct (Hd hop Hin). left. }
  destruct (count_upto2 _ hosts) as [|[|n]] eqn:E.
  - split; [done|]. intros [_ H]. destruct (H hop) as [h Hh]; [left|].
    apply count_upto2_zero in E. unfold resolves_to in Hh. congruence.
  - rewrite IH by (apply NoDup_app; split_and!; [done| |apply NoDup_singleton]; set_solver).
    rewrite <- app_assoc. simpl. apply count_upto2_one in E.
    split; intros [? H]; (split; [done|]); intros hop' Hhop; [|apply H; by right].
    apply elem_of_cons in Hhop as [->|]; [done|by apply H].
  - split; [done|]. intros [_ H]. destruct (H hop) as [h Hh]; [left|].
    assert (count_upto2 (fun h => bool_decide (host_id h = hop)) hosts = 1%nat)
      by (apply count_upto2_one; by exists h). congruence.
Qed.

Lemma check_group_ok groups g :
  check_group groups g = Ok tt <-> forall id, g = Some id -> group_resolves groups id.
Proof.
  destruct g as [id|]; simpl; [|naive_solver].
  destruct (count_upto2 _ groups) as [|[|n]] eqn:E.
  - split; [done|]. intros H. destruct (H id eq_refl) as [x Hx].
    apply count_upto2_zero in E. congruence.
  - apply count_upto2_one in E. split; [|done]. intros _ ? [= <-]. done.
  - split; [done|]. intros H. destruct (H id eq_refl) as [x Hx].
    assert (count_upto2 (fun g => bool_decide (group_id g = id)) groups = 1%nat)
      by (apply count_upto2_one; by exists x). congruence.
Qed.

Lemma retry_policy_invalid_false r : retry_policy_invalid r = false <-> retry_policy_ok r.
Proof.
  unfold retry_policy_invalid, is_zero. split.
  - intros H. bools. constructor; [done|lia|done|lia].
  - intros []. rewrite !bool_decide_eq_false_2 by lia. done.
Qed.

Lemma digit_not_whitespace a :
  to_digit 16 a <> None \/ a = ":"%char ->
  (byte_of_ascii a <? 0x80) = true /\ is_whitespace (byte_of_ascii a) = false.
Proof. destruct a as [[] [] [] [] [] [] [] []]; vm_compute; naive_solver. Qed.

Lemma ip_not_blank s ip : parse_ip_addr s = Some ip -> trim_is_empty s = false.
Proof.
  intros H. unfold parse_ip_addr, parse_with in H. destruct s as [|a s]; [done|].
  simpl String.list_ascii_of_string in H.
  destruct (read_ip_addr _) as [[x r]|] eqn:E in H; [|done].
  apply read_ip_first_char, digit_not_whitespace in E as [Hlt Hw].
  unfold trim_is_empty, chars, bytes. simpl. rewrite Hlt. simpl. by rewrite Hw.
Qed.

Lemma check_endpoints_ok mode remote :
  check_endpoints mode remote = Ok tt <-> remote_ok mode remote.
Proof.
  unfold check_endpoints. destruct mode, remote as [r|]; simpl; try naive_solver.
  - rewrite <- trim_is_empty_not_blank.
    destruct (trim_is_empty (remote_host r)); simpl; [naive_solver|].
    rewrite orb_false_r. repeat case_bool_decide; simpl; naive_solver.
  - rewrite <- is_ip_true. destruct (is_ip (remote_host r)) eqn:Ei.
    + apply is_ip_true in Ei as [ip Hip]. rewrite (ip_not_blank _ _ Hip). simpl.
      rewrite orb_true_r. case_bool_decide; simpl; naive_solver.
    + case_match; naive_solver.
Qed.

Lemma validate_valid_iff t hosts groups :
  validate t hosts groups = Ok tt <-> valid_tunnel hosts groups t.
Proof.
  unfold validate. split.
  - intros H. split_matches; bools;
      repeat match goal with
      | H : () |- _ => destruct H
      | H : trim_is_empty _ = false |- _ => apply trim_is_empty_not_blank in H
      | H : is_ip _ = true |- _ => apply is_ip_true in H
      | H : retry_policy_invalid _ = false |- _ => apply retry_policy_invalid_false in H
      | H : check_endpoints _ _ = _ |- _ => apply check_endpoints_ok in H
      | H : check_group _ _ = _ |- _ => rewrite check_group_ok in H
      | H : check_hops _ _ _ = _ |- _ => rewrite check_hops_ok in H by apply NoDup_nil_2; destruct H
      end;
      (split; try done; try congruence; first
        [ match goal with Hm : tunnel_mode t = _ |- remote_ok _ _ => by rewrite Hm end
        | split_and!; try done; lia ]).
  - intros [? ? ? ? ? ? ? (? & ? & ?) Hb ?].
    repeat match goal with H : ~ blank _ |- _ => apply trim_is_empty_not_blank in H; rewrite H end.
    rewrite bool_decide_eq_false_2 by done.
    rewrite (proj2 (check_hops_ok hosts [] (tunnel_jump_chain t) (NoDup_nil_2)))  by done.
    rewrite (proj2 (check_group_ok _ _)) by done.
    rewrite (proj2 (retry_policy_invalid_false _)) by done.
    rewrite !bool_decide_eq_false_2 by lia. simpl.
    destruct (tunnel_mode t) eqn:Em;
      try (rewrite (proj2 (is_ip_true _)) by (by apply Hb)); by apply check_endpoints_ok.
Qed.

(** C2: [validate] accepts a tunnel exactly when it meets the specification:
    non-blank id and name, a nonempty chain without repeats in which every hop
    names exactly one host, an unambiguous group, a usable reconnect policy, a
    bindable local endpoint, and the remote endpoint its mode needs. *)
Theorem validate_ok_iff t hosts groups :
  validate t hosts groups = Ok tt <-> valid_tunnel hosts groups t.
Proof. exact (validate_valid_iff t hosts groups). Qed.
