(* ===== verification/StateMachine.v ===== *)
(** * StateMachine: the tunnel lifecycle reducer
    (crates/tunnel-core/src/state_machine.rs). Every lifecycle change passes
    through [transition]; the state carries a bounded journal of the changes. *)
From S2P Require Import Prelude Text Net Domain.

Definition JOURNAL_LIMIT : nat := 200.

Module RuntimePhase.
Inductive t :=
  | Stopped | Starting | Connecting | Authenticating | EstablishingForward | Healthy
  | Degraded | Reconnecting | Blocked | Stopping | Failed.
#[global] Instance t_eq_dec : EqDecision t.
Proof. solve_decision. Defined.

(** [impl From<&RuntimeState> for RuntimePhase] *)
Definition from (s : RuntimeState.t) : t :=
  match s with
  | RuntimeState.Stopped => Stopped
  | RuntimeState.Starting _ => Starting
  | RuntimeState.Connecting _ _ _ => Connecting
  | RuntimeState.Authenticating _ _ => Authenticating
  | RuntimeState.EstablishingForward => EstablishingForward
  | RuntimeState.Healthy _ => Healthy
  | RuntimeState.Degraded _ _ => Degraded
  | RuntimeState.Reconnecting _ _ _ => Reconnecting
  | RuntimeState.Blocked _ => Blocked
  | RuntimeState.Stopping => Stopping
  | RuntimeState.Failed _ => Failed
  end.

(** [{phase:?}] *)
Definition debug (p : t) : string :=
  match p with
  | Stopped => "Stopped" | Starting => "Starting" | Connecting => "Connecting"
  | Authenticating => "Authenticating" | EstablishingForward => "EstablishingForward"
  | Healthy => "Healthy" | Degraded => "Degraded" | Reconnecting => "Reconnecting"
  | Blocked => "Blocked" | Stopping => "Stopping" | Failed => "Failed"
  end.
End RuntimePhase.

Record Lifecycle := mkLifecycle {
  desired : DesiredState.t;
  runtime : RuntimeState.t;
  listener : ListenerState.t;
  health : HealthState;
  generation : Z
}.

Module Event.
Inductive t :=
  | Start | Stop | Restart | ConfigChanged
  | ShutdownComplete (generation : Z)
  | Phase (generation : Z) (phase : StartPhase.t)
  | ListenerBound (generation : Z) (address : SocketAddr)
  | ListenerConflict (generation : Z) (address : SocketAddr)
  | Connecting (generation hop total_hops attempt : Z)
  | Authenticating (generation hop total_hops : Z)
  | Authenticated (generation : Z)
  | HopAuthenticated (generation : Z)
  | ForwardReady (generation : Z)
  | PingSucceeded (generation : Z) (at_ : Instant) (rtt : Duration)
  | PingFailed (generation : Z) (at_ : Instant) (attempt : Z) (next_retry_at : Instant)
  | Disconnected (generation : Z) (error : TunnelError) (attempt : Z) (next_retry_at : Instant).

Definition generation (e : t) : option Z :=
  match e with
  | Start | Stop | Restart | ConfigChanged => None
  | ShutdownComplete g | Phase g _ | ListenerBound g _ | ListenerConflict g _
  | Connecting g _ _ _ | Authenticating g _ _ | Authenticated g | HopAuthenticated g
  | ForwardReady g | PingSucceeded g _ _ | PingFailed g _ _ _ | Disconnected g _ _ _ => Some g
  end.

Definition cause (e : t) : string :=
  match e with
  | Start => "start"
  | Stop => "stop"
  | Restart => "restart"
  | ConfigChanged => "config_changed"
  | ShutdownComplete _ => "shutdown_complete"
  | Phase _ _ => "start_phase"
  | ListenerBound _ _ => "listener_bound"
  | ListenerConflict _ _ => "listener_conflict"
  | Connecting _ _ _ _ => "connecting"
  | Authenticating _ _ _ => "authenticating"
  | Authenticated _ => "authenticated"
  | HopAuthenticated _ => "hop_authenticated"
  | ForwardReady _ => "forward_ready"
  | PingSucceeded _ _ _ => "ping_succeeded"
  | PingFailed _ _ _ _ => "ping_failed"
  | Disconnected _ _ _ _ => "disconnected"
  end.
End Event.

Inductive TransitionEffect :=
  | BeginGeneration (generation : Z)
  | CancelAndJoin (generation : Z).

Record StateTransition := mkStateTransition {
  tr_from : RuntimePhase.t;
  tr_to : RuntimePhase.t;
  tr_at : SystemTime;
  tr_cause : string;
  tr_generation : Z
}.

Inductive EventOutcome :=
  | Applied (effect : option TransitionEffect)
  | IgnoredStale
  | NoChange.

Inductive MachineError :=
  | InvalidTransition (event : string) (phase : RuntimePhase.t)
  | GenerationExhausted
  | InvalidHop.

(** The [#[error(..)]] texts. *)
Definition show_machine_error (e : MachineError) : string :=
  match e with
  | InvalidTransition event phase =>
      "event " +:+ event +:+ " is invalid while tunnel is " +:+ RuntimePhase.debug phase
  | GenerationExhausted => "generation counter is exhausted"
  | InvalidHop => "hop index must be within a nonempty chain"
  end.

Record StateMachine := mkStateMachine {
  state : Lifecycle;
  journal : list StateTransition;
  restart_after_shutdown : bool;
  listener_required : bool
}.

(** Field updates. *)
Definition upd_state (f : Lifecycle -> Lifecycle) (m : StateMachine) : StateMachine :=
  mkStateMachine (f (state m)) (journal m) (restart_after_shutdown m) (listener_required m).
Definition set_desired (d : DesiredState.t) : StateMachine -> StateMachine :=
  upd_state (fun s => mkLifecycle d (runtime s) (listener s) (health s) (generation s)).
Definition set_runtime (r : RuntimeState.t) : StateMachine -> StateMachine :=
  upd_state (fun s => mkLifecycle (desired s) r (listener s) (health s) (generation s)).
Definition set_listener (l : ListenerState.t) : StateMachine -> StateMachine :=
  upd_state (fun s => mkLifecycle (desired s) (runtime s) l (health s) (generation s)).
Definition set_health (h : HealthState) : StateMachine -> StateMachine :=
  upd_state (fun s => mkLifecycle (desired s) (runtime s) (listener s) h (generation s)).
Definition set_generation (g : Z) : StateMachine -> StateMachine :=
  upd_state (fun s => mkLifecycle (desired s) (runtime s) (listener s) (health s) g).
Definition set_restart (b : bool) (m : StateMachine) : StateMachine :=
  mkStateMachine (state m) (journal m) b (listener_required m).
Definition set_journal (j : list StateTransition) (m : StateMachine) : StateMachine :=
  mkStateMachine (state m) j (restart_after_shutdown m) (listener_required m).

Definition idle_listener (required : bool) : ListenerState.t :=
  if required then ListenerState.Unbound else ListenerState.NotRequired.

(** [StateMachine::new] *)
Definition new (required : bool) : StateMachine := {|
  state := {|
    desired := DesiredState.Stopped;
    runtime := RuntimeState.Stopped;
    listener := idle_listener required;
    health := HealthState_default;
    generation := 0
  |};
  journal := [];
  restart_after_shutdown := false;
  listener_required := required
|}.

Notation machine := (ST StateMachine MachineError).

Definition invalid {A} (event : string) (phase : RuntimePhase.t) : machine A :=
  throw (InvalidTransition event phase).

Definition next_generation : machine unit :=
  let! m := get in
  match checked_add u64_max (generation (state m)) 1 with
  | Some g => modify (set_generation g)
  | None => throw GenerationExhausted
  end.

Definition begin : StateMachine -> StateMachine := fun m =>
  set_listener (idle_listener (listener_required m))
    (set_health HealthState_default
      (set_runtime (RuntimeState.Starting StartPhase.Validating)
        (set_desired DesiredState.Running m))).

Definition require_running (cause : string) (phase : RuntimePhase.t) : machine unit :=
  let! m := get in
  if bool_decide (desired (state m) = DesiredState.Running)
     && negb (bool_decide (phase ∈
          [RuntimePhase.Stopping; RuntimePhase.Stopped; RuntimePhase.Blocked; RuntimePhase.Failed]))
  then ret tt
  else invalid cause phase.

Definition require_phase (cause : string) (phase : RuntimePhase.t) (valid : list RuntimePhase.t)
    : machine unit :=
  require_running cause phase ;;;
  if bool_decide (phase ∈ valid) then ret tt else invalid cause phase.

Definition require_start_phase (cause : string) (expected : StartPhase.t) : machine unit :=
  let! m := get in
  let phase := RuntimePhase.from (runtime (state m)) in
  require_running cause phase ;;;
  match runtime (state m) with
  | RuntimeState.Starting p =>
      if bool_decide (p = expected) then ret tt else invalid cause phase
  | _ => invalid cause phase
  end.

Definition check_hop (hop total_hops : Z) : machine unit :=
  if bool_decide (0 < total_hops) && (bool_decide (1 <= hop) && bool_decide (hop <= total_hops))
  then ret tt
  else throw InvalidHop.

(** [record]; [now] is what [SystemTime::now()] returned. *)
Definition record (now : SystemTime) (from : RuntimePhase.t) (cause : string)
    (m : StateMachine) : StateMachine :=
  set_journal
    (push_bounded JOURNAL_LIMIT (journal m)
      (mkStateTransition from (RuntimePhase.from (runtime (state m))) now cause
         (generation (state m)))) m.

Definition port_conflict_error (address : SocketAddr) : TunnelError := {|
  err_kind := PortConflict;
  err_stage := FailureStage.BindLocalPort;
  err_message := "Port " +:+ show_socket_addr address +:+ " is already in use";
  err_retryability := Retryability.Blocked;
  err_source_chain := []
|}.

Definition ping_timeout_error : TunnelError := {|
  err_kind := Timeout;
  err_stage := FailureStage.HealthCheck;
  err_message := "SSH session ping timed out";
  err_retryability := Retryability.Transient;
  err_source_chain := []
|}.

(** What an arm of the [match] of [transition] does: an early [return], or the
    value of the [match]. *)
Inductive arm_result :=
  | Return (o : EventOutcome)
  | Effect (e : option TransitionEffect).

(** The arms of the [match] of [transition], after the early returns: each
    computes the effect. *)
Section Arms.
Context (old : RuntimePhase.t) (cause : string).

Definition on_start : machine arm_result :=
  let! m := get in
  match runtime (state m) with
  | RuntimeState.Stopped =>
      next_generation ;;;
      modify begin ;;;
      let! m := get in
      ret (Effect (Some (BeginGeneration (generation (state m)))))
  | _ => invalid cause old
  end.

Definition on_stop : machine arm_result :=
  let! m := get in
  match runtime (state m) with
  | RuntimeState.Stopped | RuntimeState.Stopping => ret (Return NoChange)
  | _ =>
      let old_generation := generation (state m) in
      next_generation ;;;
      modify (set_desired DesiredState.Stopped) ;;;
      modify (set_runtime RuntimeState.Stopping) ;;;
      modify (set_health HealthState_default) ;;;
      modify (set_restart false) ;;;
      ret (Effect (Some (CancelAndJoin old_generation)))
  end.

Definition on_restart : machine arm_result :=
  let! m := get in
  match runtime (state m) with
  | RuntimeState.Stopping => ret (Return NoChange)
  | _ =>
      let old_generation := generation (state m) in
      next_generation ;;;
      match runtime (state m) with
      | RuntimeState.Stopped =>
          modify begin ;;;
          let! m := get in
          ret (Effect (Some (BeginGeneration (generation (state m)))))
      | _ =>
          modify (set_runtime RuntimeState.Stopping) ;;;
          modify (set_health HealthState_default) ;;;
          modify (set_restart true) ;;;
          ret (Effect (Some (CancelAndJoin old_generation)))
      end
  end.

Definition on_config_changed : machine arm_result :=
  let! m := get in
  match runtime (state m) with
  | RuntimeState.Stopping => ret (Return NoChange)
  | _ =>
      let old_generation := generation (state m) in
      next_generation ;;;
      match runtime (state m) with
      | RuntimeState.Stopped => ret (Effect None)
      | _ =>
          modify (set_runtime RuntimeState.Stopping) ;;;
          modify (set_health HealthState_default) ;;;
          modify (set_restart (bool_decide (desired (state m) = DesiredState.Running))) ;;;
          ret (Effect (Some (CancelAndJoin old_generation)))
      end
  end.

Definition on_shutdown_complete : machine arm_result :=
  let! m := get in
  match runtime (state m) with
  | RuntimeState.Stopping =>
      modify (set_listener (idle_listener (listener_required m))) ;;;
      modify (set_health HealthState_default) ;;;
      if restart_after_shutdown m then
        modify (set_restart false) ;;;
        modify begin ;;;
        let! m := get in
        ret (Effect (Some (BeginGeneration (generation (state m)))))
      else
        modify (set_runtime RuntimeState.Stopped) ;;;
        ret (Effect None)
  | _ => invalid cause old
  end.

Definition on_phase (phase : StartPhase.t) : machine arm_result :=
  require_phase cause old [RuntimePhase.Starting] ;;;
  modify (set_runtime (RuntimeState.Starting phase)) ;;;
  ret (Effect None).

Definition on_listener_bound (address : SocketAddr) : machine arm_result :=
  let! m := get in
  require_start_phase cause StartPhase.AcquiringListener ;;;
  match listener_required m, listener (state m) with
  | true, ListenerState.Unbound =>
      modify (set_listener (ListenerState.Bound address)) ;;;
      ret (Effect None)
  | _, _ => invalid cause old
  end.

Definition on_listener_conflict (address : SocketAddr) : machine arm_result :=
  let! m := get in
  require_start_phase cause StartPhase.AcquiringListener ;;;
  match listener_required m, listener (state m) with
  | true, ListenerState.Unbound =>
      modify (set_listener (ListenerState.Conflict address None)) ;;;
      modify (set_runtime (RuntimeState.Blocked (port_conflict_error address))) ;;;
      ret (Effect None)
  | _, _ => invalid cause old
  end.

Definition on_connecting (hop total_hops attempt : Z) : machine arm_result :=
  require_phase cause old [RuntimePhase.Starting; RuntimePhase.Reconnecting] ;;;
  (if bool_decide (old = RuntimePhase.Starting)
   then require_start_phase cause StartPhase.BuildingJumpChain else ret tt) ;;;
  check_hop hop total_hops ;;;
  modify (set_health HealthState_default) ;;;
  modify (set_runtime (RuntimeState.Connecting hop total_hops attempt)) ;;;
  ret (Effect None).

Definition on_authenticating (hop total_hops : Z) : machine arm_result :=
  let! m := get in
  require_phase cause old [RuntimePhase.Connecting] ;;;
  check_hop hop total_hops ;;;
  match runtime (state m) with
  | RuntimeState.Connecting current_hop current_total _ =>
      if bool_decide (hop = current_hop) && bool_decide (total_hops = current_total)
      then modify (set_runtime (RuntimeState.Authenticating hop total_hops)) ;;; ret (Effect None)
      else invalid cause old
  | _ => invalid cause old
  end.

Definition on_authenticated : machine arm_result :=
  let! m := get in
  require_phase cause old [RuntimePhase.Authenticating] ;;;
  match runtime (state m) with
  | RuntimeState.Authenticating hop total_hops =>
      if bool_decide (hop = total_hops)
      then
        modify (fun m => let h := health (state m) in
          set_health (mkHealthState true (forward_ready h) (last_rtt_ms h)
                        (consecutive_ping_failures h)) m) ;;;
        modify (set_runtime RuntimeState.EstablishingForward) ;;;
        ret (Effect None)
      else invalid cause old
  | _ => invalid cause old
  end.

Definition on_hop_authenticated : machine arm_result :=
  let! m := get in
  require_phase cause old [RuntimePhase.Authenticating] ;;;
  match runtime (state m) with
  | RuntimeState.Authenticating hop total_hops =>
      if bool_decide (total_hops <= hop) then invalid cause old
      else modify (set_runtime (RuntimeState.Connecting (hop + 1) total_hops 0)) ;;; ret (Effect None)
  | _ => invalid cause old
  end.

Definition on_forward_ready : machine arm_result :=
  require_phase cause old [RuntimePhase.EstablishingForward] ;;;
  modify (fun m => let h := health (state m) in
    set_health (mkHealthState (authenticated h) true (last_rtt_ms h)
                  (consecutive_ping_failures h)) m) ;;;
  modify (set_runtime (RuntimeState.Starting StartPhase.StartingHealthMonitor)) ;;;
  ret (Effect None).

Definition on_ping_succeeded (at_ : Instant) (rtt : Duration)
    : machine arm_result :=
  let! m := get in
  require_phase cause old
    [RuntimePhase.Starting; RuntimePhase.Healthy; RuntimePhase.Degraded] ;;;
  let h := health (state m) in
  if negb (authenticated h) || negb (forward_ready h) then invalid cause old
  else
    modify (set_health (mkHealthState (authenticated h) (forward_ready h)
              (Some (Z.min (as_millis rtt) u32_max)) 0)) ;;;
    match runtime (state m) with
    | RuntimeState.Healthy _ => ret (Effect None)
    | _ => modify (set_runtime (RuntimeState.Healthy at_)) ;;; ret (Effect None)
    end.

Definition on_ping_failed (at_ : Instant) (attempt : Z) (next_retry_at : Instant)
    : machine arm_result :=
  let! m := get in
  require_phase cause old
    [RuntimePhase.Starting; RuntimePhase.Healthy; RuntimePhase.Degraded] ;;;
  let h := health (state m) in
  if negb (authenticated h) || negb (forward_ready h) then invalid cause old
  else
    let failures := saturating_add u8_max (consecutive_ping_failures h) 1 in
    modify (set_health (mkHealthState (authenticated h) (forward_ready h)
              (last_rtt_ms h) failures)) ;;;
    if bool_decide (3 <= failures) then
      modify (set_health (mkHealthState false false (last_rtt_ms h) failures)) ;;;
      modify (set_runtime
        (RuntimeState.Reconnecting attempt next_retry_at ping_timeout_error)) ;;;
      ret (Effect None)
    else match runtime (state m) with
         | RuntimeState.Degraded _ _ => ret (Effect None)
         | _ => modify (set_runtime (RuntimeState.Degraded at_ PingTimeout)) ;;; ret (Effect None)
         end.

Definition on_disconnected (error : TunnelError) (attempt : Z) (next_retry_at : Instant)
    : machine arm_result :=
  require_running cause old ;;;
  modify (set_health HealthState_default) ;;;
  modify (set_runtime
    match err_retryability error with
    | Retryability.Transient => RuntimeState.Reconnecting attempt next_retry_at error
    | Retryability.Blocked => RuntimeState.Blocked error
    end) ;;;
  ret (Effect None).

End Arms.

Definition apply_event (event : Event.t) (old : RuntimePhase.t) (cause : string)
    : machine arm_result :=
  match event with
  | Event.Start => on_start old cause
  | Event.Stop => on_stop
  | Event.Restart => on_restart
  | Event.ConfigChanged => on_config_changed
  | Event.ShutdownComplete _ => on_shutdown_complete old cause
  | Event.Phase _ phase => on_phase old cause phase
  | Event.ListenerBound _ address => on_listener_bound old cause address
  | Event.ListenerConflict _ address => on_listener_conflict old cause address
  | Event.Connecting _ hop total_hops attempt => on_connecting old cause hop total_hops attempt
  | Event.Authenticating _ hop total_hops => on_authenticating old cause hop total_hops
  | Event.Authenticated _ => on_authenticated old cause
  | Event.HopAuthenticated _ => on_hop_authenticated old cause
  | Event.ForwardReady _ => on_forward_ready old cause
  | Event.PingSucceeded _ at_ rtt => on_ping_succeeded old cause at_ rtt
  | Event.PingFailed _ at_ attempt next_retry_at =>
      on_ping_failed old cause at_ attempt next_retry_at
  | Event.Disconnected _ error attempt next_retry_at =>
      on_disconnected old cause error attempt next_retry_at
  end.

Definition is_stale (event : Event.t) (m : StateMachine) : bool :=
  match Event.generation event with
  | Some g => negb (bool_decide (g = generation (state m)))
  | None => false
  end.

Definition transition (now : SystemTime) (event : Event.t) : machine EventOutcome :=
  let! m := get in
  if is_stale event m then ret IgnoredStale
  else
    let old := RuntimePhase.from (runtime (state m)) in
    let cause := Event.cause event in
    let! arm := apply_event event old cause in
    match arm with
    | Return o => ret o
    | Effect effect =>
        modify (record now old cause) ;;;
        ret (Applied effect)
    end.
