(* ===== verification/LifecycleSpec.v ===== *)
(** * LifecycleSpec: what the lifecycle reducer promises, as a step relation,
    and the proof that [StateMachine.transition] implements it. The relation
    speaks of the lifecycle and the pending-restart flag only; the journal and
    the error values belong to the implementation. *)
From S2P Require Import Prelude Text Net Domain StateMachine.

(** The part of the machine the rules speak about. *)
Definition core : Type := Lifecycle * bool.
Definition core_of (m : StateMachine) : core := (state m, restart_after_shutdown m).

Definition with_core (c : core) (m : StateMachine) : StateMachine :=
  mkStateMachine c.1 (journal m) c.2 (listener_required m).

(** The machine with a new core and one more journal entry. *)
Definition advance (now : SystemTime) (cause : string) (c : core) (m : StateMachine)
    : StateMachine :=
  record now (RuntimePhase.from (runtime (state m))) cause (with_core c m).

Notation L := mkLifecycle.
Notation fresh_health := HealthState_default.

(** Phases in which a running tunnel may lose its session. *)
Definition session_phase (r : RuntimeState.t) : bool :=
  match r with
  | RuntimeState.Stopped | RuntimeState.Stopping | RuntimeState.Blocked _
  | RuntimeState.Failed _ => false
  | _ => true
  end.

(** Phases in which the health monitor reports. *)
Definition monitored_phase (r : RuntimeState.t) : bool :=
  match r with
  | RuntimeState.Starting _ | RuntimeState.Healthy _ | RuntimeState.Degraded _ _ => true
  | _ => false
  end.

Definition healthy_since (r : RuntimeState.t) (now : Instant) : Instant :=
  match r with RuntimeState.Healthy since => since | _ => now end.

Definition degraded (r : RuntimeState.t) (now : Instant) : RuntimeState.t :=
  match r with
  | RuntimeState.Degraded since reason => RuntimeState.Degraded since reason
  | _ => RuntimeState.Degraded now PingTimeout
  end.

Inductive rule (req : bool) : Event.t -> core -> option TransitionEffect -> core -> Prop :=
  | rule_start d l h g rs :
      g < u64_max ->
      rule req Event.Start
        (L d RuntimeState.Stopped l h g, rs) (Some (BeginGeneration (g + 1)))
        (L DesiredState.Running (RuntimeState.Starting StartPhase.Validating)
           (idle_listener req) fresh_health (g + 1), rs)
  | rule_stop d r l h g rs :
      g < u64_max -> r <> RuntimeState.Stopped -> r <> RuntimeState.Stopping ->
      rule req Event.Stop
        (L d r l h g, rs) (Some (CancelAndJoin g))
        (L DesiredState.Stopped RuntimeState.Stopping l fresh_health (g + 1), false)
  | rule_restart_stopped d l h g rs :
      g < u64_max ->
      rule req Event.Restart
        (L d RuntimeState.Stopped l h g, rs) (Some (BeginGeneration (g + 1)))
        (L DesiredState.Running (RuntimeState.Starting StartPhase.Validating)
           (idle_listener req) fresh_health (g + 1), rs)
  | rule_restart_active d r l h g rs :
      g < u64_max -> r <> RuntimeState.Stopped -> r <> RuntimeState.Stopping ->
      rule req Event.Restart
        (L d r l h g, rs) (Some (CancelAndJoin g))
        (L d RuntimeState.Stopping l fresh_health (g + 1), true)
  | rule_config_stopped d l h g rs :
      g < u64_max ->
      rule req Event.ConfigChanged
        (L d RuntimeState.Stopped l h g, rs) None
        (L d RuntimeState.Stopped l h (g + 1), rs)
  | rule_config_active d r l h g rs :
      g < u64_max -> r <> RuntimeState.Stopped -> r <> RuntimeState.Stopping ->
      rule req Event.ConfigChanged
        (L d r l h g, rs) (Some (CancelAndJoin g))
        (L d RuntimeState.Stopping l fresh_health (g + 1),
         bool_decide (d = DesiredState.Running))
  | rule_shutdown_restart d l h g g' :
      rule req (Event.ShutdownComplete g')
        (L d RuntimeState.Stopping l h g, true) (Some (BeginGeneration g))
        (L DesiredState.Running (RuntimeState.Starting StartPhase.Validating)
           (idle_listener req) fresh_health g, false)
  | rule_shutdown_stop d l h g g' :
      rule req (Event.ShutdownComplete g')
        (L d RuntimeState.Stopping l h g, false) None
        (L d RuntimeState.Stopped (idle_listener req) fresh_health g, false)
  | rule_phase q p l h g g' rs :
      rule req (Event.Phase g' p)
        (L DesiredState.Running (RuntimeState.Starting q) l h g, rs) None
        (L DesiredState.Running (RuntimeState.Starting p) l h g, rs)
  | rule_bound a h g g' rs :
      req = true ->
      rule req (Event.ListenerBound g' a)
        (L DesiredState.Running (RuntimeState.Starting StartPhase.AcquiringListener)
           ListenerState.Unbound h g, rs) None
        (L DesiredState.Running (RuntimeState.Starting StartPhase.AcquiringListener)
           (ListenerState.Bound a) h g, rs)
  | rule_conflict a h g g' rs :
      req = true ->
      rule req (Event.ListenerConflict g' a)
        (L DesiredState.Running (RuntimeState.Starting StartPhase.AcquiringListener)
           ListenerState.Unbound h g, rs) None
        (L DesiredState.Running (RuntimeState.Blocked (port_conflict_error a))
           (ListenerState.Conflict a None) h g, rs)
  | rule_connecting r hop total attempt l h g g' rs :
      1 <= hop <= total ->
      r = RuntimeState.Starting StartPhase.BuildingJumpChain
        \/ RuntimePhase.from r = RuntimePhase.Reconnecting ->
      rule req (Event.Connecting g' hop total attempt)
        (L DesiredState.Running r l h g, rs) None
        (L DesiredState.Running (RuntimeState.Connecting hop total attempt) l fresh_health g, rs)
  | rule_authenticating hop total attempt l h g g' rs :
      1 <= hop <= total ->
      rule req (Event.Authenticating g' hop total)
        (L DesiredState.Running (RuntimeState.Connecting hop total attempt) l h g, rs) None
        (L DesiredState.Running (RuntimeState.Authenticating hop total) l h g, rs)
  | rule_authenticated total l h g g' rs :
      rule req (Event.Authenticated g')
        (L DesiredState.Running (RuntimeState.Authenticating total total) l h g, rs) None
        (L DesiredState.Running RuntimeState.EstablishingForward l
           (mkHealthState true (forward_ready h) (last_rtt_ms h) (consecutive_ping_failures h))
           g, rs)
  | rule_hop_authenticated hop total l h g g' rs :
      hop < total ->
      rule req (Event.HopAuthenticated g')
        (L DesiredState.Running (RuntimeState.Authenticating hop total) l h g, rs) None
        (L DesiredState.Running (RuntimeState.Connecting (hop + 1) total 0) l h g, rs)
  | rule_forward_ready l h g g' rs :
      rule req (Event.ForwardReady g')
        (L DesiredState.Running RuntimeState.EstablishingForward l h g, rs) None
        (L DesiredState.Running (RuntimeState.Starting StartPhase.StartingHealthMonitor) l
           (mkHealthState (authenticated h) true (last_rtt_ms h) (consecutive_ping_failures h))
           g, rs)
  | rule_ping_ok now rtt r l rtt0 n g g' rs :
      monitored_phase r = true ->
      rule req (Event.PingSucceeded g' now rtt)
        (L DesiredState.Running r l (mkHealthState true true rtt0 n) g, rs) None
        (L DesiredState.Running (RuntimeState.Healthy (healthy_since r now)) l
           (mkHealthState true true (Some (Z.min (as_millis rtt) u32_max)) 0) g, rs)
  | rule_ping_degrade now attempt retry r l rtt0 n g g' rs :
      monitored_phase r = true -> Z.min (n + 1) u8_max < 3 ->
      rule req (Event.PingFailed g' now attempt retry)
        (L DesiredState.Running r l (mkHealthState true true rtt0 n) g, rs) None
        (L DesiredState.Running (degraded r now) l
           (mkHealthState true true rtt0 (Z.min (n + 1) u8_max)) g, rs)
  | rule_ping_reconnect now attempt retry r l rtt0 n g g' rs :
      monitored_phase r = true -> 3 <= Z.min (n + 1) u8_max ->
      rule req (Event.PingFailed g' now attempt retry)
        (L DesiredState.Running r l (mkHealthState true true rtt0 n) g, rs) None
        (L DesiredState.Running (RuntimeState.Reconnecting attempt retry ping_timeout_error) l
           (mkHealthState false false rtt0 (Z.min (n + 1) u8_max)) g, rs)
  | rule_disconnected e attempt retry r l h g g' rs :
      session_phase r = true ->
      rule req (Event.Disconnected g' e attempt retry)
        (L DesiredState.Running r l h g, rs) None
        (L DesiredState.Running
           (match err_retryability e with
            | Retryability.Transient => RuntimeState.Reconnecting attempt retry e
            | Retryability.Blocked => RuntimeState.Blocked e
            end) l fresh_health g, rs).
#[export] Hint Constructors rule : rust.

(** ** The guards, as equations *)

Lemma require_running_eq cause r m :
  require_running cause (RuntimePhase.from r) m =
  (if bool_decide (desired (state m) = DesiredState.Running) && session_phase r
   then Ok tt else Err (InvalidTransition cause (RuntimePhase.from r)), m).
Proof.
  unfold require_running, bind, get. destruct (bool_decide (desired _ = _)); [|by destruct r].
  by destruct r.
Qed.

Lemma require_phase_eq cause r valid m :
  require_phase cause (RuntimePhase.from r) valid m =
  (if bool_decide (desired (state m) = DesiredState.Running) && session_phase r
      && bool_decide (RuntimePhase.from r ∈ valid)
   then Ok tt else Err (InvalidTransition cause (RuntimePhase.from r)), m).
Proof.
  unfold require_phase, bind. rewrite require_running_eq.
  destruct (bool_decide (desired _ = _)), (session_phase r); simpl; try done.
  by case_bool_decide.
Qed.

Lemma require_start_phase_eq cause p m :
  require_start_phase cause p m =
  (if bool_decide (desired (state m) = DesiredState.Running)
      && match runtime (state m) with
         | RuntimeState.Starting q => bool_decide (q = p) | _ => false end
   then Ok tt else Err (InvalidTransition cause (RuntimePhase.from (runtime (state m)))), m).
Proof.
  unfold require_start_phase, bind, get. cbv zeta. rewrite require_running_eq.
  destruct (bool_decide (desired _ = _)); simpl; [|done].
  destruct (runtime (state m)); simpl; try done. by case_bool_decide.
Qed.

Lemma check_hop_eq hop total m :
  check_hop hop total m =
  (if bool_decide (1 <= hop <= total) then Ok tt else Err InvalidHop, m).
Proof.
  unfold check_hop, ret, throw.
  repeat case_bool_decide; simpl; try done; lia.
Qed.

Lemma next_generation_eq m :
  next_generation m =
  if bool_decide (generation (state m) < u64_max)
  then (Ok tt, set_generation (generation (state m) + 1) m)
  else (Err GenerationExhausted, m).
Proof.
  unfold next_generation, bind, get, checked_add.
  case_decide; case_bool_decide; try done; lia.
Qed.

(** Commands the machine has nothing to do for. *)
Definition nothing_to_do (e : Event.t) (r : RuntimeState.t) : bool :=
  match e, r with
  | Event.Stop, (RuntimeState.Stopped | RuntimeState.Stopping) => true
  | (Event.Restart | Event.ConfigChanged), RuntimeState.Stopping => true
  | _, _ => false
  end.

#[global] Arguments saturating_add : simpl never.

Ltac open_monad := unfold bind, get, modify, ret, throw, invalid in *.
Ltac arm_step :=
  first
  [ rewrite require_phase_eq | rewrite require_running_eq | rewrite require_start_phase_eq
  | rewrite check_hop_eq | rewrite next_generation_eq ].
(** Membership of a concrete phase in a concrete list, by evaluation. *)
Ltac eval_phase :=
  match goal with
  | |- context [bool_decide (?p ∈ ?l)] =>
      let b := eval vm_compute in (bool_decide (p ∈ l)) in
      lazymatch b with
      | true => change (bool_decide (p ∈ l)) with true
      | false => change (bool_decide (p ∈ l)) with false
      end
  end.
Ltac arm_cases :=
  repeat (arm_step || eval_phase || case_bool_decide || split_match; simplify_eq/=).

(** The outcome of an arm against the rules. *)
Definition arm_ok (e : Event.t) (m : StateMachine) (x : result arm_result MachineError * StateMachine)
    : Prop :=
  match x with
  | (Ok (Effect eff), m') =>
      exists c', rule (listener_required m) e (core_of m) eff c' /\ m' = with_core c' m
  | (Ok (Return o), m') => o = NoChange /\ m' = m /\ nothing_to_do e (runtime (state m)) = true
  | (Err _, m') => m' = m
  end.

Ltac arm_close :=
  bools; subst; unfold saturating_add in *; try done;
  try (eexists; split; [by (eauto with rust || (econstructor; try done; eauto with rust; lia))|done]);
  try (split_and!; by try done).

Lemma apply_event_sound e m :
  arm_ok e m (apply_event e (RuntimePhase.from (runtime (state m))) (Event.cause e) m).
Proof.
  destruct m as [[[] [] l [au fw rtt n] g] j rs req];
    destruct e as [| | | | | | | | | | | | | | |g' [ek es em [] ec] att nr];
    unfold apply_event, arm_ok, core_of, with_core; simpl state;
    unfold on_start, on_stop, on_restart, on_config_changed, on_shutdown_complete, on_phase,
      on_listener_bound, on_listener_conflict, on_connecting, on_authenticating,
      on_authenticated, on_hop_authenticated, on_forward_ready, on_ping_succeeded,
      on_ping_failed, on_disconnected; open_monad; arm_cases; arm_close.
Qed.

Ltac goals_true :=
  repeat match goal with
  | |- context [bool_decide ?P] => rewrite (bool_decide_eq_true_2 P) by (done || lia)
  | |- context [bool_decide ?P] => rewrite (bool_decide_eq_false_2 P) by (done || lia)
  end.

Lemma apply_event_complete e m eff c' :
  rule (listener_required m) e (core_of m) eff c' ->
  apply_event e (RuntimePhase.from (runtime (state m))) (Event.cause e) m
  = (Ok (Effect eff), with_core c' m).
Proof.
  destruct m as [[d r l h g] j rs req]. unfold core_of. simpl. intros H.
  inversion H; subst; unfold apply_event, on_start, on_stop, on_restart, on_config_changed,
      on_shutdown_complete, on_phase,
      on_listener_bound, on_listener_conflict, on_connecting, on_authenticating,
      on_authenticated, on_hop_authenticated, on_forward_ready, on_ping_succeeded,
      on_ping_failed, on_disconnected; open_monad;
    repeat match goal with
    | r : RuntimeState.t |- _ => destruct r; simplify_eq/=
    | H : _ \/ _ |- _ => destruct H; simplify_eq/=
    end; try done;
    repeat (arm_step || eval_phase || simpl); unfold saturating_add; goals_true; done.
Qed.

(** ** The reducer against the rules *)

Lemma transition_spec now e m eff m' :
  transition now e m = (Ok (Applied eff), m') <->
  is_stale e m = false /\ exists c', rule (listener_required m) e (core_of m) eff c'
    /\ m' = advance now (Event.cause e) c' m.
Proof.
  unfold transition. open_monad. destruct (is_stale e m); [naive_solver|].
  split.
  - pose proof (apply_event_sound e m) as Ha. unfold arm_ok in Ha.
    destruct (apply_event e _ _ m) as [[[o|eff0]|err] m1]; intros ?; simplify_eq.
    + by destruct Ha as [? _].
    + destruct Ha as (c' & Hr & ->). eauto.
  - intros (_ & c' & Hr & ->). by rewrite (apply_event_complete _ _ _ _ Hr).
Qed.

(** C3: The reducer implements the lifecycle rules, in both directions: an event is
    applied with effect [eff] exactly when it is not stale and a rule allows
    it; the new state is the rule's, plus one journal entry that records the
    phases before and after, the cause and the generation. *)
Theorem transition_refines now e m eff m' :
  transition now e m = (Ok (Applied eff), m') <->
  is_stale e m = false /\ exists c', rule (listener_required m) e (core_of m) eff c'
    /\ m' = advance now (Event.cause e) c' m.
Proof. exact (transition_spec now e m eff m'). Qed.

(** What happens to every other event: nothing. *)
Lemma transition_cases now e m :
  match transition now e m with
  | (Ok (Applied eff), m') =>
      is_stale e m = false /\ exists c', rule (listener_required m) e (core_of m) eff c'
        /\ m' = advance now (Event.cause e) c' m
  | (Ok IgnoredStale, m') => m' = m /\ is_stale e m = true
  | (Ok NoChange, m') => m' = m /\ nothing_to_do e (runtime (state m)) = true
  | (Err _, m') => m' = m
  end.
Proof.
  destruct (transition now e m) as [[[eff| |]|err] m'] eqn:E;
    [by apply transition_spec in E| | |];
    unfold transition in E; open_monad; destruct (is_stale e m) eqn:Es; simplify_eq/=; try done;
    pose proof (apply_event_sound e m) as Ha; unfold arm_ok in Ha;
    destruct (apply_event e _ _ m) as [[[o|eff0]|err0] m1]; simplify_eq; try done;
    naive_solver.
Qed.

Lemma transition_unchanged now e m r m' :
  transition now e m = (r, m') ->
  (forall eff, r <> Ok (Applied eff)) -> m' = m.
Proof.
  intros H Hr. pose proof (transition_cases now e m) as Hc. rewrite H in Hc.
  destruct r as [[eff| |]|err]; [by destruct (Hr eff)|by destruct Hc|by destruct Hc|done].
Qed.

(** An event that is stale, refused or without effect leaves the whole
    machine as it was, journal included: no half-made change survives an
    error. *)
Theorem transition_atomic now e m r m' :
  transition now e m = (r, m') ->
  (forall eff, r <> Ok (Applied eff)) -> m' = m.
Proof. exact (transition_unchanged now e m r m'). Qed.

Lemma advance_core now cause c m : core_of (advance now cause c m) = c.
Proof. by destruct c. Qed.

Lemma advance_required now cause c m :
  listener_required (advance now cause c m) = listener_required m.
Proof. done. Qed.
