(* ===== verification/LifecycleProps.v ===== *)
(** * LifecycleProps: properties of every lifecycle the reducer can reach,
    proved by induction over the rules of [LifecycleSpec]. *)
From S2P Require Import Prelude Text Net Domain StateMachine LifecycleSpec.

(** ** Reachability and runs *)

Inductive reachable (req : bool) : StateMachine -> Prop :=
  | reachable_new : reachable req (new req)
  | reachable_step m now e r m' :
      reachable req m -> transition now e m = (r, m') -> reachable req m'.

(** Feeds a list of timed events to the machine, collecting the answers. *)
Fixpoint run (es : list (SystemTime * Event.t)) (m : StateMachine)
    : list (result EventOutcome MachineError) * StateMachine :=
  match es with
  | [] => ([], m)
  | (now, e) :: es =>
      let '(r, m) := transition now e m in
      let '(rs, m) := run es m in
      (r :: rs, m)
  end.

(** One step, seen through the rules: either nothing changed, or a rule fired. *)
Lemma transition_inv now e m r m' :
  transition now e m = (r, m') ->
  (m' = m /\ forall eff, r <> Ok (Applied eff)) \/
  exists eff c', r = Ok (Applied eff) /\ is_stale e m = false
    /\ rule (listener_required m) e (core_of m) eff c'
    /\ m' = advance now (Event.cause e) c' m.
Proof.
  intros H. destruct r as [[eff| |]|err];
    [|left; split; [by eapply transition_unchanged|done]..].
  right. apply transition_spec in H as (Hs & c' & Hr & ->). eauto 8.
Qed.

Lemma transition_applied now e m eff c' :
  is_stale e m = false -> rule (listener_required m) e (core_of m) eff c' ->
  transition now e m = (Ok (Applied eff), advance now (Event.cause e) c' m).
Proof. intros. apply transition_spec. eauto. Qed.

(** A property of the core kept by every rule holds along every run. *)
Lemma run_invariant (P : core -> Prop) (ok : Event.t -> Prop) es m rs m' :
  (forall req e c eff c', ok e -> P c -> rule req e c eff c' -> P c') ->
  Forall (fun te => ok te.2) es ->
  P (core_of m) -> run es m = (rs, m') -> P (core_of m').
Proof.
  intros Hstep Hes. revert m rs.
  induction Hes as [|[now e] es He Hes IH]; intros m rs HP Hrun; simpl in Hrun; [by simplify_eq|].
  destruct (transition now e m) as [r m1] eqn:Et. destruct (run es m1) as [rs1 m2] eqn:Er.
  simplify_eq. apply (IH m1 rs1); [|done].
  apply transition_inv in Et as [[-> _]|(eff & c' & _ & _ & Hr & ->)]; [done|].
  rewrite advance_core. by eapply Hstep.
Qed.

(** ** The invariant *)

Definition phase_inv (req : bool) (c : core) : Prop :=
  let '(L d r l h g, rs) := c in
  match r with
  | RuntimeState.Stopped =>
      d = DesiredState.Stopped /\ l = idle_listener req /\ h = fresh_health /\ rs = false
  | RuntimeState.Stopping => h = fresh_health /\ rs = bool_decide (d = DesiredState.Running)
  | RuntimeState.Connecting hop total _ | RuntimeState.Authenticating hop total =>
      d = DesiredState.Running /\ rs = false /\ h = fresh_health /\ 1 <= hop <= total
  | RuntimeState.EstablishingForward =>
      d = DesiredState.Running /\ rs = false /\ authenticated h = true
      /\ forward_ready h = false /\ consecutive_ping_failures h = 0
  | RuntimeState.Starting _ =>
      d = DesiredState.Running /\ rs = false
      /\ authenticated h = forward_ready h /\ consecutive_ping_failures h = 0
  | RuntimeState.Healthy _ =>
      d = DesiredState.Running /\ rs = false
      /\ authenticated h = true /\ forward_ready h = true /\ consecutive_ping_failures h = 0
      /\ exists ms, last_rtt_ms h = Some ms /\ ms <= u32_max
  | RuntimeState.Degraded _ _ =>
      d = DesiredState.Running /\ rs = false
      /\ authenticated h = true /\ forward_ready h = true
      /\ 1 <= consecutive_ping_failures h <= 2
  | RuntimeState.Reconnecting _ _ _ =>
      d = DesiredState.Running /\ rs = false
      /\ authenticated h = false /\ forward_ready h = false
  | RuntimeState.Blocked _ => d = DesiredState.Running /\ rs = false
  | RuntimeState.Failed _ => False
  end.

Definition core_inv (req : bool) (c : core) : Prop :=
  phase_inv req c
  /\ (listener c.1 = ListenerState.NotRequired <-> req = false)
  /\ u64 (generation c.1).

(** The journal is a chain of phases that ends in the current one. *)
Definition journal_linked (j : list StateTransition) (p : RuntimePhase.t) : Prop :=
  (forall i a b, j !! i = Some a -> j !! S i = Some b -> tr_to a = tr_from b)
  /\ (forall a, last j = Some a -> tr_to a = p).

Record machine_inv (m : StateMachine) : Prop := {
  mi_core : core_inv (listener_required m) (core_of m);
  mi_bound : (length (journal m) <= JOURNAL_LIMIT)%nat;
  mi_linked : journal_linked (journal m) (RuntimePhase.from (runtime (state m)));
  mi_generations : Forall (fun t => tr_generation t <= generation (state m)) (journal m)
}.

Lemma core_inv_rule req e c eff c' : core_inv req c -> rule req e c eff c' -> core_inv req c'.
Proof.
  intros (Hp & Hl & Hg) Hr. unfold core_inv, u64 in *.
  destruct Hr; simpl in *;
    repeat match goal with
    | H : _ /\ _ |- _ => destruct H
    | H : _ \/ _ |- _ => destruct H
    | r : RuntimeState.t |- _ => destruct r; simplify_eq/=; try done
    | |- context [err_retryability ?e] => destruct (err_retryability e)
    end; subst;
    try destruct req; simpl in *; split_and!; try done; try lia; try naive_solver lia.
  all: try (by destruct d); unfold u8_max in *; lia.
Qed.

Lemma journal_linked_push p q j t cap :
  journal_linked j p -> tr_from t = p -> tr_to t = q ->
  journal_linked (push_bounded cap j t) q.
Proof.
  intros [Hl Hlast] Hf Ht. unfold push_bounded.
  assert (Hsub : journal_linked (if decide (length j = cap) then tail j else j) p).
  { case_decide; [|done]. destruct j as [|a j]; [done|]. split.
    - intros i x y Hx Hy. apply (Hl (S i)); done.
    - intros x Hx. apply Hlast. destruct j; [done|]. by rewrite last_cons_cons. }
  clear Hl Hlast. revert Hsub. generalize (if decide (length j = cap) then tail j else j).
  intros k [Hl Hlast]. split.
  - intros i a b Ha Hb. rewrite lookup_app in Ha, Hb.
    destruct (k !! i) eqn:Ei; simplify_eq/=.
    + destruct (k !! S i) eqn:Es; simplify_eq/=; [by eapply Hl|].
      assert (length k = S i) as Hlen.
      { apply lookup_ge_None in Es. apply lookup_lt_Some in Ei. lia. }
      rewrite Hlen, Nat.sub_diag in Hb. simplify_eq/=. apply Hlast.
      rewrite last_lookup, Hlen. done.
    + apply lookup_ge_None in Ei. rewrite lookup_ge_None_2 in Hb by lia.
      apply lookup_lt_Some in Hb. simpl in Hb. lia.
  - intros a. rewrite last_snoc. naive_solver.
Qed.

Lemma rule_generation_le req e c eff c' :
  rule req e c eff c' -> generation c.1 <= generation c'.1.
Proof. destruct 1; simpl; lia. Qed.

Lemma machine_inv_advance now cause e eff c' m :
  machine_inv m -> rule (listener_required m) e (core_of m) eff c' ->
  machine_inv (advance now cause c' m).
Proof.
  intros [Hc Hb Hl Hg] Hr. pose proof (rule_generation_le _ _ _ _ _ Hr) as Hle.
  unfold advance, record, with_core. split; simpl.
  - unfold core_of. simpl. destruct c' as [c rs]. by eapply core_inv_rule in Hr.
  - rewrite push_bounded_length; unfold JOURNAL_LIMIT in *; lia.
  - by eapply journal_linked_push.
  - apply Forall_app. split; [|by repeat constructor; simpl].
    assert (Forall (fun t => tr_generation t <= generation c'.1) (journal m)) as Hj.
    { eapply Forall_impl; [exact Hg|]. simpl in *. intros. lia. }
    case_decide; [|done]. destruct (journal m); [done|]. by inv Hj.
Qed.

Lemma reachable_machine_inv req m :
  reachable req m -> listener_required m = req /\ machine_inv m.
Proof.
  induction 1 as [|m now e r m' Hm [Hreq Hi] Ht].
  - split; [done|]. split; [|simpl; lia|by split|done].
    split_and!; [done| |by unfold u64]. destruct req; simpl; naive_solver.
  - apply transition_inv in Ht as [[-> _]|(eff & c' & _ & _ & Hr & ->)]; [done|].
    split; [done|]. by eapply machine_inv_advance.
Qed.

(** C1: Every machine the program can reach is well formed: in each phase the
    desired state, the pending-restart flag, the listener, the health record
    and the hop numbers have the values that phase allows ([phase_inv]); the
    generation fits in 64 bits; the journal holds at most 200 entries, each
    starting in the phase the previous one ended in, the last ending in the
    current phase. In particular a Stopped tunnel has no bound listener, a
    Healthy one is authenticated, forwarding and without ping failures, and
    [Failed] is never entered. *)
Theorem reachable_inv req m :
  reachable req m -> listener_required m = req /\ machine_inv m.
Proof. exact (reachable_machine_inv req m). Qed.

Lemma reachable_run req es m : reachable req m -> reachable req (run es m).2.
Proof.
  revert m. induction es as [|[now e] es IH]; intros m Hm; simpl; [done|].
  destruct (transition now e m) as [r m1] eqn:Et.
  specialize (IH m1 (reachable_step _ _ _ _ _ _ Hm Et)). by destruct (run es m1).
Qed.

Theorem reachable_inv_witness :
  let m := (run [(0, Event.Start); (1, Event.Phase 1 StartPhase.AcquiringListener);
                 (2, Event.ListenerBound 1 (SAV4 [127; 0; 0; 1] 1080))] (new true)).2 in
  listener_required m = true /\ machine_inv m.
Proof.
  apply (reachable_inv true), reachable_run, reachable_new.
Defined.

(** ** Stop *)

(** Events that ask for work: without one of them a stopped tunnel stays down. *)
Definition start_command (e : Event.t) : bool :=
  match e with Event.Start | Event.Restart => true | _ => false end.

(** A tunnel on its way down, or down, with no restart pending. *)
Definition halted (c : core) : Prop :=
  desired c.1 = DesiredState.Stopped /\ c.2 = false
  /\ (runtime c.1 = RuntimeState.Stopping \/ runtime c.1 = RuntimeState.Stopped).

Definition begins (r : result EventOutcome MachineError) : bool :=
  match r with Ok (Applied (Some (BeginGeneration _))) => true | _ => false end.

Lemma halted_rule req e c eff c' :
  start_command e = false -> halted c -> rule req e c eff c' ->
  halted c' /\ forall g, eff <> Some (BeginGeneration g).
Proof.
  intros He (Hd & Hrs & Hr) Hrule. unfold halted.
  destruct Hrule; simpl in *; simplify_eq; naive_solver.
Qed.

Lemma run_halted es m rs m' :
  Forall (fun te => start_command te.2 = false) es ->
  halted (core_of m) -> run es m = (rs, m') ->
  halted (core_of m') /\ Forall (fun r => begins r = false) rs.
Proof.
  intros Hes. revert m rs.
  induction Hes as [|[now e] es He Hes IH]; intros m rs Hh Hrun; simpl in Hrun; [by simplify_eq|].
  destruct (transition now e m) as [r m1] eqn:Et. destruct (run es m1) as [rs1 m2] eqn:Er.
  simplify_eq. simpl in He.
  apply transition_inv in Et as [[-> Hr]|(eff & c' & -> & _ & Hr & ->)].
  - destruct (IH _ _ Hh Er). split; [done|]. constructor; [|done].
    destruct r as [[[[g|g]|]| |]|]; try done. by destruct (Hr (Some (BeginGeneration g))).
  - destruct (halted_rule _ _ _ _ _ He Hh Hr) as [Hh' Hb].
    destruct (IH _ _ (eq_ind_r _ Hh' (advance_core _ _ _ _)) Er). split; [done|].
    constructor; [|done]. destruct eff as [[g|g]|]; try done. by destruct (Hb g).
Qed.

(** C11: Stop is final. Once a Stop is applied, whatever events follow - worker
    reports of any generation, further Stops, configuration changes, shutdown
    acknowledgements - the tunnel stays stopping or stopped with desired state
    Stopped, and no generation is ever begun, until a Start or Restart is
    commanded. *)
Theorem stop_is_final now m eff m1 es rs m2 :
  transition now Event.Stop m = (Ok (Applied eff), m1) ->
  Forall (fun te => start_command te.2 = false) es ->
  run es m1 = (rs, m2) ->
  desired (state m2) = DesiredState.Stopped
  /\ (runtime (state m2) = RuntimeState.Stopping \/ runtime (state m2) = RuntimeState.Stopped)
  /\ Forall (fun r => begins r = false) rs.
Proof.
  intros Ht Hes Hrun. apply transition_spec in Ht as (_ & c' & Hr & ->).
  assert (Hh : halted c') by (inversion Hr; subst; unfold halted; simpl; auto).
  destruct (run_halted es _ rs m2 Hes (eq_ind_r _ Hh (advance_core _ _ _ _)) Hrun)
    as [(Hd & _ & Hm) ?]. done.
Qed.

Definition started : StateMachine := (run [(0, Event.Start)] (new true)).2.

Theorem stop_is_final_witness :
  let m1 := (transition 1 Event.Stop started).2 in
  let m2 := (run [(2, Event.Stop); (3, Event.Phase 1 StartPhase.BuildingJumpChain);
                  (4, Event.ShutdownComplete 2)] m1).2 in
  desired (state m2) = DesiredState.Stopped
  /\ (runtime (state m2) = RuntimeState.Stopping \/ runtime (state m2) = RuntimeState.Stopped)
  /\ Forall (fun r => begins r = false)
       [Ok NoChange; Ok IgnoredStale; Ok (Applied None)].
Proof.
  eapply (stop_is_final 1 started (Some (CancelAndJoin 1)) _
    [(2, Event.Stop); (3, Event.Phase 1 StartPhase.BuildingJumpChain);
     (4, Event.ShutdownComplete 2)]).
  - vm_compute. reflexivity.
  - repeat constructor.
  - vm_compute. reflexivity.
Defined.

(** ** Generations *)

Lemma run_generation_le es m rs m' :
  run es m = (rs, m') -> generation (state m) <= generation (state m').
Proof.
  intros H.
  refine (run_invariant (fun c => generation (state m) <= generation c.1) (fun _ => True)
    es m rs m' _ _ _ H); [|by apply Forall_true|done].
  intros req e c eff c' _ Hc Hr. apply rule_generation_le in Hr. lia.
Qed.

(** C12: Results of a superseded generation are discarded for good. When a
    command makes the manager cancel generation [g], every later event that
    carries [g] or an older generation - at once, or after any other events -
    is ignored and changes nothing. *)
Theorem superseded_events_ignored now e m g m1 es rs m2 now' e' g' :
  transition now e m = (Ok (Applied (Some (CancelAndJoin g))), m1) ->
  run es m1 = (rs, m2) ->
  Event.generation e' = Some g' -> g' <= g ->
  transition now' e' m2 = (Ok IgnoredStale, m2).
Proof.
  intros Ht Hrun He' Hg.
  apply transition_spec in Ht as (_ & c' & Hr & ->).
  assert (g < generation c'.1) as Hlt by (inversion Hr; subst; simpl; lia).
  apply run_generation_le in Hrun.
  change (generation (state (advance now (Event.cause e) c' m))) with (generation c'.1) in Hrun.
  unfold transition, bind, get, is_stale. rewrite He'.
  rewrite bool_decide_eq_false_2 by lia. done.
Qed.

Theorem superseded_events_ignored_witness :
  transition 9 (Event.ShutdownComplete 1)
    (run [(2, Event.ShutdownComplete 2)] (transition 1 Event.Restart started).2).2
  = (Ok IgnoredStale, (run [(2, Event.ShutdownComplete 2)] (transition 1 Event.Restart started).2).2).
Proof.
  eapply (superseded_events_ignored 1 Event.Restart started 1 _ [(2, Event.ShutdownComplete 2)]
            _ _ 9 (Event.ShutdownComplete 1) 1).
  - vm_compute. reflexivity.
  - vm_compute. reflexivity.
  - reflexivity.
  - lia.
Defined.

(** ** Health *)

Definition is_stale_false e m g :
  Event.generation e = Some g -> g = generation (state m) -> is_stale e m = false.
Proof. intros H ->. unfold is_stale. rewrite H. by rewrite bool_decide_eq_true_2. Qed.

(** The health monitor tolerates two missed pings and reconnects on the
    third: from Healthy, three consecutive [PingFailed] events are accepted,
    the first two show Degraded (since the first miss), the third schedules the
    reconnect it was given, and the listener is not touched. *)
Theorem three_ping_failures_reconnect req m since t1 t2 t3 a1 a2 a3 r1 r2 r3 :
  reachable req m -> runtime (state m) = RuntimeState.Healthy since ->
  let g := generation (state m) in
  exists m1 m2 m3,
    transition t1 (Event.PingFailed g t1 a1 r1) m = (Ok (Applied None), m1)
    /\ runtime (state m1) = RuntimeState.Degraded t1 PingTimeout
    /\ transition t2 (Event.PingFailed g t2 a2 r2) m1 = (Ok (Applied None), m2)
    /\ runtime (state m2) = RuntimeState.Degraded t1 PingTimeout
    /\ transition t3 (Event.PingFailed g t3 a3 r3) m2 = (Ok (Applied None), m3)
    /\ runtime (state m3) = RuntimeState.Reconnecting a3 r3 ping_timeout_error
    /\ listener (state m3) = listener (state m).
Proof.
  intros Hm Hh g. destruct (reachable_machine_inv req m Hm) as [Hreq [(Hp & _) _ _ _]].
  destruct m as [[d r l [au fw rtt n] gen] j rs rq]. simpl in *. subst r rq.
  destruct Hp as (-> & -> & -> & -> & -> & _).
  do 3 eexists. split_and!.
  - apply transition_applied; [by eapply is_stale_false|].
    apply rule_ping_degrade; [done|unfold u8_max; lia].
  - done.
  - apply transition_applied; [by eapply is_stale_false|].
    apply rule_ping_degrade; [done|unfold u8_max; simpl; lia].
  - done.
  - apply transition_applied; [by eapply is_stale_false|].
    apply rule_ping_reconnect; [done|unfold u8_max; simpl; lia].
  - done.
  - done.
Qed.

(** ** Starting up *)

(** The events of one hop that is not the last, and of the last. *)
Definition hop_events (g total hop : Z) : list Event.t :=
  [Event.Authenticating g hop total; Event.HopAuthenticated g].

Definition last_hop_events (g total : Z) (at_ : Instant) (rtt : Duration) : list Event.t :=
  [Event.Authenticating g total total; Event.Authenticated g; Event.ForwardReady g;
   Event.PingSucceeded g at_ rtt].

Definition chain_events (g : Z) (hops : nat) (at_ : Instant) (rtt : Duration) : list Event.t :=
  let total := Z.of_nat hops in
  Event.Connecting g 1 total 0
  :: ((i ← seq 1 (hops - 1); hop_events g total (Z.of_nat i)) ++ last_hop_events g total at_ rtt).

Definition startup_events (g : Z) (bind : option SocketAddr) (hops : nat)
    (at_ : Instant) (rtt : Duration) : list Event.t :=
  Event.Phase g StartPhase.AcquiringListener
  :: (match bind with Some a => [Event.ListenerBound g a] | None => [] end)
  ++ Event.Phase g StartPhase.BuildingJumpChain :: chain_events g hops at_ rtt.

Definition at_time (t : SystemTime) (es : list Event.t) : list (SystemTime * Event.t) :=
  pair t <$> es.

(** All events of a run were applied without asking for work. *)
Definition all_applied (rs : list (result EventOutcome MachineError)) : Prop :=
  Forall (fun r => r = Ok (Applied None)) rs.

Lemma run_app es1 es2 m :
  run (es1 ++ es2) m =
  let '(rs1, m1) := run es1 m in let '(rs2, m2) := run es2 m1 in (rs1 ++ rs2, m2).
Proof.
  revert m. induction es1 as [|[now e] es1 IH]; intros m; simpl.
  { by destruct (run es2 m). }
  destruct (transition now e m) as [r m1]. rewrite IH.
  destruct (run es1 m1) as [rs1 m2]. by destruct (run es2 m2).
Qed.

(** A run of rules that keep the generation. *)
Inductive rules (req : bool) (g : Z) : list Event.t -> core -> core -> Prop :=
  | rules_nil c : rules req g [] c c
  | rules_cons e es c1 c2 c3 :
      generation c1.1 = g -> Event.generation e = Some g ->
      rule req e c1 None c2 -> rules req g es c2 c3 -> rules req g (e :: es) c1 c3.

Lemma rules_app req g es1 es2 c1 c2 c3 :
  rules req g es1 c1 c2 -> rules req g es2 c2 c3 -> rules req g (es1 ++ es2) c1 c3.
Proof. induction 1; simpl; eauto using rules. Qed.

Lemma rules_run req g t es c c' m :
  rules req g es c c' -> core_of m = c -> listener_required m = req ->
  exists rs m', run (at_time t es) m = (rs, m') /\ all_applied rs /\ core_of m' = c'.
Proof.
  intros H. revert m.
  induction H as [c|e es c1 c2 c3 Hg He Hr Hes IH]; intros m Hc Hreq; simpl.
  { exists [], m. by split_and!; [|constructor|]. }
  subst. rewrite (transition_applied t e m None c2); [|by eapply is_stale_false|done].
  destruct (IH (advance t (Event.cause e) c2 m)) as (rs & m' & Hrun & Ha & Hc');
    [apply advance_core|done|].
  unfold at_time in *. rewrite Hrun. exists (Ok (Applied None) :: rs), m'.
  split_and!; [done|by constructor|done].
Qed.

Lemma hops_rules req g total i k l rs h attempt :
  (1 <= i)%nat -> Z.of_nat (i + k) = total ->
  exists attempt',
  rules req g (i ← seq i k; hop_events g total (Z.of_nat i))
    (L DesiredState.Running (RuntimeState.Connecting (Z.of_nat i) total attempt) l h g, rs)
    (L DesiredState.Running (RuntimeState.Connecting total total attempt') l h g, rs).
Proof.
  intros Hi. revert i Hi attempt. induction k as [|k IH]; intros i Hi attempt Ht; simpl.
  { exists attempt. rewrite Nat.add_0_r in Ht. rewrite Ht. constructor. }
  destruct (IH (S i)) with (attempt := 0) as [attempt' Hr]; [lia|lia|].
  exists attempt'. unfold hop_events. simpl.
  eapply rules_cons; [done|done|apply rule_authenticating; lia|].
  eapply rules_cons; [done|done|apply rule_hop_authenticated; lia|].
  replace (Z.of_nat i + 1) with (Z.of_nat (S i)) by lia. exact Hr.
Qed.

Lemma chain_rules req g hops l rs h at_ rtt :
  (1 <= hops)%nat ->
  exists h',
  rules req g (chain_events g hops at_ rtt)
    (L DesiredState.Running (RuntimeState.Starting StartPhase.BuildingJumpChain) l h g, rs)
    (L DesiredState.Running (RuntimeState.Healthy at_) l h' g, rs).
Proof.
  intros Hh. unfold chain_events.
  destruct (hops_rules req g (Z.of_nat hops) 1 (hops - 1) l rs fresh_health 0)
    as [attempt' Hr]; [lia|lia|].
  eexists. eapply rules_cons; [done|done|apply rule_connecting; [lia|by left]|].
  eapply rules_app; [exact Hr|]. unfold last_hop_events.
  eapply rules_cons; [done|done|apply rule_authenticating; lia|].
  eapply rules_cons; [done|done|apply rule_authenticated|].
  eapply rules_cons; [done|done|apply rule_forward_ready|].
  eapply rules_cons; [done|done|apply rule_ping_ok; done|]. apply rules_nil.
Qed.

(** A tunnel can come up: for a jump chain of any length, the events of a
    successful start - bind the listener when one is required, connect and
    authenticate each hop in turn, authenticate the last, establish the
    forward, first ping - are all accepted after Start and end Healthy, with
    the listener still bound to the address reported. *)
Theorem startup_reaches_healthy t bind hops at_ rtt :
  (1 <= hops)%nat ->
  let req := bool_decide (is_Some bind) in
  exists m1 rs m2,
    transition t Event.Start (new req) = (Ok (Applied (Some (BeginGeneration 1))), m1)
    /\ run (at_time t (startup_events 1 bind hops at_ rtt)) m1 = (rs, m2)
    /\ all_applied rs
    /\ runtime (state m2) = RuntimeState.Healthy at_
    /\ listener (state m2) =
       match bind with Some a => ListenerState.Bound a | None => ListenerState.NotRequired end.
Proof.
  intros Hh req.
  assert (Hs : transition t Event.Start (new req) = (Ok (Applied (Some (BeginGeneration 1))),
    advance t "start" (L DesiredState.Running (RuntimeState.Starting StartPhase.Validating)
      (idle_listener req) fresh_health 1, false) (new req))).
  { apply transition_applied; [done|]. by apply (rule_start req _ _ _ 0). }
  set (l := match bind with Some a => ListenerState.Bound a | None => ListenerState.NotRequired end).
  destruct (chain_rules req 1 hops l false fresh_health at_ rtt Hh) as [h' Hc].
  assert (Hr : rules req 1 (startup_events 1 bind hops at_ rtt)
    (L DesiredState.Running (RuntimeState.Starting StartPhase.Validating)
      (idle_listener req) fresh_health 1, false)
    (L DesiredState.Running (RuntimeState.Healthy at_) l h' 1, false)).
  { unfold startup_events. eapply rules_cons; [done|done|apply rule_phase|].
    destruct bind as [a|]; simpl.
    - eapply rules_cons; [done|done|by apply rule_bound|].
      eapply rules_cons; [done|done|apply rule_phase|]. done.
    - eapply rules_cons; [done|done|apply rule_phase|]. done. }
  destruct (rules_run _ _ t _ _ _ _ Hr (advance_core t "start" _ (new req)) eq_refl)
    as (rs & m2 & Hrun & Ha & Hm2).
  eexists _, rs, m2. split_and!; [exact Hs|exact Hrun|done| |].
  - change (state m2) with (core_of m2).1. by rewrite Hm2.
  - change (state m2) with (core_of m2).1. by rewrite Hm2.
Qed.

Theorem startup_reaches_healthy_witness :
  (1 <= 3)%nat /\
  exists m1 rs m2,
    transition 0 Event.Start (new true) = (Ok (Applied (Some (BeginGeneration 1))), m1)
    /\ run (at_time 0 (startup_events 1 (Some (SAV4 [127; 0; 0; 1] 1080)) 3 5 7)) m1 = (rs, m2)
    /\ all_applied rs
    /\ runtime (state m2) = RuntimeState.Healthy 5
    /\ listener (state m2) = ListenerState.Bound (SAV4 [127; 0; 0; 1] 1080).
Proof.
  split; [lia|].
  apply (startup_reaches_healthy 0 (Some (SAV4 [127; 0; 0; 1] 1080)) 3 5 7). lia.
Defined.

Definition healthy_machine : StateMachine :=
  (run (at_time 0 (Event.Start
     :: startup_events 1 (Some (SAV4 [127; 0; 0; 1] 1080)) 2 5 7)) (new true)).2.

Theorem three_ping_failures_reconnect_witness :
  exists m1 m2 m3,
    transition 10 (Event.PingFailed 1 10 1 20) healthy_machine = (Ok (Applied None), m1)
    /\ runtime (state m1) = RuntimeState.Degraded 10 PingTimeout
    /\ transition 11 (Event.PingFailed 1 11 1 20) m1 = (Ok (Applied None), m2)
    /\ runtime (state m2) = RuntimeState.Degraded 10 PingTimeout
    /\ transition 12 (Event.PingFailed 1 12 1 20) m2 = (Ok (Applied None), m3)
    /\ runtime (state m3) = RuntimeState.Reconnecting 1 20 ping_timeout_error
    /\ listener (state m3) = listener (state healthy_machine).
Proof.
  apply (three_ping_failures_reconnect true healthy_machine 5 10 11 12 1 1 1 20 20 20);
    [apply reachable_run, reachable_new|vm_compute; reflexivity].
Defined.

(** ** A Stop during a restart *)

(** A Stop that arrives while a restart is shutting the old generation down
    is dropped: the machine answers [NoChange], keeps the pending restart, and
    the shutdown acknowledgement then begins the next generation with desired
    state Running. *)
Theorem stop_during_restart_is_dropped m t1 t2 t3 :
  generation (state m) < u64_max ->
  runtime (state m) <> RuntimeState.Stopped -> runtime (state m) <> RuntimeState.Stopping ->
  let g := generation (state m) in
  exists m1 m2,
    transition t1 Event.Restart m = (Ok (Applied (Some (CancelAndJoin g))), m1)
    /\ transition t2 Event.Stop m1 = (Ok NoChange, m1)
    /\ transition t3 (Event.ShutdownComplete (g + 1)) m1
       = (Ok (Applied (Some (BeginGeneration (g + 1)))), m2)
    /\ desired (state m2) = DesiredState.Running
    /\ runtime (state m2) = RuntimeState.Starting StartPhase.Validating.
Proof.
  intros Hg Hr1 Hr2 g. destruct m as [[d r l h gen] j rs req]. simpl in *.
  do 2 eexists. split_and!.
  - apply transition_applied; [done|]. by apply rule_restart_active.
  - done.
  - apply transition_applied; [by eapply is_stale_false|]. apply rule_shutdown_restart.
  - done.
  - done.
Qed.

Theorem stop_during_restart_is_dropped_witness :
  generation (state healthy_machine) < u64_max /\
  exists m1 m2,
    transition 20 Event.Restart healthy_machine = (Ok (Applied (Some (CancelAndJoin 1))), m1)
    /\ transition 21 Event.Stop m1 = (Ok NoChange, m1)
    /\ transition 22 (Event.ShutdownComplete 2) m1
       = (Ok (Applied (Some (BeginGeneration 2))), m2)
    /\ desired (state m2) = DesiredState.Running
    /\ runtime (state m2) = RuntimeState.Starting StartPhase.Validating.
Proof.
  split; [vm_compute; reflexivity|].
  apply (stop_during_restart_is_dropped healthy_machine 20 21 22);
    [vm_compute; reflexivity|vm_compute; discriminate..].
Defined.

(** ** Events that are not applied *)

Theorem transition_atomic_witness :
  exists m',
    transition 5 (Event.ForwardReady 1) started = (Err (InvalidTransition "forward_ready" RuntimePhase.Starting), m')
    /\ m' = started.
Proof.
  eexists. split; [vm_compute; reflexivity|].
  apply (transition_atomic 5 (Event.ForwardReady 1) started
    (Err (InvalidTransition "forward_ready" RuntimePhase.Starting)));
    [vm_compute; reflexivity|discriminate].
Defined.
