(* ===== verification/Retry.v ===== *)
(** * Retry: backoff timing, [RetrySchedule] of crates/tunnel-core/src/retry.rs. *)
From S2P Require Import Prelude Text Net Domain Validation.

Record RetrySchedule := mkRetrySchedule { policy : RetryPolicy }.

Definition new (p : RetryPolicy) : RetrySchedule := mkRetrySchedule p.

Definition MULTIPLIERS : list Z := [1; 2; 5; 10; 20; 30].

(** [index as usize]: the row of the multiplier table an attempt uses. *)
Definition index (attempt : Z) : nat := Z.to_nat (Z.min (saturating_sub attempt 1) 5).

(** [delay]: [u128] arithmetic in milliseconds; the final cast is capped at
    [u64::MAX]. *)
Definition delay (self : RetrySchedule) (attempt jitter_percent : Z) : Duration :=
  let base_ms := as_millis (base_delay (policy self)) in
  let max_ms := as_millis (max_delay (policy self)) in
  let unjittered_ms :=
    Z.min (saturating_mul u128_max base_ms (MULTIPLIERS !!! index attempt)) max_ms in
  let limit := Z.min (Domain.jitter_percent (policy self)) 100 in
  let jitter := clamp (- limit) limit jitter_percent in
  let adjusted_ms := saturating_mul u128_max unjittered_ms (100 + jitter) / 100 in
  from_millis (Z.min adjusted_ms u64_max).

Definition should_reset (self : RetrySchedule) (healthy_for : Duration) : bool :=
  bool_decide (reset_after_healthy (policy self) <= healthy_for).

Definition jitter_limit (self : RetrySchedule) : Z :=
  Z.min (Domain.jitter_percent (policy self)) 100.

(** ** Specification *)

(** The largest [std::time::Duration]: [u64::MAX] seconds and a fraction. *)
Definition duration_max : Duration := (u64_max + 1) * NANOS_PER_SEC - 1.

(** A policy of the types the program stores: durations, and a [u8] jitter. *)
Record policy_typed (p : RetryPolicy) : Prop := {
  pt_base : 0 <= base_delay p <= duration_max;
  pt_max : 0 <= max_delay p <= duration_max;
  pt_jitter : u8 (Domain.jitter_percent p)
}.

(** The factor of an attempt, numbered from 1. *)
Definition factor (attempt : Z) : Z :=
  if decide (attempt <= 1) then 1 else if decide (attempt = 2) then 2
  else if decide (attempt = 3) then 5 else if decide (attempt = 4) then 10
  else if decide (attempt = 5) then 20 else 30.

(** The delay before jitter: the base times the factor, capped. *)
Definition nominal_ms (p : RetryPolicy) (attempt : Z) : Z :=
  Z.min (as_millis (base_delay p) * factor attempt) (as_millis (max_delay p)).

(** ** Lemmas *)

Lemma index_factor attempt : MULTIPLIERS !!! index attempt = factor attempt.
Proof.
  unfold factor, index, saturating_sub. repeat case_decide; [|by subst..|].
  - by replace (Z.to_nat _) with 0%nat by lia.
  - by replace (Z.to_nat _) with 5%nat by lia.
Qed.

Lemma factor_range attempt : 1 <= factor attempt <= 30.
Proof. unfold factor. repeat case_decide; lia. Qed.

Lemma factor_mono a1 a2 : a1 <= a2 -> factor a1 <= factor a2.
Proof. unfold factor. intros. repeat case_decide; lia. Qed.

Lemma as_millis_range d : 0 <= d <= duration_max -> 0 <= as_millis d <= (u64_max + 1) * 1000.
Proof.
  unfold duration_max, as_millis, NANOS_PER_MILLI, NANOS_PER_SEC. intros [??]. split.
  - apply Z.div_pos; lia.
  - apply Z.div_le_upper_bound; lia.
Qed.

Lemma nominal_range p attempt :
  policy_typed p -> 0 <= nominal_ms p attempt <= as_millis (max_delay p).
Proof.
  intros [Hb Hm _]. pose proof (as_millis_range _ Hb). pose proof (as_millis_range _ Hm).
  pose proof (factor_range attempt). unfold nominal_ms. nia.
Qed.

(** None of the saturating [u128] operations saturates. *)
Lemma delay_eq p attempt jitter :
  policy_typed p ->
  let limit := Z.min (Domain.jitter_percent p) 100 in
  delay (new p) attempt jitter
  = from_millis (Z.min (nominal_ms p attempt * (100 + clamp (- limit) limit jitter) / 100) u64_max).
Proof.
  intros Hp limit. pose proof (nominal_range p attempt Hp) as Hn. destruct Hp as [Hb Hm Hj].
  pose proof (as_millis_range _ Hb). pose proof (as_millis_range _ Hm).
  pose proof (factor_range attempt) as Hk.
  assert (Hl : 0 <= limit <= 100) by (unfold u8, u8_max in *; lia).
  pose proof (clamp_range (- limit) limit jitter ltac:(lia)) as Hc.
  unfold delay. cbn [policy new]. rewrite index_factor. fold limit. unfold saturating_mul.
  assert (Hu : u128_max = (u64_max + 1) * (u64_max + 1) - 1) by reflexivity.
  assert (Hv : u64_max = 18446744073709551615) by reflexivity.
  rewrite (Z.min_l (_ * _) u128_max) by nia. fold (nominal_ms p attempt).
  rewrite (Z.min_l (_ * _) u128_max) by nia. done.
Qed.

Lemma nominal_mono p a1 a2 :
  policy_typed p -> a1 <= a2 -> nominal_ms p a1 <= nominal_ms p a2.
Proof.
  intros [Hb _ _] Ha. pose proof (as_millis_range _ Hb).
  pose proof (factor_mono a1 a2 Ha).
  unfold nominal_ms. apply Z.min_le_compat_r. nia.
Qed.

(** ** Properties *)

(** C37: Backoff is bounded and never shrinks. For every policy of the stored
    types, every attempt and every jitter value: the nominal delay is the base
    delay times 1, 2, 5, 10, 20, 30 (30 from the sixth attempt on), capped at
    the maximum delay; the jittered delay lies within the policy's percentage
    of it (up to the millisecond rounding, and up to the largest delay a [u64]
    of milliseconds can hold); no [u128] operation saturates and no cast wraps;
    and a later attempt never waits less than an earlier one. *)
Theorem backoff_bounded_monotone p a1 a2 jitter :
  policy_typed p -> a1 <= a2 ->
  let limit := jitter_limit (new p) in
  0 <= limit <= 100
  /\ from_millis (Z.min (nominal_ms p a1 * (100 - limit) / 100) u64_max) <= delay (new p) a1 jitter
  /\ delay (new p) a1 jitter <= from_millis (Z.min (nominal_ms p a1 * (100 + limit) / 100) u64_max)
  /\ delay (new p) a1 jitter <= 2 * max_delay p
  /\ delay (new p) a1 jitter <= delay (new p) a2 jitter
  /\ (6 <= a1 -> delay (new p) a1 jitter = delay (new p) 6 jitter).
Proof.
  intros Hp Ha. pose proof (nominal_range p a1 Hp) as H1.
  pose proof (nominal_range p a2 Hp) as H2. pose proof (nominal_mono p a1 a2 Hp Ha) as H12.
  rewrite !delay_eq by done. unfold jitter_limit. cbn [policy new]. cbv zeta.
  set (limit := Z.min (Domain.jitter_percent p) 100).
  assert (Hl : 0 <= limit <= 100) by (destruct Hp as [_ _ Hj]; unfold u8, u8_max in *; lia).
  pose proof (clamp_range (- limit) limit jitter ltac:(lia)) as Hc.
  set (c := clamp (- limit) limit jitter) in *.
  assert (Hd : forall n m, n <= m ->
            from_millis (Z.min (n / 100) u64_max) <= from_millis (Z.min (m / 100) u64_max)).
  { intros n m Hnm. unfold from_millis, NANOS_PER_MILLI. apply Z.mul_le_mono_nonneg_r; [lia|].
    apply Z.min_le_compat_r. by apply Z.div_le_mono. }
  split_and!; [lia|lia| | | | |]; [apply Hd; nia..| |apply Hd; nia|].
  - assert (Hle : nominal_ms p a1 * (100 + c) / 100 <= as_millis (max_delay p) * 2).
    { apply Z.div_le_upper_bound; nia. }
    unfold from_millis, as_millis, NANOS_PER_MILLI in *.
    pose proof (Z.mul_div_le (max_delay p) 1000000 ltac:(lia)). lia.
  - intros H6. assert (Hf : nominal_ms p a1 = nominal_ms p 6); [|by rewrite Hf].
    unfold nominal_ms, factor. by repeat case_decide; try lia.
Qed.

Theorem backoff_bounded_monotone_witness :
  policy_typed RetryPolicy_default /\
  (fun a => delay (new RetryPolicy_default) a 0) <$> [1; 2; 3; 4; 5; 6; 7; 8]
    = from_secs <$> [1; 2; 5; 10; 20; 30; 30; 30] /\
  delay (new RetryPolicy_default) 3 (-50) = from_secs 4 /\
  delay (new RetryPolicy_default) 3 50 <= delay (new RetryPolicy_default) 4 50.
Proof.
  assert (Hp : policy_typed RetryPolicy_default) by (split; vm_compute; split; discriminate).
  split_and!; [exact Hp|vm_compute; reflexivity|vm_compute; reflexivity|].
  apply (backoff_bounded_monotone RetryPolicy_default 3 4 50 Hp). lia.
Defined.
