(* ===== verification/Runtime.v ===== *)
(** * Runtime: [ListenerRuntime] of crates/tunnel-core/src/runtime.rs, the owner
    of a Local or Dynamic tunnel's listening socket and of its lifecycle. *)
From S2P Require Import Prelude Io Text Net Domain StateMachine LifecycleSpec LifecycleProps.

(** A bound socket; [local_addr] is what the operating system answers. *)
Record TcpListener := mkTcpListener { tcp_local_addr : result SocketAddr IoError }.

Inductive ListenerRuntimeError :=
  | State (e : MachineError)
  | Bind (address : SocketAddr) (source : IoError).

Definition show_listener_runtime_error (e : ListenerRuntimeError) : string :=
  match e with
  | State e => show_machine_error e
  | Bind address source => "cannot bind " +:+ show_socket_addr address +:+ ": " +:+ io_text source
  end.

Record ListenerRuntime := mkListenerRuntime {
  machine_ : StateMachine;
  socket : option TcpListener
}.

Definition new : ListenerRuntime := mkListenerRuntime (StateMachine.new true) None.

Definition lifecycle (self : ListenerRuntime) : Lifecycle := state (machine_ self).

Definition local_addr (self : ListenerRuntime) : result (option SocketAddr) IoError :=
  match socket self with
  | Some l => result_map Some (tcp_local_addr l)
  | None => Ok None
  end.

Notation op := (ST ListenerRuntime ListenerRuntimeError).

(** [self.machine.transition(event)?] *)
Definition step (now : SystemTime) (event : Event.t) : op EventOutcome := fun self =>
  let '(r, m) := transition now event (machine_ self) in
  (map_err State r, mkListenerRuntime m (socket self)).

Definition set_socket (l : option TcpListener) (self : ListenerRuntime) : ListenerRuntime :=
  mkListenerRuntime (machine_ self) l.

Definition bind_error (source : IoError) : TunnelError :=
  let '(kind, retryability) :=
    match io_kind source with
    | ErrorKind.PermissionDenied => (PermissionDenied, Retryability.Blocked)
    | ErrorKind.AddrNotAvailable | ErrorKind.InvalidInput => (InvalidConfig, Retryability.Blocked)
    | _ => (Network, Retryability.Transient)
    end in
  {| err_kind := kind;
     err_stage := FailureStage.BindLocalPort;
     err_message := io_text source;
     err_retryability := retryability;
     err_source_chain := [] |}.

(** [next_retry_at] is what [Instant::now()] returned. *)
Definition record_bind_failure (now : SystemTime) (next_retry_at : Instant) (generation : Z)
    (address : SocketAddr) (source : IoError) : op unit :=
  if bool_decide (io_kind source = ErrorKind.AddrInUse) then
    step now (Event.ListenerConflict generation address) ;;; ret tt
  else
    step now (Event.Disconnected generation (bind_error source) 0 next_retry_at) ;;; ret tt.

(** The [_] arms of [start_listener] and [stop]. *)
Definition unexpected {A} (event : string) : op A :=
  let! self := get in
  throw (State (InvalidTransition event (RuntimePhase.from (runtime (lifecycle self))))).

Section Operations.
(** Successive readings of the wall clock, and one of the monotonic clock. *)
Context (clock : nat -> SystemTime) (instant : Instant).

(** [bound] is what [TcpListener::bind(address)] resolved to. *)
Definition start_listener (address : SocketAddr) (bound : result TcpListener IoError) : op Z :=
  let! outcome := step (clock 0) Event.Start in
  match outcome with
  | Applied (Some (BeginGeneration generation)) =>
      step (clock 1) (Event.Phase generation StartPhase.AcquiringListener) ;;;
      match bound with
      | Ok listener =>
          match tcp_local_addr listener with
          | Ok bound_address =>
              step (clock 2) (Event.ListenerBound generation bound_address) ;;;
              modify (set_socket (Some listener)) ;;;
              step (clock 3) (Event.Phase generation StartPhase.BuildingJumpChain) ;;;
              ret generation
          | Err source =>
              record_bind_failure (clock 2) instant generation address source ;;;
              throw (Bind address source)
          end
      | Err source =>
          record_bind_failure (clock 2) instant generation address source ;;;
          throw (Bind address source)
      end
  | _ => unexpected "start"
  end.

Definition stop : op unit :=
  let! outcome := step (clock 0) Event.Stop in
  match outcome with
  | Applied (Some (CancelAndJoin _)) =>
      modify (set_socket None) ;;;
      let! self := get in
      step (clock 1) (Event.ShutdownComplete (generation (lifecycle self))) ;;;
      ret tt
  | NoChange => ret tt
  | _ => unexpected "stop"
  end.
End Operations.

(** ** Reachability and the ownership invariant *)

Inductive rt_reachable : ListenerRuntime -> Prop :=
  | rt_new : rt_reachable new
  | rt_start r clock instant address bound res r' :
      rt_reachable r -> start_listener clock instant address bound r = (res, r') ->
      rt_reachable r'
  | rt_stop r clock res r' :
      rt_reachable r -> stop clock r = (res, r') -> rt_reachable r'.

(** The phases in which the operations leave the machine. *)
Definition rt_phase (c : core) (l : option TcpListener) : Prop :=
  match runtime c.1 with
  | RuntimeState.Stopped => l = None /\ listener c.1 = ListenerState.Unbound
  | RuntimeState.Starting p =>
      p = StartPhase.BuildingJumpChain
      /\ exists t a, l = Some t /\ tcp_local_addr t = Ok a /\ listener c.1 = ListenerState.Bound a
  | RuntimeState.Blocked _ =>
      l = None /\ (listener c.1 = ListenerState.Unbound
                   \/ exists a, listener c.1 = ListenerState.Conflict a None)
  | RuntimeState.Reconnecting _ _ _ => l = None /\ listener c.1 = ListenerState.Unbound
  | _ => False
  end.

(** The outcome of a bind, as one error or one address. *)
Definition bind_outcome (bound : result TcpListener IoError)
    : result (TcpListener * SocketAddr) IoError :=
  let? l := bound in let? a := tcp_local_addr l in Ok (l, a).

(** The lifecycle after a failed bind. *)
Definition bind_failed_state (instant : Instant) (address : SocketAddr) (source : IoError) (g : Z)
    : Lifecycle :=
  if bool_decide (io_kind source = ErrorKind.AddrInUse) then
    L DesiredState.Running (RuntimeState.Blocked (port_conflict_error address))
      (ListenerState.Conflict address None) fresh_health g
  else
    L DesiredState.Running
      (match err_retryability (bind_error source) with
       | Retryability.Transient => RuntimeState.Reconnecting 0 instant (bind_error source)
       | Retryability.Blocked => RuntimeState.Blocked (bind_error source)
       end) ListenerState.Unbound fresh_health g.

(** ** Lemmas *)

(** The machine is reachable, and its core is [c]. *)
Definition at_core (r : ListenerRuntime) (c : core) : Prop :=
  reachable true (machine_ r) /\ core_of (machine_ r) = c.

Definition fresh_event (e : Event.t) (c : core) : Prop :=
  match Event.generation e with Some g => g = generation c.1 | None => True end.

Lemma fresh_not_stale e m : fresh_event e (core_of m) -> is_stale e m = false.
Proof.
  unfold fresh_event, is_stale, core_of. destruct (Event.generation e); [|done].
  intros ->. by rewrite bool_decide_true.
Qed.

(** A rule of the lifecycle is a step of the runtime; the socket stays. *)
Lemma step_rule now e r c eff c' :
  at_core r c -> fresh_event e c -> rule true e c eff c' ->
  exists r', step now e r = (Ok (Applied eff), r') /\ at_core r' c' /\ socket r' = socket r.
Proof.
  intros [Hm <-] Hf Hr. destruct (reachable_machine_inv _ _ Hm) as [Hreq _].
  pose proof (transition_applied now e (machine_ r) eff c') as Ht. rewrite Hreq in Ht.
  specialize (Ht (fresh_not_stale _ _ Hf) Hr).
  eexists. unfold step. rewrite Ht. split_and!; [done| |done].
  split; [by eapply reachable_step|apply advance_core].
Qed.

Lemma step_refused now e r err :
  transition now e (machine_ r) = (Err err, machine_ r) -> step now e r = (Err (State err), r).
Proof. unfold step. intros ->. by destruct r. Qed.

(** Runs the next [step] of an operation by the rule given. *)
Ltac run_step tac :=
  match goal with
  | Hc : at_core ?r ?c |- context [step ?now ?e ?r] =>
      let r' := fresh "r" in let Hs := fresh "Hs" in let Hc' := fresh "Hc" in
      let He := fresh "He" in
      edestruct (step_rule now e r c) as (r' & Hs & Hc' & He);
        [exact Hc|cbn; done|tac|];
      rewrite ?Hs; clear Hs Hc
  end.

Lemma at_core_set_socket r c l : at_core r c -> at_core (set_socket l r) c.
Proof. done. Qed.

Lemma at_core_inv r c : at_core r c -> core_inv true c.
Proof.
  intros [Hm <-]. destruct (reachable_machine_inv _ _ Hm) as [<- Hi]. apply Hi.
Qed.

Lemma record_bind_failure_spec now instant g address source r :
  at_core r (L DesiredState.Running (RuntimeState.Starting StartPhase.AcquiringListener)
               ListenerState.Unbound fresh_health g, false) ->
  exists r', record_bind_failure now instant g address source r = (Ok tt, r')
    /\ at_core r' (bind_failed_state instant address source g, false) /\ socket r' = socket r.
Proof.
  intros Hc. unfold record_bind_failure, bind_failed_state, bind. case_bool_decide.
  - run_step ltac:(by apply rule_conflict). by eexists.
  - run_step ltac:(by apply rule_disconnected). by eexists.
Qed.

(** What [start_listener] does from Stopped, on every outcome of the bind. *)
Lemma start_from_stopped clock instant address bound r g :
  at_core r (L DesiredState.Stopped RuntimeState.Stopped ListenerState.Unbound fresh_health g, false) ->
  socket r = None -> g < u64_max ->
  exists r' l',
    start_listener clock instant address bound r
      = (match bind_outcome bound with
         | Ok _ => Ok (g + 1)
         | Err source => Err (Bind address source)
         end, r')
    /\ at_core r' (l', false)
    /\ match bind_outcome bound with
       | Ok (l, a) =>
           socket r' = Some l
           /\ l' = L DesiredState.Running (RuntimeState.Starting StartPhase.BuildingJumpChain)
                     (ListenerState.Bound a) fresh_health (g + 1)
       | Err source => socket r' = None /\ l' = bind_failed_state instant address source (g + 1)
       end.
Proof.
  intros Hc Hl Hg. unfold start_listener, bind_outcome, bind.
  run_step ltac:(by apply rule_start).
  run_step ltac:(by apply rule_phase).
  destruct bound as [t|source]; [destruct (tcp_local_addr t) as [a|source]|].
  - run_step ltac:(by apply rule_bound). cbn.
    match goal with H : at_core _ _ |- _ => apply (at_core_set_socket _ _ (Some t)) in H end.
    run_step ltac:(by apply rule_phase). cbn in *. eauto 10.
  - destruct (record_bind_failure_spec (clock 2%nat) instant _ address source _ ltac:(eassumption)) as (r' & -> & ? & ?).
    cbn. do 2 eexists. split_and!; [done|done|congruence|done].
  - destruct (record_bind_failure_spec (clock 2%nat) instant _ address source _ ltac:(eassumption)) as (r' & -> & ? & ?).
    cbn. do 2 eexists. split_and!; [done|done|congruence|done].
Qed.

Lemma transition_start_refused now m :
  runtime (state m) <> RuntimeState.Stopped ->
  transition now Event.Start m
  = (Err (InvalidTransition "start" (RuntimePhase.from (runtime (state m)))), m).
Proof. destruct m as [[d [] l h g] j rs req]; done. Qed.

Lemma start_refused clock instant address bound r :
  runtime (lifecycle r) <> RuntimeState.Stopped ->
  start_listener clock instant address bound r
  = (Err (State (InvalidTransition "start" (RuntimePhase.from (runtime (lifecycle r))))), r).
Proof.
  intros Hr. unfold start_listener, bind.
  by rewrite (step_refused _ _ _ _ (transition_start_refused _ _ Hr)).
Qed.

(** The counter is the only thing that can stop a Start or a Stop. *)
Lemma start_exhausted clock instant address bound r :
  runtime (lifecycle r) = RuntimeState.Stopped -> generation (lifecycle r) = u64_max ->
  start_listener clock instant address bound r = (Err (State GenerationExhausted), r).
Proof.
  intros Hr Hg. unfold start_listener, bind. erewrite step_refused; [done|].
  destruct r as [[[d ? l h g] j rs req] s]. cbn in *. by subst.
Qed.

Lemma stop_exhausted clock r :
  runtime (lifecycle r) <> RuntimeState.Stopped -> runtime (lifecycle r) <> RuntimeState.Stopping ->
  generation (lifecycle r) = u64_max ->
  stop clock r = (Err (State GenerationExhausted), r).
Proof.
  intros Hr1 Hr2 Hg. unfold stop, bind. erewrite step_refused; [done|].
  destruct r as [[[d [] l h g] j rs req] s]; cbn in *; subst; done.
Qed.

Lemma stop_active clock r d rt l h g rs :
  at_core r (L d rt l h g, rs) -> rt <> RuntimeState.Stopped -> rt <> RuntimeState.Stopping ->
  g < u64_max ->
  exists r', stop clock r = (Ok tt, r') /\ socket r' = None
    /\ at_core r' (L DesiredState.Stopped RuntimeState.Stopped ListenerState.Unbound
                     fresh_health (g + 1), false).
Proof.
  intros Hc H1 H2 Hg. unfold stop, bind.
  run_step ltac:(by apply rule_stop).
  match goal with H : at_core _ _ |- _ => apply (at_core_set_socket _ _ None) in H end.
  cbn [modify get].
  match goal with H : at_core ?r (?s, _) |- _ =>
    assert (lifecycle r = s) as -> by (destruct H as [_ Hcore]; by inv Hcore) end.
  run_step ltac:(by apply rule_shutdown_stop). cbn. eauto.
Qed.

Lemma stop_stopped clock r :
  runtime (lifecycle r) = RuntimeState.Stopped -> stop clock r = (Ok tt, r).
Proof. destruct r as [[[d [] l h g] j rs req] s]; done. Qed.

(** ** The ownership invariant *)

Definition rt_inv (r : ListenerRuntime) : Prop :=
  reachable true (machine_ r) /\ rt_phase (core_of (machine_ r)) (socket r).

Lemma rt_inv_at_core r c : at_core r c -> rt_phase c (socket r) -> rt_inv r.
Proof. intros [? <-] ?. by split. Qed.

Lemma rt_inv_new : rt_inv new.
Proof. split; [apply reachable_new|done]. Qed.

Lemma rt_inv_stopped r :
  rt_inv r -> runtime (lifecycle r) = RuntimeState.Stopped ->
  socket r = None
  /\ at_core r (L DesiredState.Stopped RuntimeState.Stopped ListenerState.Unbound fresh_health
                  (generation (lifecycle r)), false).
Proof.
  intros [Hm Hp] Hr. destruct (reachable_machine_inv _ _ Hm) as [Hreq [(Hph & _ & _) _ _ _]].
  unfold lifecycle, core_of, at_core, rt_phase in *.
  destruct r as [[[d rt l h g] j rs req] s]; cbn in *. subst rt req.
  destruct Hph as (-> & -> & -> & ->). destruct Hp as [-> _]. done.
Qed.

Lemma generation_le r : reachable true (machine_ r) -> generation (lifecycle r) <= u64_max.
Proof.
  intros Hm. destruct (reachable_machine_inv _ _ Hm) as [_ [(_ & _ & Hg) _ _ _]]. apply Hg.
Qed.

Lemma rt_inv_start clock instant address bound r res r' :
  rt_inv r -> start_listener clock instant address bound r = (res, r') -> rt_inv r'.
Proof.
  intros Hi Hs. destruct (decide (RuntimePhase.from (runtime (lifecycle r)) = RuntimePhase.Stopped))
    as [Hr|Hr].
  - assert (runtime (lifecycle r) = RuntimeState.Stopped) as Hst
      by (destruct (runtime (lifecycle r)); done).
    destruct (rt_inv_stopped r Hi Hst) as [Hl Hc].
    pose proof (generation_le r (proj1 Hi)).
    destruct (decide (generation (lifecycle r) = u64_max)) as [Hg|Hg].
    { rewrite start_exhausted in Hs by done. by simplify_eq. }
    destruct (start_from_stopped clock instant address bound r _ Hc Hl ltac:(lia))
      as (r2 & l' & Hs' & Hc' & Ho). rewrite Hs in Hs'. simplify_eq.
    apply (rt_inv_at_core _ _ Hc'). destruct (bind_outcome bound) as [[t a]|source] eqn:Eb.
    + destruct Ho as [-> ->]. cbn. split; [done|].
      unfold bind_outcome in Eb. split_matches. eauto.
    + destruct Ho as [-> ->]. unfold bind_failed_state, rt_phase.
      case_bool_decide; cbn; [by eauto|]. destruct (err_retryability _); cbn; auto.
  - rewrite start_refused in Hs by (by intros Hr'; rewrite Hr' in Hr). by simplify_eq.
Qed.

Lemma rt_inv_stop clock r res r' : rt_inv r -> stop clock r = (res, r') -> rt_inv r'.
Proof.
  intros Hi Hs. pose proof Hi as [Hm Hp]. pose proof (generation_le r Hm) as Hle.
  destruct (decide (RuntimePhase.from (runtime (lifecycle r)) = RuntimePhase.Stopped)) as [Hr|Hr].
  { rewrite stop_stopped in Hs by (by destruct (runtime (lifecycle r))). by simplify_eq. }
  assert (runtime (lifecycle r) <> RuntimeState.Stopped) as H1
    by (intros Hr'; by rewrite Hr' in Hr).
  assert (runtime (lifecycle r) <> RuntimeState.Stopping) as H2.
  { intros Hr'. unfold rt_phase in Hp. cbn in Hp. unfold lifecycle in Hr'. by rewrite Hr' in Hp. }
  destruct (decide (generation (lifecycle r) = u64_max)) as [Hg|Hg].
  { rewrite stop_exhausted in Hs by done. by simplify_eq. }
  assert (at_core r (core_of (machine_ r))) as Hc by done.
  unfold lifecycle, core_of in *. destruct (state (machine_ r)) as [d rt l h g] eqn:Es. cbn in *.
  destruct (stop_active clock r _ _ _ _ _ _ Hc H1 H2 ltac:(lia)) as (r2 & Hs' & Hl' & Hc').
  rewrite Hs in Hs'. simplify_eq. apply (rt_inv_at_core _ _ Hc'). by rewrite Hl'.
Qed.

Lemma rt_reachable_inv r : rt_reachable r -> rt_inv r.
Proof.
  induction 1; [apply rt_inv_new|by eapply rt_inv_start|by eapply rt_inv_stop].
Qed.

(** ** Properties *)

Lemma stop_releases_port r clock :
  rt_reachable r -> generation (lifecycle r) < u64_max ->
  exists r', stop clock r = (Ok tt, r') /\ socket r' = None
    /\ runtime (lifecycle r') = RuntimeState.Stopped
    /\ listener (lifecycle r') = ListenerState.Unbound.
Proof.
  intros Hr Hg. pose proof (rt_reachable_inv r Hr) as Hi. pose proof Hi as [Hm Hp].
  destruct (decide (RuntimePhase.from (runtime (lifecycle r)) = RuntimePhase.Stopped)) as [Hs|Hs].
  - assert (runtime (lifecycle r) = RuntimeState.Stopped) as Hst
      by (destruct (runtime (lifecycle r)); done).
    exists r. rewrite stop_stopped by done. destruct (rt_inv_stopped r Hi Hst) as [Hl [_ Hc]].
    unfold lifecycle. change (state (machine_ r)) with (core_of (machine_ r)).1. by rewrite Hc.
  - assert (runtime (lifecycle r) <> RuntimeState.Stopping) as H2.
    { intros Hr'. unfold rt_phase in Hp. cbn in Hp. unfold lifecycle in Hr'. by rewrite Hr' in Hp. }
    assert (at_core r (core_of (machine_ r))) as Hc by done.
    unfold lifecycle, core_of in *. destruct (state (machine_ r)) as [d rt l h g] eqn:Es. cbn in *.
    destruct (stop_active clock r _ _ _ _ _ _ Hc) as (r2 & Hs' & Hl' & [_ Hc']);
      [by intros ->|done|done|].
    exists r2. apply (f_equal fst) in Hc'. cbn in Hc'. by rewrite Hc'.
Qed.

(** Port ownership. Whatever the operating system answers and however
    Start and Stop are interleaved, the runtime owns a socket exactly when its
    lifecycle says the listener is bound, and then to the address the lifecycle
    shows; a Stopped, Blocked or Reconnecting runtime owns none; and a Stop
    that is not refused by the generation counter releases the port before the
    tunnel is reported Stopped. *)
Theorem socket_owned_iff_bound r clock :
  rt_reachable r ->
  (forall a, listener (lifecycle r) = ListenerState.Bound a <->
        exists t, socket r = Some t /\ tcp_local_addr t = Ok a)
  /\ (runtime (lifecycle r) = RuntimeState.Stopped -> socket r = None)
  /\ (generation (lifecycle r) < u64_max ->
      exists r', stop clock r = (Ok tt, r') /\ socket r' = None
        /\ runtime (lifecycle r') = RuntimeState.Stopped
        /\ listener (lifecycle r') = ListenerState.Unbound).
Proof.
  intros Hr. pose proof (rt_reachable_inv r Hr) as Hi. pose proof Hi as [Hm Hp].
  split_and!.
  - intros a. unfold rt_phase, lifecycle, core_of in *. cbn [fst] in *.
    destruct (runtime (state (machine_ r))); try done;
      (split; [intros Ha; rewrite Ha in Hp|intros (t & Ht & Hta); rewrite Ht in Hp]);
      unpack; eauto; congruence.
  - intros Hs. by apply rt_inv_stopped.
  - by apply stop_releases_port.
Qed.

Definition test_socket : TcpListener := mkTcpListener (Ok (SAV4 [127; 0; 0; 1] 1080)).

Definition bound_runtime : ListenerRuntime :=
  (start_listener (fun _ => 0) 0 (SAV4 [127; 0; 0; 1] 0) (Ok test_socket) new).2.

Theorem socket_owned_iff_bound_witness :
  listener (lifecycle bound_runtime) = ListenerState.Bound (SAV4 [127; 0; 0; 1] 1080)
  /\ (forall a, listener (lifecycle bound_runtime) = ListenerState.Bound a <->
           exists t, socket bound_runtime = Some t /\ tcp_local_addr t = Ok a).
Proof.
  split; [vm_compute; reflexivity|].
  apply (socket_owned_iff_bound bound_runtime (fun _ => 0)).
  eapply rt_start; [apply rt_new|]. unfold bound_runtime. apply surjective_pairing.
Defined.

(** Every outcome of a start. From Stopped with the socket released,
    [start_listener] returns the new generation, holding the socket with the
    address the lifecycle reports, exactly when the bind and the address query
    succeed; an occupied port is a conflict that blocks the tunnel, a
    permission or address error blocks it, and any other error leaves it
    reconnecting - always without a socket and with the bind error returned.
    In every other phase the start is refused and nothing changes. *)
Theorem start_listener_outcomes clock instant address bound r :
  rt_reachable r ->
  (runtime (lifecycle r) <> RuntimeState.Stopped ->
   start_listener clock instant address bound r
   = (Err (State (InvalidTransition "start" (RuntimePhase.from (runtime (lifecycle r))))), r))
  /\ (runtime (lifecycle r) = RuntimeState.Stopped -> generation (lifecycle r) < u64_max ->
      let g := generation (lifecycle r) + 1 in
      exists r',
        start_listener clock instant address bound r
          = (match bind_outcome bound with
             | Ok _ => Ok g
             | Err source => Err (Bind address source)
             end, r')
        /\ match bind_outcome bound with
           | Ok (l, a) =>
               socket r' = Some l
               /\ lifecycle r' = L DesiredState.Running
                    (RuntimeState.Starting StartPhase.BuildingJumpChain)
                    (ListenerState.Bound a) fresh_health g
           | Err source =>
               socket r' = None /\ lifecycle r' = bind_failed_state instant address source g
           end).
Proof.
  intros Hr. pose proof (rt_reachable_inv r Hr) as Hi. split; [apply start_refused|].
  intros Hs Hg g. destruct (rt_inv_stopped r Hi Hs) as [Hl Hc].
  destruct (start_from_stopped clock instant address bound r _ Hc Hl Hg)
    as (r' & l' & Heq & [_ Hc'] & Ho).
  exists r'. split; [exact Heq|]. unfold lifecycle.
  change (state (machine_ r')) with (core_of (machine_ r')).1. rewrite Hc'.
  destruct (bind_outcome bound) as [[l a]|source]; exact Ho.
Qed.

Theorem start_listener_outcomes_witness :
  exists r',
    start_listener (fun _ => 7) 9 (SAV4 [127; 0; 0; 1] 1080)
      (Err (mkIoError ErrorKind.AddrInUse "in use")) new
    = (Err (Bind (SAV4 [127; 0; 0; 1] 1080) (mkIoError ErrorKind.AddrInUse "in use")), r')
    /\ socket r' = None
    /\ lifecycle r' = bind_failed_state 9 (SAV4 [127; 0; 0; 1] 1080)
                        (mkIoError ErrorKind.AddrInUse "in use") 1.
Proof.
  apply (start_listener_outcomes (fun _ => 7) 9 (SAV4 [127; 0; 0; 1] 1080)
           (Err (mkIoError ErrorKind.AddrInUse "in use")) new rt_new);
    [reflexivity|vm_compute; reflexivity].
Defined.
