(* ===== verification/Socks5.v ===== *)
(** * Socks5: the SOCKS5 front end of crates/forwarding/src/socks5.rs. *)
From S2P Require Import Prelude Io Text Net.

Definition VERSION : Z := 5.
Definition CONNECT : Z := 1.
Definition NO_AUTH : Z := 0.

Module Destination.
Inductive t :=
  | Ip (address : SocketAddr)
  | Domain (host : string) (port : Z).

Definition host (self : t) : string :=
  match self with
  | Ip address => show_ip (sa_ip address)
  | Domain host _ => host
  end.

Definition port (self : t) : Z :=
  match self with
  | Ip address => sa_port address
  | Domain _ port => port
  end.
End Destination.

(** [struct SocksConnectRequest { destination }] *)
Record SocksConnectRequest := mkSocksConnectRequest { destination : Destination.t }.

Module SocksReply.
Inductive t :=
  | Succeeded | GeneralFailure | NotAllowed | NetworkUnreachable | HostUnreachable
  | ConnectionRefused | TtlExpired | CommandNotSupported | AddressTypeNotSupported.

(** [self as u8] *)
Definition code (r : t) : Z :=
  match r with
  | Succeeded => 0 | GeneralFailure => 1 | NotAllowed => 2 | NetworkUnreachable => 3
  | HostUnreachable => 4 | ConnectionRefused => 5 | TtlExpired => 6
  | CommandNotSupported => 7 | AddressTypeNotSupported => 8
  end.
End SocksReply.

Module SocksError.
Inductive t :=
  | Io (e : IoError)
  | NoAcceptedMethod
  | InvalidRequest (what : string).
End SocksError.

Definition show_socks_error (e : SocksError.t) : string :=
  match e with
  | SocksError.Io e => io_text e
  | SocksError.NoAcceptedMethod => "SOCKS5 client did not offer NO AUTH"
  | SocksError.InvalidRequest what => "invalid SOCKS5 request: " +:+ what
  end.

Notation io m := (with_err SocksError.Io m).
Notation socks := (ST Stream SocksError.t).

(** [u16::from_be_bytes] and [Ipv6Addr::from([u8; 16])]. *)
Definition from_be_bytes (l : list Z) : Z := foldl (fun acc b => acc * 256 + b) 0 l.
Fixpoint segments (l : list Z) : list Z :=
  match l with
  | hi :: lo :: r => hi * 256 + lo :: segments r
  | _ => []
  end.

Definition read_port : ST Stream IoError Z :=
  let! b := read_exact 2 in ret (from_be_bytes b).

Definition reply_frame (r : SocksReply.t) : list Z :=
  [VERSION; SocksReply.code r; 0; 1; 0; 0; 0; 0; 0; 0].

Definition reply (r : SocksReply.t) : socks unit := io (write_all (reply_frame r)).

(** [self.reply(stream, r).await?; return Err(InvalidRequest(what))] *)
Definition refuse {A} (r : SocksReply.t) (what : string) : socks A :=
  reply r ;;; throw (SocksError.InvalidRequest what).

Definition byte_at (l : list Z) (i : nat) : Z := l !!! i.

(** The greeting: version, number of methods, methods. *)
Definition read_greeting : socks unit :=
  let! greeting := io (read_exact 2) in
  if bool_decide (byte_at greeting 0 <> VERSION) || bool_decide (byte_at greeting 1 = 0) then
    throw (SocksError.InvalidRequest "invalid greeting")
  else
    let! methods := io (read_exact (Z.to_nat (byte_at greeting 1))) in
    if bool_decide (NO_AUTH ∈ methods) then io (write_all [VERSION; NO_AUTH])
    else
      io (write_all [VERSION; 0xff]) ;;;
      throw SocksError.NoAcceptedMethod.

(** The [match header[3]] of [read_connect]. *)
Definition read_destination (kind : Z) : socks Destination.t :=
  match kind with
  | 1 =>
      let! address := io (read_exact 4) in
      let! port := io read_port in
      ret (Destination.Ip (socket_addr (V4 address) port))
  | 3 =>
      let! length := io (read_exact 1) in
      let length := byte_at length 0 in
      if bool_decide (length = 0) then refuse SocksReply.AddressTypeNotSupported "empty domain"
      else
        let! name := io (read_exact (Z.to_nat length)) in
        if from_utf8_ok name then
          let! port := io read_port in
          ret (Destination.Domain (of_bytes name) port)
        else refuse SocksReply.AddressTypeNotSupported "domain is not UTF-8"
  | 4 =>
      let! address := io (read_exact 16) in
      let! port := io read_port in
      ret (Destination.Ip (socket_addr (V6 (segments address)) port))
  | _ => refuse SocksReply.AddressTypeNotSupported "unsupported address type"
  end.

Definition read_connect : socks SocksConnectRequest :=
  read_greeting ;;;
  let! header := io (read_exact 4) in
  if bool_decide (byte_at header 0 <> VERSION) || bool_decide (byte_at header 2 <> 0) then
    refuse SocksReply.GeneralFailure "invalid request header"
  else if bool_decide (byte_at header 1 <> CONNECT) then
    refuse SocksReply.CommandNotSupported "only CONNECT is supported"
  else
    let! destination := read_destination (byte_at header 3) in
    if bool_decide (Destination.port destination = 0) then
      refuse SocksReply.GeneralFailure "port is zero"
    else ret (mkSocksConnectRequest destination).

(** ** The wire format of a request, as RFC 1928 defines it *)

Definition be16 (n : Z) : list Z := [n / 256; n mod 256].

Definition encode_address (d : Destination.t) : list Z :=
  match d with
  | Destination.Ip (SAV4 octets port) => 1 :: octets ++ be16 port
  | Destination.Ip (SAV6 s port _) => 4 :: flat_map be16 s ++ be16 port
  | Destination.Domain host port => 3 :: str_len host :: bytes host ++ be16 port
  end.

(** What a client sends: the methods it offers, then a CONNECT request. *)
Definition encode (methods : list Z) (d : Destination.t) : list Z :=
  VERSION :: Z.of_nat (length methods) :: methods
  ++ [VERSION; CONNECT; 0] ++ encode_address d.

Definition offers_no_auth (methods : list Z) : Prop :=
  (1 <= length methods <= 255)%nat /\ NO_AUTH ∈ methods.

(** The destinations the protocol can carry. *)
Definition valid_destination (d : Destination.t) : Prop :=
  match d with
  | Destination.Ip (SAV4 octets port) =>
      length octets = 4%nat /\ Forall u8 octets /\ 1 <= port <= u16_max
  | Destination.Ip (SAV6 s port scope) =>
      length s = 8%nat /\ Forall u16 s /\ 1 <= port <= u16_max /\ scope = 0
  | Destination.Domain host port =>
      1 <= str_len host <= 255 /\ from_utf8_ok (bytes host) = true /\ 1 <= port <= u16_max
  end.

(** ** Lemmas *)

Lemma from_be16 n : from_be_bytes (be16 n) = n.
Proof. unfold from_be_bytes, be16. cbn. pose proof (Z.div_mod n 256). lia. Qed.

Lemma be16_length n : length (be16 n) = 2%nat.
Proof. done. Qed.

Lemma from_be_bytes_2 a b : from_be_bytes [a; b] = a * 256 + b.
Proof. unfold from_be_bytes. cbn. lia. Qed.

Lemma be16_of_bytes a b : u8 a -> u8 b -> be16 (a * 256 + b) = [a; b].
Proof.
  unfold u8, u8_max, be16. intros. rewrite Z.add_comm, Z.div_add, Z.mod_add by lia.
  by rewrite Z.div_small, Z.mod_small by lia.
Qed.

Lemma be16_u8 n : u16 n -> Forall u8 (be16 n).
Proof.
  unfold u16, u16_max, be16. intros.
  pose proof (Z.mod_pos_bound n 256). pose proof (Z.div_lt_upper_bound n 256 256).
  pose proof (Z.div_pos n 256). repeat constructor; unfold u8_max; lia.
Qed.

Lemma segments_flat s : segments (flat_map be16 s) = s.
Proof.
  induction s as [|n s IH]; [done|]. cbn [flat_map be16 app segments]. rewrite IH. f_equal.
  pose proof (Z.div_mod n 256). lia.
Qed.

Lemma flat_segments k l :
  length l = (2 * k)%nat -> Forall u8 l ->
  flat_map be16 (segments l) = l /\ length (segments l) = k /\ Forall u16 (segments l).
Proof.
  revert l. induction k as [|k IH]; intros l Hl Hb.
  - by destruct l.
  - destruct l as [|a [|b l]]; cbn in Hl; try lia.
    inv Hb. match goal with H : Forall u8 (b :: l) |- _ => inv H end.
    destruct (IH l) as (Hf & Hn & Hu); [lia|done|].
    cbn [segments flat_map]. rewrite Hf, be16_of_bytes by done. cbn [length app].
    split_and!; [done|lia|]. constructor; [|done]. unfold u8, u8_max, u16, u16_max in *. lia.
Qed.

Lemma flat_be16_length s : length (flat_map be16 s) = (2 * length s)%nat.
Proof. induction s; cbn; lia. Qed.

Lemma offers_count methods :
  offers_no_auth methods -> 1 <= Z.of_nat (length methods) <= 255.
Proof. unfold offers_no_auth. lia. Qed.

(** Reading from a stream that starts with a known list. *)
Lemma read_exact_prefix n l rest e out f :
  length l = n -> read_exact n (mkStream (l ++ rest) e out f) = (Ok l, mkStream rest e out f).
Proof. intros <-. apply read_exact_app. Qed.

Lemma io_ok {A} (m : ST Stream IoError A) s a s' : m s = (Ok a, s') -> io m s = (Ok a, s').
Proof. unfold with_err. by intros ->. Qed.

Lemma read_port_prefix p rest e out f :
  read_port (mkStream (be16 p ++ rest) e out f) = (Ok p, mkStream rest e out f).
Proof.
  unfold read_port. erewrite bind_step by (by apply read_exact_prefix). by rewrite from_be16.
Qed.

Lemma read_greeting_encode methods rest e out :
  offers_no_auth methods ->
  read_greeting (mkStream (VERSION :: Z.of_nat (length methods) :: methods ++ rest) e out None)
  = (Ok tt, mkStream rest e (out ++ [VERSION; NO_AUTH]) None).
Proof.
  intros Hm. pose proof (offers_count _ Hm). unfold read_greeting.
  erewrite bind_step by
    (apply io_ok, (read_exact_prefix 2 [VERSION; Z.of_nat (length methods)]); reflexivity).
  cbn [byte_at lookup_total list_lookup_total]. rewrite bool_decide_false by tauto.
  rewrite bool_decide_false by lia. cbn [orb].
  erewrite bind_step by (apply io_ok, read_exact_prefix; lia).
  rewrite bool_decide_true by apply Hm. done.
Qed.

Lemma read_destination_encode d kind body rest e out :
  valid_destination d -> encode_address d = kind :: body ->
  read_destination kind (mkStream (body ++ rest) e out None) = (Ok d, mkStream rest e out None).
Proof.
  intros Hd He. destruct d as [[octets port|s port scope]|host port]; cbn in He; simplify_eq;
    cbn in Hd; unfold read_destination.
  - destruct Hd as (Hl & _). rewrite <-app_assoc.
    erewrite bind_step by (apply io_ok, read_exact_prefix; done).
    by erewrite bind_step by (apply io_ok, read_port_prefix).
  - destruct Hd as (Hl & _ & _ & ->). rewrite <-app_assoc.
    erewrite bind_step by (apply io_ok, read_exact_prefix; rewrite flat_be16_length; lia).
    erewrite bind_step by (apply io_ok, read_port_prefix). by rewrite segments_flat.
  - destruct Hd as (Hl & Hu & _).
    change ((str_len host :: bytes host ++ be16 port) ++ rest)
      with ([str_len host] ++ (bytes host ++ be16 port) ++ rest).
    erewrite bind_step by (apply io_ok, read_exact_prefix; done).
    cbn [byte_at lookup_total list_lookup_total]. rewrite bool_decide_false by lia.
    rewrite <-app_assoc.
    erewrite bind_step by
      (apply io_ok, read_exact_prefix; pose proof (length_bytes host); lia).
    rewrite Hu. erewrite bind_step by (apply io_ok, read_port_prefix).
    by rewrite of_bytes_bytes.
Qed.

Lemma valid_destination_port d : valid_destination d -> Destination.port d <> 0.
Proof. destruct d as [[]|]; cbn; lia. Qed.

Lemma encode_address_cons d : exists kind body, encode_address d = kind :: body.
Proof. destruct d as [[]|]; cbn; eauto. Qed.

(** ** Round trip *)

(** A well-formed request is understood, and nothing else is consumed. For
    every method list that offers NO AUTH and every destination the protocol
    can carry (IPv4, IPv6 or a UTF-8 name of up to 255 bytes, with a nonzero
    port), [read_connect] on the encoded greeting and request returns that
    destination, answers exactly the method selection [5, 0], and leaves the
    bytes after the request for the relay. *)
Theorem read_connect_encode methods d rest e out :
  offers_no_auth methods -> valid_destination d ->
  read_connect (mkStream (encode methods d ++ rest) e out None)
  = (Ok (mkSocksConnectRequest d), mkStream rest e (out ++ [VERSION; NO_AUTH]) None).
Proof.
  intros Hm Hd. destruct (encode_address_cons d) as (kind & body & He).
  unfold read_connect, encode. rewrite He.
  replace ((VERSION :: Z.of_nat (length methods) :: methods
            ++ [VERSION; CONNECT; 0] ++ kind :: body) ++ rest)
    with (VERSION :: Z.of_nat (length methods) :: methods
          ++ ([VERSION; CONNECT; 0; kind] ++ (body ++ rest))) by (cbn; by rewrite <-app_assoc).
  erewrite bind_step by (by apply read_greeting_encode).
  erewrite bind_step by (apply io_ok, read_exact_prefix; done).
  cbn [byte_at lookup_total list_lookup_total]. rewrite !bool_decide_false by tauto. cbn [orb].
  erewrite bind_step by (by apply read_destination_encode).
  by rewrite bool_decide_false by (by apply valid_destination_port).
Qed.

Theorem read_connect_encode_witness :
  read_connect (fed (encode [2; 0] (Destination.Domain "example.com" 443) ++ [71; 69; 84]))
  = (Ok (mkSocksConnectRequest (Destination.Domain "example.com" 443)),
     mkStream [71; 69; 84] early_eof [5; 0] None).
Proof.
  apply (read_connect_encode [2; 0] (Destination.Domain "example.com" 443) [71; 69; 84]).
  - split; [cbn; lia|]. set_solver.
  - split_and!; vm_compute; congruence.
Defined.

(** ** Soundness: what an accepted request was *)

(** [s'] is [s] after reading [l] and writing [w]. *)
Definition moved (s s' : Stream) (l w : list Z) : Prop :=
  rx s = l ++ rx s' /\ tx s' = tx s ++ w.

Lemma moved_trans s1 s2 s3 l1 l2 w1 w2 :
  moved s1 s2 l1 w1 -> moved s2 s3 l2 w2 -> moved s1 s3 (l1 ++ l2) (w1 ++ w2).
Proof.
  intros [H1 H2] [H3 H4]. split; [rewrite H1, H3|rewrite H4, H2]; by rewrite app_assoc.
Qed.

Lemma moved_u8 s s' l w :
  moved s s' l w -> Forall u8 (rx s) -> Forall u8 l /\ Forall u8 (rx s').
Proof. intros [-> _] H. by apply Forall_app in H. Qed.

Lemma read_exact_moved n s l s' :
  read_exact n s = (Ok l, s') -> length l = n /\ moved s s' l [].
Proof.
  intros H. apply read_exact_ok in H as (? & ? & _ & ?). unfold moved. by rewrite app_nil_r.
Qed.

Lemma write_all_moved l s u s' : write_all l s = (Ok u, s') -> moved s s' [] l.
Proof. intros H. apply write_all_ok in H as (? & _ & ?). by split. Qed.

(** The next call of a successful run: what it read or wrote. *)
Ltac next_moved :=
  match goal with
  | H : bind _ _ _ = (Ok _, _) |- _ => apply bind_ok in H as (? & ? & ? & ?)
  | H : with_err _ _ _ = (Ok _, _) |- _ => apply with_err_ok in H
  | H : ret _ _ = (Ok _, _) |- _ => unfold ret in H; simplify_eq
  | H : throw _ _ = (Ok _, _) |- _ => discriminate H
  | H : read_exact _ _ = (Ok _, _) |- _ => apply read_exact_moved in H as [? ?]
  | H : write_all _ _ = (Ok _, _) |- _ => apply write_all_moved in H
  | Hm : moved ?s ?s' _ _, Hb : Forall u8 (rx ?s) |- _ =>
      lazymatch goal with
      | _ : Forall u8 (rx s') |- _ => fail
      | _ => destruct (moved_u8 _ _ _ _ Hm Hb)
      end
  end.

(** Composes the moves into one, and concludes with it. *)
Ltac join_moves :=
  repeat match goal with
  | H1 : moved ?a ?b _ _, H2 : moved ?b ?c _ _ |- _ =>
      let H := fresh "H" in pose proof (moved_trans _ _ _ _ _ _ _ H1 H2) as H; clear H1 H2
  end;
  rewrite ?app_nil_r, ?app_nil_l, <-?app_assoc in *; cbn [app] in *.

Lemma read_port_moved s p s' :
  Forall u8 (rx s) -> read_port s = (Ok p, s') -> 0 <= p <= u16_max /\ moved s s' (be16 p) [].
Proof.
  intros Hb Hr. unfold read_port in Hr. repeat next_moved.
  match goal with H : moved _ _ ?l _ |- _ => destruct l as [|a [|b [|]]] end; try done.
  rewrite from_be_bytes_2. decompose_Forall. rewrite be16_of_bytes by done.
  split; [unfold u8, u8_max, u16_max in *; lia|done].
Qed.

Lemma read_greeting_moved s u s' :
  Forall u8 (rx s) -> read_greeting s = (Ok u, s') ->
  exists methods, offers_no_auth methods
    /\ moved s s' (VERSION :: Z.of_nat (length methods) :: methods) [VERSION; NO_AUTH].
Proof.
  intros Hb Hr. unfold read_greeting in Hr. repeat next_moved.
  match goal with H : length ?l = 2%nat |- _ => destruct l as [|v [|n [|]]]; try done end.
  cbn [byte_at lookup_total list_lookup_total] in *.
  split_match; bools; [done|]. repeat next_moved. split_match; bools; repeat next_moved.
  decompose_Forall.
  match goal with H : length ?l = Z.to_nat n |- _ => exists l; rewrite H; rename H into Hl end.
  unfold u8, u8_max in *. split; [unfold offers_no_auth; split; [lia|done]|].
  rewrite Z2Nat.id by lia. replace v with VERSION in * by (by destruct (decide (v = VERSION))).
  by join_moves.
Qed.

Lemma refuse_err {A} r what s (a : A) s' : refuse r what s <> (Ok a, s').
Proof. unfold refuse. intros H. apply bind_ok in H as (? & ? & _ & H). done. Qed.

Lemma read_destination_moved kind s d s' :
  Forall u8 (rx s) -> read_destination kind s = (Ok d, s') ->
  Destination.port d <> 0 ->
  valid_destination d
  /\ exists body, encode_address d = kind :: body /\ moved s s' body [].
Proof.
  intros Hb Hr Hp. unfold read_destination in Hr.
  assert (kind = 1 \/ kind = 3 \/ kind = 4) as [-> | [-> | ->]].
  { destruct kind as [|p|p]; do 3 try destruct p as [p|p|]; auto; exfalso; by eapply refuse_err. }
  - repeat next_moved.
    match goal with H : read_port _ = _ |- _ => apply read_port_moved in H as [? ?] end; [|done].
    cbn in *. split; [split_and!; [done|done|lia|lia]|].
    eexists. split; [done|]. by join_moves.
  - repeat next_moved.
    match goal with H : length ?l = 1%nat |- _ => destruct l as [|n [|]]; try done end.
    cbn [byte_at lookup_total list_lookup_total] in *.
    split_match; bools; [exfalso; by eapply refuse_err|]. repeat next_moved.
    split_match; [|exfalso; by eapply refuse_err]. repeat next_moved.
    match goal with H : read_port _ = _ |- _ => apply read_port_moved in H as [? ?] end; [|done].
    decompose_Forall.
    match goal with H : length ?l = Z.to_nat n |- _ => rename l into name, H into Hl end.
    assert (Hn : str_len (of_bytes name) = n).
    { rewrite <-length_bytes, bytes_of_bytes by done. unfold u8, u8_max in *. lia. }
    cbn in *. rewrite Hn, bytes_of_bytes by done. unfold u8, u8_max in *.
    split; [split_and!; [lia|lia|done|lia|lia]|].
    eexists. split; [done|]. by join_moves.
  - repeat next_moved.
    match goal with H : read_port _ = _ |- _ => apply read_port_moved in H as [? ?] end; [|done].
    destruct (flat_segments 8 x) as (Hf & Hn & Hu); [done|done|].
    cbn in *. split; [split_and!; [done|done|lia|lia|done]|].
    eexists. split; [done|]. rewrite Hf. by join_moves.
Qed.

(** Nothing else is accepted. Whatever bytes the peer sends and wherever
    its stream ends, when [read_connect] returns a request then the bytes it
    consumed are exactly the encoding of a greeting that offers NO AUTH and of
    that valid request, and the only bytes it wrote are the method selection. *)
Lemma read_connect_accepts s req s' :
  Forall u8 (rx s) -> read_connect s = (Ok req, s') ->
  exists methods,
    offers_no_auth methods /\ valid_destination (destination req)
    /\ rx s = encode methods (destination req) ++ rx s'
    /\ tx s' = tx s ++ [VERSION; NO_AUTH].
Proof.
  intros Hb Hr. unfold read_connect in Hr. apply bind_ok in Hr as (u & s1 & Hg & Hr).
  apply read_greeting_moved in Hg as (methods & Hm & Hg); [|done]. repeat next_moved.
  match goal with H : length ?l = 4%nat |- _ => destruct l as [|v [|c [|z [|kind [|]]]]]; try done end.
  cbn [byte_at lookup_total list_lookup_total] in *.
  split_match; bools; [exfalso; by eapply refuse_err|].
  split_match; bools; [exfalso; by eapply refuse_err|].
  repeat next_moved. split_match; bools; [exfalso; by eapply refuse_err|]. repeat next_moved.
  match goal with H : read_destination _ _ = _ |- _ =>
    apply read_destination_moved in H as (Hv & body & He & ?); [|done..] end.
  replace v with VERSION in * by (by destruct (decide (v = VERSION))).
  replace z with 0 in * by (by destruct (decide (z = 0))).
  replace c with CONNECT in * by (by destruct (decide (c = CONNECT))).
  exists methods. split_and!; [done|done| |];
    join_moves; match goal with H : moved s s' _ _ |- _ => destruct H as [Hrx Htx] end; [|done].
  rewrite Hrx. unfold encode. cbn [destination]. rewrite He. cbn [app].
  by rewrite <-!app_assoc.
Qed.

(** ** Refusals *)

#[export] Instance SocksReply_eq_dec : EqDecision SocksReply.t.
Proof. solve_decision. Defined.

(** The reply sent for each request the front end turns down. *)
Definition refusals : list (SocksReply.t * string) :=
  [(SocksReply.GeneralFailure, "invalid request header");
   (SocksReply.CommandNotSupported, "only CONNECT is supported");
   (SocksReply.AddressTypeNotSupported, "empty domain");
   (SocksReply.AddressTypeNotSupported, "domain is not UTF-8");
   (SocksReply.AddressTypeNotSupported, "unsupported address type");
   (SocksReply.GeneralFailure, "port is zero")].

(** [answer e w]: a failure [e] may leave the client with exactly [w] written. *)
Inductive answer : SocksError.t -> list Z -> Prop :=
  | answer_greeting : answer (SocksError.InvalidRequest "invalid greeting") []
  | answer_method : answer SocksError.NoAcceptedMethod [VERSION; 0xff]
  | answer_refused r what :
      (r, what) ∈ refusals ->
      answer (SocksError.InvalidRequest what) ([VERSION; NO_AUTH] ++ reply_frame r)
  | answer_io e e' w w' :
      answer e' w' -> w `prefix_of` w' -> answer (SocksError.Io e) w.

Lemma refuse_inv {A} r what s e s' :
  refuse (A := A) r what s = (Err e, s') ->
  (e = SocksError.InvalidRequest what /\ tx s' = tx s ++ reply_frame r)
  \/ exists ioe w, e = SocksError.Io ioe /\ w `prefix_of` reply_frame r /\ tx s' = tx s ++ w.
Proof.
  unfold refuse, reply. intros H. stream_inv; subst; [right|by left].
  do 2 eexists. split_and!; [done| |done]. apply prefix_take.
Qed.

(** A failure after the method selection. *)
Definition late_answer (e : SocksError.t) (w : list Z) : Prop :=
  answer e ([VERSION; NO_AUTH] ++ w).

Lemma late_answer_io e : late_answer (SocksError.Io e) [].
Proof.
  eapply answer_io; [apply (answer_refused SocksReply.GeneralFailure "port is zero")|].
  - unfold refusals. set_solver.
  - apply prefix_app. apply prefix_nil.
Qed.

Lemma refuse_late {A} r what s e s' :
  (r, what) ∈ refusals -> refuse (A := A) r what s = (Err e, s') ->
  exists w, tx s' = tx s ++ w /\ late_answer e w.
Proof.
  intros Hin [(-> & Ht)|(ioe & w & -> & Hw & Ht)]%refuse_inv.
  - eexists. split; [done|]. by apply answer_refused.
  - exists w. split; [done|]. eapply answer_io; [by apply answer_refused|]. by apply prefix_app.
Qed.

Lemma in_refusals r what : bool_decide ((r, what) ∈ refusals) = true -> (r, what) ∈ refusals.
Proof. apply bool_decide_eq_true_1. Qed.

(** A failing run of what follows the method selection: a read or a write
    failed, or the request was refused. *)
Ltac late :=
  stream_inv; repeat (split_match; bools; stream_inv); subst;
  solve
    [ match goal with
      | H : refuse _ _ _ = (Err _, _) |- _ =>
          apply refuse_late in H as (w & Hw & ?); [|by apply in_refusals];
          exists w; split; [congruence|done]
      end
    | exists []; rewrite app_nil_r; split; [congruence|apply late_answer_io] ].

Lemma read_destination_tx kind s d s' : read_destination kind s = (Ok d, s') -> tx s' = tx s.
Proof.
  unfold read_destination, read_port. intros Hr.
  destruct kind as [|p|p]; do 3 try destruct p as [p|p|];
    stream_inv; repeat (split_match; bools; stream_inv);
    try (exfalso; by eapply refuse_err); congruence.
Qed.

Lemma read_destination_late kind s e s' :
  read_destination kind s = (Err e, s') -> exists w, tx s' = tx s ++ w /\ late_answer e w.
Proof.
  intros Hr. unfold read_destination, read_port in Hr.
  assert (Hun : refuse (A := Destination.t) SocksReply.AddressTypeNotSupported
                  "unsupported address type" s = (Err e, s') ->
                exists w, tx s' = tx s ++ w /\ late_answer e w).
  { apply refuse_late. unfold refusals. set_solver. }
  destruct kind as [|p|p]; do 3 try destruct p as [p|p|]; auto; clear Hun; late.
Qed.

Lemma read_greeting_tx s u s' :
  read_greeting s = (Ok u, s') -> tx s' = tx s ++ [VERSION; NO_AUTH].
Proof.
  unfold read_greeting. intros Hg.
  stream_inv; repeat (split_match; bools; stream_inv); try done; congruence.
Qed.

Lemma answer_io_nil e : answer (SocksError.Io e) [].
Proof. eapply answer_io; [apply answer_method|apply prefix_nil]. Qed.

(** The written bytes end with the last write. *)
Ltac tx_eq :=
  match goal with H : tx ?s' = _ ++ _ |- tx ?s' = _ ++ _ =>
    rewrite H; f_equal; congruence end.

Lemma read_greeting_err s e s' :
  read_greeting s = (Err e, s') -> exists w, tx s' = tx s ++ w /\ answer e w.
Proof.
  unfold read_greeting. intros Hg.
  stream_inv; repeat (split_match; bools; stream_inv); subst;
    try (exists []; rewrite app_nil_r; split; [congruence|];
         first [apply answer_io_nil|apply answer_greeting]).
  - eexists. split; [tx_eq|].
    eapply answer_io; [apply (answer_refused SocksReply.GeneralFailure "port is zero"), in_refusals; done|].
    apply prefix_app_r, prefix_take.
  - eexists. split; [tx_eq|]. eapply answer_io; [apply answer_method|apply prefix_take].
  - eexists. split; [tx_eq|apply answer_method].
Qed.

(** Every failure is answered as the protocol prescribes, and never with a
    success reply. A malformed greeting gets no answer, a greeting without NO
    AUTH the selection 0xFF, a refused request the ten-byte reply with the code
    of the table [refusals]; a failing stream leaves a prefix of one of these. *)
Theorem read_connect_refusals s e s' :
  read_connect s = (Err e, s') -> exists w, tx s' = tx s ++ w /\ answer e w.
Proof.
  intros Hr. unfold read_connect in Hr. apply bind_err in Hr as [Hg|([] & s1 & Hg & Hr)].
  - by apply read_greeting_err.
  - apply read_greeting_tx in Hg.
    cut (exists w, tx s' = tx s1 ++ w /\ late_answer e w).
    { intros (w & Hw & Ha). exists ([VERSION; NO_AUTH] ++ w). split; [|done].
      by rewrite Hw, Hg, <-app_assoc. }
    stream_inv; [late|]. repeat (split_match; bools); [late..|].
    apply bind_err in H0 as [H0|(d & s2 & Hd & H0)].
    { apply read_destination_late in H0 as (w & Hw & ?). exists w. split; [congruence|done]. }
    apply read_destination_tx in Hd. late.
Qed.

Theorem read_connect_refusals_witness :
  exists w, [5; 0; 5; 7; 0; 1; 0; 0; 0; 0; 0; 0] = [] ++ w
    /\ answer (SocksError.InvalidRequest "only CONNECT is supported") w.
Proof.
  apply (read_connect_refusals (fed [5; 1; 0; 5; 2; 0; 1])
    (SocksError.InvalidRequest "only CONNECT is supported")
    (mkStream [] early_eof [5; 0; 5; 7; 0; 1; 0; 0; 0; 0; 0; 0] None)).
  vm_compute. reflexivity.
Defined.
