(* ===== verification/Relay.v ===== *)
(** * Relay: the bidirectional relay of crates/forwarding/src/relay.rs.

    [copy_direction] runs between await points; each constructor of [phase] is
    one of them, and [copy_step] is the code from one await point to the next,
    given which branch of the biased [select!] completed. [relay_step]
    interleaves the two directions of [relay_bidirectional] in any order. *)
From S2P Require Import Prelude Io.

Definition RELAY_BUFFER_BYTES : Z := 16 * 1024.

Record TrafficCounters := mkTrafficCounters {
  uploaded : Z;
  downloaded : Z;
  active_connections : Z
}.

Definition TrafficCounters_default : TrafficCounters := mkTrafficCounters 0 0 0.

(** [fetch_add] and [fetch_sub] wrap around. *)
Definition fetch_add (max n counter : Z) : Z := wrapping_add max counter n.
Definition fetch_sub (max n counter : Z) : Z := (counter - n) mod (max + 1).

Definition on_uploaded (f : Z -> Z) (c : TrafficCounters) : TrafficCounters :=
  mkTrafficCounters (f (uploaded c)) (downloaded c) (active_connections c).
Definition on_downloaded (f : Z -> Z) (c : TrafficCounters) : TrafficCounters :=
  mkTrafficCounters (uploaded c) (f (downloaded c)) (active_connections c).

(** [ActiveConnection::new] and its [Drop]. *)
Definition ActiveConnection_new (c : TrafficCounters) : TrafficCounters :=
  mkTrafficCounters (uploaded c) (downloaded c) (fetch_add u32_max 1 (active_connections c)).
Definition ActiveConnection_drop (c : TrafficCounters) : TrafficCounters :=
  mkTrafficCounters (uploaded c) (downloaded c) (fetch_sub u32_max 1 (active_connections c)).

(** ** One direction *)

Module Phase.
Inductive t :=
  | Reading                       (* awaiting [reader.read] *)
  | Writing (rest : list Z)       (* awaiting [writer.write(&buffer[written..count])] *)
  | ShuttingDown                  (* awaiting [writer.shutdown] *)
  | Returned (r : result unit IoError).
End Phase.

(** The branch of the [select!] that completed. *)
Inductive ready :=
  | Token                                   (* [cancellation.cancelled()] *)
  | Read (r : result (list Z) IoError)
  | Wrote (r : result nat IoError)
  | Shut (r : result unit IoError).

(** A direction, with what it has taken from its reader, what its writer has
    accepted, and whether the writer was shut down. *)
Record Direction := mkDirection {
  phase : Phase.t;
  received : list Z;
  sent : list Z;
  closed : bool
}.

Definition direction_new : Direction := mkDirection Phase.Reading [] [] false.

(** The new direction, and the bytes to add to its counter. [None]: the event
    cannot happen here (a read never exceeds the buffer, a write never takes
    more than it was given, and only the awaited future completes). *)
Definition copy_step (e : ready) (d : Direction) : option (Direction * nat) :=
  let '(mkDirection p rcv snt cl) := d in
  match p, e with
  | Phase.Returned _, _ => None
  | _, Token => Some (mkDirection (Phase.Returned (Ok tt)) rcv snt cl, O)
  | Phase.Reading, Read (Err err) =>
      Some (mkDirection (Phase.Returned (Err err)) rcv snt cl, O)
  | Phase.Reading, Read (Ok chunk) =>
      if decide (Z.of_nat (length chunk) <= RELAY_BUFFER_BYTES) then
        match chunk with
        | [] => Some (mkDirection Phase.ShuttingDown rcv snt cl, O)
        | _ => Some (mkDirection (Phase.Writing chunk) (rcv ++ chunk) snt cl, O)
        end
      else None
  | Phase.ShuttingDown, Shut (Ok _) =>
      Some (mkDirection (Phase.Returned (Ok tt)) rcv snt true, O)
  | Phase.ShuttingDown, Shut (Err err) =>
      Some (mkDirection (Phase.Returned (Err err)) rcv snt cl, O)
  | Phase.Writing _, Wrote (Err err) =>
      Some (mkDirection (Phase.Returned (Err err)) rcv snt cl, O)
  | Phase.Writing rest, Wrote (Ok n) =>
      if decide (n <= length rest)%nat then
        if decide (n = O) then
          Some (mkDirection (Phase.Returned (Err write_zero)) rcv snt cl, O)
        else
          let p' := match drop n rest with
                    | [] => Phase.Reading
                    | rest' => Phase.Writing rest'
                    end in
          Some (mkDirection p' rcv (snt ++ take n rest) cl, n)
      else None
  | _, _ => None
  end.

(** ** Both directions *)

(** [done] is what [relay_bidirectional] returned; the guard is then dropped. *)
Record Relay := mkRelay {
  upload : Direction;
  download : Direction;
  counters : TrafficCounters;
  done : option (result unit IoError)
}.

(** Up to the first await. *)
Definition relay_start (c : TrafficCounters) : Relay :=
  mkRelay direction_new direction_new (ActiveConnection_new c) None.

(** [try_join!]: the first error, or success once both have succeeded. *)
Definition try_join (u d : Direction) : option (result unit IoError) :=
  match phase u, phase d with
  | Phase.Returned (Err e), _ => Some (Err e)
  | _, Phase.Returned (Err e) => Some (Err e)
  | Phase.Returned (Ok _), Phase.Returned (Ok _) => Some (Ok tt)
  | _, _ => None
  end.

Definition relay_finish (r : Relay) : Relay :=
  match try_join (upload r) (download r) with
  | Some res => mkRelay (upload r) (download r) (ActiveConnection_drop (counters r)) (Some res)
  | None => r
  end.

Inductive side := Up | Down.

Definition relay_step (s : side) (e : ready) (r : Relay) : option Relay :=
  match done r with
  | Some _ => None
  | None =>
      match s with
      | Up =>
          '(d, n) ← copy_step e (upload r);
          Some (relay_finish (mkRelay d (download r)
            (on_uploaded (fetch_add u64_max (Z.of_nat n)) (counters r)) None))
      | Down =>
          '(d, n) ← copy_step e (download r);
          Some (relay_finish (mkRelay (upload r) d
            (on_downloaded (fetch_add u64_max (Z.of_nat n)) (counters r)) None))
      end
  end.

(** A run of the relay: any interleaving the environment can produce. *)
Fixpoint relay_run (es : list (side * ready)) (r : Relay) : option Relay :=
  match es with
  | [] => Some r
  | (s, e) :: es => r ← relay_step s e r; relay_run es r
  end.

(** ** The invariant *)

(** Nothing is lost, duplicated or reordered: the accepted bytes and the bytes
    still buffered are exactly the bytes read; the buffer stays within its
    bound; the writer is shut down only after everything read was accepted. *)
Record direction_inv (d : Direction) : Prop := {
  di_buffer :
    match phase d with
    | Phase.Writing rest =>
        received d = sent d ++ rest /\ rest <> [] /\ Z.of_nat (length rest) <= RELAY_BUFFER_BYTES
    | Phase.Reading | Phase.ShuttingDown => received d = sent d
    | Phase.Returned _ => sent d `prefix_of` received d
    end;
  di_closed : closed d = true -> phase d = Phase.Returned (Ok tt) /\ received d = sent d
}.

Lemma direction_inv_new : direction_inv direction_new.
Proof. done. Qed.

Lemma prefix_of_app_r {A} (l k m : list A) : l = k ++ m -> k `prefix_of` l.
Proof. intros ->. by apply prefix_app_r. Qed.

Lemma copy_step_inv e d d' n :
  direction_inv d -> copy_step e d = Some (d', n) ->
  direction_inv d' /\ length (sent d') = (length (sent d) + n)%nat
  /\ sent d `prefix_of` sent d' /\ received d `prefix_of` received d'.
Proof.
  intros [Hb Hc] Hs. destruct d as [p rcv snt cl]. cbn in *.
  destruct cl; [by destruct (Hc eq_refl) as [-> _]|clear Hc].
  assert (Hret : forall r, snt `prefix_of` rcv ->
            direction_inv (mkDirection (Phase.Returned r) rcv snt false)) by done.
  assert (Hp : snt `prefix_of` rcv).
  { destruct p; [by subst|eapply prefix_of_app_r; apply Hb|by subst|done]. }
  destruct p as [|rest| |r]; [| | |done]; destruct e as [|[[|b chunk]|err]|[k|err]|[[]|err]];
    try done; repeat case_decide; simplify_eq; cbn [sent received];
    try (split_and!; [by auto|lia|done|done]).
  - split_and!; [split|lia|done|by apply prefix_app_r]; cbn; [|done].
    by split_and!.
  - destruct Hb as (-> & Hne & Hl). split_and!; [split; cbn| | |done].
    + destruct (drop n rest) as [|x rest'] eqn:Ed.
      * rewrite <-(take_drop n rest) at 1. by rewrite Ed, app_nil_r.
      * rewrite <-app_assoc, <-Ed, take_drop. split_and!; [done|by rewrite Ed|].
        rewrite length_drop. lia.
    + done.
    + rewrite length_app, length_take. lia.
    + by apply prefix_app_r.
Qed.

(** Without a cancellation, a direction returns success only after the writer
    took everything and was shut down. *)
Definition delivered (d : Direction) : Prop :=
  phase d = Phase.Returned (Ok tt) -> closed d = true.

Lemma copy_step_delivered e d d' n :
  e <> Token -> delivered d -> copy_step e d = Some (d', n) -> delivered d'.
Proof.
  intros He Hd Hs. destruct d as [p rcv snt cl]. unfold delivered in *. cbn in *.
  destruct p as [|rest| |r]; [| | |done]; destruct e as [|[[|b chunk]|err]|[k|err]|[[]|err]];
    try done; repeat case_decide; simplify_eq; cbn; try done.
  by destruct (drop n rest).
Qed.

(** ** Counters *)

Lemma fetch_add_add max a b c :
  0 <= max -> fetch_add max b (fetch_add max a c) = fetch_add max (a + b) c.
Proof. unfold fetch_add, wrapping_add. intros. rewrite Zplus_mod_idemp_l. f_equal. lia. Qed.

Lemma active_drop_new c :
  0 <= active_connections c <= u32_max ->
  active_connections (ActiveConnection_drop (ActiveConnection_new c)) = active_connections c.
Proof.
  intros Hc. cbn. unfold fetch_sub, fetch_add, wrapping_add.
  rewrite Zminus_mod_idemp_l. replace (active_connections c + 1 - 1) with (active_connections c) by lia.
  apply Z.mod_small. unfold u32_max in *. lia.
Qed.

(** The state of a relay that started with the counters [c]. *)
Record relay_inv (c : TrafficCounters) (r : Relay) : Prop := {
  ri_upload : direction_inv (upload r);
  ri_download : direction_inv (download r);
  ri_uploaded :
    uploaded (counters r) mod (u64_max + 1)
    = fetch_add u64_max (Z.of_nat (length (sent (upload r)))) (uploaded c);
  ri_downloaded :
    downloaded (counters r) mod (u64_max + 1)
    = fetch_add u64_max (Z.of_nat (length (sent (download r)))) (downloaded c);
  ri_active :
    active_connections (counters r)
    = match done r with
      | None => active_connections (ActiveConnection_new c)
      | Some _ => active_connections (ActiveConnection_drop (ActiveConnection_new c))
      end;
  ri_done : done r = try_join (upload r) (download r)
}.

Lemma fetch_add_mod max a c : (fetch_add max a c) mod (max + 1) = fetch_add max a c.
Proof. unfold fetch_add, wrapping_add. by rewrite Zmod_mod. Qed.

Lemma fetch_add_idemp max n k c0 c :
  0 <= max -> c mod (max + 1) = fetch_add max n c0 ->
  fetch_add max k c = fetch_add max (n + k) c0.
Proof.
  intros Hm Hc. rewrite <-fetch_add_add, <-Hc by done. unfold fetch_add, wrapping_add.
  by rewrite Zplus_mod_idemp_l.
Qed.

Lemma relay_start_inv c : relay_inv c (relay_start c).
Proof.
  split; cbn; try done; unfold fetch_add, wrapping_add; by rewrite Z.add_0_r.
Qed.

Lemma relay_finish_eq r :
  done r = None ->
  relay_finish r
  = mkRelay (upload r) (download r)
      (match try_join (upload r) (download r) with
       | Some _ => ActiveConnection_drop (counters r)
       | None => counters r
       end) (try_join (upload r) (download r)).
Proof. unfold relay_finish. destruct r as [u d c o]. cbn. intros ->. by destruct (try_join u d). Qed.

Lemma relay_step_inv c s e r r' :
  relay_inv c r -> relay_step s e r = Some r' -> relay_inv c r'.
Proof.
  intros [Hu Hd Hcu Hcd Ha Hj] Hs. unfold relay_step in Hs.
  destruct r as [u d cs o]. cbn in *. destruct o as [o|]; [done|].
  destruct s; apply bind_Some in Hs as ([d' n] & Hc & Hs); simplify_eq;
    rewrite relay_finish_eq by done; cbn;
    first [destruct (copy_step_inv _ _ _ _ Hu Hc) as (Hi & Hl & _ & _)
          |destruct (copy_step_inv _ _ _ _ Hd Hc) as (Hi & Hl & _ & _)];
    (split; cbn; [done|done| | | |done]);
    clear Hj; destruct (try_join _ _); cbn; rewrite ?fetch_add_mod, ?Hl, ?Nat2Z.inj_add;
    first [done|by rewrite Ha|by apply fetch_add_idemp; [vm_compute; discriminate|]].
Qed.

Lemma relay_run_inv c es r r' : relay_inv c r -> relay_run es r = Some r' -> relay_inv c r'.
Proof.
  revert r. induction es as [|[s e] es IH]; cbn; intros r Hi Hr; [by simplify_eq|].
  apply bind_Some in Hr as (r1 & Hs & Hr). eapply IH; [|done]. by eapply relay_step_inv.
Qed.

Lemma relay_run_delivered es r r' :
  Forall (fun se => se.2 <> Token) es -> relay_run es r = Some r' ->
  delivered (upload r) -> delivered (download r) ->
  delivered (upload r') /\ delivered (download r').
Proof.
  intros He. revert r. induction He as [|[s e] es Hh He IH]; cbn; intros r Hr Hu Hd.
  { by simplify_eq. }
  apply bind_Some in Hr as (r1 & Hs & Hr). unfold relay_step in Hs.
  destruct (done r) eqn:Ed; [done|].
  destruct s; apply bind_Some in Hs as ([d' n] & Hc & Hs); simplify_eq;
    (eapply IH; [exact Hr|..]); rewrite relay_finish_eq by done; cbn; try done;
    by (eapply copy_step_delivered; [exact Hh| |exact Hc]).
Qed.

(** C23: The relay never loses, repeats or reorders a byte. In every state any
    interleaving of the two directions can reach: what each writer accepted is
    a prefix of what its reader produced, the rest (at most 16 KiB) being in the
    buffer; the traffic counters grew by exactly the accepted bytes (modulo
    2^64); the connection is counted as active, once, in every state until the
    relay ends, and no longer counted from then on;
    and when the relay ends with success and was not cancelled, both sides were
    delivered completely and shut down. *)
Theorem relay_faithful c es r :
  0 <= active_connections c <= u32_max ->
  relay_run es (relay_start c) = Some r ->
  (sent (upload r) `prefix_of` received (upload r)
   /\ sent (download r) `prefix_of` received (download r))
  /\ (forall d rest, d = upload r \/ d = download r -> phase d = Phase.Writing rest ->
        received d = sent d ++ rest /\ Z.of_nat (length rest) <= RELAY_BUFFER_BYTES)
  /\ uploaded (counters r) mod (u64_max + 1)
     = (uploaded c + Z.of_nat (length (sent (upload r)))) mod (u64_max + 1)
  /\ downloaded (counters r) mod (u64_max + 1)
     = (downloaded c + Z.of_nat (length (sent (download r)))) mod (u64_max + 1)
  /\ active_connections (counters r)
     = match done r with
       | None => (active_connections c + 1) mod (u32_max + 1)
       | Some _ => active_connections c
       end
  /\ (done r = Some (Ok tt) -> Forall (fun se => se.2 <> Token) es ->
      received (upload r) = sent (upload r) /\ received (download r) = sent (download r)
      /\ closed (upload r) = true /\ closed (download r) = true).
Proof.
  intros Hc Hr. pose proof (relay_run_inv c _ _ _ (relay_start_inv c) Hr) as [Hu Hd Hcu Hcd Ha Hj].
  assert (Hp : forall d, direction_inv d -> sent d `prefix_of` received d).
  { intros d [Hb _]. destruct (phase d); [by rewrite Hb|eapply prefix_of_app_r; apply Hb
      |by rewrite Hb|done]. }
  split_and!; [by auto|by auto| |done|done| |].
  - intros d rest Hd' Hph. assert (direction_inv d) as [Hb _] by (by destruct Hd' as [->| ->]).
    rewrite Hph in Hb. naive_solver.
  - rewrite Ha. destruct (done r); [by apply active_drop_new|done].
  - intros Hok He. rewrite Hok in Hj. unfold try_join in Hj.
    destruct (relay_run_delivered es _ r He Hr) as [H1 H2]; [done..|].
    unfold delivered in *.
    destruct (phase (upload r)) as [| | |[[]|]] eqn:E1;
      destruct (phase (download r)) as [| | |[[]|]] eqn:E2; try done.
    destruct Hu as [_ Hu], Hd as [_ Hd]. naive_solver.
Qed.

(** A short exchange: three bytes up in two writes, end of stream both ways. *)
Definition exchange : list (side * ready) :=
  [(Up, Read (Ok [1; 2; 3])); (Down, Read (Ok [])); (Up, Wrote (Ok 2%nat)); (Down, Shut (Ok tt));
   (Up, Wrote (Ok 1%nat)); (Up, Read (Ok [])); (Up, Shut (Ok tt))].

Theorem relay_faithful_witness :
  exists r, relay_run exchange (relay_start TrafficCounters_default) = Some r
    /\ counters r = mkTrafficCounters 3 0 0
    /\ sent (upload r) `prefix_of` received (upload r)
    /\ exists r1, relay_run (take 3 exchange) (relay_start TrafficCounters_default) = Some r1
         /\ done r1 = None /\ active_connections (counters r1) = 1.
Proof.
  eexists. split; [vm_compute; reflexivity|]. split; [reflexivity|]. split.
  - apply (relay_faithful TrafficCounters_default exchange).
    + vm_compute. split; discriminate.
    + vm_compute. reflexivity.
  - eexists. split; [vm_compute; reflexivity|]. split; [reflexivity|].
    refine (proj1 (proj2 (proj2 (proj2 (proj2
      (relay_faithful TrafficCounters_default (take 3 exchange) _ _ _)))))).
    + vm_compute. split; discriminate.
    + vm_compute. reflexivity.
Defined.

(** ** Progress *)

(** One direction on its own. *)
Fixpoint copy_run (es : list ready) (d : Direction) : option Direction :=
  match es with
  | [] => Some d
  | e :: es => '(d, _) ← copy_step e d; copy_run es d
  end.

Lemma copy_run_app es1 es2 d :
  copy_run (es1 ++ es2) d = d ← copy_run es1 d; copy_run es2 d.
Proof.
  revert d. induction es1 as [|e es1 IH]; intros d; cbn; [done|].
  destruct (copy_step e d) as [[d' n]|]; cbn; [apply IH|done].
Qed.

(** A writer that takes at least one byte at a time drains the buffer. *)
Lemma drain_all ns rcv snt rest cl :
  Forall (fun n => n <> O) ns -> sum_list ns = length rest -> rest <> [] ->
  copy_run ((fun n => Wrote (Ok n)) <$> ns) (mkDirection (Phase.Writing rest) rcv snt cl)
  = Some (mkDirection Phase.Reading rcv (snt ++ rest) cl).
Proof.
  intros Hns. revert rest snt. induction Hns as [|n ns Hn Hns IH]; intros rest snt Hs Hr.
  - by destruct rest.
  - cbn in *. rewrite decide_True by lia. rewrite decide_False by done. cbn.
    destruct (drop n rest) as [|x rest'] eqn:Ed.
    + assert (length rest <= n)%nat as Hle.
      { apply (f_equal length) in Ed. rewrite length_drop in Ed. cbn in Ed. lia. }
      assert (ns = []) as ->.
      { destruct ns as [|n' ns]; [done|]. inv Hns. cbn in Hs. lia. }
      cbn. rewrite take_ge by lia. done.
    + rewrite IH; [|rewrite <-Ed, length_drop; lia|done].
      rewrite <-app_assoc, <-Ed, take_drop. done.
Qed.

(** A conversation: the chunks the reader produces, each with the sizes of the
    writes that take it; then the end of the stream and the shutdown. *)
Definition fair_chunk (c : list Z * list nat) : Prop :=
  c.1 <> [] /\ Z.of_nat (length c.1) <= RELAY_BUFFER_BYTES
  /\ Forall (fun n => n <> O) c.2 /\ sum_list c.2 = length c.1.

Definition chunk_script (c : list Z * list nat) : list ready :=
  Read (Ok c.1) :: ((fun n => Wrote (Ok n)) <$> c.2).

Definition script (l : list (list Z * list nat)) : list ready :=
  flat_map chunk_script l ++ [Read (Ok []); Shut (Ok tt)].

Lemma copy_chunk c rcv snt cl :
  fair_chunk c ->
  copy_run (chunk_script c) (mkDirection Phase.Reading rcv snt cl)
  = Some (mkDirection Phase.Reading (rcv ++ c.1) (snt ++ c.1) cl).
Proof.
  destruct c as [[|b chunk] ns]; intros (Hne & Hb & Hns & Hs); [done|].
  unfold chunk_script. cbn [copy_run copy_step fst snd] in *.
  rewrite decide_True by done. cbn [mbind option_bind]. by rewrite drain_all.
Qed.

Lemma copy_chunks l rcv snt cl :
  Forall fair_chunk l ->
  copy_run (flat_map chunk_script l) (mkDirection Phase.Reading rcv snt cl)
  = Some (mkDirection Phase.Reading (rcv ++ concat l.*1) (snt ++ concat l.*1) cl).
Proof.
  intros Hl. revert rcv snt. induction Hl as [|c l Hc _ IH]; intros rcv snt.
  - cbn. by rewrite !app_nil_r.
  - cbn [flat_map]. rewrite copy_run_app, copy_chunk by done. cbn [mbind option_bind].
    rewrite IH. cbn [fmap list_fmap concat]. by rewrite !app_assoc.
Qed.

(** The relay makes progress. However the reader splits its data into
    chunks of up to 16 KiB and in whatever pieces (of at least one byte) the
    writer takes each chunk, the direction ends with success, having delivered
    every byte in order and shut the writer down. *)
Theorem copy_delivers_all l :
  Forall fair_chunk l ->
  copy_run (script l) direction_new
  = Some (mkDirection (Phase.Returned (Ok tt)) (concat l.*1) (concat l.*1) true).
Proof.
  intros Hl. unfold script, direction_new. by rewrite copy_run_app, copy_chunks.
Qed.

Theorem copy_delivers_all_witness :
  copy_run (script [([1; 2; 3], [2; 1]%nat); ([4], [1]%nat)]) direction_new
  = Some (mkDirection (Phase.Returned (Ok tt)) [1; 2; 3; 4] [1; 2; 3; 4] true).
Proof.
  apply (copy_delivers_all [([1; 2; 3], [2; 1]%nat); ([4], [1]%nat)]).
  repeat constructor; cbn; first [lia|discriminate|vm_compute; discriminate].
Defined.
