(* ===== verification/Russh.v ===== *)
(** * Russh: the interface of the russh library the engine is built on.

    The library is not part of the repository. Its error types, its keys and
    its known_hosts functions are parameters; the class lists exactly what the
    source uses of them: the error constructors it matches on, the displayed
    texts, and the known_hosts lookup and update on the files of a disk. *)
From S2P Require Import Prelude Io Text Domain.

(** The [russh::ChannelOpenFailure] reasons the source names. *)
Module ChannelOpenFailure.
Inductive t :=
  | AdministrativelyProhibited | ConnectFailed | ResourceShortage | Unlisted.
#[global] Instance t_eq_dec : EqDecision t.
Proof. solve_decision. Defined.
End ChannelOpenFailure.

(** What [fs::metadata] tells. *)
Record Metadata := mkMetadata { md_is_file : bool; md_len : Z }.

Class Russh := {
  (** [russh::Error], with the constructors the source matches. *)
  russh_error : Type;
  show_russh_error : russh_error -> string;
  channel_open_failure : russh_error -> option ChannelOpenFailure.t;
  is_request_denied : russh_error -> bool;
  is_disconnect : russh_error -> bool;
  (** [russh::keys::Error]; [KeyChanged { line }] is matched. *)
  keys_error : Type;
  show_keys_error : keys_error -> string;
  key_changed : keys_error -> option Z;
  (** [russh::AgentAuthError] *)
  agent_auth_error : Type;
  show_agent_auth_error : agent_auth_error -> string;
  (** Keys. *)
  public_key : Type;
  key_algorithm : public_key -> string;
  key_fingerprint : public_key -> string;
  private_key : Type;
  decode_secret_key : string -> option string -> result private_key keys_error;
  (** The disk the known_hosts files are on. *)
  disk : Type;
  metadata : disk -> PathBuf -> result Metadata IoError;
  check_known_hosts_path : disk -> string -> Z -> public_key -> PathBuf -> result bool keys_error;
  learn_known_hosts_path :
    disk -> string -> Z -> public_key -> PathBuf -> result unit keys_error * disk
}.

(** What russh documents of [learn_known_hosts_path]: after it succeeds, the key
    is known for that host and port in that file, and no other file changed. *)
Class RusshLaws `{Russh} : Prop := {
  learn_then_known d host port key path d' :
    learn_known_hosts_path d host port key path = (Ok tt, d') ->
    check_known_hosts_path d' host port key path = Ok true;
  learn_elsewhere d host port key path d' r path' :
    learn_known_hosts_path d host port key path = (r, d') -> path' <> path ->
    metadata d' path' = metadata d path'
    /\ forall host' port' key',
         check_known_hosts_path d' host' port' key' path'
         = check_known_hosts_path d host' port' key' path'
}.

(** ** A small concrete library, for evaluating the models

    Errors are texts, a key is its text, and the disk is a list of known
    (file, host, port, key) entries; a key recorded for the same host and port
    with another text counts as changed. *)
Module Toy.
Definition entry : Type := PathBuf * string * Z * string.

Inductive error :=
  | Plain (text : string)
  | Open (reason : ChannelOpenFailure.t)
  | Denied
  | Disconnected
  | Changed (line : Z).

Definition show (e : error) : string :=
  match e with
  | Plain text => text
  | Open _ => "channel open failure"
  | Denied => "request denied"
  | Disconnected => "disconnected"
  | Changed line => "the key changed at line " +:+ show_dec line
  end.

Definition matches (host : string) (port : Z) (path : PathBuf) (e : entry) : bool :=
  let '(p, h, n, _) := e in bool_decide (p = path) && bool_decide (h = host) && bool_decide (n = port).

Definition check (d : list entry) (host : string) (port : Z) (key : string) (path : PathBuf)
    : result bool error :=
  match filter (fun e => matches host port path e = true) d with
  | [] => Ok false
  | l => if bool_decide (key ∈ l.*2) then Ok true else Err (Changed 1)
  end.

#[global] Instance russh : Russh := {|
  russh_error := error;
  show_russh_error := show;
  channel_open_failure e := match e with Open r => Some r | _ => None end;
  is_request_denied e := match e with Denied => true | _ => false end;
  is_disconnect e := match e with Disconnected => true | _ => false end;
  keys_error := error;
  show_keys_error := show;
  key_changed e := match e with Changed line => Some line | _ => None end;
  agent_auth_error := error;
  show_agent_auth_error := show;
  public_key := string;
  key_algorithm _ := "ssh-ed25519";
  key_fingerprint k := "SHA256:" +:+ k;
  private_key := string;
  decode_secret_key text _ := Ok text;
  disk := list entry;
  metadata d path :=
    if bool_decide (path ∈ (fun e => e.1.1.1) <$> d) then Ok (mkMetadata true 100)
    else Err (mkIoError ErrorKind.NotFound "not found");
  check_known_hosts_path := check;
  learn_known_hosts_path d host port key path := (Ok tt, (path, host, port, key) :: d)
|}.

#[global] Instance russh_laws : RusshLaws.
Proof.
  split; cbn.
  - intros d host port key path d' [= <-]. unfold check, matches.
    rewrite filter_cons_True by (by rewrite !bool_decide_true).
    by rewrite bool_decide_true by (cbn; set_solver).
  - intros d host port key path d' r path' [= <- <-] Hne. split.
    + rewrite fmap_cons. cbn.
      rewrite (bool_decide_ext (path' ∈ path :: ((fun e : entry => e.1.1.1) <$> d))
                               (path' ∈ (fun e : entry => e.1.1.1) <$> d)); [done|].
      rewrite elem_of_cons. naive_solver.
    + intros host' port' key'. unfold check, matches. rewrite filter_cons_False; [done|].
      by rewrite (bool_decide_false (path = path')) by congruence.
Qed.
End Toy.
