(* ===== verification/HostKey.v ===== *)
(** * HostKey: the SSH client handler of crates/ssh-engine/src/host_key.rs:
    server-key verification and the gate for forwarded channels. *)
From S2P Require Import Prelude Io Text Net Domain Russh.

Definition MAX_KNOWN_HOSTS_BYTES : Z := 1024 * 1024.

Module HostKeyDecision.
Inductive t := TrustOnce | TrustAndSave | Cancel.
#[global] Instance t_eq_dec : EqDecision t.
Proof. solve_decision. Defined.
End HostKeyDecision.

(** The prompt shown to the user; the reply channel is the [answer] argument of
    [check_server_key]. *)
Record HostKeyPrompt := mkHostKeyPrompt {
  prompt_host : string;
  prompt_port : Z;
  prompt_algorithm : string;
  prompt_fingerprint : string
}.

(** [russh::keys::PublicKeyOrCertificate] *)
Inductive PublicKeyOrCertificate `{Russh} :=
  | PublicKey (key : public_key)
  | OpenSshCertificate.

Module HostKeyError.
Inductive t `{Russh} :=
  | Protocol (e : russh_error)
  | Unknown (host : string) (port : Z) (fingerprint : string)
  | Declined (host : string) (port : Z)
  | ApprovalUnavailable (host : string) (port : Z)
  | Changed (host : string) (port : Z) (path : PathBuf) (line : Z)
  | UnsupportedCertificate (host : string) (port : Z)
  | KnownHostsIo (path : PathBuf) (source : IoError)
  | KnownHostsTooLarge (path : PathBuf)
  | InvalidKnownHosts (path : PathBuf) (source : keys_error).
End HostKeyError.

Definition show_host_port (host : string) (port : Z) : string := host +:+ ":" +:+ show_dec port.

Definition show_host_key_error `{Russh} (e : HostKeyError.t) : string :=
  match e with
  | HostKeyError.Protocol e => show_russh_error e
  | HostKeyError.Unknown host port fingerprint =>
      "host key for " +:+ show_host_port host port +:+ " is unknown (" +:+ fingerprint +:+ ")"
  | HostKeyError.Declined host port =>
      "host key confirmation was cancelled for " +:+ show_host_port host port
  | HostKeyError.ApprovalUnavailable host port =>
      "host key confirmation queue is full or closed for " +:+ show_host_port host port
  | HostKeyError.Changed host port path line =>
      "host key changed for " +:+ show_host_port host port +:+ " in " +:+ path +:+ ", line "
        +:+ show_dec line
  | HostKeyError.UnsupportedCertificate host port =>
      "SSH host certificates are not supported yet for " +:+ show_host_port host port
  | HostKeyError.KnownHostsIo path source =>
      "cannot read known_hosts at " +:+ path +:+ ": " +:+ io_text source
  | HostKeyError.KnownHostsTooLarge path =>
      "known_hosts at " +:+ path +:+ " exceeds " +:+ show_dec MAX_KNOWN_HOSTS_BYTES +:+ " bytes"
  | HostKeyError.InvalidKnownHosts path source =>
      "invalid known_hosts at " +:+ path +:+ ": " +:+ show_keys_error source
  end.

(** The part of a forwarding registration the handler sees: the binding, whether
    the channel queue has a free slot, and the enabled port (0: none). *)
Record Forwarded := mkForwarded {
  fw_binding : RemoteEndpoint;
  fw_room : bool;
  fw_enabled : Z
}.

(** [HostKeyApproval]: the queue of prompts has room or not, and where an
    accepted key is saved. *)
Record HostKeyApproval := mkHostKeyApproval {
  ap_room : bool;
  ap_save_path : PathBuf
}.

Record HostKeyVerifier := mkHostKeyVerifier {
  hv_host : string;
  hv_port : Z;
  hv_paths : list PathBuf;
  hv_policy : HostKeyPolicy.t;
  hv_approval : option HostKeyApproval;
  hv_forwarded : option Forwarded
}.

(** The answer to a server's request to open a forwarded channel. *)
Inductive channel_answer :=
  | Reject (reason : ChannelOpenFailure.t)
  | Accept.

Definition server_channel_open_forwarded_tcpip (self : HostKeyVerifier)
    (connected_address : string) (connected_port : Z) : channel_answer :=
  match hv_forwarded self with
  | None => Reject ChannelOpenFailure.AdministrativelyProhibited
  | Some f =>
      let active_port := fw_enabled f in
      if bool_decide (active_port = 0)
         || bool_decide (remote_host (fw_binding f) <> connected_address)
         || bool_decide (active_port <> connected_port)
      then Reject ChannelOpenFailure.AdministrativelyProhibited
      else if fw_room f then Accept
      else Reject ChannelOpenFailure.ResourceShortage
  end.

Section Verify.
Context `{Russh} (self : HostKeyVerifier) (key : public_key).
Notation host := (hv_host self).
Notation port := (hv_port self).

Definition expected_file : IoError := mkIoError ErrorKind.InvalidData "expected a regular file".

(** One lookup, with its errors mapped. *)
Definition check_path (d : disk) (path : PathBuf) : result bool HostKeyError.t :=
  match check_known_hosts_path d host port key path with
  | Ok matched => Ok matched
  | Err source =>
      match key_changed source with
      | Some line => Err (HostKeyError.Changed host port path line)
      | None => Err (HostKeyError.InvalidKnownHosts path source)
      end
  end.

(** The loop over [self.paths]; [found] accumulates. *)
Fixpoint scan (d : disk) (paths : list PathBuf) (found : bool) : result bool HostKeyError.t :=
  match paths with
  | [] => Ok found
  | path :: rest =>
      match metadata d path with
      | Err source =>
          if bool_decide (io_kind source = ErrorKind.NotFound) then scan d rest found
          else Err (HostKeyError.KnownHostsIo path source)
      | Ok md =>
          if negb (md_is_file md) then Err (HostKeyError.KnownHostsIo path expected_file)
          else if bool_decide (MAX_KNOWN_HOSTS_BYTES < md_len md) then
            Err (HostKeyError.KnownHostsTooLarge path)
          else
            let? matched := check_path d path in
            scan d rest (found || matched)
      end
  end.

(** The blocking task of [TrustAndSave]: look again, then learn. *)
Fixpoint rescan (d : disk) (paths : list PathBuf) : result bool HostKeyError.t :=
  match paths with
  | [] => Ok false
  | path :: rest =>
      match metadata d path with
      | Err source =>
          if bool_decide (io_kind source = ErrorKind.NotFound) then rescan d rest
          else Err (HostKeyError.KnownHostsIo path source)
      | Ok md =>
          if bool_decide (MAX_KNOWN_HOSTS_BYTES < md_len md) then
            Err (HostKeyError.KnownHostsTooLarge path)
          else
            let? matched := check_path d path in
            if (matched : bool) then Ok true else rescan d rest
      end
  end.

Definition trust_and_save (d : disk) (save_path : PathBuf) : result unit HostKeyError.t * disk :=
  match rescan d (hv_paths self) with
  | Err e => (Err e, d)
  | Ok true => (Ok tt, d)
  | Ok false =>
      let '(r, d') := learn_known_hosts_path d host port key save_path in
      (map_err (HostKeyError.InvalidKnownHosts save_path) r, d')
  end.

Definition fingerprint_prompt : HostKeyPrompt :=
  mkHostKeyPrompt host port (key_algorithm key) (key_fingerprint key).
End Verify.

Section CheckServerKey.
Context `{Russh} (self : HostKeyVerifier).

(** What a verification leaves: its answer, the disk, the prompts queued. *)
Record verdict := mkVerdict {
  v_result : result bool HostKeyError.t;
  v_disk : disk;
  v_prompts : list HostKeyPrompt
}.

(** The handler up to its question: a verdict at once, or the key to ask about
    and where to save it. [d] is the disk when the key arrives. *)
Definition consult (server_public_key : PublicKeyOrCertificate) (d : disk)
    : verdict + public_key * HostKeyApproval :=
  if bool_decide (hv_policy self = HostKeyPolicy.Bypass) then inl (mkVerdict (Ok true) d [])
  else
    match server_public_key with
    | OpenSshCertificate =>
        inl (mkVerdict (Err (HostKeyError.UnsupportedCertificate (hv_host self) (hv_port self))) d [])
    | PublicKey key =>
        match scan self key d (hv_paths self) false with
        | Err e => inl (mkVerdict (Err e) d [])
        | Ok true => inl (mkVerdict (Ok true) d [])
        | Ok false =>
            match hv_approval self with
            | None =>
                inl (mkVerdict (Err (HostKeyError.Unknown (hv_host self) (hv_port self)
                                       (key_fingerprint key))) d [])
            | Some approval =>
                if ap_room approval then inr (key, approval)
                else inl (mkVerdict (Err (HostKeyError.ApprovalUnavailable (hv_host self) (hv_port self)))
                            d [])
            end
        end
    end.

(** The rest, from the user's decision, if the prompt was answered at all:
    [d_later] is the disk once the answer is there and, to save, the save lock
    is held; [task_failed] the join error of the blocking task, if it died. *)
Definition conclude (key : public_key) (approval : HostKeyApproval)
    (answer : option HostKeyDecision.t) (task_failed : option string) (d_later : disk)
    : result bool HostKeyError.t * disk :=
  match default HostKeyDecision.Cancel answer with
  | HostKeyDecision.TrustOnce => (Ok true, d_later)
  | HostKeyDecision.TrustAndSave =>
      match task_failed with
      | Some text =>
          (Err (HostKeyError.KnownHostsIo (ap_save_path approval) (io_other text)), d_later)
      | None =>
          let '(r, d') := trust_and_save self key d_later (ap_save_path approval) in
          (result_map (fun _ => true) r, d')
      end
  | HostKeyDecision.Cancel => (Err (HostKeyError.Declined (hv_host self) (hv_port self)), d_later)
  end.

Definition check_server_key (server_public_key : PublicKeyOrCertificate) (d : disk)
    (answer : option HostKeyDecision.t) (d_later : disk) (task_failed : option string) : verdict :=
  match consult server_public_key d with
  | inl v => v
  | inr (key, approval) =>
      let '(r, d') := conclude key approval answer task_failed d_later in
      mkVerdict r d' [fingerprint_prompt self key]
  end.
End CheckServerKey.

(** ** Specification *)

Section Spec.
Context `{Russh} (self : HostKeyVerifier) (key : public_key).

(** A known_hosts file raises no objection: it does not exist, or it is a
    regular file of at most 1 MiB whose lookup succeeds. *)
Definition readable (d : disk) (path : PathBuf) : Prop :=
  exists md, metadata d path = Ok md /\ md_is_file md = true /\ md_len md <= MAX_KNOWN_HOSTS_BYTES.

Definition absent (d : disk) (path : PathBuf) : Prop :=
  exists e, metadata d path = Err e /\ io_kind e = ErrorKind.NotFound.

Definition lookup (d : disk) (path : PathBuf) : result bool keys_error :=
  check_known_hosts_path d (hv_host self) (hv_port self) key path.

Definition unobjectionable (d : disk) (path : PathBuf) : Prop :=
  absent d path \/ (readable d path /\ exists b, lookup d path = Ok b).

Definition known_at (d : disk) (path : PathBuf) : Prop :=
  readable d path /\ lookup d path = Ok true.

Lemma check_path_ok d path b : check_path self key d path = Ok b <-> lookup d path = Ok b.
Proof.
  unfold check_path, lookup. destruct (check_known_hosts_path _ _ _ _ _) as [m|e]; [naive_solver|].
  destruct (key_changed e); split; done.
Qed.

Lemma absent_not_readable d path : absent d path -> ~ readable d path.
Proof. intros (e & He & _) (md & Hm & _). congruence. Qed.

(** The scan succeeds exactly when no file objects, and finds the key exactly
    when some file knows it. *)
Lemma scan_ok d paths found b :
  scan self key d paths found = Ok b <->
  Forall (unobjectionable d) paths
  /\ (b = true <-> found = true \/ Exists (known_at d) paths).
Proof.
  revert found. induction paths as [|path rest IH]; intros found; cbn [scan].
  - rewrite Exists_nil, Forall_nil. destruct b, found; intuition congruence.
  - rewrite Forall_cons, Exists_cons.
    destruct (metadata d path) as [md|e] eqn:Em.
    + destruct (md_is_file md) eqn:Ef; cbn [negb]; cycle 1.
      { split; [done|]. intros [[[(e & He & _)|[(md' & He & Hf & _) _]] _] _]; congruence. }
      case_bool_decide as Hl.
      { split; [done|]. intros [[[(e & He & _)|[(md' & He & _ & ?) _]] _] _];
          rewrite Em in He; simplify_eq; lia. }
      assert (Hrd : readable d path) by (exists md; split_and!; [done|done|lia]).
      destruct (check_path self key d path) as [m|err] eqn:Ec.
      * apply check_path_ok in Ec. rewrite IH.
        assert (unobjectionable d path) by (right; eauto).
        assert (known_at d path <-> m = true) as ->.
        { unfold known_at. rewrite Ec. split; [intros [_ [= ->]]; done|intros ->; done]. }
        destruct found, m; cbn; intuition congruence.
      * split; [done|]. intros [[[Ha|[_ (b' & Hb)]] _] _].
        -- by apply absent_not_readable in Ha.
        -- apply check_path_ok in Hb. congruence.
    + assert (~ readable d path) as Hnr by (intros (md & He & _); congruence).
      case_bool_decide as Hk.
      * rewrite IH. assert (unobjectionable d path) by (left; by exists e).
        assert (~ known_at d path) by (by intros [? _]). tauto.
      * split; [done|]. intros [[[(e' & He & ?)|[? _]] _] _]; [congruence|done].
Qed.

Lemma rescan_true d paths :
  rescan self key d paths = Ok true ->
  Exists (fun p => lookup d p = Ok true /\ ~ absent d p) paths.
Proof.
  induction paths as [|path rest IH]; cbn [rescan]; [done|]. rewrite Exists_cons.
  destruct (metadata d path) as [md|e] eqn:Em.
  - case_bool_decide; [done|].
    destruct (check_path self key d path) as [[]|err] eqn:Ec; [|by auto|done].
    intros _. left. split; [by apply check_path_ok|]. intros (e & He & _). congruence.
  - case_bool_decide; by auto.
Qed.

Lemma known_is_accepted d answer d_later task_failed :
  hv_policy self = HostKeyPolicy.Strict ->
  Forall (unobjectionable d) (hv_paths self) -> Exists (known_at d) (hv_paths self) ->
  check_server_key self (PublicKey key) d answer d_later task_failed = mkVerdict (Ok true) d [].
Proof.
  intros Hp Hall Hex. unfold check_server_key, consult. rewrite Hp. cbn.
  assert (scan self key d (hv_paths self) false = Ok true) as -> by (apply scan_ok; split; [done|by split; auto]).
  done.
Qed.

(** Why a verification may say yes. *)
Inductive trusted (d : disk) (answer : option HostKeyDecision.t) (d_later : disk)
    (task_failed : option string) (v : verdict) : Prop :=
  | trusted_known :
      Exists (known_at d) (hv_paths self) -> v_prompts v = [] -> v_disk v = d ->
      trusted d answer d_later task_failed v
  | trusted_once a :
      hv_approval self = Some a -> answer = Some HostKeyDecision.TrustOnce ->
      v_prompts v = [fingerprint_prompt self key] -> v_disk v = d_later ->
      trusted d answer d_later task_failed v
  | trusted_saved a :
      hv_approval self = Some a -> answer = Some HostKeyDecision.TrustAndSave ->
      task_failed = None -> v_prompts v = [fingerprint_prompt self key] ->
      (Exists (fun p => lookup d_later p = Ok true /\ ~ absent d_later p) (hv_paths self)
       /\ v_disk v = d_later
       \/ learn_known_hosts_path d_later (hv_host self) (hv_port self) key (ap_save_path a)
          = (Ok tt, v_disk v)) ->
      trusted d answer d_later task_failed v.
End Spec.

(** Why the handler asks. *)
Lemma consult_asks `{Russh} self pk d key approval :
  consult self pk d = inr (key, approval) ->
  hv_policy self <> HostKeyPolicy.Bypass /\ pk = PublicKey key
  /\ scan self key d (hv_paths self) false = Ok false
  /\ hv_approval self = Some approval /\ ap_room approval = true.
Proof.
  unfold consult. case_bool_decide as Hp; [done|]. destruct pk as [k|]; [|done].
  destruct (scan self k d (hv_paths self) false) as [[]|e] eqn:Es; [done| |done].
  destruct (hv_approval self) as [a|]; [|done]. destruct (ap_room a) eqn:Er; [|done].
  intros [= <- <-]. done.
Qed.

(** Why the handler agrees without asking. *)
Lemma consult_agrees `{Russh} self pk d v b :
  consult self pk d = inl v -> v_result v = Ok b ->
  v = mkVerdict (Ok true) d [] /\ b = true
  /\ (hv_policy self = HostKeyPolicy.Bypass
      \/ exists key, pk = PublicKey key /\ Forall (unobjectionable self key d) (hv_paths self)
           /\ Exists (known_at self key d) (hv_paths self)).
Proof.
  unfold consult. case_bool_decide as Hp; [intros [= <-] [= <-]; auto|]. destruct pk as [k|]; [|by intros [= <-]].
  destruct (scan self k d (hv_paths self) false) as [[]|e] eqn:Es; [| |by intros [= <-]].
  - intros [= <-] [= <-]. split_and!; [done|done|right]. apply scan_ok in Es as [Hall Hex].
    exists k. split_and!; [done|done|]. by destruct Hex as [[|] _].
  - destruct (hv_approval self) as [a|]; [|by intros [= <-]]. destruct (ap_room a); [done|by intros [= <-]].
Qed.

(** What a decision makes of it. *)
Lemma conclude_ok `{Russh} self key approval answer task_failed d_later b d' :
  conclude self key approval answer task_failed d_later = (Ok b, d') ->
  b = true
  /\ (answer = Some HostKeyDecision.TrustOnce /\ d' = d_later
      \/ answer = Some HostKeyDecision.TrustAndSave /\ task_failed = None
         /\ (Exists (fun p => lookup self key d_later p = Ok true /\ ~ absent d_later p) (hv_paths self)
             /\ d' = d_later
             \/ learn_known_hosts_path d_later (hv_host self) (hv_port self) key (ap_save_path approval)
                = (Ok tt, d'))).
Proof.
  unfold conclude. destruct answer as [[]|]; cbn; [| |done..].
  - intros [= <- <-]. auto.
  - destruct task_failed; [done|]. unfold trust_and_save.
    destruct (rescan self key d_later (hv_paths self)) as [[]|] eqn:Er; cbn; [| |done].
    + intros [= <- <-]. split; [done|]. right. split_and!; [done|done|]. left. by apply rescan_true in Er.
    + destruct (learn_known_hosts_path _ _ _ _ _) as [[[]|] d''] eqn:El; cbn; [|done].
      intros [= <- <-]. auto 6.
Qed.

(** The disk is only written to learn the key, on a decision to save it. *)
Lemma conclude_writes `{Russh} self key approval answer task_failed d_later r d' :
  conclude self key approval answer task_failed d_later = (r, d') ->
  d' = d_later
  \/ answer = Some HostKeyDecision.TrustAndSave /\ task_failed = None
     /\ rescan self key d_later (hv_paths self) = Ok false
     /\ (learn_known_hosts_path d_later (hv_host self) (hv_port self) key (ap_save_path approval)).2 = d'.
Proof.
  unfold conclude. destruct answer as [[]|]; cbn; [by intros [= <- <-]; left| |by intros [= <- <-]; left..].
  destruct task_failed; [by intros [= <- <-]; left|]. unfold trust_and_save.
  destruct (rescan self key d_later (hv_paths self)) as [[]|] eqn:Er; cbn; [by intros [= <- <-]; left| |by intros [= <- <-]; left].
  destruct (learn_known_hosts_path _ _ _ _ _) as [r' d''] eqn:El; cbn. intros [= <- <-]. by right.
Qed.

Lemma accept_cases `{Russh} self pk d answer d_later task_failed b :
  let v := check_server_key self pk d answer d_later task_failed in
  v_result v = Ok b ->
  b = true
  /\ (hv_policy self = HostKeyPolicy.Bypass
      \/ exists key, pk = PublicKey key
          /\ Forall (unobjectionable self key d) (hv_paths self)
          /\ trusted self key d answer d_later task_failed v).
Proof.
  cbv zeta. unfold check_server_key. destruct (consult self pk d) as [v|[key a]] eqn:Ec.
  - intros Hv. destruct (consult_agrees _ _ _ _ _ Ec Hv) as (-> & -> & [Hp|(key & -> & Hall & Hex)]); [auto|].
    split; [done|]. right. exists key. split_and!; [done|done|]. by apply trusted_known.
  - apply consult_asks in Ec as (_ & -> & Es & Ha & _). apply scan_ok in Es as [Hall _].
    destruct (conclude self key a answer task_failed d_later) as [r d'] eqn:Ed. cbn. intros ->.
    apply conclude_ok in Ed as [-> Hwhy]. split; [done|]. right. exists key. split_and!; [done|done|].
    destruct Hwhy as [[Hans ->]|(Hans & Htf & Hs)]; [by eapply trusted_once|by eapply trusted_saved].
Qed.

(** C20: A changed key is never accepted. Under the Strict policy, if any
    readable known_hosts file holds a different key for the host and port, the
    connection is refused whatever the other files say and whatever the user
    would answer: no prompt is shown and no file is written. *)
Theorem changed_key_is_refused `{Russh} self key d answer d_later task_failed path source line :
  hv_policy self = HostKeyPolicy.Strict -> path ∈ hv_paths self -> readable d path ->
  lookup self key d path = Err source -> key_changed source = Some line ->
  exists err, check_server_key self (PublicKey key) d answer d_later task_failed
    = mkVerdict (Err err) d [].
Proof.
  intros Hp Hin Hr Hl Hc. unfold check_server_key, consult. rewrite Hp. cbn.
  destruct (scan self key d (hv_paths self) false) as [b|err] eqn:Es; [|by eexists].
  apply scan_ok in Es as [Hall _]. rewrite Forall_forall in Hall.
  destruct (Hall path Hin) as [Ha|[_ (b' & Hb)]]; [by apply absent_not_readable in Ha|congruence].
Qed.

(** "Trust and save" means not being asked again. When the prompt is
    answered with TrustAndSave, the host's files still raise no objection under
    the save lock, and the save succeeds, every later verification of that key
    on the resulting disk accepts it without a prompt (as long as the file
    stays within the size limit). *)
Theorem saved_key_is_known `{Russh, !RusshLaws} self key d d_later a :
  let v := check_server_key self (PublicKey key) d (Some HostKeyDecision.TrustAndSave) d_later None in
  hv_policy self = HostKeyPolicy.Strict ->
  scan self key d (hv_paths self) false = Ok false ->
  hv_approval self = Some a -> ap_room a = true -> ap_save_path a ∈ hv_paths self ->
  Forall (unobjectionable self key d_later) (hv_paths self) ->
  v_result v = Ok true -> readable (v_disk v) (ap_save_path a) ->
  v_prompts v = [fingerprint_prompt self key]
  /\ forall answer' d' task', check_server_key self (PublicKey key) (v_disk v) answer' d' task'
                         = mkVerdict (Ok true) (v_disk v) [].
Proof.
  cbv zeta. intros Hp Hs Ha Hroom Hin Hlater.
  assert (Hv : check_server_key self (PublicKey key) d (Some HostKeyDecision.TrustAndSave) d_later None
    = let '(r, d') := trust_and_save self key d_later (ap_save_path a) in
      mkVerdict (result_map (fun _ => true) r) d' [fingerprint_prompt self key]).
  { unfold check_server_key, consult. rewrite Hp, bool_decide_eq_false_2, Hs, Ha, Hroom by done.
    unfold conclude. cbn -[trust_and_save]. by destruct (trust_and_save self key d_later (ap_save_path a)). }
  rewrite Hv. unfold trust_and_save.
  destruct (rescan self key d_later (hv_paths self)) as [[]|] eqn:Er; cbn; [| |done].
  - intros _ Hr. split; [done|]. intros answer' d' task'. apply known_is_accepted; [done..|].
    apply rescan_true in Er. rewrite Forall_forall in Hlater. rewrite Exists_exists in Er |- *.
    destruct Er as (p & Hpin & Hl & Hna). exists p. split; [done|]. split; [|done].
    by destruct (Hlater p Hpin) as [?|[? _]].
  - destruct (learn_known_hosts_path _ _ _ _ _) as [[[]|] d'] eqn:El; cbn; [|done].
    intros _ Hr. split; [done|]. intros answer' d'' task'.
    pose proof (learn_then_known _ _ _ _ _ _ El) as Hknown.
    apply known_is_accepted; [done| |].
    + rewrite Forall_forall in Hlater |- *. intros p Hpin.
      destruct (decide (p = ap_save_path a)) as [->|Hne]; [right; split; [done|by exists true]|].
      destruct (learn_elsewhere _ _ _ _ _ _ _ p El Hne) as [Hm Hc].
      specialize (Hlater p Hpin). unfold unobjectionable, absent, readable, lookup in *.
      by rewrite Hm, Hc.
    + rewrite Exists_exists. by exists (ap_save_path a).
Qed.

(** ** Forwarded channels *)

Lemma accept_iff self address port :
  server_channel_open_forwarded_tcpip self address port = Accept <->
  exists f, hv_forwarded self = Some f /\ fw_enabled f <> 0 /\ fw_enabled f = port
    /\ remote_host (fw_binding f) = address /\ fw_room f = true.
Proof.
  unfold server_channel_open_forwarded_tcpip.
  destruct (hv_forwarded self) as [f|]; [|split; [done|by intros (f & Hf & _)]].
  destruct (_ || _) eqn:E; bools.
  - split; [done|]. intros (f' & [= <-] & H1 & H2 & H3 & _).
    destruct E as [E|E]; bools; [destruct E as [E|E]; bools|]; by contradict E.
  - destruct (fw_room f) eqn:Er.
    + split; [|done]. intros _. exists f. split_and!; try done; by apply dec_stable.
    + split; [done|]. intros (f' & [= <-] & _ & _ & _ & ?). congruence.
Qed.

(** A server may only push channels into an active registration. A
    forwarded channel is accepted exactly when the session has a registration
    whose enabled port is nonzero and equal to the port the server names, whose
    bind host is the address the server names, and whose queue has room. *)
Theorem forwarded_channel_accepted_iff self address port :
  server_channel_open_forwarded_tcpip self address port = Accept <->
  exists f, hv_forwarded self = Some f /\ fw_enabled f <> 0 /\ fw_enabled f = port
    /\ remote_host (fw_binding f) = address /\ fw_room f = true.
Proof. exact (accept_iff self address port). Qed.

(** ** Witnesses *)

Definition example_verifier : HostKeyVerifier :=
  mkHostKeyVerifier "bastion" 22 ["known_hosts"] HostKeyPolicy.Strict
    (Some (mkHostKeyApproval true "known_hosts")) None.

Theorem changed_key_is_refused_witness :
  exists err,
    check_server_key (H := Toy.russh) example_verifier (PublicKey "K2")
      [("known_hosts", "bastion", 22, "K1")] (Some HostKeyDecision.TrustOnce) [] None
    = mkVerdict (H := Toy.russh) (Err err) [("known_hosts", "bastion", 22, "K1")] [].
Proof.
  apply (changed_key_is_refused (H := Toy.russh) example_verifier "K2"
    [("known_hosts", "bastion", 22, "K1")] (Some HostKeyDecision.TrustOnce) [] None
    "known_hosts" (Toy.Changed 1) 1); [reflexivity| | |reflexivity|reflexivity].
  - apply list_elem_of_singleton. reflexivity.
  - exists (mkMetadata true 100). split_and!; [reflexivity|reflexivity|vm_compute; discriminate].
Defined.

Theorem saved_key_is_known_witness :
  check_server_key (H := Toy.russh) example_verifier (PublicKey "K")
    [("known_hosts", "bastion", 22, "K")] None [] None
  = mkVerdict (H := Toy.russh) (Ok true) [("known_hosts", "bastion", 22, "K")] [].
Proof.
  assert (Hin : "known_hosts" ∈ ["known_hosts"]) by (by apply list_elem_of_singleton).
  assert (Hu : Forall (unobjectionable (H := Toy.russh) example_verifier "K" []) ["known_hosts"]).
  { repeat constructor. exists (mkIoError ErrorKind.NotFound "not found"). by split. }
  assert (Hr : readable (H := Toy.russh) [("known_hosts", "bastion", 22, "K")] "known_hosts").
  { exists (mkMetadata true 100). split_and!; [reflexivity|reflexivity|vm_compute; discriminate]. }
  exact (proj2 (saved_key_is_known (H := Toy.russh) example_verifier "K" [] []
    (mkHostKeyApproval true "known_hosts") eq_refl eq_refl eq_refl eq_refl Hin Hu eq_refl Hr)
    None [] None).
Defined.
