(* ===== verification/SshClient.v ===== *)
(** * SshClient: one authenticated SSH session, crates/ssh-engine/src/client.rs
    (and the transport wrapper cancellable_stream.rs).

    Everything russh, the network, the disk and the clock decide is a field of
    [ConnectEnv] or an argument named after the call it answers. *)
From S2P Require Import Prelude Io Text Net Domain Russh HostKey.

Definition MAX_KNOWN_HOSTS_PATHS : nat := 2.
Definition MAX_PRIVATE_KEY_BYTES : Z := 1024 * 1024.
Definition MAX_FORWARDED_CHANNELS : nat := 64.
Definition MAX_AGENT_IDENTITIES : nat := 32.
Definition SHUTDOWN_DEADLINE : Duration := from_secs 3.

Module SshCredential.
Inductive t :=
  | Password (password : string)
  | PrivateKey (passphrase : option string)
  | Agent.
End SshCredential.

Module SshConnectError.
Inductive t `{Russh} :=
  | InvalidConfig (what : string)
  | Cancelled
  | Timeout (during : string)
  | Tcp (source : IoError)
  | Handshake (source : HostKeyError.t)
  | Authentication (source : russh_error)
  | AuthenticationRejected
  | PrivateKeyTooLarge
  | PrivateKeyIo (source : IoError)
  | PrivateKeyDecode (source : keys_error)
  | Agent (source : keys_error)
  | AgentAuthentication (source : agent_auth_error)
  | NoAgentIdentities
  | Session (source : russh_error)
  | ChannelOpen (source : russh_error)
  | RemoteForward (source : russh_error).
End SshConnectError.

Definition show_connect_error `{Russh} (e : SshConnectError.t) : string :=
  match e with
  | SshConnectError.InvalidConfig what => "invalid SSH configuration: " +:+ what
  | SshConnectError.Cancelled => "SSH connection cancelled"
  | SshConnectError.Timeout during => "SSH connection timed out during " +:+ during
  | SshConnectError.Tcp e => "TCP connection failed: " +:+ io_text e
  | SshConnectError.Handshake e => "SSH handshake failed: " +:+ show_host_key_error e
  | SshConnectError.Authentication e => "SSH authentication failed: " +:+ show_russh_error e
  | SshConnectError.AuthenticationRejected => "SSH credentials were rejected"
  | SshConnectError.PrivateKeyTooLarge => "private key file is too large"
  | SshConnectError.PrivateKeyIo e => "cannot read private key: " +:+ io_text e
  | SshConnectError.PrivateKeyDecode e => "cannot decode private key: " +:+ show_keys_error e
  | SshConnectError.Agent e => "SSH agent failed: " +:+ show_keys_error e
  | SshConnectError.AgentAuthentication e =>
      "SSH agent authentication failed: " +:+ show_agent_auth_error e
  | SshConnectError.NoAgentIdentities => "SSH agent has no usable identities"
  | SshConnectError.Session e => "SSH session operation failed: " +:+ show_russh_error e
  | SshConnectError.ChannelOpen e => "SSH direct-tcpip channel failed: " +:+ show_russh_error e
  | SshConnectError.RemoteForward e =>
      "SSH remote forwarding request failed: " +:+ show_russh_error e
  end.

Module ForwardingFailure.
Inductive t :=
  | NotAllowed | ConnectFailed | ResourceShortage | Timeout | SessionUnavailable | Other.
#[global] Instance t_eq_dec : EqDecision t.
Proof. solve_decision. Defined.
End ForwardingFailure.

Definition forwarding_failure `{Russh} (self : SshConnectError.t) : ForwardingFailure.t :=
  match self with
  | SshConnectError.ChannelOpen e =>
      match channel_open_failure e with
      | Some ChannelOpenFailure.AdministrativelyProhibited => ForwardingFailure.NotAllowed
      | Some ChannelOpenFailure.ConnectFailed => ForwardingFailure.ConnectFailed
      | Some ChannelOpenFailure.ResourceShortage => ForwardingFailure.ResourceShortage
      | _ => ForwardingFailure.Other
      end
  | SshConnectError.Timeout _ => ForwardingFailure.Timeout
  | SshConnectError.Cancelled | SshConnectError.Session _ => ForwardingFailure.SessionUnavailable
  | _ => ForwardingFailure.Other
  end.

(** The [Self::Timeout(..)] arms of [summary]. *)
Definition timeout_stage (during : string) : FailureStage.t :=
  if bool_decide (during = "TCP connect") then FailureStage.ConnectTcp
  else if bool_decide (during = "authentication") then FailureStage.Authentication
  else if bool_decide (during = "SSH ping") then FailureStage.HealthCheck
  else if bool_decide (during = "SSH shutdown") then FailureStage.Shutdown
  else FailureStage.SshHandshake.

(** The kind, stage and retryability of [summary]. *)
Definition classify `{Russh} (self : SshConnectError.t)
    : TunnelErrorKind * FailureStage.t * Retryability.t :=
  match self with
  | SshConnectError.InvalidConfig _ =>
      (InvalidConfig, FailureStage.ConfigValidation, Retryability.Blocked)
  | SshConnectError.Cancelled => (Cancelled, FailureStage.Shutdown, Retryability.Blocked)
  | SshConnectError.Timeout during => (Timeout, timeout_stage during, Retryability.Transient)
  | SshConnectError.Tcp _ => (Network, FailureStage.ConnectTcp, Retryability.Transient)
  | SshConnectError.Handshake e =>
      match e with
      | HostKeyError.Unknown _ _ _ | HostKeyError.Declined _ _
      | HostKeyError.ApprovalUnavailable _ _ =>
          (HostKeyUnknown, FailureStage.HostKeyVerification, Retryability.Blocked)
      | HostKeyError.Changed _ _ _ _ =>
          (HostKeyMismatch, FailureStage.HostKeyVerification, Retryability.Blocked)
      | HostKeyError.UnsupportedCertificate _ _ | HostKeyError.KnownHostsIo _ _
      | HostKeyError.KnownHostsTooLarge _ | HostKeyError.InvalidKnownHosts _ _ =>
          (InvalidConfig, FailureStage.HostKeyVerification, Retryability.Blocked)
      | HostKeyError.Protocol _ => (Network, FailureStage.SshHandshake, Retryability.Transient)
      end
  | SshConnectError.AuthenticationRejected =>
      (Authentication, FailureStage.Authentication, Retryability.Blocked)
  | SshConnectError.Authentication _ =>
      (Network, FailureStage.Authentication, Retryability.Transient)
  | SshConnectError.PrivateKeyTooLarge | SshConnectError.PrivateKeyIo _
  | SshConnectError.PrivateKeyDecode _ =>
      (InvalidConfig, FailureStage.Authentication, Retryability.Blocked)
  | SshConnectError.Agent _ | SshConnectError.AgentAuthentication _ =>
      (Authentication, FailureStage.Authentication, Retryability.Transient)
  | SshConnectError.NoAgentIdentities =>
      (Authentication, FailureStage.Authentication, Retryability.Blocked)
  | SshConnectError.Session _ => (Network, FailureStage.HealthCheck, Retryability.Transient)
  | SshConnectError.RemoteForward e =>
      if is_request_denied e then
        (RemoteForwardRejected, FailureStage.RegisterForward, Retryability.Blocked)
      else (Network, FailureStage.Relay, Retryability.Transient)
  | SshConnectError.ChannelOpen _ => (Network, FailureStage.Relay, Retryability.Transient)
  end.

Definition summary `{Russh} (self : SshConnectError.t) : TunnelError :=
  let '(kind, stage, retryability) := classify self in
  {| err_kind := kind;
     err_stage := stage;
     err_message := take_chars 512 (show_connect_error self);
     err_retryability := retryability;
     err_source_chain := [] |}.

(** ** The environment of a connection attempt *)

(** The fields of [client::Config] the source sets. *)
Record ClientConfig := mkClientConfig {
  cfg_nodelay : bool;
  cfg_keepalive_interval : option Duration;
  cfg_keepalive_max : Z
}.

Definition client_config (host : SshHost) : ClientConfig := {|
  cfg_nodelay := true;
  cfg_keepalive_interval :=
    if is_zero (host_keepalive_interval host) then None else Some (host_keepalive_interval host);
  cfg_keepalive_max := host_keepalive_max host
|}.

(** Where [connect_agent_stream] looks for the agent. *)
Inductive AgentEndpoint :=
  | NamedPipe (path : string)
  | Pageant
  | UnixSocket (path : string)
  | EnvironmentSocket.

Inductive Platform := Windows | Unix | OtherPlatform.

Record ConnectEnv `{Russh} := mkConnectEnv {
  env_platform : Platform;
  (** Successive readings of [tokio::time::Instant::now()]. *)
  env_now : nat -> Instant;
  (** The first bytes of a file, up to a limit, as text. *)
  env_read_file : PathBuf -> Z -> result string IoError;
  (** [TcpStream::connect] against a deadline and the cancellation token. *)
  env_tcp_connect : string -> Z -> Instant -> raced (timed (result unit IoError));
  (** [client::connect_stream]: the key exchange, with the verifier it consults. *)
  env_handshake :
    ClientConfig -> HostKeyVerifier -> Instant -> raced (timed (result unit HostKeyError.t));
  (** The token and the deadline of the authentication phase: [None] if neither
      fires first. *)
  env_auth_limit : Instant -> option (raced unit);
  (** Requests of the authentication phase; [true] is success. *)
  env_password : string -> string -> result bool russh_error;
  env_rsa_hash : result (option string) russh_error;
  env_publickey : string -> private_key -> option string -> result bool russh_error;
  env_agent_open : AgentEndpoint -> result unit keys_error;
  env_agent_identities : result (list string) keys_error;
  env_agent_auth : string -> string -> option string -> result bool agent_auth_error
}.

Section Connect.
Context `{Russh}.

Definition outcome (A : Type) : Type := result A SshConnectError.t.

(** ** [validate] *)

Definition auth_matches (auth : AuthConfig.t) (credentials : SshCredential.t) : bool :=
  match auth, credentials with
  | AuthConfig.Password _, SshCredential.Password _ => true
  | AuthConfig.PrivateKey _ _, SshCredential.PrivateKey _ => true
  | AuthConfig.Agent _, SshCredential.Agent => true
  | _, _ => false
  end.

Definition validate (host : SshHost) (credentials : SshCredential.t)
    (known_hosts_paths : list PathBuf) : outcome unit :=
  if negb (auth_matches (host_auth host) credentials) then
    Err (SshConnectError.InvalidConfig "SSH auth method mismatch")
  else if trim_is_empty (host_hostname host) then
    Err (SshConnectError.InvalidConfig "hostname is empty")
  else if trim_is_empty (host_username host) then
    Err (SshConnectError.InvalidConfig "username is empty")
  else if bool_decide (host_port host = 0) then
    Err (SshConnectError.InvalidConfig "SSH port is zero")
  else if is_zero (host_connect_timeout host) then
    Err (SshConnectError.InvalidConfig "connect timeout is zero")
  else if bool_decide (MAX_KNOWN_HOSTS_PATHS < length known_hosts_paths)%nat then
    Err (SshConnectError.InvalidConfig "too many known_hosts files")
  else Ok tt.

(** ** [load_private_key] *)

Definition load_private_key (env : ConnectEnv) (path : PathBuf) (passphrase : option string)
    : outcome private_key :=
  let? pem := map_err SshConnectError.PrivateKeyIo
                (env_read_file env path (MAX_PRIVATE_KEY_BYTES + 1)) in
  if bool_decide (MAX_PRIVATE_KEY_BYTES < str_len pem) then
    Err SshConnectError.PrivateKeyTooLarge
  else map_err SshConnectError.PrivateKeyDecode (decode_secret_key pem passphrase).

Definition private_key_for (env : ConnectEnv) (host : SshHost) (credentials : SshCredential.t)
    : outcome (option private_key) :=
  match host_auth host, credentials with
  | AuthConfig.PrivateKey key_path _, SshCredential.PrivateKey passphrase =>
      result_map Some (load_private_key env key_path passphrase)
  | _, _ => Ok None
  end.

(** ** [authenticate_agent] *)

Definition connect_agent_stream (env : ConnectEnv) (socket : option string) : outcome unit :=
  match env_platform env with
  | Windows =>
      match socket with
      | Some path => map_err SshConnectError.Agent (env_agent_open env (NamedPipe path))
      | None =>
          match env_agent_open env (NamedPipe "\\.\pipe\openssh-ssh-agent") with
          | Ok _ => Ok tt
          | Err _ => map_err SshConnectError.Agent (env_agent_open env Pageant)
          end
      end
  | Unix =>
      match socket with
      | Some path => map_err SshConnectError.Agent (env_agent_open env (UnixSocket path))
      | None => map_err SshConnectError.Agent (env_agent_open env EnvironmentSocket)
      end
  | OtherPlatform =>
      Err (SshConnectError.InvalidConfig "SSH agent is unsupported on this platform")
  end.

(** The loop over the identities the agent offers. *)
Fixpoint try_identities (env : ConnectEnv) (username : string) (hash : option string)
    (identities : list string) (attempted : bool) : outcome unit :=
  match identities with
  | [] =>
      if attempted then Err SshConnectError.AuthenticationRejected
      else Err SshConnectError.NoAgentIdentities
  | identity :: rest =>
      match env_agent_auth env username identity hash with
      | Err e => Err (SshConnectError.AgentAuthentication e)
      | Ok true => Ok tt
      | Ok false => try_identities env username hash rest true
      end
  end.

Definition authenticate_agent (env : ConnectEnv) (host : SshHost) : outcome unit :=
  match host_auth host with
  | AuthConfig.Agent socket =>
      let? _ := connect_agent_stream env socket in
      let? identities := map_err SshConnectError.Agent (env_agent_identities env) in
      let? hash := map_err SshConnectError.Authentication (env_rsa_hash env) in
      try_identities env (host_username host) hash (take MAX_AGENT_IDENTITIES identities) false
  | _ => Err (SshConnectError.InvalidConfig "host auth must be agent")
  end.

(** ** [authenticate] *)

Definition authenticate (env : ConnectEnv) (host : SshHost) (credentials : SshCredential.t)
    (key : option private_key) : outcome unit :=
  match credentials with
  | SshCredential.Agent => authenticate_agent env host
  | _ =>
      let? success :=
        match credentials with
        | SshCredential.Password password =>
            map_err SshConnectError.Authentication
              (env_password env (host_username host) password)
        | SshCredential.PrivateKey _ =>
            match key with
            | None => Err (SshConnectError.InvalidConfig "missing private key")
            | Some key =>
                let? hash := map_err SshConnectError.Authentication (env_rsa_hash env) in
                map_err SshConnectError.Authentication
                  (env_publickey env (host_username host) key hash)
            end
        | SshCredential.Agent => Err (SshConnectError.InvalidConfig "invalid agent state")
        end in
      if (success : bool) then Ok tt else Err SshConnectError.AuthenticationRejected
  end.

(** ** The session *)

(** [handle]: whether the client handle is present. [remote_enabled] is the
    shared atomic the host-key handler reads. *)
Record DirectSshSession := mkDirectSshSession {
  handle : bool;
  cancelled : bool;
  forwarded : option RemoteEndpoint;
  remote_active : option (string * Z);
  remote_enabled : option Z
}.

(** The deadline of the key exchange: two minutes when a user may be asked. *)
Definition handshake_deadline (approval : option HostKeyApproval) (deadline now : Instant)
    : Instant :=
  match approval with
  | Some _ => Z.max deadline (now + from_secs 120)
  | None => deadline
  end.

(** [finish_connection]: the session, or the error and whether the child token
    was cancelled on the way out. *)
Definition finish_connection (env : ConnectEnv) (host : SshHost) (credentials : SshCredential.t)
    (known_hosts_paths : list PathBuf) (deadline : Instant) (remote : option RemoteEndpoint)
    (key : option private_key) (approval : option HostKeyApproval)
    : result DirectSshSession (SshConnectError.t * bool) :=
  let verifier := {|
    hv_host := host_hostname host;
    hv_port := host_port host;
    hv_paths := known_hosts_paths;
    hv_policy := host_host_key_policy host;
    hv_approval := approval;
    hv_forwarded := (fun binding => mkForwarded binding true 0) <$> remote
  |} in
  let handshake : outcome unit :=
    match env_handshake env (client_config host) verifier
            (handshake_deadline approval deadline (env_now env 1)) with
    | Io.Cancelled => Err SshConnectError.Cancelled
    | Completed (InTime (Ok _)) => Ok tt
    | Completed (InTime (Err source)) => Err (SshConnectError.Handshake source)
    | Completed Elapsed => Err (SshConnectError.Timeout "SSH handshake")
    end in
  match handshake with
  | Err error => Err (error, true)
  | Ok _ =>
      let authentication : outcome unit :=
        match env_auth_limit env (env_now env 2 + host_connect_timeout host) with
        | Some Io.Cancelled => Err SshConnectError.Cancelled
        | Some (Completed _) => Err (SshConnectError.Timeout "authentication")
        | None => authenticate env host credentials key
        end in
      match authentication with
      | Err error => Err (error, true)
      | Ok _ =>
          Ok {| handle := true;
                cancelled := false;
                forwarded := remote;
                remote_active := None;
                remote_enabled := (fun _ => 0) <$> remote |}
      end
  end.

Definition connect_authenticated (env : ConnectEnv) (host : SshHost)
    (credentials : SshCredential.t) (known_hosts_paths : list PathBuf)
    (remote : option RemoteEndpoint) (approval : option HostKeyApproval)
    : result DirectSshSession (SshConnectError.t * bool) :=
  let? _ := map_err (fun e => (e, false)) (validate host credentials known_hosts_paths) in
  let? key := map_err (fun e => (e, false)) (private_key_for env host credentials) in
  let deadline := env_now env 0 + host_connect_timeout host in
  match env_tcp_connect env (host_hostname host) (host_port host) deadline with
  | Io.Cancelled => Err (SshConnectError.Cancelled, false)
  | Completed (InTime (Err source)) => Err (SshConnectError.Tcp source, false)
  | Completed Elapsed => Err (SshConnectError.Timeout "TCP connect", false)
  | Completed (InTime (Ok _)) =>
      finish_connection env host credentials known_hosts_paths deadline remote key approval
  end.

(** [connect_via_channel]: the transport is a channel of the previous hop. *)
Definition connect_via_channel (env : ConnectEnv) (host : SshHost)
    (credentials : SshCredential.t) (known_hosts_paths : list PathBuf)
    (remote : option RemoteEndpoint) (approval : option HostKeyApproval)
    : result DirectSshSession (SshConnectError.t * bool) :=
  let? _ := map_err (fun e => (e, false)) (validate host credentials known_hosts_paths) in
  let? key := map_err (fun e => (e, false)) (private_key_for env host credentials) in
  let deadline := env_now env 0 + host_connect_timeout host in
  finish_connection env host credentials known_hosts_paths deadline remote key approval.

(** The public constructors. *)
Definition connect_password (env : ConnectEnv) (host : SshHost) (password : string)
    (known_hosts_paths : list PathBuf) : result DirectSshSession (SshConnectError.t * bool) :=
  connect_authenticated env host (SshCredential.Password password) known_hosts_paths None None.
Definition connect_private_key (env : ConnectEnv) (host : SshHost) (passphrase : option string)
    (known_hosts_paths : list PathBuf) : result DirectSshSession (SshConnectError.t * bool) :=
  connect_authenticated env host (SshCredential.PrivateKey passphrase) known_hosts_paths None None.
Definition connect_agent (env : ConnectEnv) (host : SshHost)
    (known_hosts_paths : list PathBuf) : result DirectSshSession (SshConnectError.t * bool) :=
  connect_authenticated env host SshCredential.Agent known_hosts_paths None None.
Definition connect_password_for_remote (env : ConnectEnv) (host : SshHost) (password : string)
    (known_hosts_paths : list PathBuf) (remote : RemoteEndpoint)
    : result DirectSshSession (SshConnectError.t * bool) :=
  connect_authenticated env host (SshCredential.Password password) known_hosts_paths
    (Some remote) None.
Definition connect_private_key_for_remote (env : ConnectEnv) (host : SshHost)
    (passphrase : option string) (known_hosts_paths : list PathBuf) (remote : RemoteEndpoint)
    : result DirectSshSession (SshConnectError.t * bool) :=
  connect_authenticated env host (SshCredential.PrivateKey passphrase) known_hosts_paths
    (Some remote) None.
Definition connect_agent_for_remote (env : ConnectEnv) (host : SshHost)
    (known_hosts_paths : list PathBuf) (remote : RemoteEndpoint)
    : result DirectSshSession (SshConnectError.t * bool) :=
  connect_authenticated env host SshCredential.Agent known_hosts_paths (Some remote) None.
End Connect.

(** ** Operations on a session *)

Section Session.
Context `{Russh}.

(** A session operation: its result, and the session it leaves. *)
Notation session A := (ST DirectSshSession SshConnectError.t A).

Definition with_remote (f : option RemoteEndpoint) (a : option (string * Z)) (e : option Z)
    (s : DirectSshSession) : DirectSshSession :=
  mkDirectSshSession (handle s) (cancelled s) f a e.

Definition store_enabled (port : Z) (s : DirectSshSession) : DirectSshSession :=
  with_remote (forwarded s) (remote_active s) ((fun _ => port) <$> remote_enabled s) s.

Definition is_closed (handle_closed : bool) (self : DirectSshSession) : bool :=
  negb (handle self) || handle_closed.

(** [race] reads a [select!] between the token and a call with a deadline. *)
Definition race {A} (r : raced (timed (result A russh_error))) (what : string)
    (wrap : russh_error -> SshConnectError.t) : outcome A :=
  match r with
  | Io.Cancelled => Err SshConnectError.Cancelled
  | Completed (InTime (Ok a)) => Ok a
  | Completed (InTime (Err source)) => Err (wrap source)
  | Completed Elapsed => Err (SshConnectError.Timeout what)
  end.

(** [tcpip_forward host port] is the port the server assigned. *)
Definition request_remote_forward
    (tcpip_forward : string -> Z -> raced (timed (result Z russh_error))) : session Z :=
  let! self := get in
  match forwarded self with
  | None => throw (SshConnectError.InvalidConfig "session has no remote forward")
  | Some binding =>
      if str_is_empty (remote_host binding) || bool_decide (255 < str_len (remote_host binding)) then
        throw (SshConnectError.InvalidConfig "invalid remote bind address")
      else if negb (handle self) then throw SshConnectError.Cancelled
      else
        let! assigned :=
          lift (race (tcpip_forward (remote_host binding) (remote_port binding))
                  "remote forward request" SshConnectError.RemoteForward) in
        let! port :=
          if bool_decide (remote_port binding = 0) then
            if bool_decide (0 < assigned) && bool_decide (assigned <= u16_max) then ret assigned
            else throw (SshConnectError.InvalidConfig "server returned invalid remote port")
          else ret (remote_port binding) in
        modify (with_remote None (Some (remote_host binding, port)) (remote_enabled self)) ;;;
        modify (store_enabled port) ;;;
        ret port
  end.

Definition cancel_remote_forward
    (cancel_tcpip_forward : string -> Z -> timed (result unit russh_error)) : session unit :=
  let! self := get in
  match remote_active self with
  | None => ret tt
  | Some (address, port) =>
      modify (store_enabled 0) ;;;
      if negb (handle self) then throw SshConnectError.Cancelled
      else
        lift (race (Completed (cancel_tcpip_forward address port)) "cancel remote forward"
                SshConnectError.RemoteForward) ;;;
        modify (fun s => with_remote (forwarded s) None (remote_enabled s) s)
  end.

(** [elapsed] is the time the reply took. *)
Definition ping (send_ping : raced (timed (result unit russh_error))) (elapsed : Duration)
    (self : DirectSshSession) : outcome Duration :=
  if negb (handle self) then Err SshConnectError.Cancelled
  else result_map (fun _ => elapsed) (race send_ping "SSH ping" SshConnectError.Session).

(** [open host port originator_ip originator_port] opens the channel. *)
Definition open_direct_tcpip {Chan : Type}
    (open : string -> Z -> string -> Z -> raced (timed (result Chan russh_error)))
    (destination_host : string) (destination_port : Z) (originator : SocketAddr)
    (self : DirectSshSession) : outcome Chan :=
  if str_is_empty destination_host || bool_decide (255 < str_len destination_host)
     || bool_decide (destination_port = 0)
  then Err (SshConnectError.InvalidConfig "invalid forwarding destination")
  else if negb (handle self) then Err SshConnectError.Cancelled
  else race (open destination_host destination_port (show_ip (sa_ip originator))
               (sa_port originator)) "direct-tcpip channel" SshConnectError.ChannelOpen.

(** [Drop]: the gate is closed and the transport cancelled. *)
Definition drop_session (s : DirectSshSession) : DirectSshSession :=
  let s := store_enabled 0 s in
  mkDirectSshSession (handle s) true (forwarded s) (remote_active s) (remote_enabled s).

(** [disconnect(mut self)]; the session is dropped on return. [shutdown] is the
    pair of the disconnect message's result and the joined task's. *)
Definition disconnect
    (shutdown : timed (result unit russh_error * result unit HostKeyError.t))
    (self : DirectSshSession) : outcome unit * DirectSshSession :=
  let dropped := drop_session (mkDirectSshSession false (cancelled self) (forwarded self)
                                 (remote_active self) (remote_enabled self)) in
  if negb (handle self) then (Ok tt, dropped)
  else
    (match shutdown with
     | Elapsed => Err (SshConnectError.Timeout "SSH shutdown")
     | InTime (Err source, _) => Err (SshConnectError.Session source)
     | InTime (Ok _, Ok _) => Ok tt
     | InTime (Ok _, Err (HostKeyError.Protocol source)) =>
         if is_disconnect source then Ok tt
         else Err (SshConnectError.Handshake (HostKeyError.Protocol source))
     | InTime (Ok _, Err source) => Err (SshConnectError.Handshake source)
     end, dropped).
End Session.

(** ** The cancellable transport, cancellable_stream.rs *)

Inductive poll (A : Type) : Type := Ready (a : A) | Pending.
Arguments Ready {A} a.
Arguments Pending {A}.

Definition transport_cancelled : IoError :=
  mkIoError ErrorKind.Interrupted "SSH transport cancelled".

Definition poll_cancelled (token : bool) : poll (result unit IoError) :=
  if token then Ready (Err transport_cancelled) else Pending.

(** [poll_read], [poll_write] and [poll_flush]: the token is polled first. *)
Definition poll_read (token : bool) (inner : poll (result unit IoError))
    : poll (result unit IoError) :=
  match poll_cancelled token with Ready r => Ready r | Pending => inner end.
Definition poll_write (token : bool) (inner : poll (result Z IoError)) : poll (result Z IoError) :=
  match poll_cancelled token with Ready r => Ready (result_map (fun _ => 0) r) | Pending => inner end.
Definition poll_flush (token : bool) (inner : poll (result unit IoError))
    : poll (result unit IoError) :=
  match poll_cancelled token with Ready r => Ready r | Pending => inner end.
Definition poll_shutdown (token : bool) (inner : poll (result unit IoError))
    : poll (result unit IoError) := inner.

(** ** Error summaries *)

(** What the supervisor and the user see of a connection error: a message
    that is the error's text cut to at most 512 characters, and a retry class
    that depends on the kind - network trouble and timeouts are retried, as are
    failures of the SSH agent itself; everything that needs the user (host keys,
    rejected credentials, configuration, refused forwards) blocks. *)
Theorem summary_spec `{Russh} e :
  let s := summary e in
  (char_count (err_message s) <= 512)%nat
  /\ (exists rest, show_connect_error e = err_message s +:+ rest)
  /\ ((char_count (show_connect_error e) <= 512)%nat -> err_message s = show_connect_error e)
  /\ (err_retryability s = Retryability.Transient <->
      err_kind s = Network \/ err_kind s = Timeout
      \/ (err_kind s = Authentication /\ err_stage s = FailureStage.Authentication
          /\ e <> SshConnectError.AuthenticationRejected
          /\ e <> SshConnectError.NoAgentIdentities)).
Proof.
  cbv zeta. unfold summary. destruct (classify e) as [[kind stage] retry] eqn:Ec.
  cbn [err_message err_retryability err_kind err_stage].
  split_and!; [apply take_chars_count|apply take_chars_prefix|apply take_chars_all|].
  assert (Hagent : (exists x, e = SshConnectError.Agent x)
                   \/ (exists x, e = SshConnectError.AgentAuthentication x)
                   \/ (forall x, e <> SshConnectError.Agent x)
                      /\ forall x, e <> SshConnectError.AgentAuthentication x).
  { destruct e; eauto; right; right; split; congruence. }
  destruct e as [| | | |hk| | | | | | | | | | |rf]; cbn in Ec;
    try destruct hk; try (destruct (is_request_denied rf)); simplify_eq;
    intuition (try congruence).
Qed.

(** ** The SSH agent *)

(** An identity the server turns down, and one it accepts. *)
Definition turned_down `{Russh} (env : ConnectEnv) (user : string) (hash : option string)
    (i : string) : Prop := env_agent_auth env user i hash = Ok false.
Definition accepted `{Russh} (env : ConnectEnv) (user : string) (hash : option string)
    (i : string) : Prop := env_agent_auth env user i hash = Ok true.

Lemma try_identities_ok `{Russh} env user hash ids attempted :
  try_identities env user hash ids attempted = Ok tt <->
  exists tried i rest, ids = tried ++ i :: rest
    /\ Forall (turned_down env user hash) tried /\ accepted env user hash i.
Proof.
  revert attempted. induction ids as [|j ids IH]; intros attempted; cbn [try_identities].
  - split; [by destruct attempted|]. by intros ([] & ? & ? & ? & _).
  - destruct (env_agent_auth env user j hash) as [[]|e] eqn:Ej.
    + split; [|done]. intros _. by exists [], j, ids.
    + rewrite IH. split.
      * intros (tried & i & rest & -> & Ht & Hi). exists (j :: tried), i, rest. by repeat constructor.
      * intros ([|t tried] & i & rest & [= -> ->] & Ht & Hi); [unfold accepted in Hi; congruence|].
        inv Ht. by exists tried, i, rest.
    + split; [done|]. intros ([|t tried] & i & rest & [= -> ->] & Ht & Hi).
      * unfold accepted in Hi. congruence.
      * inv Ht. unfold turned_down in *. congruence.
Qed.

Lemma try_identities_none `{Russh} env user hash ids attempted :
  try_identities env user hash ids attempted = Err SshConnectError.NoAgentIdentities <->
  attempted = false /\ ids = [].
Proof.
  revert attempted. induction ids as [|j ids IH]; intros attempted; cbn [try_identities].
  - destruct attempted; naive_solver.
  - destruct (env_agent_auth env user j hash) as [[]|e]; [|rewrite IH|]; naive_solver.
Qed.

(** Agent authentication. It succeeds exactly when the agent can be
    reached and lists its keys and one of the first 32 is accepted, all keys
    before it having been turned down (an error of the agent stops the search);
    it reports "no usable identities" exactly when the list is empty, so never
    after a key was tried. *)
Theorem agent_authentication_spec `{Russh} env host socket :
  host_auth host = AuthConfig.Agent socket ->
  (authenticate_agent env host = Ok tt <->
   exists ids hash, connect_agent_stream env socket = Ok tt
     /\ env_agent_identities env = Ok ids /\ env_rsa_hash env = Ok hash
     /\ exists tried i rest, take MAX_AGENT_IDENTITIES ids = tried ++ i :: rest
          /\ Forall (turned_down env (host_username host) hash) tried
          /\ accepted env (host_username host) hash i)
  /\ (authenticate_agent env host = Err SshConnectError.NoAgentIdentities ->
      env_agent_identities env = Ok []).
Proof.
  intros Ha. unfold authenticate_agent. rewrite Ha.
  destruct (connect_agent_stream env socket) as [[]|e1] eqn:E1; cycle 1.
  { split; [split; [done|]; intros (? & ? & ? & _); congruence|].
    intros [= ->]. unfold connect_agent_stream in E1.
    repeat (split_match; try done). all: unfold map_err in *; split_matches. }
  destruct (env_agent_identities env) as [ids|e2]; cbn.
  2:{ split; [|done]. split; [done|]. intros (? & ? & _ & ? & _). congruence. }
  destruct (env_rsa_hash env) as [hash|e3]; cbn.
  2:{ split; [|done]. split; [done|]. intros (? & ? & _ & _ & ? & _). congruence. }
  split.
  - rewrite try_identities_ok. split; [by eauto 10|].
    intros (? & ? & _ & [= <-] & [= <-] & ?). done.
  - intros [_ Hn]%try_identities_none. by destruct ids.
Qed.

(** ** Connecting *)

(** What happens in a key exchange apart from the handler: the key the server
    offers, the disk, and what the user answers if asked. *)
Record KeyExchange `{Russh} := mkKeyExchange {
  kx_offered : PublicKeyOrCertificate;
  kx_disk : disk;
  kx_answer : option HostKeyDecision.t;
  kx_later : disk;
  kx_task_failed : option string
}.
Arguments mkKeyExchange {_}.

Definition verify `{Russh} (verifier : HostKeyVerifier) (kx : KeyExchange) : verdict :=
  check_server_key verifier (kx_offered kx) (kx_disk kx) (kx_answer kx) (kx_later kx)
    (kx_task_failed kx).

(** What russh documents of the key exchange: it completes only if the handler's
    [check_server_key] answers [Ok(true)] to the key the server offers. *)
Definition handshake_verifies `{Russh} (env : ConnectEnv) (kx : KeyExchange) : Prop :=
  forall cfg verifier deadline,
    env_handshake env cfg verifier deadline = Completed (InTime (Ok tt)) ->
    v_result (verify verifier kx) = Ok true.

(** The facts a successful attempt establishes. *)
Record established `{Russh} (env : ConnectEnv) (host : SshHost) (credentials : SshCredential.t)
    (paths : list PathBuf) (remote : option RemoteEndpoint) (approval : option HostKeyApproval)
    (s : DirectSshSession) : Prop := {
  est_valid : validate host credentials paths = Ok tt;
  est_tcp : exists deadline,
    env_tcp_connect env (host_hostname host) (host_port host) deadline = Completed (InTime (Ok tt));
  est_handshake : exists verifier deadline,
    hv_host verifier = host_hostname host /\ hv_port verifier = host_port host
    /\ hv_paths verifier = paths /\ hv_policy verifier = host_host_key_policy host
    /\ hv_approval verifier = approval
    /\ env_handshake env (client_config host) verifier deadline = Completed (InTime (Ok tt));
  est_auth : exists key, private_key_for env host credentials = Ok key
    /\ authenticate env host credentials key = Ok tt;
  est_session :
    s = mkDirectSshSession true false remote None ((fun _ => 0) <$> remote)
}.

Lemma finish_connection_ok `{Russh} env host cred paths deadline remote key approval s :
  finish_connection env host cred paths deadline remote key approval = Ok s ->
  (exists verifier d,
    hv_host verifier = host_hostname host /\ hv_port verifier = host_port host
    /\ hv_paths verifier = paths /\ hv_policy verifier = host_host_key_policy host
    /\ hv_approval verifier = approval
    /\ env_handshake env (client_config host) verifier d = Completed (InTime (Ok tt)))
  /\ authenticate env host cred key = Ok tt
  /\ s = mkDirectSshSession true false remote None ((fun _ => 0) <$> remote).
Proof.
  unfold finish_connection. set (verifier := mkHostKeyVerifier _ _ _ _ _ _).
  destruct (env_handshake _ _ _ _) as [|[[[]|]|]] eqn:Eh; try done.
  destruct (env_auth_limit _ _) as [[]|]; try done.
  destruct (authenticate env host cred key) as [[]|] eqn:Ea; [|done].
  intros [= <-]. split_and!; [|done|done]. by exists verifier, (handshake_deadline approval deadline (env_now env 1)).
Qed.

Lemma finish_connection_err `{Russh} env host cred paths deadline remote key approval e c :
  finish_connection env host cred paths deadline remote key approval = Err (e, c) -> c = true.
Proof.
  unfold finish_connection.
  destruct (env_handshake _ _ _ _) as [|[[[]|]|]]; try by intros [= _ <-].
  destruct (env_auth_limit _ _) as [[]|]; try by intros [= _ <-].
  destruct (authenticate env host cred key) as [[]|]; by intros [= _ <-].
Qed.

Lemma connect_authenticated_ok `{Russh} env host cred paths remote approval s :
  connect_authenticated env host cred paths remote approval = Ok s ->
  established env host cred paths remote approval s.
Proof.
  unfold connect_authenticated. intros Hc.
  destruct (validate host cred paths) as [[]|] eqn:Ev; [|done].
  destruct (private_key_for env host cred) as [key|] eqn:Ek; [|done]. cbn in Hc.
  destruct (env_tcp_connect _ _ _ _) as [|[[[]|]|]] eqn:Et; try done.
  apply finish_connection_ok in Hc as (Hh & Ha & Hs). split; [done|by eexists|done|by eexists|done].
Qed.

(** The server of this exchange is trusted: its key is a plain one to which no
    known-hosts file objects, and a file knows it or this user said so now. *)
Definition trusted_server `{Russh} (host : SshHost) (paths : list PathBuf)
    (approval : option HostKeyApproval) (kx : KeyExchange) : Prop :=
  exists verifier key,
    hv_host verifier = host_hostname host /\ hv_port verifier = host_port host
    /\ hv_paths verifier = paths /\ hv_approval verifier = approval
    /\ kx_offered kx = PublicKey key
    /\ Forall (unobjectionable verifier key (kx_disk kx)) paths
    /\ trusted verifier key (kx_disk kx) (kx_answer kx) (kx_later kx) (kx_task_failed kx)
         (verify verifier kx).

Lemma verified_trusted `{Russh} env kx host paths approval verifier deadline :
  handshake_verifies env kx -> host_host_key_policy host = HostKeyPolicy.Strict ->
  hv_host verifier = host_hostname host -> hv_port verifier = host_port host ->
  hv_paths verifier = paths -> hv_policy verifier = host_host_key_policy host ->
  hv_approval verifier = approval ->
  env_handshake env (client_config host) verifier deadline = Completed (InTime (Ok tt)) ->
  trusted_server host paths approval kx.
Proof.
  intros Henv Hp Hh Hpt Hpa Hpo Hap He. apply Henv in He.
  destruct (accept_cases _ _ _ _ _ _ _ He) as [_ [Hb|(key & Hk & Hu & Ht)]]; [congruence|].
  exists verifier, key. split_and!; try done; by rewrite <-Hpa.
Qed.

(** No session without a trusted host key. Under the Strict policy, and
    with a key exchange that consults the verifier as russh documents, a
    connection attempt that returns a session validated the host, connected,
    authenticated, and the key the server offered is a plain one that is either
    known (with no objection from any known_hosts file) or was shown to and
    trusted by the user; the new session's forwarding gate is closed. *)
Theorem session_needs_trusted_key `{Russh} env kx host cred paths remote approval s :
  handshake_verifies env kx -> host_host_key_policy host = HostKeyPolicy.Strict ->
  connect_authenticated env host cred paths remote approval = Ok s ->
  established env host cred paths remote approval s /\ trusted_server host paths approval kx.
Proof.
  intros Henv Hp Hc. apply connect_authenticated_ok in Hc as Hest. split; [done|].
  destruct (est_handshake _ _ _ _ _ _ _ Hest) as (v & deadline & Hh & Hpt & Hpa & Hpo & Hap & He).
  by eapply verified_trusted.
Qed.

(** ** The gate for forwarded channels *)

(** A session prepared for the remote binding [b], through its operations. *)
Inductive forwarding_session `{Russh} (b : RemoteEndpoint) : DirectSshSession -> Prop :=
  | fs_connected env host cred paths approval s :
      connect_authenticated env host cred paths (Some b) approval = Ok s ->
      forwarding_session b s
  | fs_connected_via env host cred paths approval s :
      connect_via_channel env host cred paths (Some b) approval = Ok s ->
      forwarding_session b s
  | fs_request s reply r s' :
      forwarding_session b s -> cancelled s = false ->
      request_remote_forward reply s = (r, s') -> forwarding_session b s'
  | fs_cancel s reply r s' :
      forwarding_session b s -> cancelled s = false ->
      cancel_remote_forward reply s = (r, s') -> forwarding_session b s'
  | fs_disconnect s reply r s' :
      forwarding_session b s -> cancelled s = false ->
      disconnect reply s = (r, s') -> forwarding_session b s'
  | fs_drop s : forwarding_session b s -> forwarding_session b (drop_session s).

(** The port gate is open only for the registered address and port, only while
    the registration stands, and only before the session is dropped. *)
Record gate_inv (b : RemoteEndpoint) (s : DirectSshSession) (p : Z) : Prop := {
  gi_enabled : remote_enabled s = Some p;
  gi_forwarded : forwarded s = None \/ forwarded s = Some b;
  gi_fresh : forwarded s = Some b -> p = 0;
  gi_open : p <> 0 ->
    remote_active s = Some (remote_host b, p) /\ cancelled s = false
    /\ 1 <= p <= u16_max /\ (remote_port b <> 0 -> p = remote_port b)
}.

Lemma connect_via_channel_ok `{Russh} env host cred paths remote approval s :
  connect_via_channel env host cred paths remote approval = Ok s ->
  s = mkDirectSshSession true false remote None ((fun _ => 0) <$> remote).
Proof.
  unfold connect_via_channel. intros Hc.
  destruct (validate host cred paths); [|done].
  destruct (private_key_for env host cred); [|done]. by apply finish_connection_ok in Hc as (_ & _ & ->).
Qed.

Lemma store_enabled_gate b s p :
  gate_inv b s p -> remote_enabled (store_enabled 0 s) = Some 0 /\ gate_inv b (store_enabled 0 s) 0.
Proof.
  intros [He Hf Hfr Ho]. unfold store_enabled, with_remote. rewrite He. split; [done|].
  by split.
Qed.

Lemma drop_gate b s p : gate_inv b s p -> gate_inv b (drop_session s) 0.
Proof.
  intros Hg. destruct (store_enabled_gate b s p Hg) as [_ [He Hf Hfr Ho]]. by split.
Qed.

Lemma disconnect_drop `{Russh} reply s :
  (disconnect reply s).2
  = drop_session (mkDirectSshSession false (cancelled s) (forwarded s) (remote_active s)
                    (remote_enabled s)).
Proof. unfold disconnect. by destruct (handle s). Qed.

Lemma request_gate `{Russh} b s p reply r s' :
  gate_inv b s p -> cancelled s = false -> u16 (remote_port b) ->
  request_remote_forward reply s = (r, s') -> exists p', gate_inv b s' p'.
Proof.
  intros Hg Hcan Hport. unfold request_remote_forward, bind, get.
  destruct (forwarded s) as [b'|] eqn:Ef; [|intros [= _ <-]; by exists p].
  assert (b' = b) as -> by (destruct (gi_forwarded _ _ _ Hg); congruence).
  destruct (_ || _); [intros [= _ <-]; by exists p|].
  destruct (negb (handle s)); [intros [= _ <-]; by exists p|]. unfold lift.
  destruct (race _ _ _) as [assigned|]; [|intros [= _ <-]; by exists p].
  set (port := if bool_decide (remote_port b = 0) then assigned else remote_port b).
  assert (Hdone : 1 <= port <= u16_max -> (remote_port b <> 0 -> port = remote_port b) ->
    exists p', gate_inv b (store_enabled port
      (with_remote None (Some (remote_host b, port)) (remote_enabled s) s)) p').
  { intros Hp Hb. exists port. unfold store_enabled, with_remote. cbn.
    rewrite (gi_enabled _ _ _ Hg). by split; cbn; auto. }
  destruct (bool_decide (remote_port b = 0)) eqn:Eb; bools.
  - destruct (_ && _) eqn:Ea; bools; [|intros [= _ <-]; by exists p].
    unfold ret, modify. intros [= _ <-]. apply Hdone; [subst port; lia|done].
  - unfold ret, modify. intros [= _ <-]. apply Hdone; subst port; [|done].
    unfold u16 in Hport. lia.
Qed.

Lemma cancel_gate `{Russh} b s p reply r s' :
  gate_inv b s p -> cancel_remote_forward reply s = (r, s') ->
  gate_inv b s' 0.
Proof.
  intros Hg. unfold cancel_remote_forward, bind, get.
  destruct (remote_active s) as [[address port]|] eqn:Ea.
  - destruct (store_enabled_gate b s p Hg) as [_ Hg0]. unfold modify.
    destruct (negb (handle s)); [by intros [= _ <-]|]. unfold lift.
    destruct (race _ _ _); intros [= _ <-]; [|done]. destruct Hg0 as [He Hf Hfr Ho]. by split.
  - intros [= _ <-]. destruct (decide (p = 0)) as [->|Hp]; [done|].
    destruct (gi_open _ _ _ Hg Hp) as [? _]. congruence.
Qed.

Lemma forwarding_session_gate `{Russh} b s :
  u16 (remote_port b) -> forwarding_session b s -> exists p, gate_inv b s p.
Proof.
  intros Hb. induction 1 as [env host cred paths approval s Hc|env host cred paths approval s Hc
    |s reply r s' _ [p Hg] Hcan Hr|s reply r s' _ [p Hg] Hcan Hr|s reply r s' _ [p Hg] Hcan Hr
    |s _ [p Hg]].
  - apply connect_authenticated_ok in Hc. rewrite (est_session _ _ _ _ _ _ _ Hc).
    exists 0. split; cbn; auto. done.
  - apply connect_via_channel_ok in Hc as ->. exists 0. split; cbn; auto. done.
  - by eapply request_gate.
  - exists 0. by eapply cancel_gate.
  - exists 0. apply (f_equal snd) in Hr. rewrite disconnect_drop in Hr. cbn in Hr. subst s'.
    apply (drop_gate _ _ p). destruct Hg as [He Hf Hfr Ho]. split; cbn; [done..|].
    intros Hp. destruct (Ho Hp) as (? & ? & ? & ?). done.
  - exists 0. by eapply drop_gate.
Qed.

(** C32: The server can only push channels of the current registration. Along
    every sequence of operations on a session prepared for a remote binding,
    a forwarded channel the handler accepts names exactly the address and port
    of the registration in force (the port being the configured one, or the
    assigned one when the configuration asks for any); and after a cancellation
    - even one the server refuses or never answers - or a drop of the session,
    no channel is accepted any more. *)
Theorem forwarded_channels_match_registration `{Russh} b s verifier f address port :
  u16 (remote_port b) -> forwarding_session b s ->
  hv_forwarded verifier = Some f -> fw_binding f = b ->
  remote_enabled s = Some (fw_enabled f) ->
  (server_channel_open_forwarded_tcpip verifier address port = Accept ->
     remote_active s = Some (address, port) /\ address = remote_host b
     /\ cancelled s = false /\ 1 <= port <= u16_max
     /\ (remote_port b <> 0 -> port = remote_port b))
  /\ (forall reply, remote_enabled (cancel_remote_forward reply s).2 = Some 0)
  /\ remote_enabled (drop_session s) = Some 0.
Proof.
  intros Hb Hs Hf Hbind He. destruct (forwarding_session_gate b s Hb Hs) as [p Hg].
  assert (p = fw_enabled f) as -> by (rewrite (gi_enabled _ _ _ Hg) in He; congruence).
  split_and!.
  - intros Ha. apply accept_iff in Ha as (f' & Hf' & Hne & Hp & Haddr & _).
    assert (f' = f) as -> by congruence.
    destruct (gi_open _ _ _ Hg Hne) as (Hact & Hcan & Hr & Hcfg). subst. done.
  - intros reply. destruct (cancel_remote_forward reply s) as [r s'] eqn:Ec. cbn.
    apply (cancel_gate b s _ _ _ _ Hg) in Ec. apply Ec.
  - apply (drop_gate _ _ _ Hg).
Qed.

(** ** Witnesses *)

Definition toy_host : SshHost := {|
  host_id := mkHostId "bastion";
  host_name := "Bastion";
  host_hostname := "bastion.example";
  host_port := 22;
  host_username := "root";
  host_auth := AuthConfig.Agent None;
  host_host_key_policy := HostKeyPolicy.Strict;
  host_connect_timeout := from_secs 10;
  host_keepalive_interval := from_secs 15;
  host_keepalive_max := 3;
  host_notes := ""
|}.

Definition toy_exchange : KeyExchange (H := Toy.russh) :=
  mkKeyExchange (PublicKey (H := Toy.russh) "K") [] (Some HostKeyDecision.TrustOnce) [] None.

(** An environment in which everything works: the server offers the key "K",
    the user trusts it once, and the second of two agent keys is accepted. *)
Definition toy_env : ConnectEnv (H := Toy.russh) := {|
  env_platform := Unix;
  env_now n := Z.of_nat n;
  env_read_file _ _ := Err early_eof;
  env_tcp_connect _ _ _ := Completed (InTime (Ok tt));
  env_handshake _ verifier _ :=
    match v_result (verify verifier toy_exchange) with
    | Ok true => Completed (InTime (Ok tt))
    | _ => Completed Elapsed
    end;
  env_auth_limit _ := None;
  env_password _ _ := Ok false;
  env_rsa_hash := Ok None;
  env_publickey _ _ _ := Ok false;
  env_agent_open _ := Ok tt;
  env_agent_identities := Ok ["id_rsa"; "id_ed25519"];
  env_agent_auth _ i _ := Ok (bool_decide (i = "id_ed25519"))
|}.

Definition toy_approval : HostKeyApproval := mkHostKeyApproval true "known_hosts".

Lemma toy_env_verifies : handshake_verifies toy_env toy_exchange.
Proof. intros cfg verifier deadline. cbn. by destruct (v_result _) as [[]|]. Qed.

Definition toy_session (remote : option RemoteEndpoint) : DirectSshSession :=
  mkDirectSshSession true false remote None ((fun _ => 0) <$> remote).

Lemma toy_connects remote :
  connect_authenticated toy_env toy_host SshCredential.Agent ["known_hosts"] remote
    (Some toy_approval) = Ok (toy_session remote).
Proof. destruct remote; reflexivity. Qed.

Theorem session_needs_trusted_key_witness :
  connect_authenticated toy_env toy_host SshCredential.Agent ["known_hosts"] None
    (Some toy_approval) = Ok (toy_session None)
  /\ trusted_server toy_host ["known_hosts"] (Some toy_approval) toy_exchange.
Proof.
  split; [apply toy_connects|].
  exact (proj2 (session_needs_trusted_key toy_env toy_exchange toy_host SshCredential.Agent ["known_hosts"]
    None (Some toy_approval) (toy_session None) toy_env_verifies eq_refl (toy_connects None))).
Defined.

Theorem agent_authentication_spec_witness :
  authenticate_agent toy_env toy_host = Ok tt
  /\ exists ids hash, connect_agent_stream toy_env None = Ok tt
     /\ env_agent_identities toy_env = Ok ids /\ env_rsa_hash toy_env = Ok hash
     /\ exists tried i rest, take MAX_AGENT_IDENTITIES ids = tried ++ i :: rest
          /\ Forall (turned_down toy_env "root" hash) tried /\ accepted toy_env "root" hash i.
Proof.
  assert (Ha : authenticate_agent toy_env toy_host = Ok tt) by reflexivity.
  split; [exact Ha|].
  exact (proj1 (proj1 (agent_authentication_spec toy_env toy_host None eq_refl)) Ha).
Defined.

(** A registration on port 8080 whose cancellation the server never answers. *)
Definition toy_binding : RemoteEndpoint := mkRemoteEndpoint "127.0.0.1" 8080.
Definition toy_registered : DirectSshSession :=
  (request_remote_forward (H := Toy.russh) (fun _ _ => Completed (InTime (Ok 8080)))
     (toy_session (Some toy_binding))).2.

Theorem forwarded_channels_match_registration_witness :
  remote_active toy_registered = Some ("127.0.0.1", 8080)
  /\ remote_enabled (cancel_remote_forward (H := Toy.russh) (fun _ _ => Elapsed) toy_registered).2
     = Some 0.
Proof.
  assert (Hs : forwarding_session (H := Toy.russh) toy_binding toy_registered).
  { apply (fs_request _ (toy_session (Some toy_binding))
      (fun _ _ => Completed (InTime (Ok 8080))) (Ok 8080)); [|reflexivity..].
    eapply fs_connected. apply toy_connects. }
  assert (Hp : u16 (remote_port toy_binding)) by (split; vm_compute; discriminate).
  destruct (forwarded_channels_match_registration (H := Toy.russh) toy_binding toy_registered
    (mkHostKeyVerifier "bastion.example" 22 [] HostKeyPolicy.Strict None
       (Some (mkForwarded toy_binding true 8080)))
    (mkForwarded toy_binding true 8080) "127.0.0.1" 8080 Hp Hs eq_refl eq_refl eq_refl)
    as (Haccept & Hcancel & _).
  split; [exact (proj1 (Haccept eq_refl))|apply Hcancel].
Defined.
