(* ===== verification/Chain.v ===== *)
(** * Chain: a chain of SSH sessions through jump hosts,
    crates/ssh-engine/src/chain.rs.

    The chain is modelled against the class [SshTransport]: what a session
    offers to its owner. [SshTransportLaws] is what it promises about the live
    sessions; the last section shows that the client of [SshClient] keeps it. *)
From S2P Require Import Prelude Io Text Net Domain Russh HostKey SshClient.

Definition MAX_HOPS : nat := 16.

Record HopSpec := mkHopSpec {
  hop_host : SshHost;
  hop_credential : SshCredential.t;
  hop_known_hosts_paths : list PathBuf
}.

Module SshChainError.
Inductive t `{Russh} :=
  | Empty
  | TooManyHops
  | Hop (hop : Z) (source : SshConnectError.t)
  | Credential (hop : Z) (reason : string).
End SshChainError.

Definition show_chain_error `{Russh} (e : SshChainError.t) : string :=
  match e with
  | SshChainError.Empty => "jump chain is empty"
  | SshChainError.TooManyHops => "jump chain exceeds 16 hosts"
  | SshChainError.Hop hop source =>
      "SSH hop " +:+ show_dec hop +:+ " failed: " +:+ show_connect_error source
  | SshChainError.Credential hop reason =>
      "credential for SSH hop " +:+ show_dec hop +:+ " unavailable: " +:+ reason
  end.

(** ** The sessions a chain is built from *)

Class SshTransport `{Russh} := {
  world : Type;
  session : Type;
  channel : Type;
  dial : SshHost -> SshCredential.t -> list PathBuf -> option RemoteEndpoint ->
         option HostKeyApproval -> ST world SshConnectError.t session;
  dial_via : channel -> SshHost -> SshCredential.t -> list PathBuf -> option RemoteEndpoint ->
             option HostKeyApproval -> ST world SshConnectError.t session;
  open_channel : session -> string -> Z -> SocketAddr -> Duration ->
                 ST world SshConnectError.t channel;
  close : session -> world -> world;
  send_ping : session -> Duration -> ST world SshConnectError.t Duration;
  register_forward : session -> Duration -> ST world SshConnectError.t Z;
  cancel_forward : session -> Duration -> ST world SshConnectError.t unit;
  session_closed : session -> world -> bool
}.

(** [live w]: the sessions open in [w], in the order they were opened. *)
Class SshTransportLaws `{SshTransport} := {
  live : world -> list session;
  session_remote : session -> option RemoteEndpoint;
  dial_ok h c p r a w s w' :
    dial h c p r a w = (Ok s, w') -> live w' = live w ++ [s] /\ session_remote s = r;
  dial_err h c p r a w e w' : dial h c p r a w = (Err e, w') -> live w' = live w;
  dial_via_ok ch h c p r a w s w' :
    dial_via ch h c p r a w = (Ok s, w') -> live w' = live w ++ [s] /\ session_remote s = r;
  dial_via_err ch h c p r a w e w' : dial_via ch h c p r a w = (Err e, w') -> live w' = live w;
  open_channel_live s n p o t w r w' : open_channel s n p o t w = (r, w') -> live w' = live w;
  close_last s l w : live w = l ++ [s] -> live (close s w) = l;
  send_ping_live s t w r w' : send_ping s t w = (r, w') -> live w' = live w;
  register_forward_live s t w r w' : register_forward s t w = (r, w') -> live w' = live w;
  cancel_forward_live s t w r w' : cancel_forward s t w = (r, w') -> live w' = live w
}.

Section Chain.
Context `{SshTransport}.

Notation chain A := (ST world SshChainError.t A).

(** [.map_err(|source| SshChainError::Hop { hop, source })] *)
Definition at_hop {A} (hop : Z) (m : ST world SshConnectError.t A) : chain A :=
  with_err (SshChainError.Hop hop) m.

(** [disconnect_all]: sessions are popped, and closed, from the last. *)
Definition disconnect_all (sessions : list session) (w : world) : world :=
  foldr close w sessions.

(** [disconnect_all(..).await; return Err(..)] when the call failed. *)
Definition or_disconnect {A} (sessions : list session) (m : chain A) : chain A := fun w =>
  match m w with
  | (Ok a, w') => (Ok a, w')
  | (Err e, w') => (Err e, disconnect_all sessions w')
  end.

Definition originator : SocketAddr := SAV4 [127; 0; 0; 1] 0.

(** The loop over the remaining hops: [hop] is the number of the next one,
    [sessions] what is open so far, the last of it being [previous]. *)
Fixpoint connect_rest (remote : option RemoteEndpoint) (approval : option HostKeyApproval)
    (total_hops hop : Z) (sessions : list session) (previous : session) (remaining : list HopSpec)
    : chain (list session) :=
  match remaining with
  | [] => ret sessions
  | spec :: rest =>
      let host := hop_host spec in
      let! channel :=
        or_disconnect sessions
          (at_hop hop (open_channel previous (host_hostname host) (host_port host) originator
                         (host_connect_timeout host))) in
      let final_remote := if bool_decide (hop = total_hops) then remote else None in
      let! next :=
        or_disconnect sessions
          (at_hop hop (dial_via channel host (hop_credential spec) (hop_known_hosts_paths spec)
                         final_remote approval)) in
      connect_rest remote approval total_hops (hop + 1) (sessions ++ [next]) next rest
  end.

Definition connect_with_approval (hops : list HopSpec) (remote : option RemoteEndpoint)
    (approval : option HostKeyApproval) : chain (list session) :=
  if bool_decide (hops = []) then throw SshChainError.Empty
  else if bool_decide (MAX_HOPS < length hops)%nat then throw SshChainError.TooManyHops
  else
    match hops with
    | [] => throw SshChainError.Empty
    | first :: remaining =>
        let total_hops := Z.of_nat (length hops) in
        let first_remote := if bool_decide (remaining = []) then remote else None in
        let! session :=
          at_hop 1 (dial (hop_host first) (hop_credential first) (hop_known_hosts_paths first)
                      first_remote approval) in
        connect_rest remote approval total_hops 2 [session] session remaining
    end.

(** [SshChain::connect], without an approval channel, and [SshChain::single]. *)
Definition connect (hops : list HopSpec) (remote : option RemoteEndpoint) : chain (list session) :=
  connect_with_approval hops remote None.
Definition single (s : session) : list session := [s].

Definition is_closed (sessions : list session) (w : world) : bool :=
  existsb (fun s => session_closed s w) sessions.

Definition final_session (sessions : list session) : option session := last sessions.

Fixpoint ping_from (hop : Z) (sessions : list session) (deadline : Duration)
    : chain (list Duration) :=
  match sessions with
  | [] => ret []
  | s :: rest =>
      let! rtt := at_hop hop (send_ping s deadline) in
      let! rtts := ping_from (hop + 1) rest deadline in
      ret (rtt :: rtts)
  end.

Definition ping_all (sessions : list session) (deadline : Duration) : chain (list Duration) :=
  ping_from 1 sessions deadline.

Definition disconnect (sessions : list session) (w : world) : world := disconnect_all sessions w.
End Chain.

(** ** Lemmas *)

Section ChainProps.
Context `{SshTransportLaws}.

Lemma disconnect_all_live sessions base w :
  live w = base ++ sessions -> live (disconnect_all sessions w) = base.
Proof.
  revert w. induction sessions as [|s sessions IH] using rev_ind; intros w Hl; cbn.
  - by rewrite Hl, app_nil_r.
  - unfold disconnect_all. rewrite foldr_snoc. apply IH. apply (close_last s).
    by rewrite Hl, app_assoc.
Qed.

(** Only the last session of a chain carries the remote registration. *)
Definition remote_last (remote : option RemoteEndpoint) (sessions : list session) : Prop :=
  forall i s, sessions !! i = Some s ->
    session_remote s = if decide (S i = length sessions) then remote else None.

(** *** What an attempt does, hop by hop *)

Section Dialled.
Context (hops : list HopSpec) (remote : option RemoteEndpoint) (approval : option HostKeyApproval).
Context (w : world).

(** With [n] sessions open, the next hop carries [remote] if it is the last. *)
Definition remote_after (n : nat) : option RemoteEndpoint :=
  if decide (S n = length hops) then remote else None.

(** Hop [n + 1] of the chain, reached through the sessions open so far. *)
Definition dial_first (spec : HopSpec) : ST world SshConnectError.t session :=
  dial (hop_host spec) (hop_credential spec) (hop_known_hosts_paths spec) (remote_after 0) approval.
Definition channel_to (previous : session) (spec : HopSpec) : ST world SshConnectError.t channel :=
  open_channel previous (host_hostname (hop_host spec)) (host_port (hop_host spec)) originator
    (host_connect_timeout (hop_host spec)).
Definition dial_next (n : nat) (ch : channel) (spec : HopSpec) : ST world SshConnectError.t session :=
  dial_via ch (hop_host spec) (hop_credential spec) (hop_known_hosts_paths spec) (remote_after n) approval.

(** [dialled sessions w']: the first hops, one by one, each through the session
    of the one before, are connected as [sessions], and the world is [w']. *)
Inductive dialled : list session -> world -> Prop :=
  | dialled_first spec s w1 :
      hops !! 0%nat = Some spec -> dial_first spec w = (Ok s, w1) -> dialled [s] w1
  | dialled_next sessions previous spec ch s w1 w2 w3 :
      dialled sessions w1 -> last sessions = Some previous ->
      hops !! length sessions = Some spec -> channel_to previous spec w1 = (Ok ch, w2) ->
      dial_next (length sessions) ch spec w2 = (Ok s, w3) -> dialled (sessions ++ [s]) w3.

(** The next hop failed with [source], at the world [w']. *)
Inductive hop_failed : list session -> SshConnectError.t -> world -> Prop :=
  | first_failed spec source w' :
      hops !! 0%nat = Some spec -> dial_first spec w = (Err source, w') -> hop_failed [] source w'
  | channel_failed sessions previous spec source w1 w' :
      dialled sessions w1 -> last sessions = Some previous ->
      hops !! length sessions = Some spec -> channel_to previous spec w1 = (Err source, w') ->
      hop_failed sessions source w'
  | session_failed sessions previous spec ch source w1 w2 w' :
      dialled sessions w1 -> last sessions = Some previous ->
      hops !! length sessions = Some spec -> channel_to previous spec w1 = (Ok ch, w2) ->
      dial_next (length sessions) ch spec w2 = (Err source, w') -> hop_failed sessions source w'.

(** The error of the hop after [sessions], which are closed again. *)
Definition failed_at (e : SshChainError.t) (w' : world) : Prop :=
  exists sessions source w1, hop_failed sessions source w1
    /\ e = SshChainError.Hop (Z.of_nat (S (length sessions))) source
    /\ w' = disconnect_all sessions w1.

Lemma dialled_live sessions w' : dialled sessions w' ->
  live w' = live w ++ sessions /\ (1 <= length sessions <= length hops)%nat
  /\ forall i s, sessions !! i = Some s -> session_remote s = remote_after i.
Proof.
  induction 1 as [spec s w1 Hh [Hl Hr]%dial_ok|sessions previous spec ch s w1 w2 w3 _ (IHl & IHn & IHr) _ Hh
    Ho%open_channel_live [Hl Hr]%dial_via_ok].
  - split_and!; [done|cbn; lia|apply lookup_lt_Some in Hh; cbn; lia|].
    intros i x [-> <-]%list_lookup_singleton_Some. done.
  - apply lookup_lt_Some in Hh. rewrite length_app. cbn.
    split_and!; [by rewrite Hl, Ho, IHl, app_assoc|lia|lia|].
    intros i x [Hx|[Hi Hx]]%lookup_app_Some; [by apply IHr|].
    apply list_lookup_singleton_Some in Hx as [Hz <-]. rewrite Hr. f_equal. lia.
Qed.

Lemma hop_failed_live sessions source w' : hop_failed sessions source w' ->
  live w' = live w ++ sessions /\ (length sessions < length hops)%nat.
Proof.
  intros [spec e w1 Hh Hd%dial_err|ss previous spec e w1 w2 Hd%dialled_live _ Hh Ho%open_channel_live
    |ss previous spec ch e w1 w2 w3 Hd%dialled_live _ Hh Ho%open_channel_live Hv%dial_via_err];
    apply lookup_lt_Some in Hh.
  - by rewrite Hd, app_nil_r.
  - split; [by rewrite Ho; apply Hd|done].
  - split; [by rewrite Hv, Ho; apply Hd|done].
Qed.

Lemma connect_rest_dialled hop sessions previous rest w1 r w' :
  dialled sessions w1 -> last sessions = Some previous -> drop (length sessions) hops = rest ->
  hop = Z.of_nat (S (length sessions)) -> (length sessions <= length hops)%nat ->
  connect_rest remote approval (Z.of_nat (length hops)) hop sessions previous rest w1 = (r, w') ->
  match r with
  | Ok all => dialled all w' /\ length all = length hops
  | Err e => failed_at e w'
  end.
Proof.
  revert hop sessions previous w1. induction rest as [|spec rest IH];
    intros hop sessions previous w1 Hd Hlast Hrest -> Hlen Hc; cbn in Hc.
  { unfold ret in Hc. simplify_eq. split; [done|]. apply (f_equal length) in Hrest.
    rewrite length_drop in Hrest. cbn in Hrest. lia. }
  assert (Hat : hops !! length sessions = Some spec).
  { by rewrite <-(Nat.add_0_r (length sessions)), <-lookup_drop, Hrest. }
  assert (Hrem : (if bool_decide (Z.of_nat (S (length sessions)) = Z.of_nat (length hops)) then remote else None)
                 = remote_after (length sessions)).
  { unfold remote_after. by case_bool_decide; case_decide; try lia. }
  rewrite Hrem in Hc. unfold bind, or_disconnect, at_hop, with_err in Hc.
  destruct (open_channel _ _ _ _ _ w1) as [[ch|e1] w2] eqn:Eo; cbn in Hc.
  2:{ simplify_eq. exists sessions, e1, w2. split; [by eapply channel_failed|done]. }
  destruct (dial_via _ _ _ _ _ _ w2) as [[next|e2] w3] eqn:Ed; cbn in Hc.
  2:{ simplify_eq. exists sessions, e2, w3. split; [by eapply session_failed|done]. }
  apply lookup_lt_Some in Hat as Hlt.
  eapply (IH _ (sessions ++ [next])); [by eapply dialled_next|by rewrite last_snoc| | | |exact Hc];
    rewrite ?length_app; cbn [length].
  - by rewrite <-drop_drop, Hrest.
  - lia.
  - lia.
Qed.

Lemma connect_dialled r w' :
  connect_with_approval hops remote approval w = (r, w') ->
  match r with
  | Ok sessions => dialled sessions w' /\ length sessions = length hops
  | Err SshChainError.Empty => hops = [] /\ w' = w
  | Err SshChainError.TooManyHops => (MAX_HOPS < length hops)%nat /\ w' = w
  | Err e => failed_at e w'
  end
  /\ (is_ok r = true -> (length hops <= MAX_HOPS)%nat).
Proof.
  unfold connect_with_approval. case_bool_decide as He; [unfold throw; by intros [= <- <-]|].
  case_bool_decide as Hm; [unfold throw; by intros [= <- <-]|].
  destruct hops as [|first rest] eqn:Eh; [done|]. rewrite <-Eh in *. unfold bind, at_hop at 1, with_err.
  assert (Hrem : (if bool_decide (rest = []) then remote else None) = remote_after 0).
  { unfold remote_after. rewrite Eh. by destruct rest. }
  rewrite Hrem. assert (Hat : hops !! 0%nat = Some first) by by rewrite Eh.
  destruct (dial _ _ _ _ _ w) as [[s|e] w1] eqn:Ed; cbn [map_err].
  2:{ intros [= <- <-]. split; [|done]. exists [], e, w1. split; [exact (first_failed first e w1 Hat Ed)|done]. }
  intros Hc. split; [|lia].
  apply (connect_rest_dialled _ [s] s rest w1) in Hc; [|by eapply dialled_first|done|by rewrite Eh|done|rewrite Eh; cbn; lia].
  destruct r as [all|e]; [done|]. by destruct Hc as (ss & source & w2 & ? & -> & ?); exists ss, source, w2.
Qed.
End Dialled.

Lemma chain_connect_cases hops remote approval w r w' :
  connect_with_approval hops remote approval w = (r, w') ->
  match r with
  | Ok sessions =>
      length sessions = length hops /\ (1 <= length hops <= MAX_HOPS)%nat
      /\ live w' = live w ++ sessions /\ remote_last remote sessions
  | Err SshChainError.Empty => hops = [] /\ w' = w
  | Err SshChainError.TooManyHops => (MAX_HOPS < length hops)%nat /\ w' = w
  | Err (SshChainError.Hop n source) => 1 <= n <= Z.of_nat (length hops) /\ live w' = live w
  | Err (SshChainError.Credential _ _) => False
  end.
Proof.
  intros [Hc Hm]%connect_dialled. destruct r as [sessions|[]]; [|done|done| |].
  - destruct Hc as [(Hl & Hn & Hr)%dialled_live Hlen]. specialize (Hm eq_refl).
    split_and!; [done|lia|done|done|]. intros i s Hs. rewrite (Hr i s Hs). unfold remote_after. by rewrite Hlen.
  - destruct Hc as (ss & e & w1 & [Hl Hn]%hop_failed_live & [= -> ->] & ->). split; [lia|].
    by apply disconnect_all_live.
  - by destruct Hc as (ss & e & w1 & _ & ? & _).
Qed.

(** C21: Building a jump chain is all or nothing. With any transport that keeps
    the session laws: on success every hop was connected in order, through the
    session of the hop before and with its own data, there is one live session
    per hop, and only the last carries the remote registration; on failure the
    error is that of the first hop that failed, under its number, and every
    session the attempt opened has been closed again, from the last to the
    first; an empty chain or one of more than 16 hops fails without touching the
    network. *)
Theorem chain_connect_spec hops remote approval w r w' :
  connect_with_approval hops remote approval w = (r, w') ->
  match r with
  | Ok sessions =>
      dialled hops remote approval w sessions w'
      /\ length sessions = length hops /\ (1 <= length hops <= MAX_HOPS)%nat
      /\ live w' = live w ++ sessions /\ remote_last remote sessions
  | Err SshChainError.Empty => hops = [] /\ w' = w
  | Err SshChainError.TooManyHops => (MAX_HOPS < length hops)%nat /\ w' = w
  | Err (SshChainError.Hop n source) =>
      live w' = live w
      /\ exists sessions w1, hop_failed hops remote approval w sessions source w1
           /\ n = Z.of_nat (S (length sessions)) /\ 1 <= n <= Z.of_nat (length hops)
           /\ w' = disconnect_all sessions w1
  | Err (SshChainError.Credential _ _) => False
  end.
Proof.
  intros Hc. pose proof (chain_connect_cases hops remote approval w r w' Hc) as Hcases.
  apply connect_dialled in Hc as [Hd _]. destruct r as [sessions|[]]; [|done..| |done].
  - by destruct Hd.
  - destruct Hcases as [Hn Hl]. split; [done|]. destruct Hd as (ss & e & w1 & Hf & [= -> ->] & ->).
    by exists ss, w1.
Qed.

(** ** Health of a chain *)

Lemma ping_from_spec hop sessions deadline w r w' :
  ping_from hop sessions deadline w = (r, w') ->
  live w' = live w
  /\ match r with
     | Ok rtts => length rtts = length sessions
     | Err e => exists n source, e = SshChainError.Hop n source
                  /\ hop <= n < hop + Z.of_nat (length sessions)
     end.
Proof.
  revert hop w r w'. induction sessions as [|s sessions IH]; intros hop w r w' Hp; cbn in Hp.
  { unfold ret in Hp. by simplify_eq. }
  unfold bind, at_hop, with_err in Hp.
  destruct (send_ping s deadline w) as [[rtt|e] w1] eqn:Es; cbn in Hp; apply send_ping_live in Es.
  2:{ simplify_eq. split; [done|]. do 2 eexists. split; [done|cbn; lia]. }
  destruct (ping_from (hop + 1) sessions deadline w1) as [[rtts|e] w2] eqn:Er;
    apply IH in Er as [Hl Hr]; unfold ret in Hp; simplify_eq; (split; [congruence|]); cbn.
  - lia.
  - destruct Hr as (n & source & -> & Hn). do 2 eexists. split; [done|lia].
Qed.
End ChainProps.

(** ** The client of [SshClient] as a transport

    [envs h] is how host [h] and everything around it behaves; [peer id] answers
    the calls on the session with number [id]. *)
Record Peer `{Russh} := mkPeer {
  peer_open : string -> Z -> raced (timed (result unit russh_error));
  peer_ping : raced (timed (result unit russh_error)) * Duration;
  peer_forward : string -> Z -> raced (timed (result Z russh_error));
  peer_cancel : string -> Z -> timed (result unit russh_error);
  peer_shutdown : timed (result unit russh_error * result unit HostKeyError.t);
  peer_closed : bool
}.

(** A handle on a session; its state is kept in the world. *)
Record ClientSession := mkClientSession {
  cs_id : nat;
  cs_remote : option RemoteEndpoint
}.

Record ClientWorld `{Russh} := mkClientWorld {
  cw_next : nat;
  cw_live : list ClientSession;
  cw_sessions : gmap nat DirectSshSession;
  cw_closed : list (nat * result unit SshConnectError.t)
}.

Arguments mkPeer {H}.
Arguments mkClientWorld {H}.

Section ClientTransport.
Context `{Russh} (envs : SshHost -> ConnectEnv) (peer : nat -> Peer).

(** Registers a connected session. *)
Definition admit_session (r : result DirectSshSession (SshConnectError.t * bool))
    (remote : option RemoteEndpoint) : ST ClientWorld SshConnectError.t ClientSession := fun w =>
  match r with
  | Ok s =>
      let cs := mkClientSession (cw_next w) remote in
      (Ok cs, mkClientWorld (S (cw_next w)) (cw_live w ++ [cs])
                (<[cw_next w := s]> (cw_sessions w)) (cw_closed w))
  | Err (e, _) => (Err e, w)
  end.

(** Runs a session operation on the state behind a handle. *)
Definition on_session {A} (s : ClientSession) (m : ST DirectSshSession SshConnectError.t A)
    : ST ClientWorld SshConnectError.t A := fun w =>
  match cw_sessions w !! cs_id s with
  | Some inner =>
      let '(r, inner') := m inner in
      (r, mkClientWorld (cw_next w) (cw_live w) (<[cs_id s := inner']> (cw_sessions w))
            (cw_closed w))
  | None => (Err SshConnectError.Cancelled, w)
  end.

(** Removes the first session with a number. *)
Fixpoint forget (id : nat) (l : list ClientSession) : list ClientSession :=
  match l with
  | [] => []
  | s :: l => if decide (cs_id s = id) then l else s :: forget id l
  end.

Definition close_session (s : ClientSession) (w : ClientWorld) : ClientWorld :=
  let result :=
    match cw_sessions w !! cs_id s with
    | Some inner => (SshClient.disconnect (peer_shutdown (peer (cs_id s))) inner).1
    | None => Ok tt
    end in
  mkClientWorld (cw_next w) (rev (forget (cs_id s) (rev (cw_live w))))
    (delete (cs_id s) (cw_sessions w)) (cw_closed w ++ [(cs_id s, result)]).

Definition client_transport : SshTransport := {|
  world := ClientWorld;
  session := ClientSession;
  channel := unit;
  dial h c p r a := admit_session (connect_authenticated (envs h) h c p r a) r;
  dial_via _ h c p r a := admit_session (connect_via_channel (envs h) h c p r a) r;
  open_channel s host port originator _ :=
    on_session s (fun inner =>
      (open_direct_tcpip (fun h p _ _ => peer_open (peer (cs_id s)) h p) host port originator
         inner, inner));
  close := close_session;
  send_ping s _ :=
    on_session s (fun inner =>
      (SshClient.ping (peer_ping (peer (cs_id s))).1 (peer_ping (peer (cs_id s))).2 inner, inner));
  register_forward s _ := on_session s (request_remote_forward (peer_forward (peer (cs_id s))));
  cancel_forward s _ := on_session s (cancel_remote_forward (peer_cancel (peer (cs_id s))));
  session_closed s w :=
    match cw_sessions w !! cs_id s with
    | Some inner => SshClient.is_closed (peer_closed (peer (cs_id s))) inner
    | None => true
    end
|}.

Lemma on_session_live {A} s (m : ST DirectSshSession SshConnectError.t A) w r w' :
  on_session s m w = (r, w') -> cw_live w' = cw_live w.
Proof.
  unfold on_session. destruct (cw_sessions w !! cs_id s) as [inner|]; [|by intros [= _ <-]].
  destruct (m inner) as [r0 inner']. by intros [= _ <-].
Qed.

Lemma admit_session_ok r remote w s w' :
  admit_session r remote w = (Ok s, w') ->
  cw_live w' = cw_live w ++ [s] /\ cs_remote s = remote.
Proof. unfold admit_session. destruct r as [x|[e c]]; naive_solver. Qed.

Lemma admit_session_err r remote w e w' :
  admit_session r remote w = (Err e, w') -> cw_live w' = cw_live w.
Proof. unfold admit_session. destruct r as [x|[e' c]]; naive_solver. Qed.

#[refine] Instance client_transport_laws : SshTransportLaws (H0 := client_transport) := {|
  live := (cw_live : @world _ client_transport -> list (@session _ client_transport));
  session_remote := (cs_remote : @session _ client_transport -> option RemoteEndpoint)
|}.
Proof.
  - intros *. apply admit_session_ok.
  - intros *. apply admit_session_err.
  - intros *. apply admit_session_ok.
  - intros *. apply admit_session_err.
  - intros s n p o d w r w'. apply on_session_live.
  - intros s l w Hl. cbn in *. rewrite Hl, rev_app_distr. cbn.
    rewrite decide_True by done. apply rev_involutive.
  - intros s d w r w'. apply on_session_live.
  - intros s d w r w'. apply on_session_live.
  - intros s d w r w'. apply on_session_live.
Defined.
End ClientTransport.

(** ** Witness *)

(** Two hops over the toy library; the second host's TCP port answers, but its
    channel is refused. *)
Definition toy_hop : HopSpec := mkHopSpec toy_host SshCredential.Agent ["known_hosts"].

Definition toy_peer (refuse : bool) : Peer (H := Toy.russh) := {|
  peer_open _ _ :=
    if refuse then Completed (InTime (Err (Toy.Open ChannelOpenFailure.ConnectFailed)))
    else Completed (InTime (Ok tt));
  peer_ping := (Completed (InTime (Ok tt)), from_millis 5);
  peer_forward _ port := Completed (InTime (Ok port));
  peer_cancel _ _ := InTime (Ok tt);
  peer_shutdown := InTime (Ok tt, Ok tt);
  peer_closed := false
|}.

Definition toy_transport (refuse : bool) : SshTransport (H := Toy.russh) :=
  client_transport (H := Toy.russh) (fun _ => toy_env) (fun _ => toy_peer refuse).

Definition toy_transport_laws (refuse : bool)
    : SshTransportLaws (H0 := toy_transport refuse) :=
  client_transport_laws (fun _ => toy_env) (fun _ => toy_peer refuse).

Definition empty_world : ClientWorld (H := Toy.russh) := mkClientWorld 0 [] ∅ [].

(** Two hops; the second run cannot open the channel to the second. *)
Definition two_hops (refuse : bool) :=
  connect_with_approval (H0 := toy_transport refuse) [toy_hop; toy_hop] (Some toy_binding)
    (Some toy_approval) empty_world.

Theorem chain_connect_spec_witness :
  (exists sessions w', two_hops false = (Ok sessions, w') /\ length sessions = 2%nat
     /\ cw_live w' = sessions)
  /\ exists source w', two_hops true = (Err (SshChainError.Hop 2 source), w') /\ cw_live w' = []
     /\ exists s w1, hop_failed (H0 := toy_transport true) [toy_hop; toy_hop] (Some toy_binding)
          (Some toy_approval) empty_world [s] source w1.
Proof.
  split.
  - destruct (two_hops false) as [[sessions|e] w'] eqn:E; [|discriminate E].
    exists sessions, w'. split; [reflexivity|].
    destruct (chain_connect_spec (H1 := toy_transport_laws false)
      [toy_hop; toy_hop] (Some toy_binding) (Some toy_approval) empty_world (Ok sessions) w' E)
      as (_ & Hl & _ & Hlive & _).
    split; [exact Hl|exact Hlive].
  - assert (Hhop : match (two_hops true).1 with Err (SshChainError.Hop 2 _) => true | _ => false end = true)
      by (vm_compute; reflexivity).
    destruct (two_hops true) as [[sessions|[]] w'] eqn:E; [discriminate Hhop..| |discriminate Hhop].
    cbn in Hhop. destruct hop as [|[p|[p|p|]|]|]; try discriminate Hhop.
    pose proof (chain_connect_spec (H1 := toy_transport_laws true)
      [toy_hop; toy_hop] (Some toy_binding) (Some toy_approval) empty_world _ w' E) as (Hl & ss & w1 & Hf & Hn & _).
    exists source, w'. split; [reflexivity|]. split; [exact Hl|].
    destruct ss as [|s [|s2 ss]]; [discriminate Hn|exists s, w1; exact Hf|cbn [length] in Hn; lia].
Defined.
