(* ===== verification/LocalForward.v ===== *)
(** * LocalForward: the worker of a Local or Dynamic tunnel,
    crates/tunnel-core/src/local_forward.rs (and health.rs).

    [run_step] is one turn of the biased [select!] of [run]: the branch that
    completed is an argument, and a branch whose guard is off cannot complete.
    [handle_connection] is the task spawned for every accepted connection. *)
From S2P Require Import Prelude Io Text Net Domain StateMachine Runtime Socks5 Russh HostKey SshClient Chain.

(** health.rs *)
Module WorkerHealth.
Inductive t :=
  | Healthy (rtts : list Duration)
  | Degraded (failed_pings : Z) (reason : string).
End WorkerHealth.

Definition MAX_ACTIVE_CONNECTIONS : nat := 64.
Definition CHANNEL_OPEN_TIMEOUT : Duration := from_secs 5.
Definition SOCKS_HANDSHAKE_TIMEOUT : Duration := from_secs 5.
Definition HEALTH_INTERVAL : Duration := from_secs 10.
Definition HEALTH_TIMEOUT : Duration := from_secs 5.

Module LocalForwardError.
Inductive t `{Russh} :=
  | NoListener
  | SessionClosed
  | Health (source : SshChainError.t)
  | Accept (source : IoError)
  | Shutdown (source : ListenerRuntimeError).
End LocalForwardError.

Definition show_local_forward_error `{Russh} (e : LocalForwardError.t) : string :=
  match e with
  | LocalForwardError.NoListener => "local listener is not bound"
  | LocalForwardError.SessionClosed => "SSH session closed"
  | LocalForwardError.Health e => "SSH health check failed: " +:+ show_chain_error e
  | LocalForwardError.Accept e => "local accept failed: " +:+ io_text e
  | LocalForwardError.Shutdown e => "listener shutdown failed: " +:+ show_listener_runtime_error e
  end.

Module ForwardMode.
Inductive t := Fixed (destination : RemoteEndpoint) | Dynamic.
End ForwardMode.

(** ** Pings, as both workers count them *)

(** The answer to a health tick: the new failure count, the health published,
    or [None] when the third failure in a row ends the worker. *)
Definition count_ping `{Russh} (r : result (list Duration) SshChainError.t) (ping_failures : Z)
    : Z * option WorkerHealth.t :=
  match r with
  | Ok rtts => (0, Some (WorkerHealth.Healthy rtts))
  | Err error =>
      let ping_failures := saturating_add u8_max ping_failures 1 in
      if bool_decide (3 <= ping_failures) then (ping_failures, None)
      else (ping_failures,
            Some (WorkerHealth.Degraded ping_failures (take_chars 512 (show_chain_error error))))
  end.

(** A watch channel keeps the latest value only: of the values sent, a receiver
    sees those it looked at before the next one was sent. *)
Fixpoint observed {A} (seen : list bool) (sent : list A) : list A :=
  match seen, sent with
  | b :: seen, x :: sent => (if b : bool then [x] else []) ++ observed seen sent
  | _, _ => []
  end.

Section Worker.
Context `{SshTransport}.

(** [session] is the chain, until it is taken; [connections] the numbers of the
    live connection tasks; [cancellation] and [session_cancellation] whether
    the tokens were cancelled. *)
Record LocalForwardWorker := mkLocalForwardWorker {
  listener : ListenerRuntime;
  chain : option (list session);
  mode : ForwardMode.t;
  cancellation : bool;
  session_cancellation : bool;
  connections : list nat;
  worker_health : option WorkerHealth.t
}.

Definition build (l : ListenerRuntime) (c : list session) (m : ForwardMode.t) (token : bool)
    : result LocalForwardWorker LocalForwardError.t :=
  match socket l with
  | None => Err LocalForwardError.NoListener
  | Some _ => Ok (mkLocalForwardWorker l (Some c) m token token [] None)
  end.

Definition new (l : ListenerRuntime) (s : session) (destination : RemoteEndpoint) (token : bool)
    : result LocalForwardWorker LocalForwardError.t :=
  build l (single s) (ForwardMode.Fixed destination) token.
Definition new_dynamic (l : ListenerRuntime) (s : session) (token : bool)
    : result LocalForwardWorker LocalForwardError.t :=
  build l (single s) ForwardMode.Dynamic token.
Definition new_chain (l : ListenerRuntime) (c : list session) (destination : RemoteEndpoint)
    (token : bool) : result LocalForwardWorker LocalForwardError.t :=
  build l c (ForwardMode.Fixed destination) token.
Definition new_dynamic_chain (l : ListenerRuntime) (c : list session) (token : bool)
    : result LocalForwardWorker LocalForwardError.t :=
  build l c ForwardMode.Dynamic token.

(** ** [run] *)

(** The branch of the [select!] that completed. A connection task is spawned
    under a fresh number; an open request names its destination. *)
Inductive branch :=
  | Cancelled
  | SessionTick
  | HealthTick
  | JoinNext (task : nat)
  | OpenRequest (destination_host : string) (destination_port : Z) (originator : SocketAddr)
      (cancelled : bool)
  | Accepted (r : result nat IoError).

(** The state of the loop: the tasks, the failure count, the health published;
    [replies] are the answers sent to open requests. *)
Record Loop := mkLoop {
  tasks : list nat;
  ping_failures : Z;
  published : option WorkerHealth.t;
  replies : list (result channel SshConnectError.t)
}.

(** What a turn comes to: another turn, or the end of [run]. *)
Inductive turn :=
  | Continue (l : Loop)
  | Finished (r : result unit LocalForwardError.t).

(** [None]: the branch is disabled. *)
Definition run_step (c : list session) (b : branch) (l : Loop) (w : world)
    : option (turn * world) :=
  match b with
  | Cancelled => Some (Finished (Ok tt), w)
  | SessionTick =>
      if is_closed c w then Some (Finished (Err LocalForwardError.SessionClosed), w)
      else Some (Continue l, w)
  | HealthTick =>
      let '(r, w') := ping_all c HEALTH_TIMEOUT w in
      let '(failures, health) := count_ping r (ping_failures l) in
      match health, r with
      | None, Err error => Some (Finished (Err (LocalForwardError.Health error)), w')
      | _, _ => Some (Continue (mkLoop (tasks l) failures health (replies l)), w')
      end
  | JoinNext task =>
      if bool_decide (task ∈ tasks l) then
        Some (Continue (mkLoop (filter (fun t => t <> task) (tasks l)) (ping_failures l)
                          (published l) (replies l)), w)
      else None
  | OpenRequest host port originator cancelled =>
      match final_session c with
      | None => None
      | Some s =>
          let '(r, w') :=
            if cancelled : bool then (Err SshConnectError.Cancelled, w)
            else open_channel s host port originator CHANNEL_OPEN_TIMEOUT w in
          Some (Continue (mkLoop (tasks l) (ping_failures l) (published l) (replies l ++ [r])), w')
      end
  | Accepted r =>
      if bool_decide (length (tasks l) < MAX_ACTIVE_CONNECTIONS)%nat then
        match r with
        | Err e => Some (Finished (Err (LocalForwardError.Accept e)), w)
        | Ok task =>
            if bool_decide (task ∈ tasks l) then None
            else Some (Continue (mkLoop (tasks l ++ [task]) (ping_failures l) (published l)
                                  (replies l)), w)
        end
      else None
  end.

Definition loop_start : Loop := mkLoop [] 0 None [].

(** The two early returns of [run], then the loop; [bs] are the branches. *)
Fixpoint run_loop (c : list session) (bs : list branch) (l : Loop) (w : world)
    : option (turn * world) :=
  match bs with
  | [] => Some (Continue l, w)
  | b :: bs =>
      match run_step c b l w with
      | Some (Continue l', w') => run_loop c bs l' w'
      | Some (Finished r, w') => match bs with [] => Some (Finished r, w') | _ => None end
      | None => None
      end
  end.

Definition run (self : LocalForwardWorker) (bs : list branch) (w : world)
    : option (turn * world) :=
  match chain self, socket (listener self) with
  | None, _ => Some (Finished (Err LocalForwardError.SessionClosed), w)
  | _, None => Some (Finished (Err LocalForwardError.NoListener), w)
  | Some c, Some _ => run_loop c bs loop_start w
  end.

(** The values sent on the health channel during a run, in order. *)
Fixpoint loop_health (c : list session) (bs : list branch) (l : Loop) (w : world)
    : list WorkerHealth.t :=
  match bs with
  | [] => []
  | b :: bs =>
      match run_step c b l w with
      | Some (Continue l', w') =>
          match b with HealthTick => option_list (published l') | _ => [] end
          ++ loop_health c bs l' w'
      | _ => []
      end
  end.

Definition run_health (self : LocalForwardWorker) (bs : list branch) (w : world)
    : list WorkerHealth.t :=
  match chain self with Some c => loop_health c bs loop_start w | None => [] end.

(** ** Shutdown *)

(** [release_listener]: the tasks are joined, or aborted after the deadline, in
    either case none is left; the chain is disconnected; the listener returned. *)
Definition release_listener (self : LocalForwardWorker) (w : world) : ListenerRuntime * world :=
  (listener self,
   match chain self with Some c => disconnect c w | None => w end).

Definition stop (clock : nat -> SystemTime) (self : LocalForwardWorker) (w : world)
    : result unit LocalForwardError.t * ListenerRuntime * world :=
  let '(l, w') := release_listener self w in
  let '(r, l') := Runtime.stop clock l in
  (map_err LocalForwardError.Shutdown r, l', w').
End Worker.

(** ** One connection *)

Definition map_socks_failure `{Russh} (error : SshConnectError.t) : SocksReply.t :=
  match forwarding_failure error with
  | ForwardingFailure.NotAllowed => SocksReply.NotAllowed
  | ForwardingFailure.ConnectFailed => SocksReply.ConnectionRefused
  | ForwardingFailure.Timeout => SocksReply.TtlExpired
  | ForwardingFailure.SessionUnavailable => SocksReply.HostUnreachable
  | ForwardingFailure.ResourceShortage | ForwardingFailure.Other => SocksReply.GeneralFailure
  end.

Section Connection.
Context `{Russh} {Chan : Type}.

(** [request_channel]: [sent] is the send of the open request (it fails when the
    worker is gone), [response] its answer ([None]: the worker dropped it). *)
Definition request_channel (sent : raced bool)
    (response : raced (option (result Chan SshConnectError.t)))
    : result Chan SshConnectError.t :=
  match sent with
  | Io.Cancelled => Err SshConnectError.Cancelled
  | Completed false => Err SshConnectError.Cancelled
  | Completed true =>
      match response with
      | Io.Cancelled => Err SshConnectError.Cancelled
      | Completed r => default (Err SshConnectError.Cancelled) r
      end
  end.

(** What the task did: the SOCKS replies it sent, the destination it asked a
    channel for, whether it went on to relay, and its result otherwise. *)
Record connection_trace := mkTrace {
  ct_requested : option (string * Z);
  ct_replies : list SocksReply.t;
  ct_relayed : option Chan;
  ct_result : result unit IoError
}.

(** [parsed]: the SOCKS handshake, raced against the token and its timeout;
    [opened]: [request_channel] for a destination; [token]: whether the token
    is cancelled when the failure is handled; [greeted]: the success reply,
    raced against the token; [relay] the result of relaying over a channel. *)
Definition handle_connection (mode : ForwardMode.t)
    (parsed : raced (timed (result SocksConnectRequest SocksError.t)))
    (opened : string * Z -> result Chan SshConnectError.t)
    (token : bool) (greeted : raced (result unit SocksError.t))
    (relay : Chan -> result unit IoError) : connection_trace :=
  let quit requested replies r := mkTrace requested replies None r in
  let go (destination : string * Z) :=
    match opened destination with
    | Err error =>
        match mode with
        | ForwardMode.Dynamic =>
            if token then quit (Some destination) [] (Ok tt)
            else quit (Some destination) [map_socks_failure error] (Ok tt)
        | ForwardMode.Fixed _ => quit (Some destination) [] (Ok tt)
        end
    | Ok channel =>
        match mode with
        | ForwardMode.Fixed _ => mkTrace (Some destination) [] (Some channel) (relay channel)
        | ForwardMode.Dynamic =>
            match greeted with
            | Io.Cancelled => quit (Some destination) [] (Ok tt)
            | Completed (Err e) =>
                quit (Some destination) [SocksReply.Succeeded] (Err (io_other (show_socks_error e)))
            | Completed (Ok _) =>
                mkTrace (Some destination) [SocksReply.Succeeded] (Some channel) (relay channel)
            end
        end
    end in
  match mode with
  | ForwardMode.Fixed destination => go (remote_host destination, remote_port destination)
  | ForwardMode.Dynamic =>
      match parsed with
      | Io.Cancelled => quit None [] (Ok tt)
      | Completed (InTime (Ok request)) =>
          go (Destination.host (destination request), Destination.port (destination request))
      | Completed (InTime (Err _)) => quit None [] (Ok tt)
      | Completed Elapsed => quit None [] (Ok tt)
      end
  end.
End Connection.

Lemma observed_sublist {A} seen (sent : list A) : observed seen sent `sublist_of` sent.
Proof.
  revert sent. induction seen as [|[] seen IH]; intros [|x sent]; cbn; try apply sublist_nil_l.
  - apply sublist_skip, IH.
  - apply sublist_cons, IH.
Qed.

Lemma observed_Forall {A} (Q : A -> Prop) seen sent : Forall Q sent -> Forall Q (observed seen sent).
Proof.
  rewrite !Forall_forall. eauto using elem_of_sublist, observed_sublist.
Qed.

(** ** Ping histories *)

(** How many pings in a row failed, most recent last. *)
Definition trail (n : Z) (ok : bool) : Z := if ok then 0 else n + 1.
Definition trailing (from : Z) (pings : list bool) : Z := foldl trail from pings.

Lemma trailing_app from h1 h2 : trailing from (h1 ++ h2) = trailing (trailing from h1) h2.
Proof. apply foldl_app. Qed.

Lemma trailing_nonneg from h : 0 <= from -> 0 <= trailing from h.
Proof.
  unfold trailing. revert from. induction h as [|b h IH]; intros from Hf; cbn; [done|].
  apply IH. unfold trail. destruct b; lia.
Qed.

(** A count of [n] comes from [n] failures at the end. *)
Lemma trailing_suffix h n :
  trailing 0 h = Z.of_nat n -> exists h', h = h' ++ replicate n false.
Proof.
  revert n. induction h as [|b h IH] using rev_ind; intros n Hn.
  - exists []. cbn in Hn. by assert (n = O) as -> by lia.
  - rewrite trailing_app in Hn. unfold trailing at 1, trail in Hn. cbn in Hn. destruct b.
    + assert (n = O) as -> by lia. exists (h ++ [true]). by rewrite app_nil_r.
    + destruct n as [|n]; [pose proof (trailing_nonneg 0 h); lia|].
      destruct (IH n) as (h' & ->); [lia|]. exists h'.
      by rewrite <-app_assoc, replicate_S_end.
Qed.

Lemma count_ping_spec `{Russh} r n :
  0 <= n <= 2 ->
  let '(n', health) := count_ping r n in
  n' = trail n (is_ok r)
  /\ match health with
     | Some (WorkerHealth.Healthy rtts) => r = Ok rtts /\ n' = 0
     | Some (WorkerHealth.Degraded k reason) =>
         k = n' /\ 1 <= n' <= 2 /\ (char_count reason <= 512)%nat
         /\ exists e, r = Err e /\ reason = take_chars 512 (show_chain_error e)
     | None => n' = 3 /\ is_ok r = false
     end.
Proof.
  intros Hn. unfold count_ping, saturating_add, u8_max, trail. destruct r as [rtts|e]; cbn; [done|].
  rewrite Z.min_l by lia. case_bool_decide; cbn.
  - split_and!; [done|lia|done].
  - split_and!; [done|done|lia|lia|apply take_chars_count|eauto].
Qed.

(** ** The loop *)

Section LoopProps.
Context `{SshTransportLaws}.

(** The outcomes of the health ticks of a run. *)
Fixpoint run_pings (c : list session) (bs : list branch) (l : Loop) (w : world) : list bool :=
  match bs with
  | [] => []
  | b :: bs =>
      (match b with HealthTick => [is_ok (ping_all c HEALTH_TIMEOUT w).1] | _ => [] end)
      ++ match run_step c b l w with
         | Some (Continue l', w') => run_pings c bs l' w'
         | _ => []
         end
  end.

(** A degraded worker has missed one or two pings and says why in short. *)
Definition health_ok (h : WorkerHealth.t) : Prop :=
  match h with
  | WorkerHealth.Healthy _ => True
  | WorkerHealth.Degraded k reason => 1 <= k <= 2 /\ (char_count reason <= 512)%nat
  end.

(** What is published agrees with the failure count. *)
Definition published_ok (l : Loop) : Prop :=
  match published l with
  | None => ping_failures l = 0
  | Some (WorkerHealth.Healthy _) => ping_failures l = 0
  | Some (WorkerHealth.Degraded k reason) =>
      k = ping_failures l /\ 1 <= k <= 2 /\ (char_count reason <= 512)%nat
  end.

Record loop_inv (l : Loop) : Prop := {
  li_tasks : (length (tasks l) <= MAX_ACTIVE_CONNECTIONS)%nat;
  li_nodup : NoDup (tasks l);
  li_failures : 0 <= ping_failures l <= 2;
  li_published : published_ok l
}.

Lemma loop_start_inv : loop_inv loop_start.
Proof. split; cbn; [lia|constructor|lia|done]. Qed.

Lemma ping_all_live c t w r w' : ping_all c t w = (r, w') -> live w' = live w.
Proof. intros Hp. by apply ping_from_spec in Hp as [? _]. Qed.

(** One turn: the invariant, the ping count, and why a run may end. *)
Definition turn_ok (c : list session) (b : branch) (l : Loop) (w : world) (t : turn) : Prop :=
  let pings := match b with HealthTick => [is_ok (ping_all c HEALTH_TIMEOUT w).1] | _ => [] end in
  match t with
  | Continue l' => loop_inv l' /\ ping_failures l' = trailing (ping_failures l) pings
  | Finished (Ok _) => b = Cancelled
  | Finished (Err LocalForwardError.SessionClosed) => b = SessionTick /\ is_closed c w = true
  | Finished (Err (LocalForwardError.Health e)) =>
      b = HealthTick /\ (ping_all c HEALTH_TIMEOUT w).1 = Err e
      /\ trailing (ping_failures l) pings = 3
  | Finished (Err (LocalForwardError.Accept e)) => b = Accepted (Err e)
  | Finished (Err _) => False
  end.

Lemma run_step_ok c b l w t w' :
  loop_inv l -> run_step c b l w = Some (t, w') -> turn_ok c b l w t /\ live w' = live w.
Proof.
  intros [Ht Hd Hf Hp] Hs. unfold turn_ok. destruct b; cbn in Hs.
  - by simplify_eq.
  - destruct (is_closed c w); by simplify_eq.
  - destruct (ping_all c HEALTH_TIMEOUT w) as [r w1] eqn:Ep. pose proof (ping_all_live _ _ _ _ _ Ep) as Hl.
    pose proof (count_ping_spec r _ Hf) as Hc.
    destruct (count_ping r (ping_failures l)) as [n health]. destruct Hc as [Hn Hh]. cbn.
    destruct health as [[rtts|k reason]|].
    + simplify_eq. split; [|done]. split; [|done]. destruct Hh as [-> Hz].
      by split; cbn; [| |lia|].
    + simplify_eq. split; [|done]. split; [|done]. destruct Hh as (-> & Hk & Hr & _).
      split; cbn; [done|done|lia|]. by split_and!; cbn; [|lia|lia|].
    + destruct Hh as [Hz Hr]. destruct r as [|e]; [done|]. simplify_eq. split; [|done].
      split_and!; [done|done|]. cbn. cbn in Hz. by rewrite <-Hz.
  - case_bool_decide; [|done]. simplify_eq. split; [|done]. split; [|done].
    split; cbn; [|by apply NoDup_filter|done|done].
    pose proof (length_filter (fun t => t <> task) (tasks l)). lia.
  - destruct (final_session c) as [s|]; [|done]. destruct cancelled.
    + simplify_eq. split; [|done]. split; [by split|done].
    + destruct (open_channel _ _ _ _ _ w) as [r w1] eqn:Eo. apply open_channel_live in Eo.
      simplify_eq. split; [|done]. split; [by split|done].
  - case_bool_decide as Hlt; [|done]. destruct r as [task|e]; [|by simplify_eq].
    case_bool_decide; [done|]. simplify_eq. split; [|done]. split; [|done].
    split; cbn; [rewrite length_app; cbn; lia| |done|done].
    apply NoDup_app. split_and!; [done| |apply NoDup_singleton]. set_solver.
Qed.

Lemma published_health_ok l : loop_inv l -> Forall health_ok (option_list (published l)).
Proof.
  intros [_ _ _ Hp]. unfold published_ok in Hp.
  destruct (published l) as [[rtts|k reason]|]; cbn; [| |constructor];
    apply Forall_singleton; cbn; [done|]. naive_solver.
Qed.

Lemma loop_health_ok c bs l w : loop_inv l -> Forall health_ok (loop_health c bs l w).
Proof.
  revert l w. induction bs as [|b bs IH]; intros l w Hi; cbn [loop_health]; [constructor|].
  destruct (run_step c b l w) as [[[l'|r] w']|] eqn:Es; [|constructor..].
  destruct (run_step_ok _ _ _ _ _ _ Hi Es) as [[Hi' _] _]. apply Forall_app_2; [|by apply IH].
  destruct b; try constructor. by apply published_health_ok.
Qed.

Lemma run_health_ok self bs w : Forall health_ok (run_health self bs w).
Proof.
  unfold run_health. destruct (chain self); [|constructor].
  apply loop_health_ok, loop_start_inv.
Qed.

(** Why a run ended, given the pings it made. *)
Definition end_ok (c : list session) (bs : list branch) (pings : list bool)
    (r : result unit LocalForwardError.t) : Prop :=
  match r with
  | Ok _ => last bs = Some Cancelled
  | Err LocalForwardError.SessionClosed => last bs = Some SessionTick
  | Err (LocalForwardError.Health _) =>
      last bs = Some HealthTick /\ exists before, pings = before ++ [false; false; false]
  | Err (LocalForwardError.Accept e) => last bs = Some (Accepted (Err e))
  | Err _ => False
  end.

Lemma last_cons_eq {A} (x : A) l y : last l = Some y -> last (x :: l) = Some y.
Proof. destruct l; [done|]. by rewrite last_cons_cons. Qed.

Lemma run_loop_ok c bs l w t w' h :
  loop_inv l -> ping_failures l = trailing 0 h ->
  run_loop c bs l w = Some (t, w') ->
  live w' = live w
  /\ match t with
     | Continue l' => loop_inv l' /\ ping_failures l' = trailing 0 (h ++ run_pings c bs l w)
     | Finished r => end_ok c bs (h ++ run_pings c bs l w) r
     end.
Proof.
  revert l w h. induction bs as [|b bs IH]; intros l w h Hi Hh Hr; cbn [run_loop] in Hr.
  { simplify_eq. cbn. by rewrite app_nil_r. }
  destruct (run_step c b l w) as [[t1 w1]|] eqn:Es; [|done].
  destruct (run_step_ok _ _ _ _ _ _ Hi Es) as [Hturn Hl1]. cbn [run_pings]. rewrite Es.
  set (p := match b with HealthTick => _ | _ => _ end) in *.
  destruct t1 as [l1|r1].
  - destruct Hturn as [Hi1 Hp1].
    assert (Hh1 : ping_failures l1 = trailing 0 (h ++ p)) by (rewrite trailing_app, <-Hh; exact Hp1).
    destruct (IH l1 w1 (h ++ p) Hi1 Hh1 Hr) as [Hl2 Hend]. split; [congruence|].
    rewrite app_assoc. destruct t as [l'|r]; [done|]. unfold end_ok in *.
    destruct r as [[]|[]]; try done; try (by apply last_cons_eq).
    destruct Hend as [? ?]. split; [by apply last_cons_eq|done].
  - destruct bs; [|done]. simplify_eq. split; [done|]. rewrite app_nil_r. cbn [turn_ok] in Hturn.
    unfold end_ok. destruct r1 as [[]|[| |e|e|]]; try done; cbn.
    + by rewrite Hturn.
    + by destruct Hturn as [-> _].
    + destruct Hturn as (-> & _ & H3). split; [done|].
      change (trailing (ping_failures l) p = 3) in H3. rewrite Hh, <-trailing_app in H3.
      by apply (trailing_suffix _ 3).
    + by rewrite Hturn.
Qed.

(** C34: The worker's loop, for every order of events. At most 64 connection
    tasks are alive at any time; the failure count is the number of health
    checks in a row that failed, never more than two while the loop runs, and
    the published health agrees with it; and [run] ends only for its four
    reasons: success only on cancellation, [SessionClosed] only on a session
    tick, an accept error only when accept failed, and a health error exactly
    after three failed checks in a row. No turn opens or closes a session. *)
Theorem worker_run_spec self c bs w t w' :
  chain self = Some c -> socket (listener self) <> None ->
  run self bs w = Some (t, w') ->
  live w' = live w
  /\ match t with
     | Continue l => loop_inv l /\ ping_failures l = trailing 0 (run_pings c bs loop_start w)
     | Finished r => end_ok c bs (run_pings c bs loop_start w) r
     end.
Proof.
  intros Hc Hs Hr. unfold run in Hr. rewrite Hc in Hr.
  destruct (socket (listener self)); [|done].
  by apply (run_loop_ok c bs loop_start w t w' [] loop_start_inv eq_refl).
Qed.

(** ** Shutdown *)

(** Ending a worker releases what it owns. Handing the listener back closes
    every session of the chain and keeps the port bound at the same address;
    stopping the worker also releases the port, unless the lifecycle's
    generation counter is exhausted. *)
Theorem worker_release_spec l c m token self base w clock :
  rt_reachable l -> build l c m token = Ok self -> live w = base ++ c ->
  (let '(l', w') := release_listener self w in l' = l /\ live w' = base)
  /\ (generation (lifecycle l) < u64_max ->
      exists l' w', stop clock self w = (Ok tt, l', w') /\ socket l' = None
        /\ runtime (lifecycle l') = RuntimeState.Stopped /\ live w' = base).
Proof.
  intros Hl Hb Hw. unfold build in Hb. destruct (socket l) as [sock|] eqn:Es; [|done]. simplify_eq.
  pose proof (disconnect_all_live c base w Hw) as Hd.
  split; [by cbn|]. intros Hg. unfold stop. cbn.
  destruct (stop_releases_port l clock Hl Hg) as (l' & Hstop & ? & ? & _). rewrite Hstop. cbn.
  by eexists _, _.
Qed.
End LoopProps.

(** ** One connection *)

Lemma map_socks_failure_not_success `{Russh} e : map_socks_failure e <> SocksReply.Succeeded.
Proof. unfold map_socks_failure. by destruct (forwarding_failure e). Qed.

(** The SOCKS answers tell the truth. A connection is relayed only over the
    channel opened for exactly the destination the client asked for (a name is
    passed on unresolved); a Dynamic client is told "succeeded" only when that
    channel is open, and otherwise gets at most one reply, the failure code of
    the channel error; a rejected or timed-out handshake opens no channel; and
    a Local client is never sent a SOCKS byte. *)
Theorem connection_answers_truthfully `{Russh} {Chan} mode parsed
    (opened : string * Z -> result Chan SshConnectError.t) token greeted relay :
  let t := handle_connection mode parsed opened token greeted relay in
  (forall ch, ct_relayed t = Some ch ->
     exists d, ct_requested t = Some d /\ opened d = Ok ch /\ ct_result t = relay ch)
  /\ (SocksReply.Succeeded ∈ ct_replies t ->
      mode = ForwardMode.Dynamic
      /\ exists d ch, ct_requested t = Some d /\ opened d = Ok ch)
  /\ match mode with
     | ForwardMode.Fixed dst =>
         ct_replies t = [] /\ ct_requested t = Some (remote_host dst, remote_port dst)
     | ForwardMode.Dynamic =>
         (length (ct_replies t) <= 1)%nat
         /\ (forall r, r ∈ ct_replies t -> r <> SocksReply.Succeeded ->
             exists d e, ct_requested t = Some d /\ opened d = Err e /\ r = map_socks_failure e)
         /\ (ct_requested t <> None ->
             exists req, parsed = Completed (InTime (Ok req))
               /\ ct_requested t = Some (Destination.host (destination req),
                                         Destination.port (destination req)))
     end.
Proof.
  cbv zeta. unfold handle_connection. pose proof map_socks_failure_not_success as Hne.
  destruct mode as [dst|]; [|destruct parsed as [|[[req|err]|]]];
    try (destruct (opened _) as [ch|e] eqn:Eo); try destruct token;
    try destruct greeted as [|[[]|err]]; cbn;
    rewrite ?list_elem_of_singleton, ?elem_of_nil;
    split_and!; intros; rewrite ?list_elem_of_singleton, ?elem_of_nil in *;
    subst; simplify_eq; try done; try lia; eauto 10.
  all: try (by exfalso; eapply Hne; eauto).
Qed.

(** ** Witnesses *)

(** A Dynamic worker over one session that no longer answers. *)
Definition dead_session : ClientSession := mkClientSession 0 None.
Definition dead_worker : LocalForwardWorker (H0 := toy_transport false) :=
  mkLocalForwardWorker (H0 := toy_transport false) bound_runtime (Some [dead_session])
    ForwardMode.Dynamic false false [] None.

Theorem worker_run_spec_witness :
  exists e, run (H0 := toy_transport false) dead_worker [HealthTick; HealthTick; HealthTick] empty_world
    = Some (Finished (Err (LocalForwardError.Health e)), empty_world)
  /\ exists before, run_pings (H0 := toy_transport false) [dead_session]
       [HealthTick; HealthTick; HealthTick] loop_start empty_world = before ++ [false; false; false].
Proof.
  eexists. split; [reflexivity|].
  refine (proj2 (proj2 (worker_run_spec (H1 := toy_transport_laws false) dead_worker [dead_session]
    [HealthTick; HealthTick; HealthTick] empty_world _ empty_world eq_refl _ eq_refl))).
  discriminate.
Defined.

Lemma bound_runtime_reachable : rt_reachable bound_runtime.
Proof.
  eapply rt_start; [apply rt_new|]. unfold bound_runtime. apply surjective_pairing.
Qed.

Definition one_session_world : ClientWorld (H := Toy.russh) :=
  mkClientWorld 1 [dead_session] {[ 0%nat := toy_session None ]} [].

Theorem worker_release_spec_witness :
  exists self, build (H0 := toy_transport false) bound_runtime [dead_session] ForwardMode.Dynamic false
      = Ok self
    /\ exists l' w', stop (H0 := toy_transport false) (fun _ => 0) self one_session_world
         = (Ok tt, l', w') /\ socket l' = None /\ cw_live w' = [].
Proof.
  eexists. split; [reflexivity|].
  destruct (worker_release_spec (H1 := toy_transport_laws false) bound_runtime [dead_session]
    ForwardMode.Dynamic false _ [] one_session_world (fun _ => 0) bound_runtime_reachable eq_refl
    eq_refl) as [_ Hstop].
  destruct Hstop as (l' & w' & Hs & Hl & _ & Hw); [vm_compute; reflexivity|].
  by exists l', w'.
Defined.
