(* ===== verification/RemoteForward.v ===== *)
(** * RemoteForward: the worker of a Remote tunnel,
    crates/tunnel-core/src/remote_forward.rs. *)
From S2P Require Import Prelude Io Text Net Domain StateMachine Runtime Socks5 Russh HostKey SshClient Chain LocalForward.

Definition MAX_ACTIVE_CONNECTIONS : nat := 64.
Definition REMOTE_REQUEST_TIMEOUT : Duration := from_secs 5.
Definition LOCAL_CONNECT_TIMEOUT : Duration := from_secs 5.
Definition HEALTH_TIMEOUT : Duration := from_secs 5.

Module RemoteForwardError.
Inductive t `{Russh} :=
  | InvalidTarget
  | SessionClosed
  | Health (source : SshChainError.t)
  | Registration (source : SshConnectError.t)
  | Cancellation (source : SshConnectError.t).
End RemoteForwardError.

Definition show_remote_forward_error `{Russh} (e : RemoteForwardError.t) : string :=
  match e with
  | RemoteForwardError.InvalidTarget => "invalid local target"
  | RemoteForwardError.SessionClosed => "SSH session closed"
  | RemoteForwardError.Health e => "SSH health check failed: " +:+ show_chain_error e
  | RemoteForwardError.Registration e =>
      "remote forward registration failed: " +:+ show_connect_error e
  | RemoteForwardError.Cancellation e =>
      "remote forward cancellation failed: " +:+ show_connect_error e
  end.

Section Worker.
Context `{SshTransport}.

Record RemoteForwardWorker := mkRemoteForwardWorker {
  rf_chain : option (list session);
  rf_local_target : LocalEndpoint;
  rf_bound_port : Z;
  rf_cancellation : bool;
  rf_health : option WorkerHealth.t
}.

Definition invalid_target (target : LocalEndpoint) : bool :=
  str_is_empty (local_host target) || bool_decide (255 < str_len (local_host target))
  || bool_decide (local_port target = 0).

(** [start_chain]: a refused target or registration ends with the chain
    disconnected. A chain is never empty ([final_session_mut] would panic). *)
Definition start_chain (c : list session) (target : LocalEndpoint) (token : bool)
    : ST world RemoteForwardError.t RemoteForwardWorker := fun w =>
  if invalid_target target then (Err RemoteForwardError.InvalidTarget, disconnect c w)
  else
    match final_session c with
    | None => (Err RemoteForwardError.SessionClosed, w)
    | Some s =>
        match register_forward s REMOTE_REQUEST_TIMEOUT w with
        | (Ok port, w') => (Ok (mkRemoteForwardWorker (Some c) target port token None), w')
        | (Err error, w') => (Err (RemoteForwardError.Registration error), disconnect c w')
        end
    end.

Definition start (s : session) (target : LocalEndpoint) (token : bool)
    : ST world RemoteForwardError.t RemoteForwardWorker :=
  start_chain (single s) target token.

(** ** [run] *)

(** The completed branch of the [select!]; [Channel None]: the queue of
    forwarded channels was closed. *)
Inductive remote_branch :=
  | RCancelled
  | RSessionTick
  | RHealthTick
  | RJoinNext (task : nat)
  | RChannel (channel : option nat).

Inductive remote_turn :=
  | RContinue (l : Loop)
  | RFinished (r : result unit RemoteForwardError.t).

Definition remote_step (c : list session) (b : remote_branch) (l : Loop) (w : world)
    : option (remote_turn * world) :=
  match b with
  | RCancelled => Some (RFinished (Ok tt), w)
  | RSessionTick =>
      if is_closed c w then Some (RFinished (Err RemoteForwardError.SessionClosed), w)
      else Some (RContinue l, w)
  | RHealthTick =>
      let '(r, w') := ping_all c HEALTH_TIMEOUT w in
      let '(failures, health) := count_ping r (ping_failures l) in
      match health, r with
      | None, Err error => Some (RFinished (Err (RemoteForwardError.Health error)), w')
      | _, _ => Some (RContinue (mkLoop (tasks l) failures health (replies l)), w')
      end
  | RJoinNext task =>
      if bool_decide (task ∈ tasks l) then
        Some (RContinue (mkLoop (filter (fun t => t <> task) (tasks l)) (ping_failures l)
                          (published l) (replies l)), w)
      else None
  | RChannel channel =>
      if bool_decide (length (tasks l) < MAX_ACTIVE_CONNECTIONS)%nat then
        match channel with
        | None => Some (RFinished (Err RemoteForwardError.SessionClosed), w)
        | Some task =>
            if bool_decide (task ∈ tasks l) then None
            else Some (RContinue (mkLoop (tasks l ++ [task]) (ping_failures l) (published l)
                                   (replies l)), w)
        end
      else None
  end.

Fixpoint remote_loop (c : list session) (bs : list remote_branch) (l : Loop) (w : world)
    : option (remote_turn * world) :=
  match bs with
  | [] => Some (RContinue l, w)
  | b :: bs =>
      match remote_step c b l w with
      | Some (RContinue l', w') => remote_loop c bs l' w'
      | Some (RFinished r, w') => match bs with [] => Some (RFinished r, w') | _ => None end
      | None => None
      end
  end.

Definition run (self : RemoteForwardWorker) (bs : list remote_branch) (w : world)
    : option (remote_turn * world) :=
  match rf_chain self with
  | None => Some (RFinished (Err RemoteForwardError.SessionClosed), w)
  | Some c => remote_loop c bs loop_start w
  end.

Fixpoint remote_loop_health (c : list session) (bs : list remote_branch) (l : Loop) (w : world)
    : list WorkerHealth.t :=
  match bs with
  | [] => []
  | b :: bs =>
      match remote_step c b l w with
      | Some (RContinue l', w') =>
          match b with RHealthTick => option_list (published l') | _ => [] end
          ++ remote_loop_health c bs l' w'
      | _ => []
      end
  end.

(** The values sent on the health channel during a run, in order. *)
Definition remote_run_health (self : RemoteForwardWorker) (bs : list remote_branch) (w : world)
    : list WorkerHealth.t :=
  match rf_chain self with Some c => remote_loop_health c bs loop_start w | None => [] end.

(** The task of one forwarded channel: connect to the local target, relay. *)
Definition forwarded_connection (connect : raced (timed (result unit IoError)))
    (relay : result unit IoError) : result unit IoError :=
  match connect with
  | Io.Cancelled => Ok tt
  | Completed Elapsed => Err (io_other "deadline has elapsed")
  | Completed (InTime (Err e)) => Err e
  | Completed (InTime (Ok _)) => relay
  end.

(** [stop]: cancel the registration first, then end the tasks and the chain. *)
Definition stop (self : RemoteForwardWorker) : ST world RemoteForwardError.t unit := fun w =>
  match rf_chain self with
  | None => (Ok tt, w)
  | Some c =>
      match final_session c with
      | None => (Ok tt, w)
      | Some s =>
          let '(r, w') := cancel_forward s REMOTE_REQUEST_TIMEOUT w in
          (map_err RemoteForwardError.Cancellation r, disconnect c w')
      end
  end.
End Worker.

(** ** Properties *)

Section RemoteProps.
Context `{SshTransportLaws}.

(** A forwarding worker's loop is the local one's with its own branches: the
    invariant and the ping count are shared. *)
Fixpoint remote_pings (c : list session) (bs : list remote_branch) (l : Loop) (w : world)
    : list bool :=
  match bs with
  | [] => []
  | b :: bs =>
      (match b with RHealthTick => [is_ok (ping_all c HEALTH_TIMEOUT w).1] | _ => [] end)
      ++ match remote_step c b l w with
         | Some (RContinue l', w') => remote_pings c bs l' w'
         | _ => []
         end
  end.

Definition remote_turn_ok (c : list session) (b : remote_branch) (l : Loop) (w : world)
    (t : remote_turn) : Prop :=
  let pings := match b with RHealthTick => [is_ok (ping_all c HEALTH_TIMEOUT w).1] | _ => [] end in
  match t with
  | RContinue l' => loop_inv l' /\ ping_failures l' = trailing (ping_failures l) pings
  | RFinished (Ok _) => b = RCancelled
  | RFinished (Err RemoteForwardError.SessionClosed) =>
      (b = RSessionTick /\ is_closed c w = true) \/ b = RChannel None
  | RFinished (Err (RemoteForwardError.Health e)) =>
      b = RHealthTick /\ (ping_all c HEALTH_TIMEOUT w).1 = Err e
      /\ trailing (ping_failures l) pings = 3
  | RFinished (Err _) => False
  end.

(** Each branch but the channel queue does what the local worker's does. *)
Definition local_branch (b : remote_branch) : option (branch) :=
  match b with
  | RCancelled => Some LocalForward.Cancelled
  | RSessionTick => Some SessionTick
  | RHealthTick => Some HealthTick
  | RJoinNext t => Some (JoinNext t)
  | RChannel (Some t) => Some (Accepted (Ok t))
  | RChannel None => None
  end.

Definition local_turn (t : remote_turn) : option turn :=
  match t with
  | RContinue l => Some (Continue l)
  | RFinished (Ok _) => Some (Finished (Ok tt))
  | RFinished (Err RemoteForwardError.SessionClosed) =>
      Some (Finished (Err LocalForwardError.SessionClosed))
  | RFinished (Err (RemoteForwardError.Health e)) =>
      Some (Finished (Err (LocalForwardError.Health e)))
  | _ => None
  end.

Lemma remote_step_local c b b' l w t w' :
  local_branch b = Some b' -> remote_step c b l w = Some (t, w') ->
  exists t', local_turn t = Some t' /\ run_step c b' l w = Some (t', w').
Proof.
  intros Hb Hs. destruct b as [| | |task|[task|]]; cbn in Hb; simplify_eq; cbn in *.
  - simplify_eq. by eexists.
  - destruct (is_closed c w); simplify_eq; by eexists.
  - change LocalForward.HEALTH_TIMEOUT with HEALTH_TIMEOUT.
    destruct (ping_all c HEALTH_TIMEOUT w) as [r w1].
    destruct (count_ping r (ping_failures l)) as [n health].
    destruct health, r; simplify_eq; by eexists.
  - case_bool_decide; simplify_eq. by eexists.
  - change LocalForward.MAX_ACTIVE_CONNECTIONS with MAX_ACTIVE_CONNECTIONS.
    case_bool_decide; [|done]. case_bool_decide; [done|]. simplify_eq. by eexists.
Qed.

Lemma remote_step_ok c b l w t w' :
  loop_inv l -> remote_step c b l w = Some (t, w') -> remote_turn_ok c b l w t /\ live w' = live w.
Proof.
  intros Hi Hs. destruct (local_branch b) as [b'|] eqn:Eb.
  - destruct (remote_step_local c b b' l w t w' Eb Hs) as (t' & Ht & Hs').
    destruct (run_step_ok c b' l w t' w' Hi Hs') as [Hok Hl]. split; [|done].
    destruct b as [| | |task|[task|]]; cbn in Eb; simplify_eq;
      destruct t as [l'|[[]|[]]]; cbn in Ht; simplify_eq; cbn in *; try done; try naive_solver;
      try (by destruct Hok).
  - destruct b as [| | |task|[task|]]; cbn in Eb; simplify_eq. cbn in Hs.
    case_bool_decide; [|done]. simplify_eq. split; [|done]. by right.
Qed.

Lemma remote_loop_health_ok c bs l w :
  loop_inv l -> Forall health_ok (remote_loop_health c bs l w).
Proof.
  revert l w. induction bs as [|b bs IH]; intros l w Hi; cbn [remote_loop_health]; [constructor|].
  destruct (remote_step c b l w) as [[[l'|r] w']|] eqn:Es; [|constructor..].
  destruct (remote_step_ok _ _ _ _ _ _ Hi Es) as [[Hi' _] _]. apply Forall_app_2; [|by apply IH].
  destruct b; try constructor. by apply published_health_ok.
Qed.

Lemma remote_run_health_ok self bs w : Forall health_ok (remote_run_health self bs w).
Proof.
  unfold remote_run_health. destruct (rf_chain self); [|constructor].
  apply remote_loop_health_ok, loop_start_inv.
Qed.

(** Why a run ended. *)
Definition remote_end_ok (bs : list remote_branch) (pings : list bool)
    (r : result unit RemoteForwardError.t) : Prop :=
  match r with
  | Ok _ => last bs = Some RCancelled
  | Err RemoteForwardError.SessionClosed =>
      last bs = Some RSessionTick \/ last bs = Some (RChannel None)
  | Err (RemoteForwardError.Health _) =>
      last bs = Some RHealthTick /\ exists before, pings = before ++ [false; false; false]
  | Err _ => False
  end.

Lemma remote_loop_ok c bs l w t w' h :
  loop_inv l -> ping_failures l = trailing 0 h ->
  remote_loop c bs l w = Some (t, w') ->
  live w' = live w
  /\ match t with
     | RContinue l' => loop_inv l' /\ ping_failures l' = trailing 0 (h ++ remote_pings c bs l w)
     | RFinished r => remote_end_ok bs (h ++ remote_pings c bs l w) r
     end.
Proof.
  revert l w h. induction bs as [|b bs IH]; intros l w h Hi Hh Hr; cbn [remote_loop] in Hr.
  { simplify_eq. cbn. by rewrite app_nil_r. }
  destruct (remote_step c b l w) as [[t1 w1]|] eqn:Es; [|done].
  destruct (remote_step_ok _ _ _ _ _ _ Hi Es) as [Hturn Hl1]. cbn [remote_pings]. rewrite Es.
  set (p := match b with RHealthTick => _ | _ => _ end) in *.
  destruct t1 as [l1|r1].
  - destruct Hturn as [Hi1 Hp1].
    assert (Hh1 : ping_failures l1 = trailing 0 (h ++ p)) by (rewrite trailing_app, <-Hh; exact Hp1).
    destruct (IH l1 w1 (h ++ p) Hi1 Hh1 Hr) as [Hl2 Hend]. split; [congruence|].
    rewrite app_assoc. destruct t as [l'|r]; [done|]. unfold remote_end_ok in *.
    destruct r as [[]|[]]; try done.
    + by apply last_cons_eq.
    + destruct Hend; [left|right]; by apply last_cons_eq.
    + destruct Hend as [? ?]. split; [by apply last_cons_eq|done].
  - destruct bs; [|done]. simplify_eq. split; [done|]. rewrite app_nil_r. cbn [remote_turn_ok] in Hturn.
    unfold remote_end_ok. destruct r1 as [[]|[| |e|e|]]; try done; cbn.
    + by rewrite Hturn.
    + destruct Hturn as [[-> _]| ->]; [by left|by right].
    + destruct Hturn as (-> & _ & H3). split; [done|].
      change (trailing (ping_failures l) p = 3) in H3. rewrite Hh, <-trailing_app in H3.
      by apply (trailing_suffix _ 3).
Qed.

(** The Remote worker's loop keeps the same promises as the local one's: at
    most 64 relay tasks, a failure count that never exceeds two while it runs,
    and an end only on cancellation, on a closed session or channel queue, or
    after exactly three failed health checks in a row. *)
Theorem remote_worker_run_spec self c bs w t w' :
  rf_chain self = Some c -> run self bs w = Some (t, w') ->
  live w' = live w
  /\ match t with
     | RContinue l => loop_inv l /\ ping_failures l = trailing 0 (remote_pings c bs loop_start w)
     | RFinished r => remote_end_ok bs (remote_pings c bs loop_start w) r
     end.
Proof.
  intros Hc Hr. unfold run in Hr. rewrite Hc in Hr.
  by apply (remote_loop_ok c bs loop_start w t w' [] loop_start_inv eq_refl).
Qed.

(** A registration does not outlive its worker, nor a failed start its
    sessions. Starting a worker on a chain either returns a worker that owns
    the chain, or fails with every session of the chain closed; stopping it
    asks the server to cancel the registration while the session is live and
    then closes every session - whether or not the server agreed. *)
Theorem remote_registration_scoped base c target token w :
  live w = base ++ c -> c <> [] ->
  match start_chain c target token w with
  | (Ok self, w') =>
      rf_chain self = Some c /\ live w' = base ++ c /\ invalid_target target = false
      /\ (let '(r, w'') := stop self w' in
          live w'' = base
          /\ exists s, final_session c = Some s
               /\ r = map_err RemoteForwardError.Cancellation
                        (cancel_forward s REMOTE_REQUEST_TIMEOUT w').1)
  | (Err RemoteForwardError.InvalidTarget, w') => invalid_target target = true /\ live w' = base
  | (Err (RemoteForwardError.Registration _), w') => live w' = base
  | (Err _, _) => False
  end.
Proof.
  intros Hl Hc. unfold start_chain. destruct (invalid_target target) eqn:Et.
  { split; [done|]. by apply (disconnect_all_live c). }
  unfold final_session. destruct (last c) as [s|] eqn:Es; [|by apply last_None in Es].
  destruct (register_forward s _ w) as [[port|error] w1] eqn:Er;
    apply register_forward_live in Er; rewrite Hl in Er; cbn.
  - split_and!; [done|done|done|]. unfold stop. cbn. unfold final_session. rewrite Es.
    destruct (cancel_forward s _ w1) as [r2 w2] eqn:Ec.
    pose proof Ec as Hl2. apply cancel_forward_live in Hl2.
    split; [apply (disconnect_all_live c); congruence|].
    exists s. by rewrite Ec.
  - by apply (disconnect_all_live c).
Qed.
End RemoteProps.

(** ** Witnesses *)

Definition idle_remote_worker : RemoteForwardWorker (H0 := toy_transport false) :=
  mkRemoteForwardWorker (H0 := toy_transport false) (Some [dead_session])
    (mkLocalEndpoint "127.0.0.1" 3000) 8080 false None.

Theorem remote_worker_run_spec_witness :
  exists e, run (H0 := toy_transport false) idle_remote_worker [RHealthTick; RHealthTick; RHealthTick]
      empty_world
    = Some (RFinished (Err (RemoteForwardError.Health e)), empty_world)
  /\ exists before, remote_pings (H0 := toy_transport false) [dead_session]
       [RHealthTick; RHealthTick; RHealthTick] loop_start empty_world
       = before ++ [false; false; false].
Proof.
  eexists. split; [reflexivity|].
  exact (proj2 (proj2 (remote_worker_run_spec (H1 := toy_transport_laws false) idle_remote_worker
    [dead_session] [RHealthTick; RHealthTick; RHealthTick] empty_world _ empty_world
    eq_refl eq_refl))).
Defined.

(** A session prepared for the toy binding, registered and stopped again. *)
Definition remote_world : ClientWorld (H := Toy.russh) :=
  mkClientWorld 1 [mkClientSession 0 (Some toy_binding)]
    {[ 0%nat := toy_session (Some toy_binding) ]} [].

Theorem remote_registration_scoped_witness :
  match start_chain (H0 := toy_transport false) [mkClientSession 0 (Some toy_binding)]
          (mkLocalEndpoint "127.0.0.1" 3000) false remote_world with
  | (Ok self, w') => rf_bound_port self = 8080 /\ cw_live (stop self w').2 = []
  | _ => False
  end.
Proof.
  pose proof (remote_registration_scoped (H1 := toy_transport_laws false) []
    [mkClientSession 0 (Some toy_binding)] (mkLocalEndpoint "127.0.0.1" 3000) false remote_world
    eq_refl ltac:(discriminate)) as Hs.
  destruct (start_chain _ _ _ _) as [[self|e] w'] eqn:E; [|discriminate E].
  destruct Hs as (_ & _ & _ & Hstop). split.
  - assert (Hp : rf_bound_port self = 8080); [|exact Hp].
    injection E as <- _. reflexivity.
  - destruct (stop self w') as [r w'']. exact (proj1 Hstop).
Defined.
