(* ===== verification/Supervisor.v ===== *)
(** * Supervisor: the reconnecting owner of a Local or Dynamic tunnel,
    crates/tunnel-core/src/supervisor.rs.

    One pass of the loop of [run_until_stopped] is [iteration]; what the
    environment does during the pass (which clients connect while the tunnel is
    down, when the token fires, what the worker meets) is its [script]. *)
From S2P Require Import Prelude Io Text Net Domain StateMachine Runtime Retry Socks5 Russh HostKey SshClient Chain LocalForward.

Definition MAX_UNHEALTHY_CLIENTS : nat := 64.
Definition INITIAL_PING_TIMEOUT : Duration := from_secs 5.

Module SupervisorState.
Inductive t :=
  | Connecting (attempt : Z)
  | Reconnecting (attempt : Z) (delay : Duration) (reason : string)
  | Healthy (rtts : list Duration) (remote_port : option Z)
  | Degraded (failed_pings : Z) (reason : string)
  | Blocked (reason : string)
  | Stopped.
End SupervisorState.

Module SupervisorMode.
Inductive t := Local (remote : RemoteEndpoint) | Dynamic.
End SupervisorMode.

Module SupervisorError.
Inductive t `{Russh} :=
  | NoListener
  | Accept (source : IoError)
  | Worker (source : LocalForwardError.t)
  | Shutdown (source : ListenerRuntimeError).
End SupervisorError.

Definition show_supervisor_error `{Russh} (e : SupervisorError.t) : string :=
  match e with
  | SupervisorError.NoListener => "local listener is not bound"
  | SupervisorError.Accept e => "local accept failed: " +:+ io_text e
  | SupervisorError.Worker e => "local worker failed: " +:+ show_local_forward_error e
  | SupervisorError.Shutdown e => "listener shutdown failed: " +:+ show_listener_runtime_error e
  end.

Definition chain_retryability `{Russh} (error : SshChainError.t) : Retryability.t :=
  match error with
  | SshChainError.Empty | SshChainError.TooManyHops | SshChainError.Credential _ _ =>
      Retryability.Blocked
  | SshChainError.Hop _ source => err_retryability (summary source)
  end.

(** The task of a client that connects while the tunnel is down: a Dynamic
    client whose handshake arrives is told the host is unreachable. *)
Definition unhealthy_client (parsed : raced (timed (result SocksConnectRequest SocksError.t)))
    : option SocksReply.t :=
  match parsed with
  | Completed (InTime (Ok _)) => Some SocksReply.HostUnreachable
  | _ => None
  end.

(** A value sent to the observers of the state, from a health update. *)
Definition health_state (h : WorkerHealth.t) : SupervisorState.t :=
  match h with
  | WorkerHealth.Healthy rtts => SupervisorState.Healthy rtts None
  | WorkerHealth.Degraded failed_pings reason => SupervisorState.Degraded failed_pings reason
  end.

Section Supervisor.
Context `{SshTransport}.

(** [sv_states] are the values published, in order; the last is the current. *)
Record Supervisor := mkSupervisor {
  sv_listener : option ListenerRuntime;
  sv_mode : SupervisorMode.t;
  sv_retries : RetrySchedule;
  sv_states : list SupervisorState.t;
  sv_clients : list nat;
  sv_attempt : Z
}.

Definition new (l : ListenerRuntime) (mode : SupervisorMode.t) (retry : RetryPolicy)
    : result Supervisor SupervisorError.t :=
  match socket l with
  | None => Err SupervisorError.NoListener
  | Some _ =>
      Ok (mkSupervisor (Some l) mode (Retry.new retry) [SupervisorState.Connecting 1] [] 1)
  end.

Definition local_addr (self : Supervisor) : result (option SocketAddr) IoError :=
  match sv_listener self with
  | Some l => Runtime.local_addr l
  | None => Ok None
  end.

Notation sup A := (ST (Supervisor * world) SupervisorError.t A).

Definition on_sup (f : Supervisor -> Supervisor) : sup unit := fun '(s, w) => (Ok tt, (f s, w)).
Definition get_sup : sup Supervisor := fun '(s, w) => (Ok s, (s, w)).
Definition get_world : sup world := fun '(s, w) => (Ok w, (s, w)).
Definition on_world {A} (m : world -> A * world) : sup A := fun '(s, w) =>
  let '(a, w') := m w in (Ok a, (s, w')).

Definition publish (st : SupervisorState.t) : sup unit :=
  on_sup (fun s => mkSupervisor (sv_listener s) (sv_mode s) (sv_retries s)
                     (sv_states s ++ [st]) (sv_clients s) (sv_attempt s)).
Definition set_listener (l : option ListenerRuntime) : sup unit :=
  on_sup (fun s => mkSupervisor l (sv_mode s) (sv_retries s) (sv_states s) (sv_clients s)
                     (sv_attempt s)).
Definition set_clients (c : list nat) : sup unit :=
  on_sup (fun s => mkSupervisor (sv_listener s) (sv_mode s) (sv_retries s) (sv_states s) c
                     (sv_attempt s)).
Definition set_attempt (n : Z) : sup unit :=
  on_sup (fun s => mkSupervisor (sv_listener s) (sv_mode s) (sv_retries s) (sv_states s)
                     (sv_clients s) n).

(** ** [while_unhealthy] *)

(** What happens while a future is awaited, and how the wait ends. *)
Inductive unhealthy_event :=
  | ClientJoined (task : nat)
  | ClientAccepted (r : result nat IoError).
Inductive wait_end := TokenFired | FutureReady.

(** [reject_unhealthy]: a Dynamic client gets a task, a Local one is dropped. *)
Definition reject_unhealthy (task : nat) : sup unit :=
  let! s := get_sup in
  match sv_mode s with
  | SupervisorMode.Dynamic => set_clients (sv_clients s ++ [task])
  | SupervisorMode.Local _ => ret tt
  end.

(** One turn of the [select!]. With 64 clients waiting the accept branch is off:
    the connection stays in the backlog. *)
Definition unhealthy_turn (e : unhealthy_event) : sup unit :=
  let! s := get_sup in
  match e with
  | ClientJoined task => set_clients (filter (fun t => t <> task) (sv_clients s))
  | ClientAccepted r =>
      if bool_decide (length (sv_clients s) < MAX_UNHEALTHY_CLIENTS)%nat then
        match r with
        | Ok task => reject_unhealthy task
        | Err source => throw (SupervisorError.Accept source)
        end
      else ret tt
  end.

(** [self.listener.as_ref().and_then(..).ok_or(NoListener)?] *)
Definition require_listener : sup unit :=
  let! s := get_sup in
  match sv_listener s with
  | Some l => match socket l with Some _ => ret tt | None => throw SupervisorError.NoListener end
  | None => throw SupervisorError.NoListener
  end.

(** The future [f] takes its effect on the world when it completes; if the
    token fires first it is dropped. *)
Fixpoint while_unhealthy {T} (events : list unhealthy_event) (e : wait_end)
    (f : world -> T * world) : sup (option T) :=
  require_listener ;;;
  match events with
  | ev :: events => unhealthy_turn ev ;;; while_unhealthy events e f
  | [] =>
      match e with
      | TokenFired => ret None
      | FutureReady => let! t := on_world f in ret (Some t)
      end
  end.

(** ** [after_failure] *)

(** What comes before the token fires: the end of the delay, a retry request. *)
Record wakes := mkWakes { wk_timer : bool; wk_hint : bool }.

(** A blocking error is waited out only until the user asks for a retry. *)
Definition awaited (blocked : bool) (k : wakes) : wait_end :=
  if wk_hint k || (negb blocked && wk_timer k) then FutureReady else TokenFired.

Record wait_script := mkWaitScript {
  ws_jitter : Z;
  ws_events : list unhealthy_event;
  ws_wakes : wakes
}.

(** [true]: try again. *)
Definition after_failure (attempt : Z) (reason : string) (blocked : bool) (ws : wait_script)
    : sup bool :=
  let! self := get_sup in
  let reason := take_chars 512 reason in
  if blocked then
    publish (SupervisorState.Blocked reason) ;;;
    let! woken := while_unhealthy (ws_events ws) (awaited true (ws_wakes ws)) (fun w => (tt, w)) in
    ret (bool_decide (is_Some woken))
  else
    let delay := delay (sv_retries self) attempt (ws_jitter ws) in
    publish (SupervisorState.Reconnecting attempt delay reason) ;;;
    let! woken := while_unhealthy (ws_events ws) (awaited false (ws_wakes ws)) (fun w => (tt, w)) in
    ret (bool_decide (is_Some woken)).

(** ** [run_until_stopped] *)

Record script := mkScript {
  sc_cancelled : bool;                     (* the token, at the top of the pass *)
  sc_connect_events : list unhealthy_event;
  sc_connect_end : wait_end;
  sc_branches : list branch;               (* of the worker's loop *)
  sc_seen : list bool;                     (* which health updates it looked at *)
  sc_stopped : bool;                       (* the token, after the worker *)
  sc_elapsed : Duration;                   (* time since the attempt was healthy *)
  sc_wait : wait_script
}.

(** A failed attempt: wait, then count it. *)
Definition retry_later (reason : string) (blocked : bool) (ws : wait_script) : sup bool :=
  let! self := get_sup in
  let! again := after_failure (sv_attempt self) reason blocked ws in
  if again then set_attempt (saturating_add u32_max (sv_attempt self) 1) ;;; ret true
  else ret false.

Fixpoint publish_all (sts : list SupervisorState.t) : sup unit :=
  match sts with
  | [] => ret tt
  | st :: sts => publish st ;;; publish_all sts
  end.

(** The attempt while its worker runs. A run that has not finished when the
    health channel breaks counts as a closed session. *)
Definition run_worker (c : list session) (rtts : list Duration) (sc : script) : sup bool :=
  let! self := get_sup in
  match sv_listener self with
  | None => throw SupervisorError.NoListener
  | Some l =>
      set_listener None ;;;
      let built :=
        match sv_mode self with
        | SupervisorMode.Local remote => new_chain l c remote false
        | SupervisorMode.Dynamic => new_dynamic_chain l c false
        end in
      let! worker := lift (map_err SupervisorError.Worker built) in
      publish (SupervisorState.Healthy rtts None) ;;;
      let! w := get_world in
      let! outcome := on_world (fun w =>
        match run worker (sc_branches sc) w with
        | Some (Finished r, w') => (r, w')
        | Some (Continue _, w') => (Err LocalForwardError.SessionClosed, w')
        | None => (Err LocalForwardError.SessionClosed, w)
        end) in
      publish_all (health_state <$> observed (sc_seen sc) (run_health worker (sc_branches sc) w)) ;;;
      let! l' := on_world (release_listener worker) in
      set_listener (Some l') ;;;
      if sc_stopped sc then ret false
      else
        let reason :=
          match outcome with
          | Ok _ => "SSH worker stopped unexpectedly"
          | Err error => show_local_forward_error error
          end in
        let attempt :=
          if should_reset (sv_retries self) (sc_elapsed sc) then 1
          else saturating_add u32_max (sv_attempt self) 1 in
        set_attempt attempt ;;;
        after_failure attempt reason false (sc_wait sc)
  end.

(** One pass; [connect] builds a fresh chain. [false]: the loop breaks. *)
Definition iteration (connect : ST world SshChainError.t (list session)) (sc : script) : sup bool :=
  if sc_cancelled sc then ret false
  else
    let! self := get_sup in
    publish (SupervisorState.Connecting (sv_attempt self)) ;;;
    let! result := while_unhealthy (sc_connect_events sc) (sc_connect_end sc) connect in
    match result with
    | None => ret false
    | Some (Err error) =>
        retry_later (show_chain_error error)
          (bool_decide (chain_retryability error = Retryability.Blocked)) (sc_wait sc)
    | Some (Ok c) =>
        let! pinged := on_world (ping_all c INITIAL_PING_TIMEOUT) in
        match pinged with
        | Err error =>
            let! _ := on_world (fun w => (tt, disconnect c w)) in
            retry_later (show_chain_error error) false (sc_wait sc)
        | Ok rtts => run_worker c rtts sc
        end
    end.

(** The loop over the scripts of its passes: [Ok true] is "still running". *)
Fixpoint run_until_stopped (connect : ST world SshChainError.t (list session))
    (scs : list script) : sup bool :=
  match scs with
  | [] => ret true
  | sc :: scs =>
      let! again := iteration connect sc in
      if again then run_until_stopped connect scs else ret false
  end.

(** [run], once the loop has ended with [result]. *)
Definition finish (clock : nat -> SystemTime) (result : result unit SupervisorError.t)
    (self : Supervisor) : Prelude.result unit SupervisorError.t * Supervisor :=
  let '(stopped, l') :=
    match sv_listener self with
    | Some l => let '(r, l') := Runtime.stop clock l in (map_err SupervisorError.Shutdown r, Some l')
    | None => (Ok tt, None)
    end in
  (match result with Ok _ => stopped | Err e => Err e end,
   mkSupervisor l' (sv_mode self) (sv_retries self)
     (sv_states self ++ [SupervisorState.Stopped]) [] (sv_attempt self)).
End Supervisor.

(** ** Properties *)

Section SupervisorProps.
Context `{SshTransportLaws}.

(** What a connector promises: success adds its chain to the live sessions,
    failure leaves none of its sessions behind. *)
Definition connector_ok (connect : ST world SshChainError.t (list session)) : Prop :=
  forall w r w', connect w = (r, w') ->
    match r with Ok c => live w' = live w ++ c | Err _ => live w' = live w end.

Lemma chain_connector_ok hops remote approval :
  connector_ok (connect_with_approval hops remote approval).
Proof.
  intros w r w' Hc. apply chain_connect_cases in Hc. destruct r as [c|[]].
  - apply Hc.
  - by destruct Hc as [_ ->].
  - by destruct Hc as [_ ->].
  - apply Hc.
  - done.
Qed.

(** Everything but the waiting clients and the published states. *)
Definition same_owner (s s' : Supervisor) : Prop :=
  sv_listener s' = sv_listener s /\ sv_mode s' = sv_mode s /\ sv_retries s' = sv_retries s.

(** The supervisor owns a bound listener, bounds its waiting clients, and no
    session is open beyond [base]. *)
Record sup_inv (l : ListenerRuntime) (base : list session) (sw : Supervisor * world) : Prop := {
  si_listener : sv_listener sw.1 = Some l;
  si_clients : (length (sv_clients sw.1) <= MAX_UNHEALTHY_CLIENTS)%nat;
  si_live : live sw.2 = base
}.

Lemma require_listener_ok l base sw :
  socket l <> None -> sup_inv l base sw -> require_listener sw = (Ok tt, sw).
Proof.
  destruct sw as [s w]. intros Hl [Hs _ _]. cbn in Hs. unfold require_listener, bind, get_sup.
  rewrite Hs. by destruct (socket l).
Qed.

Lemma unhealthy_turn_ok l base e sw r sw' :
  sup_inv l base sw -> unhealthy_turn e sw = (r, sw') ->
  sup_inv l base sw' /\ same_owner sw.1 sw'.1 /\ sv_states sw'.1 = sv_states sw.1
  /\ sv_attempt sw'.1 = sv_attempt sw.1 /\ sw'.2 = sw.2
  /\ match r with Ok _ => True | Err err => exists io, err = SupervisorError.Accept io end.
Proof.
  destruct sw as [s w]. intros [Hl Hc Hw] Ht. cbn in *.
  unfold unhealthy_turn, bind, get_sup, set_clients, on_sup, reject_unhealthy in Ht.
  destruct e as [task|[task|io]].
  - simplify_eq/=. split_and!; try done. split; cbn; [done| |done].
    pose proof (length_filter (fun t => t <> task) (sv_clients s)). lia.
  - case_bool_decide; [|unfold ret in Ht; by simplify_eq].
    unfold bind, get_sup in Ht. destruct (sv_mode s) eqn:Em; unfold ret in Ht; simplify_eq/=.
    + by split_and!.
    + split_and!; try done. split; cbn; [done| |done]. rewrite length_app. cbn. lia.
  - case_bool_decide; unfold throw, ret in Ht; simplify_eq/=; split_and!; try done. by eexists.
Qed.

Lemma while_unhealthy_ok {T} l base events e (f : world -> T * world) sw r sw' :
  socket l <> None -> sup_inv l base sw -> while_unhealthy events e f sw = (r, sw') ->
  same_owner sw.1 sw'.1 /\ sv_states sw'.1 = sv_states sw.1 /\ sv_attempt sw'.1 = sv_attempt sw.1
  /\ (length (sv_clients sw'.1) <= MAX_UNHEALTHY_CLIENTS)%nat
  /\ match r with
     | Ok None => sw'.2 = sw.2
     | Ok (Some t) => f sw.2 = (t, sw'.2)
     | Err err => sw'.2 = sw.2 /\ exists io, err = SupervisorError.Accept io
     end.
Proof.
  intros Hl. revert sw. induction events as [|ev events IH]; intros sw Hi Hr; cbn in Hr;
    unfold bind in Hr; rewrite (require_listener_ok l base) in Hr by done.
  - pose proof Hi as [_ Hc _]. destruct e.
    + unfold ret in Hr. by simplify_eq.
    + destruct sw as [s w]. unfold on_world in Hr. destruct (f w) as [t w'] eqn:Ef.
      unfold ret in Hr. by simplify_eq/=.
  - destruct (unhealthy_turn ev sw) as [r1 sw1] eqn:Et.
    destruct (unhealthy_turn_ok l base ev sw r1 sw1 Hi Et) as (Hi1 & (Ho1 & Ho2 & Ho3) & Hs & Ha & Hw & Hres).
    destruct r1 as [[]|err].
    + destruct (IH sw1 Hi1 Hr) as ((Ho1' & Ho2' & Ho3') & Hs' & Ha' & Hc' & Hr').
      split_and!; try congruence; try done.
      * unfold same_owner. split_and!; congruence.
      * destruct r as [[t|]|err]; rewrite ?Hw in Hr'; done.
    + simplify_eq. split_and!; try done. by destruct Hi1.
Qed.

(** The state published when an attempt failed. *)
Definition failure_state (s : Supervisor) (attempt : Z) (reason : string) (blocked : bool)
    (jitter : Z) : SupervisorState.t :=
  if blocked then SupervisorState.Blocked (take_chars 512 reason)
  else SupervisorState.Reconnecting attempt (delay (sv_retries s) attempt jitter)
         (take_chars 512 reason).

Lemma after_failure_ok l base attempt reason blocked ws sw r sw' :
  socket l <> None -> sup_inv l base sw -> after_failure attempt reason blocked ws sw = (r, sw') ->
  sup_inv l base sw' /\ same_owner sw.1 sw'.1 /\ sv_attempt sw'.1 = sv_attempt sw.1
  /\ sv_states sw'.1
     = sv_states sw.1 ++ [failure_state sw.1 attempt reason blocked (ws_jitter ws)]
  /\ match r with Ok _ => True | Err err => exists io, err = SupervisorError.Accept io end.
Proof.
  destruct sw as [s w]. intros Hl Hi Hr. unfold after_failure, bind, get_sup in Hr.
  set (st := failure_state s attempt reason blocked (ws_jitter ws)).
  set (s1 := mkSupervisor (sv_listener s) (sv_mode s) (sv_retries s) (sv_states s ++ [st])
               (sv_clients s) (sv_attempt s)).
  assert (Hi1 : sup_inv l base (s1, w)) by (by destruct Hi).
  assert (Hx : exists woken sw1,
    while_unhealthy (ws_events ws) (awaited blocked (ws_wakes ws)) (fun w => (tt, w)) (s1, w) = (woken, sw1)
    /\ sw' = sw1 /\ match r, woken with
                    | Ok _, Ok _ => True | Err e, Err e' => e = e' | _, _ => False end).
  { unfold publish, on_sup in Hr.
    destruct blocked; cbn beta iota in Hr; cbn [sv_listener sv_mode sv_retries sv_states sv_clients sv_attempt] in Hr;
      change (mkSupervisor _ _ _ _ _ _) with s1 in Hr;
      (destruct (while_unhealthy (ws_events ws) (awaited _ (ws_wakes ws)) (fun w => (tt, w)) (s1, w))
         as [[x|e] sw1]; unfold ret in Hr; simplify_eq; by do 2 eexists). }
  destruct Hx as (woken & sw1 & Hw & -> & Hrel).
  destruct (while_unhealthy_ok l base _ _ _ _ _ _ Hl Hi1 Hw) as (Ho & Hs & Ha & Hc & Hres).
  split_and!.
  - destruct Ho as (Hol & _ & _). destruct Hi as [Hil _ Hiw]. split; cbn in *; [congruence|done|].
    destruct woken as [[[]|]|err]; [by injection Hres as ->| |destruct Hres as [? _]]; congruence.
  - exact Ho.
  - exact Ha.
  - rewrite Hs. done.
  - destruct r, woken; try done. subst. by destruct Hres.
Qed.

(** What every step of the loop keeps. *)
Definition kept {A} (l : ListenerRuntime) (base : list session) (sw sw' : Supervisor * world)
    (r : result A SupervisorError.t) : Prop :=
  sup_inv l base sw' /\ same_owner sw.1 sw'.1
  /\ match r with Ok _ => True | Err err => exists io, err = SupervisorError.Accept io end.

Lemma same_owner_trans s1 s2 s3 : same_owner s1 s2 -> same_owner s2 s3 -> same_owner s1 s3.
Proof. unfold same_owner. intros (? & ? & ?) (? & ? & ?). split_and!; congruence. Qed.

Lemma retry_later_ok l base reason blocked ws sw r sw' :
  socket l <> None -> sup_inv l base sw -> retry_later reason blocked ws sw = (r, sw') ->
  kept l base sw sw' r
  /\ sv_states sw'.1
     = sv_states sw.1
       ++ [failure_state sw.1 (sv_attempt sw.1) reason blocked (ws_jitter ws)]
  /\ (r = Ok true -> sv_attempt sw'.1 = saturating_add u32_max (sv_attempt sw.1) 1).
Proof.
  intros Hl Hi Hr. destruct sw as [s w]. unfold retry_later, bind at 1, get_sup in Hr.
  unfold bind at 1 in Hr.
  destruct (after_failure (sv_attempt s) reason blocked ws (s, w)) as [[again|e] sw1] eqn:Ea;
    destruct (after_failure_ok _ _ _ _ _ _ _ _ _ Hl Hi Ea) as (Hi1 & Ho & Hat & Hs & Hres).
  - destruct again; unfold ret, set_attempt, on_sup, bind in Hr.
    + destruct sw1 as [s1 w1]. simplify_eq/=. split; [|done].
      split; [by destruct Hi1|]. by split.
    + simplify_eq. by split_and!.
  - simplify_eq. by split_and!.
Qed.

Lemma publish_all_ok sts sw :
  publish_all sts sw
  = (Ok tt, (mkSupervisor (sv_listener sw.1) (sv_mode sw.1) (sv_retries sw.1)
               (sv_states sw.1 ++ sts) (sv_clients sw.1) (sv_attempt sw.1), sw.2)).
Proof.
  revert sw. induction sts as [|st sts IH]; intros [s w]; cbn.
  - rewrite app_nil_r. by destruct s.
  - unfold bind, publish, on_sup. rewrite IH. cbn. by rewrite <-app_assoc.
Qed.

Lemma build_bound l c m : socket l <> None ->
  build l c m false = Ok (mkLocalForwardWorker l (Some c) m false false [] None).
Proof. unfold build. by destruct (socket l). Qed.

Lemma run_live l c m bs w t w' :
  run (mkLocalForwardWorker l (Some c) m false false [] None) bs w = Some (t, w') ->
  live w' = live w.
Proof.
  unfold run. cbn. destruct (socket l); [|intros; by simplify_eq].
  intros Hr. by apply (run_loop_ok c bs loop_start w t w' [] loop_start_inv eq_refl).
Qed.

Lemma run_worker_ok l base c rtts sc s w r sw' :
  socket l <> None -> sv_listener s = Some l ->
  (length (sv_clients s) <= MAX_UNHEALTHY_CLIENTS)%nat -> live w = base ++ c ->
  run_worker c rtts sc (s, w) = (r, sw') ->
  kept l base (s, w) sw' r.
Proof.
  intros Hl Hs Hc Hw Hr. unfold run_worker, bind at 1, get_sup in Hr. rewrite Hs in Hr.
  unfold bind at 1, set_listener at 1, on_sup in Hr.
  assert (Hb : exists m, match sv_mode s with
    | SupervisorMode.Local remote => new_chain l c remote false
    | SupervisorMode.Dynamic => new_dynamic_chain l c false
    end = Ok (mkLocalForwardWorker l (Some c) m false false [] None)).
  { destruct (sv_mode s); eexists; by apply build_bound. }
  destruct Hb as [m Hb]. rewrite Hb in Hr. cbn [map_err] in Hr.
  unfold bind at 1, lift in Hr. unfold bind at 1, publish, on_sup in Hr.
  unfold bind at 1, get_world in Hr. unfold bind at 1, on_world at 1 in Hr.
  set (worker := mkLocalForwardWorker l (Some c) m false false [] None) in *.
  set (outcome := match run worker (sc_branches sc) w with
    | Some (Finished r, w') => (r, w')
    | Some (Continue _, w') => (Err LocalForwardError.SessionClosed, w')
    | None => (Err LocalForwardError.SessionClosed, w)
    end) in Hr.
  assert (Hlive : live outcome.2 = base ++ c).
  { subst outcome. destruct (run worker (sc_branches sc) w) as [[[l'|r'] w']|] eqn:Er; cbn; [..|done];
      apply run_live in Er; congruence. }
  destruct outcome as [out w1]. cbn in Hlive. unfold bind at 1 in Hr. rewrite publish_all_ok in Hr.
  cbn in Hr. unfold bind, on_world, set_listener, on_sup in Hr. cbn in Hr. pose proof (disconnect_all_live c base w1 Hlive) as Hd.
  destruct (sc_stopped sc).
  { unfold ret in Hr. simplify_eq. split; [by split|]. by split. }
  unfold set_attempt, on_sup in Hr.
  match type of Hr with after_failure ?a ?reason _ _ ?sw = _ =>
    assert (Hi2 : sup_inv l base sw) by (by split);
    destruct (after_failure_ok l base a reason false (sc_wait sc) sw r sw' Hl Hi2 Hr)
      as (Hi3 & Ho & _ & _ & Hres) end.
  split; [done|]. split; [|done]. eapply same_owner_trans; [|exact Ho]. by split.
Qed.

Lemma iteration_ok connect l base sc sw r sw' :
  connector_ok connect -> socket l <> None -> sup_inv l base sw ->
  iteration connect sc sw = (r, sw') -> kept l base sw sw' r.
Proof.
  intros Hcon Hl Hi Hr. unfold iteration in Hr.
  destruct (sc_cancelled sc); [unfold ret in Hr; by simplify_eq|].
  destruct sw as [s w]. unfold bind at 1, get_sup in Hr. unfold bind at 1, publish, on_sup in Hr.
  set (s1 := mkSupervisor _ _ _ _ _ _) in Hr.
  assert (Hi1 : sup_inv l base (s1, w)) by (by destruct Hi).
  unfold bind at 1 in Hr.
  destruct (while_unhealthy _ _ connect (s1, w)) as [[o|e] sw2] eqn:Ew;
    destruct (while_unhealthy_ok l base _ _ _ _ _ _ Hl Hi1 Ew) as (Ho & _ & _ & Hc2 & Hres);
    assert (Ho' : same_owner s sw2.1) by exact Ho; destruct Hi1 as [Hil _ Hiw]; subst s1; cbn in *.
  2:{ simplify_eq. destruct Hres as [Hw2 He]. split; [|by split].
      destruct Ho' as [Hol _]. split; [congruence|done|congruence]. }
  destruct sw2 as [s2 w2]. cbn in *. pose proof Ho' as [Hol _].
  destruct o as [[c|error]|].
  - apply Hcon in Hres. unfold bind at 1, on_world in Hr.
    destruct (ping_all c INITIAL_PING_TIMEOUT w2) as [pinged w3] eqn:Ep.
    apply ping_all_live in Ep. cbn in Hr.
    assert (Hw3 : live w3 = base ++ c) by congruence. destruct pinged as [rtts|error].
    + apply (run_worker_ok l base) in Hr as (? & ? & ?); [|done|congruence|done|done].
      split; [done|]. split; [by eapply same_owner_trans|done].
    + change (retry_later (show_chain_error error) false (sc_wait sc) (s2, disconnect c w3)
              = (r, sw')) in Hr.
      apply (retry_later_ok l base) in Hr as [(? & ? & ?) _];
        [|done|split; cbn; [congruence|done|by apply (disconnect_all_live c)]].
      split; [done|]. split; [by eapply same_owner_trans|done].
  - apply Hcon in Hres. apply (retry_later_ok l base) in Hr as [(? & ? & ?) _];
      [|done|split; cbn; [congruence|done|congruence]].
    split; [done|]. split; [by eapply same_owner_trans|done].
  - unfold ret in Hr. simplify_eq. split; [|by split]. split; cbn; [congruence|done|done].
Qed.

Lemma run_until_stopped_ok connect l base scs sw r sw' :
  connector_ok connect -> socket l <> None -> sup_inv l base sw ->
  run_until_stopped connect scs sw = (r, sw') -> kept l base sw sw' r.
Proof.
  intros Hcon Hl. revert sw. induction scs as [|sc scs IH]; intros sw Hi Hr; cbn in Hr.
  { unfold ret in Hr. simplify_eq. by split; [|split]. }
  unfold bind in Hr. destruct (iteration connect sc sw) as [[again|e] sw1] eqn:Ei;
    destruct (iteration_ok connect l base sc sw _ sw1 Hcon Hl Hi Ei) as (Hi1 & Ho1 & Hr1).
  - destruct again; [|unfold ret in Hr; by simplify_eq].
    destruct (IH sw1 Hi1 Hr) as (? & ? & ?). split; [done|]. split; [by eapply same_owner_trans|done].
  - by simplify_eq.
Qed.
End SupervisorProps.

Section SupervisorClaims.
Context `{SshTransportLaws}.

Lemma new_inv l mode retry self w :
  new l mode retry = Ok self -> socket l <> None /\ sup_inv l (live w) (self, w).
Proof.
  unfold new. destruct (socket l) eqn:El; [|done]. intros [= <-]. split; [by rewrite ?El|].
  split; cbn; [done|lia|done].
Qed.

(** C14: The supervisor keeps its port through every reconnect and leaks
    nothing. For any connector that cleans up after itself (as the chain
    builder does), any number of passes and any behaviour of clients, network
    and token: while the loop runs the supervisor owns the same bound listener,
    at most 64 clients wait for a refusal, and between passes no SSH session
    is open; the loop fails only when accepting on the listener fails; and
    when it ends, the port is released, the waiting clients are gone and the
    last state published is Stopped. *)
Theorem supervisor_keeps_port l mode retry self connect scs w r s' w' clock :
  new l mode retry = Ok self -> connector_ok connect ->
  run_until_stopped connect scs (self, w) = (r, (s', w')) ->
  sv_listener s' = Some l
  /\ (length (sv_clients s') <= MAX_UNHEALTHY_CLIENTS)%nat
  /\ live w' = live w
  /\ (forall err, r = Err err -> exists io, err = SupervisorError.Accept io)
  /\ (rt_reachable l -> generation (lifecycle l) < u64_max -> forall ended,
      exists l' s'', finish clock ended s' = (ended, s'')
        /\ sv_listener s'' = Some l' /\ socket l' = None
        /\ runtime (lifecycle l') = RuntimeState.Stopped
        /\ sv_clients s'' = [] /\ last (sv_states s'') = Some SupervisorState.Stopped).
Proof.
  intros Hn Hcon Hr. destruct (new_inv l mode retry self w Hn) as [Hl Hi].
  destruct (run_until_stopped_ok connect l (live w) scs _ _ _ Hcon Hl Hi Hr)
    as ([Hl' Hc' Hw'] & _ & Hres).
  split_and!; try done.
  - intros err ->. done.
  - intros Hreach Hg ended. destruct (stop_releases_port l clock Hreach Hg) as (l' & Hstop & ? & ? & _).
    cbn in Hl'. unfold finish. rewrite Hl', Hstop.
    destruct ended as [[]|e0]; do 2 eexists; (split; [reflexivity|]);
      split_and!; try done; apply last_snoc.
Qed.

(** Backoff of failed attempts. When the connector fails with [error], the
    supervisor publishes that it is connecting and then either that it is
    blocked (exactly when the error needs the user: then only a retry request
    or the end wakes it, never a timer) or that it reconnects after the
    schedule's delay for this attempt, with a reason of at most 512 characters;
    if it goes on, the attempt number is one higher (saturating). *)
Theorem failed_attempt_spec connect l base sc s w r s' w' error w1 :
  connector_ok connect -> socket l <> None -> sup_inv l base (s, w) ->
  sc_cancelled sc = false -> connect w = (Err error, w1) -> sc_connect_events sc = [] ->
  sc_connect_end sc = FutureReady ->
  iteration connect sc (s, w) = (r, (s', w')) ->
  let n := sv_attempt s in
  let blocked := bool_decide (chain_retryability error = Retryability.Blocked) in
  sv_states s' = sv_states s
    ++ [SupervisorState.Connecting n;
        failure_state s n (show_chain_error error) blocked (ws_jitter (sc_wait sc))]
  /\ (r = Ok true -> sv_attempt s' = saturating_add u32_max n 1)
  /\ (char_count (take_chars 512 (show_chain_error error)) <= 512)%nat
  /\ live w' = live w.
Proof.
  intros Hcon Hl Hi Hcan Hc Hev Hend Hr n blocked.
  destruct (iteration_ok connect l base sc (s, w) r _ Hcon Hl Hi Hr) as ([_ _ Hw'] & _ & _).
  unfold iteration in Hr. rewrite Hcan, Hev, Hend in Hr.
  unfold bind at 1, get_sup in Hr. unfold bind at 1, publish, on_sup in Hr.
  set (s1 := mkSupervisor _ _ _ _ _ _) in Hr.
  assert (Hi1 : sup_inv l base (s1, w)) by (by destruct Hi).
  assert (Hwh : while_unhealthy [] FutureReady connect (s1, w) = (Ok (Some (Err error)), (s1, w1))).
  { cbn [while_unhealthy]. unfold bind at 1. rewrite (require_listener_ok l base) by done.
    unfold bind, on_world. by rewrite Hc. }
  unfold bind at 1 in Hr. rewrite Hwh in Hr. cbv beta iota in Hr.
  assert (Hi2 : sup_inv l base (s1, w1)).
  { destruct Hi1 as [? ? Hw1]. split; [done|done|]. apply Hcon in Hc. cbn in *. congruence. }
  destruct (retry_later_ok l base _ _ _ _ _ _ Hl Hi2 Hr) as (_ & Hs & Ha).
  split_and!.
  - cbn in Hs. rewrite Hs. by rewrite <-app_assoc.
  - exact Ha.
  - apply take_chars_count.
  - destruct Hi as [_ _ Hw]. cbn in *. congruence.
Qed.
End SupervisorClaims.

(** ** Witnesses *)

Definition toy_supervisor : Supervisor :=
  mkSupervisor (Some bound_runtime) SupervisorMode.Dynamic (Retry.new RetryPolicy_default)
    [SupervisorState.Connecting 1] [] 1.

(** A pass in which the chain cannot be built and the user stops the tunnel
    while it waits; two clients arrive meanwhile. *)
Definition toy_script : script :=
  mkScript false [] FutureReady [] [] false 0
    (mkWaitScript 0 [ClientAccepted (Ok 1%nat); ClientAccepted (Ok 2%nat)] (mkWakes false false)).

Definition no_chain : ST ClientWorld SshChainError.t (list ClientSession) :=
  connect_with_approval (H0 := toy_transport false) [] None None.

Lemma no_chain_ok : connector_ok (H1 := toy_transport_laws false) no_chain.
Proof. apply (chain_connector_ok (H1 := toy_transport_laws false)). Qed.

Theorem supervisor_keeps_port_witness :
  exists s', run_until_stopped (H0 := toy_transport false) no_chain [toy_script]
      (toy_supervisor, empty_world) = (Ok false, (s', empty_world))
    /\ sv_listener s' = Some bound_runtime /\ sv_clients s' = [1; 2]%nat
    /\ exists l' s'', finish (H := Toy.russh) (fun _ => 0) (Ok tt) s' = (Ok tt, s'')
        /\ sv_listener s'' = Some l' /\ socket l' = None
        /\ last (sv_states s'') = Some SupervisorState.Stopped.
Proof.
  destruct (run_until_stopped (H0 := toy_transport false) no_chain [toy_script]
    (toy_supervisor, empty_world)) as [r [s' w']] eqn:E.
  destruct (supervisor_keeps_port (H1 := toy_transport_laws false) bound_runtime
    SupervisorMode.Dynamic RetryPolicy_default toy_supervisor no_chain [toy_script] empty_world
    r s' w' (fun _ => 0) eq_refl no_chain_ok E) as (Hl & _ & _ & _ & Hfin).
  destruct (Hfin bound_runtime_reachable ltac:(vm_compute; reflexivity) (Ok tt))
    as (l' & s'' & ? & ? & ? & _ & _ & ?).
  exists s'. assert (Hrw : r = Ok false /\ w' = empty_world /\ sv_clients s' = [1; 2]%nat).
  { injection E as <- <- <-. done. }
  destruct Hrw as (-> & -> & ?). split_and!; try done. by exists l', s''.
Defined.

Theorem failed_attempt_spec_witness :
  exists s', iteration (H0 := toy_transport false) no_chain toy_script (toy_supervisor, empty_world)
      = (Ok false, (s', empty_world))
    /\ sv_states s' = [SupervisorState.Connecting 1; SupervisorState.Connecting 1;
                       SupervisorState.Blocked "jump chain is empty"].
Proof.
  destruct (iteration (H0 := toy_transport false) no_chain toy_script (toy_supervisor, empty_world))
    as [r [s' w']] eqn:E.
  pose proof (failed_attempt_spec (H1 := toy_transport_laws false) no_chain bound_runtime []
    toy_script toy_supervisor empty_world r s' w' SshChainError.Empty empty_world no_chain_ok
    ltac:(discriminate) ltac:(split; [reflexivity|cbn; lia|reflexivity]) eq_refl eq_refl eq_refl
    eq_refl E) as [Hs _].
  exists s'. split; [|exact Hs]. injection E as <- <- <-. reflexivity.
Defined.
