(* ===== verification/Clients.v ===== *)
(** * Clients: what the clients of a tunnel read on their sockets.

    [handle_connection] of crates/tunnel-core/src/local_forward.rs and the task
    of [reject_unhealthy] of supervisor.rs once more, now on the byte streams of
    Io: the handshake is [Socks5.read_connect] on what the client sent, and a
    future that a token or a timeout interrupts leaves its bytes behind. The
    trace is that of LocalForward ([serve_trace]), the answer that of Supervisor
    ([refuse_answer]). *)
From S2P Require Import Prelude Io Text Net Domain StateMachine Runtime Socks5 Russh HostKey SshClient Chain LocalForward Retry Supervisor.

(** ** Futures that are dropped *)

(** When the future is dropped it has seen [seen] more bytes of the client, and
    the socket has taken [room] more of its own. *)
Record cut := mkCut { seen : nat; room : nat }.

(** Until then it does what it would do on the bytes and the room there were. *)
Definition until {E A} (c : cut) (m : ST Stream E A) (s : Stream) : Stream :=
  let free := match tx_fault s with Some (n, _) => (room c `min` n)%nat | None => room c end in
  let s' := (m (mkStream (take (seen c) (rx s)) early_eof (tx s) (Some (free, write_zero)))).2 in
  mkStream (rx s' ++ drop (seen c) (rx s)) (rx_end s) (tx s')
    ((fun '(n, e) => ((n - (length (tx s') - length (tx s)))%nat, e)) <$> tx_fault s).

(** A future under a token and a timeout: it completes, or one of them fires. *)
Inductive race := Runs | Fires (c : cut) | Expires (c : cut).

Definition raced_timeout {E A} (r : race) (m : ST Stream E A) (s : Stream)
    : raced (timed (result A E)) * Stream :=
  match r with
  | Runs => let '(a, s') := m s in (Completed (InTime a), s')
  | Fires c => (Io.Cancelled, until c m s)
  | Expires c => (Completed Elapsed, until c m s)
  end.

(** Under one of them only. *)
Definition raced_token {E A} (r : option cut) (m : ST Stream E A) (s : Stream)
    : raced (result A E) * Stream :=
  match r with
  | None => let '(a, s') := m s in (Completed a, s')
  | Some c => (Io.Cancelled, until c m s)
  end.

(** ** The task of a connection *)

Section Serve.
Context `{Russh} {Chan : Type}.

(** [handshake] and [answer]: how the two exchanges with the client end; the
    stream returned is the one the relay gets, or the last one. *)
Definition serve (mode : ForwardMode.t) (handshake : race)
    (opened : string * Z -> result Chan SshConnectError.t) (token : bool) (answer : option cut)
    (relay : Chan -> Stream -> result unit IoError) (s : Stream)
    : connection_trace (Chan := Chan) * Stream :=
  let go (destination : string * Z) (s : Stream) :=
    match opened destination with
    | Err error =>
        match mode with
        | ForwardMode.Dynamic =>
            if token then (mkTrace (Some destination) [] None (Ok tt), s)
            else (mkTrace (Some destination) [map_socks_failure error] None (Ok tt),
                  (raced_token answer (reply (map_socks_failure error)) s).2)
        | ForwardMode.Fixed _ => (mkTrace (Some destination) [] None (Ok tt), s)
        end
    | Ok channel =>
        match mode with
        | ForwardMode.Fixed _ => (mkTrace (Some destination) [] (Some channel) (relay channel s), s)
        | ForwardMode.Dynamic =>
            match raced_token answer (reply SocksReply.Succeeded) s with
            | (Io.Cancelled, s') => (mkTrace (Some destination) [] None (Ok tt), s')
            | (Completed (Err e), s') =>
                (mkTrace (Some destination) [SocksReply.Succeeded] None
                   (Err (io_other (show_socks_error e))), s')
            | (Completed (Ok _), s') =>
                (mkTrace (Some destination) [SocksReply.Succeeded] (Some channel) (relay channel s'), s')
            end
        end
    end in
  match mode with
  | ForwardMode.Fixed destination => go (remote_host destination, remote_port destination) s
  | ForwardMode.Dynamic =>
      match raced_timeout handshake read_connect s with
      | (Completed (InTime (Ok request)), s1) =>
          go (Destination.host (destination request), Destination.port (destination request)) s1
      | (_, s1) => (mkTrace None [] None (Ok tt), s1)
      end
  end.

(** [reject_unhealthy]: the task of a Dynamic client; a Local one is dropped. *)
Definition refuse_client (mode : SupervisorMode.t) (handshake : race) (answer : option cut)
    (s : Stream) : Stream :=
  match mode with
  | SupervisorMode.Dynamic =>
      match raced_timeout handshake read_connect s with
      | (Completed (InTime (Ok _)), s1) => (raced_token answer (reply SocksReply.HostUnreachable) s1).2
      | (_, s1) => s1
      end
  | SupervisorMode.Local _ => s
  end.

(** ** They are the tasks of the worker and of the supervisor *)

Lemma serve_trace mode handshake opened token answer relay s :
  let '(parsed, s1) := raced_timeout handshake read_connect s in
  let s1 := match mode with ForwardMode.Dynamic => s1 | ForwardMode.Fixed _ => s end in
  let '(greeted, s2) := raced_token answer (reply SocksReply.Succeeded) s1 in
  (serve mode handshake opened token answer relay s).1
  = handle_connection mode parsed opened token greeted
      (fun ch => relay ch match mode with ForwardMode.Dynamic => s2 | ForwardMode.Fixed _ => s end).
Proof.
  unfold serve, handle_connection. destruct (raced_timeout _ _ s) as [parsed s1].
  destruct mode as [dst|]; cbv zeta.
  - destruct (raced_token _ _ s). by destruct (opened _).
  - destruct parsed as [|[[req|err]|]]; destruct (raced_token _ _ s1) as [greeted s2] eqn:Eg; try done.
    destruct (opened _) as [ch|err]; [|by destruct token]. by destruct greeted as [|[]].
Qed.

Lemma refuse_answer handshake answer s :
  let '(parsed, s1) := raced_timeout handshake read_connect s in
  refuse_client SupervisorMode.Dynamic handshake answer s
  = match unhealthy_client parsed with
    | Some r => (raced_token answer (reply r) s1).2
    | None => s1
    end.
Proof.
  unfold refuse_client. by destruct (raced_timeout _ _ s) as [[|[[]|]] s1].
Qed.
End Serve.

(** ** What they write *)

(** The bytes of a client that is refused, or told nothing yet. *)
Definition refusing (w : list Z) : Prop :=
  w `prefix_of` [VERSION; 0xff]
  \/ exists r, r <> SocksReply.Succeeded /\ w `prefix_of` [VERSION; NO_AUTH] ++ reply_frame r.

(** The answer has come as far as the code for success. *)
Definition success_begun (w : list Z) : Prop :=
  [VERSION; NO_AUTH] ++ take 2 (reply_frame SocksReply.Succeeded) `prefix_of` w.

Lemma refusing_prefix w w' : w `prefix_of` w' -> refusing w' -> refusing w.
Proof. intros Hw [H|(r & Hr & H)]; [left|right; exists r; split; [done|]]; by etrans. Qed.

Lemma refusing_nothing : refusing [].
Proof. left. apply prefix_nil. Qed.

Lemma refusing_selection : refusing [VERSION; NO_AUTH].
Proof. right. exists SocksReply.GeneralFailure. split; [done|]. by apply prefix_app_r. Qed.

Lemma refusing_answer r w : r <> SocksReply.Succeeded -> w `prefix_of` reply_frame r ->
  refusing ([VERSION; NO_AUTH] ++ w).
Proof. intros Hr Hw. right. exists r. split; [done|]. by apply prefix_app. Qed.

Lemma refused_code r : SocksReply.code r = SocksReply.code SocksReply.Succeeded -> r = SocksReply.Succeeded.
Proof. by destruct r. Qed.

Lemma refusing_no_success w : refusing w -> ~ success_begun w.
Proof.
  unfold success_begun. intros Hw [k ->]. destruct Hw as [H|(r & Hr & H)].
  - apply prefix_length in H. cbn in H. lia.
  - apply Hr, refused_code. destruct H as [k' H]. cbn in H. by injection H.
Qed.

(** The start of the answer of success, before its code, tells nothing. *)
Lemma not_begun w :
  w `prefix_of` [VERSION; NO_AUTH] ++ reply_frame SocksReply.Succeeded -> ~ success_begun w -> refusing w.
Proof.
  intros Hp Hn. apply (refusing_prefix _ ([VERSION; NO_AUTH] ++ [VERSION])).
  - destruct Hp as [k Hk]. unfold success_begun in Hn. destruct w as [|b1 [|b2 [|b3 [|b4 w]]]]; cbn in Hk.
    + apply prefix_nil.
    + injection Hk as <- _. eexists. reflexivity.
    + injection Hk as <- <- _. eexists. reflexivity.
    + injection Hk as <- <- <- _. eexists. reflexivity.
    + injection Hk as <- <- <- <- _. destruct Hn. eexists. reflexivity.
  - apply (refusing_answer SocksReply.GeneralFailure); [done|]. eexists. reflexivity.
Qed.

Lemma answer_refuses e w : answer e w -> refusing w.
Proof.
  induction 1 as [| |r what Hin|e e' w w' Ha IH Hp].
  - apply refusing_nothing.
  - by left.
  - apply (refusing_answer r); [|done]. unfold refusals in Hin. set_solver.
  - by eapply refusing_prefix.
Qed.

Lemma read_connect_tx s req s' :
  read_connect s = (Ok req, s') -> tx s' = tx s ++ [VERSION; NO_AUTH].
Proof.
  unfold read_connect. intros Hr. apply bind_ok in Hr as ([] & s1 & Hg & Hr).
  apply read_greeting_tx in Hg. apply bind_ok in Hr as (header & s2 & Hh & Hr).
  apply with_err_ok, read_exact_ok in Hh as (_ & _ & _ & Hh). rewrite <-Hg, <-Hh.
  repeat (split_match; [exfalso; by eapply refuse_err|]). apply bind_ok in Hr as (d & s3 & Hd & Hr).
  apply read_destination_tx in Hd. rewrite <-Hd. split_match; [exfalso; by eapply refuse_err|].
  by injection Hr as _ ->.
Qed.

(** The bytes added to the stream. *)
Definition wrote (s s' : Stream) (w : list Z) : Prop := tx s' = tx s ++ w.

Lemma wrote_nothing s : wrote s s [].
Proof. unfold wrote. by rewrite app_nil_r. Qed.
Lemma wrote_trans s1 s2 s3 w1 w2 : wrote s1 s2 w1 -> wrote s2 s3 w2 -> wrote s1 s3 (w1 ++ w2).
Proof. unfold wrote. intros H1 H2. by rewrite H2, H1, app_assoc. Qed.
#[local] Hint Resolve wrote_nothing wrote_trans refusing_nothing refusing_selection : rust.

Lemma read_connect_writes s a s' : read_connect s = (a, s') -> exists w, wrote s s' w /\ refusing w.
Proof.
  destruct a as [req|e]; intros Hr.
  - apply read_connect_tx in Hr. eauto with rust.
  - apply read_connect_refusals in Hr as (w & Hw & Ha). eauto using answer_refuses.
Qed.

Lemma until_read_connect c s : exists w, wrote s (until c read_connect s) w /\ refusing w.
Proof.
  unfold until. cbv zeta. destruct (read_connect _) as [a s'] eqn:Er. cbn.
  by apply read_connect_writes in Er.
Qed.

Lemma handshake_writes r s p s1 :
  raced_timeout r read_connect s = (p, s1) ->
  exists w, wrote s s1 w /\ refusing w
    /\ forall req, p = Completed (InTime (Ok req)) ->
         w = [VERSION; NO_AUTH] /\ read_connect s = (Ok req, s1).
Proof.
  destruct r as [|c|c]; cbn; [|intros [= <- <-]; destruct (until_read_connect c s) as (w & ? & ?);
    by exists w..].
  destruct (read_connect s) as [a s'] eqn:Er. intros [= <- <-].
  destruct a as [req|e].
  - pose proof (read_connect_tx _ _ _ Er). exists [VERSION; NO_AUTH].
    split; [done|]. split; [apply refusing_selection|]. by intros req' [= <-].
  - destruct (read_connect_writes _ _ _ Er) as (w & ? & ?). by exists w.
Qed.

Lemma reply_writes r s a s' : reply r s = (a, s') ->
  exists w, wrote s s' w /\ w `prefix_of` reply_frame r /\ rx s' = rx s
    /\ (forall u, a = Ok u -> w = reply_frame r) /\ (tx_fault s = None -> w = reply_frame r).
Proof.
  unfold reply, with_err. destruct (write_all _ s) as [[u|e] s0] eqn:Ew; intros [= <- <-].
  - apply write_all_ok in Ew as (? & _ & ?). by exists (reply_frame r).
  - pose proof Ew as (n & _ & ? & ?)%write_all_err. exists (take n (reply_frame r)).
    split; [done|]. split; [apply prefix_take|]. split_and!; try done.
    intros Hf. unfold write_all in Ew. by rewrite Hf in Ew.
Qed.

Lemma answer_writes o r s p s' : raced_token o (reply r) s = (p, s') ->
  exists w, wrote s s' w /\ w `prefix_of` reply_frame r /\ rx s' = rx s
    /\ (forall u, p = Completed (Ok u) -> w = reply_frame r)
    /\ (o = None -> tx_fault s = None -> w = reply_frame r).
Proof.
  destruct o as [c|]; cbn.
  - intros [= <- <-]. unfold until. cbv zeta. destruct (reply r _) as [a s0] eqn:Er. cbn.
    apply reply_writes in Er as (w & Hw & Hp & Hrx & _). exists w. split; [done|].
    cbn [rx] in *. rewrite Hrx. by rewrite take_drop.
  - destruct (reply r s) as [a s0] eqn:Er. intros [= <- <-].
    apply reply_writes in Er as (w & Hw & Hp & Hrx & Ha & Hf). exists w.
    split_and!; try done.
    intros u [= ->]. by eapply Ha.
Qed.

(** ** What a client is told *)

(** The client sent a request for [d], and then [rest]. *)
Definition asks (s : Stream) (d : Destination.t) (rest : list Z) : Prop :=
  exists methods, offers_no_auth methods /\ valid_destination d /\ rx s = encode methods d ++ rest.

Definition where_to (d : Destination.t) : string * Z := (Destination.host d, Destination.port d).

Lemma accepted_asks s req s' :
  Forall u8 (rx s) -> read_connect s = (Ok req, s') -> asks s (destination req) (rx s').
Proof.
  intros Hb Hr. destruct (read_connect_accepts _ _ _ Hb Hr) as (methods & ? & ? & ? & _). by exists methods.
Qed.

Lemma asks_accepted s d rest :
  asks s d rest -> tx_fault s = None ->
  exists s', read_connect s = (Ok (mkSocksConnectRequest d), s') /\ rx s' = rest /\ tx_fault s' = None.
Proof.
  intros (methods & Hm & Hd & Hrx) Hf. destruct s as [r e out f]. cbn in Hrx, Hf. subst.
  exists (mkStream rest e (out ++ [VERSION; NO_AUTH]) None). by rewrite <-(read_connect_encode methods d).
Qed.

Section Told.
Context `{Russh} {Chan : Type}.
Context (opened : string * Z -> result Chan SshConnectError.t) (relay : Chan -> Stream -> result unit IoError).
Context (handshake : race) (token : bool) (answer : option cut) (s : Stream).
Hypothesis octets : Forall u8 (rx s).
Notation served := (serve ForwardMode.Dynamic handshake opened token answer relay s).

(** A Dynamic client is told success only for the channel it asked for. *)
Lemma dynamic_told t s' : served = (t, s') ->
  exists w, wrote s s' w
    /\ (refusing w \/ w `prefix_of` [VERSION; NO_AUTH] ++ reply_frame SocksReply.Succeeded
                      /\ exists d ch, asks s d (rx s') /\ opened (where_to d) = Ok ch)
    /\ forall ch, ct_relayed t = Some ch ->
         w = [VERSION; NO_AUTH] ++ reply_frame SocksReply.Succeeded /\ ct_result t = relay ch s'
         /\ exists d, asks s d (rx s') /\ opened (where_to d) = Ok ch.
Proof.
  unfold serve. cbv zeta. destruct (raced_timeout _ _ s) as [p s1] eqn:Ep. intros Hs.
  destruct (handshake_writes _ _ _ _ Ep) as (w1 & Hw1 & Hr1 & Hok).
  destruct p as [|[[req|err]|]];
    try (injection Hs as <- <-; exists w1; split; [done|]; split; [by left|done]).
  destruct (Hok req eq_refl) as [-> Hread]. clear Hok. apply accepted_asks in Hread; [|done].
  fold (where_to (destination req)) in Hs. destruct (opened (where_to _)) as [ch|e] eqn:Eo.
  - destruct (raced_token _ _ s1) as [g s2] eqn:Eg.
    destruct (answer_writes _ _ _ _ _ Eg) as (w2 & Hw2 & Hp & Hrx & Hfull & _).
    assert (Hs' : s' = s2) by (destruct g as [|[]]; congruence). subst s'.
    exists ([VERSION; NO_AUTH] ++ w2). split; [by eapply wrote_trans|]. rewrite Hrx.
    split; [right; split; [by apply prefix_app|by exists (destination req), ch]|].
    intros ch' Hch. destruct g as [|[u|err]]; injection Hs as <-; cbn in Hch |- *; try done.
    injection Hch as <-. rewrite (Hfull u eq_refl). split; [done|]. split; [done|]. by exists (destination req).
  - destruct token; [injection Hs as <- <-; exists [VERSION; NO_AUTH]; split; [done|]; split; [by left|done]|].
    destruct (raced_token _ _ s1) as [g s2] eqn:Eg. injection Hs as <- <-.
    destruct (answer_writes _ _ _ _ _ Eg) as (w2 & Hw2 & Hp & _). exists ([VERSION; NO_AUTH] ++ w2).
    split; [by eapply wrote_trans|]. split; [|done]. left. eapply refusing_answer; [|done].
    apply map_socks_failure_not_success.
Qed.

(** A client of a tunnel that is down is never told success. *)
Lemma refused_told mode : exists w, wrote s (refuse_client mode handshake answer s) w /\ refusing w
  /\ forall dst, mode = SupervisorMode.Local dst -> w = [].
Proof.
  unfold refuse_client. destruct mode as [dst|]; [by exists []; eauto using wrote_nothing, refusing_nothing|].
  destruct (raced_timeout _ _ s) as [p s1] eqn:Ep.
  destruct (handshake_writes _ _ _ _ Ep) as (w1 & Hw1 & Hr1 & Hok).
  destruct p as [|[[req|err]|]]; try (by exists w1). destruct (Hok req eq_refl) as [-> _].
  destruct (raced_token _ _ s1) as [g s2] eqn:Eg.
  destruct (answer_writes _ _ _ _ _ Eg) as (w2 & Hw2 & Hp & _). exists ([VERSION; NO_AUTH] ++ w2).
  split; [by eapply wrote_trans|]. split; [by apply (refusing_answer SocksReply.HostUnreachable)|done].
Qed.
End Told.

(** A request that arrives whole is answered when nothing interrupts. *)
Lemma request_answered `{Russh} {Chan} (opened : string * Z -> result Chan SshConnectError.t) relay s d rest t s' :
  asks s d rest -> tx_fault s = None ->
  serve ForwardMode.Dynamic Runs opened false None relay s = (t, s') ->
  rx s' = rest
  /\ match opened (where_to d) with
     | Ok ch => ct_relayed t = Some ch
     | Err e => wrote s s' ([VERSION; NO_AUTH] ++ reply_frame (map_socks_failure e))
     end
  /\ wrote s (refuse_client SupervisorMode.Dynamic Runs None s)
       ([VERSION; NO_AUTH] ++ reply_frame SocksReply.HostUnreachable).
Proof.
  intros Ha Hf. destruct (asks_accepted s d rest Ha Hf) as (s1 & Hr & Hrest & Hf1).
  pose proof (read_connect_tx _ _ _ Hr) as Hw1. unfold serve, refuse_client, raced_timeout. rewrite Hr. cbv zeta.
  cbn [destination]. fold (where_to d). intros Hs. split_and!.
  3: { destruct (raced_token None (reply SocksReply.HostUnreachable) s1) as [g s2] eqn:Eg.
       destruct (answer_writes _ _ _ _ _ Eg) as (w & Hw & _ & _ & _ & Hall).
       rewrite <-(Hall eq_refl Hf1). by eapply wrote_trans. }
  - destruct (opened _) as [ch|e].
    + destruct (raced_token _ _ s1) as [g s2] eqn:Eg.
      destruct (answer_writes _ _ _ _ _ Eg) as (w & _ & _ & Hrx & _).
      destruct g as [|[]]; injection Hs as _ <-; congruence.
    + destruct (raced_token _ _ s1) as [g s2] eqn:Eg. injection Hs as _ <-.
      destruct (answer_writes _ _ _ _ _ Eg) as (w & _ & _ & Hrx & _). cbn. congruence.
  - destruct (opened _) as [ch|e].
    + cbn in Hs. unfold reply, with_err, write_all in Hs. rewrite Hf1 in Hs. by injection Hs as <- _.
    + destruct (raced_token _ _ s1) as [g s2] eqn:Eg. injection Hs as _ <-.
      destruct (answer_writes _ _ _ _ _ Eg) as (w & Hw & _ & _ & _ & Hall). cbn [snd].
      rewrite <-(Hall eq_refl Hf1). by eapply wrote_trans.
Qed.

(** C24: What a client reads is true. Whatever it sends and wherever its stream,
    a timeout or a stop breaks the exchange: a SOCKS client of a running tunnel
    reads the start of one answer, and reads success only if its bytes so far
    are a greeting and a valid request, exactly, and the channel to that very
    destination is open; it is relayed only after the whole success reply, over
    that channel, from the first byte after its request on. A client of a
    tunnel that is reconnecting reads a refusal, never as much as the code of
    success; clients of Local tunnels read nothing of all this. And a whole
    request that nothing interrupts is answered: with the channel, with the
    code of the channel's error, or with host unreachable. *)
Theorem socks_clients_are_told_the_truth `{Russh} {Chan} mode down handshake
    (opened : string * Z -> result Chan SshConnectError.t) token answer relay s t s' :
  Forall u8 (rx s) -> serve mode handshake opened token answer relay s = (t, s') ->
  (exists w, wrote s s' w
     /\ match mode with
        | ForwardMode.Fixed _ => w = [] /\ s' = s
        | ForwardMode.Dynamic =>
            (success_begun w -> exists d ch, asks s d (rx s') /\ opened (where_to d) = Ok ch)
            /\ (~ success_begun w -> refusing w)
            /\ (forall ch, ct_relayed t = Some ch ->
                 w = [VERSION; NO_AUTH] ++ reply_frame SocksReply.Succeeded
                 /\ ct_result t = relay ch s'
                 /\ exists d, asks s d (rx s') /\ opened (where_to d) = Ok ch)
        end)
  /\ (exists w, wrote s (refuse_client down handshake answer s) w /\ refusing w /\ ~ success_begun w
        /\ forall dst, down = SupervisorMode.Local dst -> w = [])
  /\ (forall d rest, asks s d rest -> tx_fault s = None -> mode = ForwardMode.Dynamic ->
       handshake = Runs -> answer = None -> token = false ->
       rx s' = rest
       /\ match opened (where_to d) with
          | Ok ch => ct_relayed t = Some ch
          | Err e => wrote s s' ([VERSION; NO_AUTH] ++ reply_frame (map_socks_failure e))
          end
       /\ wrote s (refuse_client SupervisorMode.Dynamic Runs None s)
            ([VERSION; NO_AUTH] ++ reply_frame SocksReply.HostUnreachable)).
Proof.
  intros Hb Hs. split_and!.
  - destruct mode as [dst|].
    + exists []. unfold serve in Hs. destruct (opened _); injection Hs as _ <-; eauto using wrote_nothing.
    + destruct (dynamic_told _ _ _ _ _ _ Hb _ _ Hs) as (w & Hw & Hshape & Hrel). exists w. split; [done|].
      split_and!; [| |done].
      * intros Hbeg. destruct Hshape as [Hr|[_ ?]]; [by destruct (refusing_no_success _ Hr)|done].
      * intros Hn. destruct Hshape as [|[Hp _]]; [done|]. by apply not_begun.
  - destruct (refused_told handshake answer s down) as (w & ? & ? & ?). exists w. eauto using refusing_no_success.
  - intros d rest Ha Hf -> -> -> ->. by eapply request_answered.
Qed.

(** ** Witness *)

(** A request for 10.0.0.1:80, followed by the first byte for the server. *)
Definition example_client : Stream := fed [5; 1; 0; 5; 1; 0; 1; 10; 0; 0; 1; 0; 80; 9].

Definition example_channel (d : string * Z) : result nat (SshConnectError.t (H := Toy.russh)) :=
  if bool_decide (d = ("10.0.0.1", 80)) then Ok 7%nat else Err SshConnectError.Cancelled.
Definition example_serve : connection_trace * Stream :=
  serve (H := Toy.russh) ForwardMode.Dynamic Runs example_channel false None (fun _ _ => Ok tt) example_client.

Theorem socks_clients_are_told_the_truth_witness :
  tx example_serve.2 = [5; 0; 5; 0; 0; 1; 0; 0; 0; 0; 0; 0] /\ ct_relayed example_serve.1 = Some 7%nat
  /\ exists d, asks example_client d (rx example_serve.2) /\ Destination.port d = 80.
Proof.
  split; [vm_compute; reflexivity|].
  assert (Hch : ct_relayed example_serve.1 = Some 7%nat) by (vm_compute; reflexivity). split; [exact Hch|].
  destruct (socks_clients_are_told_the_truth (H := Toy.russh) ForwardMode.Dynamic SupervisorMode.Dynamic Runs
    example_channel false None (fun _ _ => Ok tt) example_client example_serve.1 example_serve.2
    ltac:(cbn; repeat constructor; vm_compute; discriminate) (surjective_pairing _))
    as [(w & _ & _ & _ & Hrel) _].
  destruct (Hrel 7%nat Hch) as (_ & _ & d & Ha & Ho). exists d. split; [exact Ha|].
  unfold example_channel in Ho. case_bool_decide as E; [by injection E|discriminate Ho].
Defined.
