(* ===== verification/RemoteSupervisor.v ===== *)
(** * RemoteSupervisor: the reconnecting owner of a Remote tunnel,
    crates/tunnel-core/src/remote_supervisor.rs. *)
From S2P Require Import Prelude Io Text Net Domain StateMachine Runtime Retry Socks5 Russh HostKey SshClient Chain LocalForward RemoteForward Supervisor.

Section RemoteSupervisor.
Context `{SshTransport}.

Definition remote_retryability (error : RemoteForwardError.t) : Retryability.t :=
  match error with
  | RemoteForwardError.InvalidTarget => Retryability.Blocked
  | RemoteForwardError.Registration source | RemoteForwardError.Cancellation source =>
      err_retryability (summary source)
  | RemoteForwardError.SessionClosed | RemoteForwardError.Health _ => Retryability.Transient
  end.

Record RemoteForwardSupervisor := mkRemoteSupervisor {
  rs_local_target : LocalEndpoint;
  rs_retries : RetrySchedule;
  rs_states : list SupervisorState.t;
  rs_attempt : Z
}.

Definition new (target : LocalEndpoint) (retry : RetryPolicy) : RemoteForwardSupervisor :=
  mkRemoteSupervisor target (Retry.new retry) [SupervisorState.Connecting 1] 1.

(** No pass of this loop fails: a step answers whether to go on. *)
Notation step A := (RemoteForwardSupervisor * world -> A * (RemoteForwardSupervisor * world)).

Definition publish (st : SupervisorState.t) (s : RemoteForwardSupervisor) : RemoteForwardSupervisor :=
  mkRemoteSupervisor (rs_local_target s) (rs_retries s) (rs_states s ++ [st]) (rs_attempt s).
Definition publish_all (sts : list SupervisorState.t) (s : RemoteForwardSupervisor)
    : RemoteForwardSupervisor := foldl (fun s st => publish st s) s sts.
Definition set_attempt (n : Z) (s : RemoteForwardSupervisor) : RemoteForwardSupervisor :=
  mkRemoteSupervisor (rs_local_target s) (rs_retries s) (rs_states s) n.

(** [after_failure]: [k] is what comes before the token - the end of the delay,
    a retry request (only the latter counts when blocked). *)
Definition after_failure (attempt : Z) (reason : string) (blocked : bool) (jitter : Z) (k : wakes)
    (s : RemoteForwardSupervisor) : bool * RemoteForwardSupervisor :=
  let reason := take_chars 512 reason in
  let st :=
    if blocked then SupervisorState.Blocked reason
    else SupervisorState.Reconnecting attempt (delay (rs_retries s) attempt jitter) reason in
  (match awaited blocked k with TokenFired => false | FutureReady => true end, publish st s).

(** A health update, with the registered port. *)
Definition remote_health_state (port : Z) (h : WorkerHealth.t) : SupervisorState.t :=
  match h with
  | WorkerHealth.Healthy rtts => SupervisorState.Healthy rtts (Some port)
  | WorkerHealth.Degraded failed_pings reason => SupervisorState.Degraded failed_pings reason
  end.

Record remote_script := mkRemoteScript {
  rsc_cancelled : bool;                       (* the token, at the top of the pass *)
  rsc_connect_end : wait_end;
  rsc_branches : list remote_branch;          (* of the worker's loop *)
  rsc_run_cancelled : bool;                   (* the token fired while it ran *)
  rsc_seen : list bool;                       (* which health updates it looked at *)
  rsc_stopped : bool;                         (* the token, after the worker *)
  rsc_elapsed : Duration;
  rsc_jitter : Z;
  rsc_wakes : wakes
}.

Definition retry_later (reason : string) (blocked : bool) (sc : remote_script) : step bool :=
  fun '(s, w) =>
    let '(again, s') :=
      after_failure (rs_attempt s) reason blocked (rsc_jitter sc) (rsc_wakes sc) s in
    (again, (if again then set_attempt (saturating_add u32_max (rs_attempt s) 1) s' else s', w)).

(** From a registered worker to the end of its run and its cleanup. *)
Definition run_registered (worker : RemoteForwardWorker) (rtts : list Duration)
    (sc : remote_script) : step bool := fun '(s, w) =>
  let port := rf_bound_port worker in
  let s := publish (SupervisorState.Healthy rtts (Some port)) s in
  let health := observed (rsc_seen sc) (remote_run_health worker (rsc_branches sc) w) in
  let '(outcome, w) :=
    match RemoteForward.run worker (rsc_branches sc) w with
    | Some (RFinished r, w') => (r, w')
    | Some (RContinue _, w') =>
        (if rsc_run_cancelled sc then Ok tt else Err RemoteForwardError.SessionClosed, w')
    | None => (Err RemoteForwardError.SessionClosed, w)
    end in
  let s := publish_all (remote_health_state port <$> health) s in
  let '(_, w) := RemoteForward.stop worker w in
  if rsc_stopped sc then (false, (s, w))
  else
    let reason :=
      match outcome with
      | Ok _ => "remote SSH worker stopped unexpectedly"
      | Err error => show_remote_forward_error error
      end in
    let attempt :=
      if should_reset (rs_retries s) (rsc_elapsed sc) then 1
      else saturating_add u32_max (rs_attempt s) 1 in
    let '(again, s) :=
      after_failure attempt reason false (rsc_jitter sc) (rsc_wakes sc) (set_attempt attempt s) in
    (again, (s, w)).

Definition iteration (connect : ST world SshChainError.t (list session)) (sc : remote_script)
    : step bool := fun '(s, w) =>
  if rsc_cancelled sc then (false, (s, w))
  else
    let s := publish (SupervisorState.Connecting (rs_attempt s)) s in
    match rsc_connect_end sc with
    | TokenFired => (false, (s, w))
    | FutureReady =>
        match connect w with
        | (Err error, w) =>
            retry_later (show_chain_error error)
              (bool_decide (chain_retryability error = Retryability.Blocked)) sc (s, w)
        | (Ok c, w) =>
            match ping_all c INITIAL_PING_TIMEOUT w with
            | (Err error, w) =>
                retry_later (show_chain_error error) false sc (s, disconnect c w)
            | (Ok rtts, w) =>
                match start_chain c (rs_local_target s) false w with
                | (Err error, w) =>
                    retry_later (show_remote_forward_error error)
                      (bool_decide (remote_retryability error = Retryability.Blocked)) sc (s, w)
                | (Ok worker, w) => run_registered worker rtts sc (s, w)
                end
            end
        end
    end.

(** [run] over the scripts of its passes; it ends with Stopped published. *)
Fixpoint run_passes (connect : ST world SshChainError.t (list session)) (scs : list remote_script)
    : step bool := fun sw =>
  match scs with
  | [] => (true, sw)
  | sc :: scs =>
      let '(again, sw) := iteration connect sc sw in
      if again then run_passes connect scs sw else (false, sw)
  end.

Definition run (connect : ST world SshChainError.t (list session)) (scs : list remote_script)
    : step bool := fun sw =>
  let '(again, (s, w)) := run_passes connect scs sw in
  (again, ((if again then s else publish SupervisorState.Stopped s), w)).
End RemoteSupervisor.

(** ** Properties *)

Section RemoteSupervisorProps.
Context `{SshTransportLaws}.

(** A chain the connector returns is never empty. *)
Definition connector_nonempty (connect : ST world SshChainError.t (list session)) : Prop :=
  forall w c w', connect w = (Ok c, w') -> c <> [].

Lemma chain_connector_nonempty hops remote approval :
  connector_nonempty (connect_with_approval hops remote approval).
Proof.
  intros w c w' Hc. apply chain_connect_cases in Hc as (Hl & Hb & _).
  destruct c; cbn in Hl; [lia|done].
Qed.

Lemma retry_later_states reason blocked sc s w again s' w' :
  retry_later reason blocked sc (s, w) = (again, (s', w')) ->
  w' = w /\ rs_local_target s' = rs_local_target s
  /\ exists st, rs_states s' = rs_states s ++ [st].
Proof.
  unfold retry_later, after_failure. destruct (awaited _ _); intros [= <- <- <-]; cbn; eauto.
Qed.

Lemma remote_run_live self c bs w t w' :
  rf_chain self = Some c -> RemoteForward.run self bs w = Some (t, w') -> live w' = live w.
Proof.
  unfold RemoteForward.run. intros -> Hr.
  by apply (remote_loop_ok c bs loop_start w t w' [] loop_start_inv eq_refl).
Qed.

Lemma publish_all_target sts s : rs_local_target (publish_all sts s) = rs_local_target s.
Proof. revert s. induction sts as [|st sts IH]; intros s; [done|]. exact (IH (publish st s)). Qed.

Lemma run_registered_live base c worker rtts sc s w again s' w' :
  rf_chain worker = Some c -> c <> [] -> live w = base ++ c ->
  run_registered worker rtts sc (s, w) = (again, (s', w')) ->
  live w' = base /\ rs_local_target s' = rs_local_target s.
Proof.
  intros Hc Hne Hw Hr. unfold run_registered in Hr.
  set (o := match RemoteForward.run worker (rsc_branches sc) w with
            | Some (RContinue _, w') => _ | _ => _ end) in Hr.
  assert (Ho : live o.2 = base ++ c).
  { subst o. destruct (RemoteForward.run worker (rsc_branches sc) w) as [[[l|r] w1]|] eqn:Er; cbn;
      [..|done]; apply (remote_run_live _ c) in Er; congruence. }
  destruct o as [outcome w1]. cbn in Ho.
  assert (Hst : live (RemoteForward.stop worker w1).2 = base).
  { unfold RemoteForward.stop. rewrite Hc. unfold final_session.
    destruct (last c) as [x|] eqn:Ex; [|by apply last_None in Ex].
    destruct (cancel_forward x _ w1) as [rc w2] eqn:Ec. apply cancel_forward_live in Ec.
    cbn. apply (disconnect_all_live c). congruence. }
  destruct (RemoteForward.stop worker w1) as [r2 w2]. cbn in Hst.
  destruct (rsc_stopped sc).
  { injection Hr as <- <- <-. by rewrite publish_all_target. }
  unfold after_failure in Hr. destruct (awaited _ _); injection Hr as <- <- <-;
    cbn [publish set_attempt rs_local_target]; by rewrite publish_all_target.
Qed.

Lemma start_chain_live base c target token w r w' :
  live w = base ++ c -> c <> [] -> start_chain c target token w = (r, w') ->
  match r with
  | Ok worker => rf_chain worker = Some c /\ live w' = base ++ c
  | Err _ => live w' = base
  end.
Proof.
  intros Hl Hc. unfold start_chain. destruct (invalid_target target).
  { intros [= <- <-]. by apply (disconnect_all_live c). }
  unfold final_session. destruct (last c) as [s|] eqn:Es; [|by apply last_None in Es].
  destruct (register_forward s _ w) as [[port|error] w1] eqn:Er;
    apply register_forward_live in Er; rewrite Hl in Er; intros [= <- <-]; [done|].
  by apply (disconnect_all_live c).
Qed.

Lemma iteration_live connect sc s w again s' w' :
  connector_ok connect -> connector_nonempty connect ->
  iteration connect sc (s, w) = (again, (s', w')) ->
  live w' = live w /\ rs_local_target s' = rs_local_target s.
Proof.
  intros Hcon Hne Hr. unfold iteration in Hr.
  destruct (rsc_cancelled sc); [by simplify_eq|]. destruct (rsc_connect_end sc); [by simplify_eq|].
  destruct (connect w) as [[c|error] w1] eqn:Ec; pose proof (Hcon _ _ _ Ec) as Hw1.
  2:{ apply retry_later_states in Hr as (-> & -> & _). done. }
  destruct (ping_all c INITIAL_PING_TIMEOUT w1) as [[rtts|error] w2] eqn:Ep;
    apply ping_all_live in Ep; rewrite Hw1 in Ep.
  2:{ apply retry_later_states in Hr as (-> & -> & _). split; [|done].
      by apply (disconnect_all_live c). }
  destruct (start_chain c _ false w2) as [[worker|error] w3] eqn:Es;
    apply (start_chain_live (live w)) in Es; [|by rewrite Ep|by eapply Hne| |by rewrite Ep|by eapply Hne].
  - destruct Es as [Hrf Hw3]. by eapply run_registered_live in Hr; [|done|by eapply Hne|done].
  - apply retry_later_states in Hr as (-> & -> & _). done.
Qed.
End RemoteSupervisorProps.

Section RemoteSupervisorClaims.
Context `{SshTransportLaws}.

Lemma run_passes_live connect scs s w again s' w' :
  connector_ok connect -> connector_nonempty connect ->
  run_passes connect scs (s, w) = (again, (s', w')) ->
  live w' = live w /\ rs_local_target s' = rs_local_target s.
Proof.
  intros Hcon Hne. revert s w. induction scs as [|sc scs IH]; intros s w Hr; cbn [run_passes] in Hr.
  { by simplify_eq. }
  destruct (iteration connect sc (s, w)) as [b [s1 w1]] eqn:Ei.
  destruct (iteration_live _ _ _ _ _ _ _ Hcon Hne Ei) as [Hw Ht].
  destruct b; [|by injection Hr as <- <- <-]. apply IH in Hr as [Hw' Ht']. split; congruence.
Qed.

(** A Remote tunnel leaks no session and no registration. For any
    connector that cleans up after itself and never returns an empty chain,
    and any environment: after every pass each session the pass opened is
    closed again, whatever went wrong - the connection, the first ping, the
    registration, the worker or the cancellation of the registration; the
    local target never changes; and when the loop ends the last state
    published is Stopped. *)
Theorem remote_supervisor_leaks_nothing connect scs s w again s' w' :
  connector_ok connect -> connector_nonempty connect ->
  run connect scs (s, w) = (again, (s', w')) ->
  live w' = live w /\ rs_local_target s' = rs_local_target s
  /\ (again = false -> last (rs_states s') = Some SupervisorState.Stopped).
Proof.
  intros Hcon Hne Hr. unfold run in Hr.
  destruct (run_passes connect scs (s, w)) as [b [s1 w1]] eqn:Ep.
  destruct (run_passes_live _ _ _ _ _ _ _ Hcon Hne Ep) as [Hw Ht].
  destruct b; injection Hr as <- <- <-; split_and!; try done. intros _. apply last_snoc.
Qed.
End RemoteSupervisorClaims.

(** ** Witness *)

Definition toy_connector : ST ClientWorld SshChainError.t (list ClientSession) :=
  connect_with_approval (H0 := toy_transport false) [toy_hop; toy_hop] (Some toy_binding)
    (Some toy_approval).

(** A pass that registers, runs until the token fires, and stops. *)
Definition toy_remote_script : remote_script :=
  mkRemoteScript false FutureReady [RHealthTick; RCancelled] false [] true 0 0 (mkWakes false false).

Definition toy_remote_supervisor : RemoteForwardSupervisor :=
  new (mkLocalEndpoint "127.0.0.1" 3000) RetryPolicy_default.

Theorem remote_supervisor_leaks_nothing_witness :
  exists s' w', run (H0 := toy_transport false) toy_connector [toy_remote_script]
      (toy_remote_supervisor, empty_world) = (false, (s', w'))
    /\ cw_live w' = [] /\ length (cw_closed w') = 2%nat
    /\ last (rs_states s') = Some SupervisorState.Stopped.
Proof.
  destruct (run (H0 := toy_transport false) toy_connector [toy_remote_script]
    (toy_remote_supervisor, empty_world)) as [again [s' w']] eqn:E.
  destruct (remote_supervisor_leaks_nothing (H1 := toy_transport_laws false) toy_connector
    [toy_remote_script] toy_remote_supervisor empty_world again s' w'
    (chain_connector_ok (H1 := toy_transport_laws false) _ _ _)
    (chain_connector_nonempty (H1 := toy_transport_laws false) _ _ _) E) as (Hw & _ & Hlast).
  exists s', w'. assert (Ha : again = false /\ length (cw_closed w') = 2%nat).
  { split.
    - change again with (again, (s', w')).1. rewrite <-E. reflexivity.
    - change w' with (again, (s', w')).2.2. rewrite <-E. reflexivity. }
  destruct Ha as [-> Hc]. split_and!; [reflexivity|exact Hw|exact Hc|by apply Hlast].
Defined.
