(* ===== verification/Status.v ===== *)
(** * Status: what a supervisor may show of its tunnel, and that both do.

    The manager, the window and the tray know a running tunnel only by the
    values its supervisor publishes (the watch channel of
    crates/tunnel-core/src/supervisor.rs and remote_supervisor.rs). [status_step]
    is the abstract specification of that channel, a labelled transition system
    whose labels are the published values; the refinement theorems show that
    every run of the two supervisors publishes one of its traces. *)
From S2P Require Import Prelude Io Text Net Domain StateMachine Runtime Retry Socks5 Russh HostKey SshClient Chain LocalForward RemoteForward RemoteSupervisor Supervisor.

(** ** The specification *)

(** Between two published values: about to make attempt [n], making it, up in
    attempt [n] with the server's port (of a Remote tunnel), or ended. *)
Inductive phase :=
  | Waiting (n : Z)
  | Trying (n : Z)
  | Up (n : Z) (port : option Z)
  | Ended.

Definition next_attempt (n : Z) : Z := saturating_add u32_max n 1.

(** [remote]: whether the tunnel is a Remote one. *)
Inductive status_step (rs : RetrySchedule) (remote : bool)
    : phase -> SupervisorState.t -> phase -> Prop :=
  | st_connect n : status_step rs remote (Waiting n) (SupervisorState.Connecting n) (Trying n)
  | st_up n rtts port :
      bool_decide (is_Some port) = remote ->
      status_step rs remote (Trying n) (SupervisorState.Healthy rtts port) (Up n port)
  | st_healthy n rtts port :
      status_step rs remote (Up n port) (SupervisorState.Healthy rtts port) (Up n port)
  | st_degraded n k reason port :
      1 <= k <= 2 -> (char_count reason <= 512)%nat ->
      status_step rs remote (Up n port) (SupervisorState.Degraded k reason) (Up n port)
  | st_lost n m jitter reason port :
      m = 1 \/ m = next_attempt n -> (char_count reason <= 512)%nat ->
      status_step rs remote (Up n port)
        (SupervisorState.Reconnecting m (delay rs m jitter) reason) (Waiting m)
  | st_failed n jitter reason :
      (char_count reason <= 512)%nat ->
      status_step rs remote (Trying n)
        (SupervisorState.Reconnecting n (delay rs n jitter) reason) (Waiting (next_attempt n))
  | st_blocked n reason :
      (char_count reason <= 512)%nat ->
      status_step rs remote (Trying n) (SupervisorState.Blocked reason) (Waiting (next_attempt n))
  | st_stopped p :
      p <> Ended -> status_step rs remote p SupervisorState.Stopped Ended.

(** What has been published so far, and where the supervisor stands. *)
Inductive status_trace (rs : RetrySchedule) (remote : bool)
    : list SupervisorState.t -> phase -> Prop :=
  | tr_start : status_trace rs remote [SupervisorState.Connecting 1] (Waiting 1)
  | tr_step sts p st p' :
      status_trace rs remote sts p -> status_step rs remote p st p' ->
      status_trace rs remote (sts ++ [st]) p'.

Create HintDb quiet.
#[export] Hint Constructors status_step status_trace : rust.

(** ** What follows from the specification *)

Section Traces.
Context {rs : RetrySchedule} {remote : bool}.
Implicit Types (sts : list SupervisorState.t) (p : phase).

Lemma trace_nonempty sts p : status_trace rs remote sts p -> sts <> [].
Proof. destruct 1; [done|]. by destruct sts. Qed.

(** Where the last published value leaves the supervisor. *)
Definition shows (st : SupervisorState.t) (p : phase) : Prop :=
  match st, p with
  | SupervisorState.Connecting n, Waiting m => n = 1 /\ m = 1
  | SupervisorState.Connecting n, Trying m => n = m
  | SupervisorState.Healthy _ port, Up _ port' => port = port'
  | SupervisorState.Degraded k reason, Up _ _ => 1 <= k <= 2 /\ (char_count reason <= 512)%nat
  | SupervisorState.Reconnecting n _ reason, Waiting m =>
      (m = n \/ m = next_attempt n) /\ (char_count reason <= 512)%nat
  | SupervisorState.Blocked reason, Waiting _ => (char_count reason <= 512)%nat
  | SupervisorState.Stopped, Ended => True
  | _, _ => False
  end.

Lemma step_shows p st p' : status_step rs remote p st p' -> shows st p'.
Proof. destruct 1; cbn; auto. Qed.

Lemma trace_shows sts p :
  status_trace rs remote sts p -> exists st, last sts = Some st /\ shows st p.
Proof.
  destruct 1 as [|sts p st p' Ht Hs]; [by eexists|].
  exists st. split; [apply last_snoc|by eapply step_shows].
Qed.

(** A trace of a longer list passes through every shorter one. *)
Lemma trace_prefix sts sts' p :
  status_trace rs remote (sts ++ sts') p -> sts <> [] -> exists p', status_trace rs remote sts p'.
Proof.
  revert p. induction sts' as [|st sts' IH] using rev_ind; intros p Ht Hne.
  { rewrite app_nil_r in Ht. by exists p. }
  rewrite app_assoc in Ht. inversion Ht as [Heq|sts0 p0 st0 p1 Ht0 Hs Heq]; subst.
  - apply (f_equal length) in Heq. rewrite !length_app in Heq. cbn in Heq.
    destruct sts; [done|]. cbn in Heq. lia.
  - apply app_inj_tail in Heq as [-> ->]. by eapply IH.
Qed.

(** Nothing follows the end. *)

(** Two values published one after the other are linked by a step. *)
Lemma trace_pair l a b r p :
  status_trace rs remote (l ++ a :: b :: r) p ->
  exists p1 p2, shows a p1 /\ status_step rs remote p1 b p2.
Proof.
  intros Ht. replace (l ++ a :: b :: r) with ((l ++ [a; b]) ++ r) in Ht by by rewrite <-app_assoc.
  apply trace_prefix in Ht as [p2 Ht]; [|by destruct l].
  replace (l ++ [a; b]) with ((l ++ [a]) ++ [b]) in Ht by by rewrite <-app_assoc.
  inversion Ht as [Heq|sts0 p0 st0 p' Ht0 Hs Heq]; subst.
  { apply (f_equal length) in Heq. rewrite !length_app in Heq. cbn in Heq. lia. }
  apply app_inj_tail in Heq as [-> ->].
  apply trace_shows in Ht0 as (st & Hl & Hsh). rewrite last_snoc in Hl. simplify_eq. by eexists _, _.
Qed.

(** The tunnel is up. *)
Definition is_up (st : SupervisorState.t) : bool :=
  match st with SupervisorState.Healthy _ _ | SupervisorState.Degraded _ _ => true | _ => false end.

(** What may follow what. Whatever a trace of the specification is, in it:
    nothing follows Stopped; a tunnel is shown up only straight after the
    attempt that connected it or while it stays up, and degraded only while it
    was up; a Reconnecting or Blocked state is followed by the next attempt or
    by the end only, and that attempt has the shown number or the one after it;
    a failure of an attempt shows the number of that attempt. *)
Theorem status_order l a b r p :
  status_trace rs remote (l ++ a :: b :: r) p ->
  a <> SupervisorState.Stopped
  /\ (is_up b = true -> is_up a = true \/ exists n, a = SupervisorState.Connecting n)
  /\ (forall k reason, b = SupervisorState.Degraded k reason -> is_up a = true /\ 1 <= k <= 2)
  /\ match a with
     | SupervisorState.Reconnecting n d _ =>
         b = SupervisorState.Stopped \/ b = SupervisorState.Connecting n
         \/ b = SupervisorState.Connecting (next_attempt n)
     | SupervisorState.Blocked _ => b = SupervisorState.Stopped \/ exists n, b = SupervisorState.Connecting n
     | SupervisorState.Connecting n =>
         match b with
         | SupervisorState.Reconnecting m _ _ | SupervisorState.Connecting m => m = n
         | _ => True
         end
     | _ => True
     end.
Proof.
  intros Ht. apply trace_pair in Ht as (p1 & p2 & Ha & Hs).
  destruct p1, a; cbn in Ha; try done; inversion Hs; subst; try done; split_and!; intros;
    simplify_eq; try done; naive_solver.
Qed.
End Traces.

(** ** The Local supervisor *)

Section LocalRefines.
Context `{SshTransportLaws}.
Notation sup A := (ST (Supervisor * world) SupervisorError.t A).

(** What [m] does to the published values: weakest preconditions over the
    supervisor alone. *)
Definition wp {A} (m : sup A) (Q : result A SupervisorError.t -> Supervisor -> Prop)
    (s : Supervisor) : Prop :=
  forall w r s' w', m (s, w) = (r, (s', w')) -> Q r s'.

(** Same published values, attempt and schedule. *)
Definition quiet {A} (m : sup A) : Prop :=
  forall s, wp m (fun _ s' => sv_states s' = sv_states s /\ sv_attempt s' = sv_attempt s
                              /\ sv_retries s' = sv_retries s) s.

Lemma wp_ret {A} (a : A) Q s : Q (Ok a) s -> wp (ret a) Q s.
Proof. intros HQ w r s' w' Hr. unfold ret in Hr. by simplify_eq. Qed.

Lemma wp_throw {A} e (Q : result A _ -> _ -> Prop) s : Q (Err e) s -> wp (throw e) Q s.
Proof. intros HQ w r s' w' Hr. unfold throw in Hr. by simplify_eq. Qed.

Lemma wp_bind {A B} (m : sup A) (k : A -> sup B) (Q : _ -> _ -> Prop) s :
  wp m (fun r s' => match r with Ok a => wp (k a) Q s' | Err e => Q (Err e) s' end) s ->
  wp (bind m k) Q s.
Proof.
  intros Hm w r s' w' Hr. unfold bind in Hr. destruct (m (s, w)) as [[a|e] [s1 w1]] eqn:Em;
    apply Hm in Em; [by eapply Em|]. by simplify_eq.
Qed.

Lemma wp_mono {A} (m : sup A) (Q Q' : _ -> _ -> Prop) s :
  wp m Q s -> (forall r s', Q r s' -> Q' r s') -> wp m Q' s.
Proof. intros Hm HQ w r s' w' Hr. by apply HQ, (Hm w r s' w'). Qed.

Lemma wp_on_sup f Q s : Q (Ok tt) (f s) -> wp (on_sup f) Q s.
Proof. intros HQ w r s' w' Hr. unfold on_sup in Hr. by simplify_eq. Qed.

Lemma wp_get (Q : result Supervisor _ -> _ -> Prop) s : Q (Ok s) s -> wp get_sup Q s.
Proof. intros HQ w r s' w' Hr. unfold get_sup in Hr. by simplify_eq. Qed.

Lemma wp_world {A} (m : world -> A * world) (Q : _ -> _ -> Prop) s :
  (forall a, Q (Ok a) s) -> wp (on_world m) Q s.
Proof.
  intros HQ w r s' w' Hr. unfold on_world in Hr. destruct (m w). by simplify_eq.
Qed.

Lemma quiet_ret {A} (a : A) : quiet (ret a).
Proof. intros s. by apply wp_ret. Qed.
Lemma quiet_throw {A} e : quiet (A := A) (throw e).
Proof. intros s. by apply wp_throw. Qed.
Lemma quiet_lift {A} (r : result A _) : quiet (lift r).
Proof. intros s w r' s' w' Hr. unfold lift in Hr. by simplify_eq. Qed.
Lemma quiet_get : quiet get_sup.
Proof. intros s. by apply wp_get. Qed.
Lemma quiet_get_world : quiet get_world.
Proof. intros s w r s' w' Hr. unfold get_world in Hr. by simplify_eq. Qed.
Lemma quiet_world {A} (m : world -> A * world) : quiet (on_world m).
Proof. intros s. by apply wp_world. Qed.
Lemma quiet_clients c : quiet (set_clients c).
Proof. intros s. by apply wp_on_sup. Qed.
Lemma quiet_listener l : quiet (set_listener l).
Proof. intros s. by apply wp_on_sup. Qed.
Lemma quiet_bind {A B} (m : sup A) (k : A -> sup B) :
  quiet m -> (forall a, quiet (k a)) -> quiet (bind m k).
Proof.
  intros Hm Hk s. apply wp_bind. eapply wp_mono; [apply Hm|]. intros [a|e] s1 Hs1; [|done].
  eapply wp_mono; [apply Hk|]. intros r s2 Hs2. cbn in *. intuition congruence.
Qed.
Hint Resolve quiet_ret quiet_throw quiet_lift quiet_get quiet_get_world quiet_world quiet_clients
  quiet_listener quiet_bind : quiet.

(** Unfold the binds of a quiet operation and its case distinctions. *)
Ltac quiet := repeat first
  [ solve [eauto with quiet]
  | apply quiet_bind; [|intros ?]
  | match goal with |- quiet (match ?x with _ => _ end) => destruct x end ].

Lemma require_listener_quiet : quiet require_listener.
Proof. unfold require_listener. quiet. Qed.

Lemma unhealthy_turn_quiet e : quiet (unhealthy_turn e).
Proof. unfold unhealthy_turn, reject_unhealthy. quiet. Qed.
Hint Resolve require_listener_quiet unhealthy_turn_quiet : quiet.

Lemma while_unhealthy_quiet {T} evs e (f : world -> T * world) : quiet (while_unhealthy evs e f).
Proof. induction evs; cbn [while_unhealthy]; quiet. Qed.
Hint Resolve while_unhealthy_quiet : quiet.

Lemma wp_quiet {A} (m : sup A) (Q : _ -> _ -> Prop) s :
  quiet m ->
  (forall r s', sv_states s' = sv_states s -> sv_attempt s' = sv_attempt s ->
     sv_retries s' = sv_retries s -> Q r s') ->
  wp m Q s.
Proof. intros Hm HQ. eapply wp_mono; [apply Hm|]. intros r s' (? & ? & ?). by apply HQ. Qed.

(** The supervisor is at [p] of its specification. *)
Definition at_phase (rs : RetrySchedule) (s : Supervisor) (p : phase) : Prop :=
  sv_retries s = rs /\ status_trace rs false (sv_states s) p.

(** It has published a trace, and has not ended. *)
Definition on_trace (rs : RetrySchedule) (s : Supervisor) : Prop :=
  exists p, at_phase rs s p /\ p <> Ended.

Lemma wp_publish rs st p p' (Q : _ -> _ -> Prop) s :
  at_phase rs s p -> status_step rs false p st p' ->
  (forall s', at_phase rs s' p' -> sv_attempt s' = sv_attempt s -> Q (Ok tt) s') ->
  wp (publish st) Q s.
Proof.
  intros [Hr Ht] Hs HQ. apply wp_on_sup, HQ; [|done]. split; [done|]. cbn. by eapply tr_step.
Qed.

(** The loop's promise: it goes on only from a state where it is about to make
    the attempt it counts. *)
Definition goes_on (rs : RetrySchedule) (r : result bool SupervisorError.t) (s : Supervisor) : Prop :=
  on_trace rs s /\ (r = Ok true -> at_phase rs s (Waiting (sv_attempt s))).

Lemma at_phase_on_trace rs s p : at_phase rs s p -> p <> Ended -> on_trace rs s.
Proof. intros ??. by exists p. Qed.
Hint Resolve at_phase_on_trace : quiet.

Lemma at_phase_eq rs s s' p :
  at_phase rs s p -> sv_states s' = sv_states s -> sv_retries s' = sv_retries s -> at_phase rs s' p.
Proof. intros [Hr Ht] Hs Hr'. split; congruence. Qed.

(** After a failure from [p], the wait for attempt [m'] publishes no more. *)
Lemma after_failure_wp rs p n m' reason (blocked : bool) ws (Q : _ -> _ -> Prop) s :
  at_phase rs s p ->
  status_step rs false p
    (if blocked then SupervisorState.Blocked (take_chars 512 reason)
     else SupervisorState.Reconnecting n (delay rs n (ws_jitter ws)) (take_chars 512 reason))
    (Waiting m') ->
  (forall r s', at_phase rs s' (Waiting m') -> sv_attempt s' = sv_attempt s -> Q r s') ->
  wp (after_failure n reason blocked ws) Q s.
Proof.
  intros Hp Hs HQ. unfold after_failure. apply wp_bind, wp_get.
  replace (sv_retries s) with rs by (by destruct Hp). destruct blocked;
    apply wp_bind; (eapply wp_publish; [done..|]); intros s1 K1 A1;
    (apply wp_quiet; [quiet|]); intros r s2 Hst Hat Hre; apply HQ; try congruence;
    by eapply at_phase_eq.
Qed.

(** A failed attempt is counted before the next. *)
Lemma retry_later_wp rs reason blocked ws s :
  at_phase rs s (Trying (sv_attempt s)) -> wp (retry_later reason blocked ws) (goes_on rs) s.
Proof.
  intros Hp. unfold retry_later. apply wp_bind, wp_get. apply wp_bind.
  eapply after_failure_wp; [done| |].
  - destruct blocked; constructor; apply take_chars_count.
  - intros [again|e] s' Hp' Ha; [|by split; [eauto with quiet|]].
    destruct again; [|by apply wp_ret; split; [eauto with quiet|]].
    apply wp_bind, wp_on_sup. apply wp_ret.
    assert (Hq : at_phase rs (mkSupervisor (sv_listener s') (sv_mode s') (sv_retries s')
      (sv_states s') (sv_clients s') (next_attempt (sv_attempt s)))
      (Waiting (next_attempt (sv_attempt s)))) by (by eapply at_phase_eq).
    split; [by eauto with quiet|done].
Qed.

Lemma publish_all_wp rs n hs s (Q : _ -> _ -> Prop) :
  Forall health_ok hs -> at_phase rs s (Up n None) ->
  (forall s', at_phase rs s' (Up n None) -> sv_attempt s' = sv_attempt s -> Q (Ok tt) s') ->
  wp (publish_all (health_state <$> hs)) Q s.
Proof.
  revert s. induction hs as [|h hs IH]; intros s Hf Hp HQ; cbn.
  { apply wp_ret. by apply HQ. }
  apply Forall_cons in Hf as [Hh Hf]. apply wp_bind. eapply wp_publish; [done| |].
  - destruct h as [rtts|k reason]; cbn; [constructor|]. by destruct Hh; constructor.
  - intros s1 K1 A1. apply IH; [done|done|]. intros s2 K2 A2. apply HQ; [done|congruence].
Qed.

Lemma run_worker_wp rs c rtts sc s :
  at_phase rs s (Trying (sv_attempt s)) -> wp (run_worker c rtts sc) (goes_on rs) s.
Proof.
  intros Hp. unfold run_worker. apply wp_bind, wp_get.
  assert (Hfail : forall r s', r <> Ok true -> sv_states s' = sv_states s ->
    sv_retries s' = sv_retries s -> goes_on rs r s').
  { intros r s' Hr Hs Hre. split; [|done].
    eapply (at_phase_on_trace _ _ (Trying (sv_attempt s))); [by eapply at_phase_eq|done]. }
  destruct (sv_listener s) as [l|]; [|by apply wp_throw, Hfail].
  apply wp_bind. apply wp_on_sup. apply wp_bind. apply wp_quiet; [quiet|].
  intros [worker|e] s1 Hs1 Ha1 Hr1; [|by apply Hfail].
  apply wp_bind. eapply (wp_publish rs _ (Trying (sv_attempt s))); [by eapply at_phase_eq|by constructor|].
  intros s2 K2 A2. apply wp_bind, wp_quiet; [quiet|]. intros [w|e] s3 Hs3 Ha3 Hr3.
  2:{ split; [|done]. eapply (at_phase_on_trace _ _ (Up (sv_attempt s) None));
      [by eapply at_phase_eq|done]. }
  assert (K3 : at_phase rs s3 (Up (sv_attempt s) None)) by (by eapply at_phase_eq).
  apply wp_bind, wp_world. intros outcome. apply wp_bind.
  eapply (publish_all_wp rs (sv_attempt s)); [apply observed_Forall, run_health_ok|done|].
  intros s4 K4 A4. apply wp_bind, wp_world. intros l'. apply wp_bind, wp_on_sup.
  set (s5 := mkSupervisor (Some l') _ _ _ _ _).
  assert (K5 : at_phase rs s5 (Up (sv_attempt s) None)) by (by eapply at_phase_eq).
  destruct (sc_stopped sc); [by apply wp_ret; split; [eauto with quiet|]|].
  apply wp_bind, wp_on_sup. set (m := if should_reset _ _ then 1 else _).
  eapply (after_failure_wp rs (Up (sv_attempt s) None) m m); [by eapply at_phase_eq| |].
  - constructor; [|apply take_chars_count]. subst m. destruct (should_reset _ _); auto.
  - cbn. intros r s6 K6 A6. split; [by eauto with quiet|]. intros _. by rewrite A6.
Qed.

Lemma iteration_wp rs connect sc s :
  at_phase rs s (Waiting (sv_attempt s)) -> wp (iteration connect sc) (goes_on rs) s.
Proof.
  intros Hp. unfold iteration. destruct (sc_cancelled sc).
  { apply wp_ret. split; [by eauto with quiet|done]. }
  apply wp_bind, wp_get, wp_bind. eapply wp_publish; [done|constructor|]. intros s1 K1 A1.
  apply wp_bind, wp_quiet; [quiet|]. intros r s2 Hs2 Ha2 Hr2.
  assert (K2 : at_phase rs s2 (Trying (sv_attempt s2))).
  { rewrite Ha2, A1. by eapply at_phase_eq. }
  destruct r as [[[c|error]|]|e].
  - apply wp_bind, wp_world. intros [rtts|error]; [by apply run_worker_wp|].
    apply wp_bind, wp_world. intros _. by apply retry_later_wp.
  - by apply retry_later_wp.
  - apply wp_ret. split; [by eauto with quiet|done].
  - split; [by eauto with quiet|done].
Qed.

Lemma run_until_stopped_wp rs connect scs s :
  at_phase rs s (Waiting (sv_attempt s)) -> wp (run_until_stopped connect scs) (goes_on rs) s.
Proof.
  revert s. induction scs as [|sc scs IH]; intros s Hp; cbn [run_until_stopped].
  { apply wp_ret. split; [by eauto with quiet|done]. }
  apply wp_bind. eapply wp_mono; [by apply iteration_wp|]. intros [again|e] s1 [Hon Hgo].
  - destruct again; [by apply IH, Hgo|]. by apply wp_ret.
  - by split.
Qed.

Lemma new_at_phase l mode retry self :
  Supervisor.new l mode retry = Ok self ->
  at_phase (Retry.new retry) self (Waiting (sv_attempt self)).
Proof. unfold Supervisor.new. destruct (socket l); [|done]. intros [= <-]. by repeat constructor. Qed.

Lemma local_run_trace l mode retry self connect scs w r s' w' clock ended :
  Supervisor.new l mode retry = Ok self ->
  run_until_stopped connect scs (self, w) = (r, (s', w')) ->
  (exists p, status_trace (Retry.new retry) false (sv_states s') p /\ p <> Ended
     /\ (r = Ok true -> p = Waiting (sv_attempt s')))
  /\ status_trace (Retry.new retry) false (sv_states (finish clock ended s').2) Ended.
Proof.
  intros Hn Hr. apply new_at_phase in Hn.
  destruct (run_until_stopped_wp _ connect scs self Hn w r s' w' Hr) as [(p & [Hp Ht] & Hne) Hgo].
  split.
  - destruct r as [[]|e]; [|by exists p..].
    destruct (Hgo eq_refl) as [_ Hw]. by exists (Waiting (sv_attempt s')).
  - unfold finish. destruct (match sv_listener s' with Some _ => _ | None => _ end).
    cbn. eapply tr_step; [done|by constructor].
Qed.
(** C6: A Local or Dynamic supervisor implements the specification. Whatever
    the connector, the clients, the network, the token and the random jitter
    do, and for any number of passes - also when the loop fails - the values a
    supervisor has published since it was made are a trace of [status_step]
    for its retry schedule; and once [run] ends, the trace has ended, with
    Stopped as its only and last word. *)
Theorem local_supervisor_refines l mode retry self connect scs w r s' w' clock ended :
  Supervisor.new l mode retry = Ok self ->
  run_until_stopped connect scs (self, w) = (r, (s', w')) ->
  (exists p, status_trace (Retry.new retry) false (sv_states s') p /\ p <> Ended
     /\ (r = Ok true -> p = Waiting (sv_attempt s')))
  /\ status_trace (Retry.new retry) false (sv_states (finish clock ended s').2) Ended.
Proof. apply local_run_trace. Qed.
End LocalRefines.

(** ** The Remote supervisor *)

Section RemoteRefines.
Context `{SshTransportLaws}.

Definition remote_at (rs : RetrySchedule) (s : RemoteForwardSupervisor) (p : phase) : Prop :=
  rs_retries s = rs /\ status_trace rs true (rs_states s) p.

Lemma remote_publish rs st p p' s :
  remote_at rs s p -> status_step rs true p st p' -> remote_at rs (RemoteSupervisor.publish st s) p'.
Proof. intros [Hr Ht] Hs. split; [done|]. by eapply tr_step. Qed.

Lemma remote_publish_all rs n port hs s :
  Forall health_ok hs -> remote_at rs s (Up n (Some port)) ->
  remote_at rs (RemoteSupervisor.publish_all (remote_health_state port <$> hs) s) (Up n (Some port))
  /\ rs_attempt (RemoteSupervisor.publish_all (remote_health_state port <$> hs) s) = rs_attempt s.
Proof.
  revert s. induction hs as [|h hs IH]; intros s Hf Hp; [done|].
  apply Forall_cons in Hf as [Hh Hf]. cbn.
  apply (IH (RemoteSupervisor.publish (remote_health_state port h) s) Hf).
  eapply remote_publish; [done|]. destruct h; cbn; [constructor|]. by destruct Hh; constructor.
Qed.

(** [again]: the loop goes on with the attempt it counts. *)
Definition remote_goes_on (rs : RetrySchedule) (again : bool) (s : RemoteForwardSupervisor) : Prop :=
  (exists p, remote_at rs s p /\ p <> Ended)
  /\ (again = true -> remote_at rs s (Waiting (rs_attempt s))).

Lemma remote_after_failure rs p n m' reason (blocked : bool) jitter e again s s' :
  remote_at rs s p ->
  status_step rs true p
    (if blocked then SupervisorState.Blocked (take_chars 512 reason)
     else SupervisorState.Reconnecting n (delay rs n jitter) (take_chars 512 reason))
    (Waiting m') ->
  RemoteSupervisor.after_failure n reason blocked jitter e s = (again, s') ->
  remote_at rs s' (Waiting m') /\ rs_attempt s' = rs_attempt s.
Proof.
  intros Hp Hs Ha. unfold RemoteSupervisor.after_failure in Ha.
  replace (rs_retries s) with rs in Ha by (by destruct Hp). simplify_eq. split; [|done].
  by eapply remote_publish.
Qed.

Lemma remote_retry_later rs reason blocked sc s w again s' w' :
  remote_at rs s (Trying (rs_attempt s)) ->
  RemoteSupervisor.retry_later reason blocked sc (s, w) = (again, (s', w')) ->
  remote_goes_on rs again s'.
Proof.
  intros Hp Hr. unfold RemoteSupervisor.retry_later in Hr.
  destruct (RemoteSupervisor.after_failure _ _ _ _ _ s) as [b s1] eqn:Ea. simplify_eq.
  eapply remote_after_failure in Ea as [K1 A1];
    [|done|destruct blocked; constructor; apply take_chars_count].
  assert (Hw : remote_at rs (RemoteSupervisor.set_attempt (next_attempt (rs_attempt s)) s1)
                 (Waiting (next_attempt (rs_attempt s)))) by done.
  destruct again; split; try done; by eexists.
Qed.

Lemma remote_run_registered rs worker rtts sc s w again s' w' :
  remote_at rs s (Trying (rs_attempt s)) ->
  run_registered worker rtts sc (s, w) = (again, (s', w')) -> remote_goes_on rs again s'.
Proof.
  intros Hp Hr. unfold run_registered in Hr. set (port := rf_bound_port worker) in Hr.
  set (n := rs_attempt s) in Hp.
  assert (K1 : remote_at rs (RemoteSupervisor.publish (SupervisorState.Healthy rtts (Some port)) s)
    (Up n (Some port))) by (eapply remote_publish; [done|by constructor]).
  set (s1 := RemoteSupervisor.publish _ s) in *. change n with (rs_attempt s1) in *.
  destruct (match RemoteForward.run _ _ w with Some _ => _ | None => _ end) as [outcome w1].
  destruct (remote_publish_all rs (rs_attempt s1) port
    (observed (rsc_seen sc) (remote_run_health worker (rsc_branches sc) w)) s1) as [K2 A2];
    [apply observed_Forall, remote_run_health_ok|done|].
  set (s2 := RemoteSupervisor.publish_all _ s1) in *. clearbody s2.
  destruct (RemoteForward.stop worker w1) as [r2 w2].
  destruct (rsc_stopped sc); [by simplify_eq; split; [by eexists|]|].
  set (m := if should_reset _ _ then 1 else _) in Hr.
  destruct (RemoteSupervisor.after_failure _ _ _ _ _ _) as [b s3] eqn:Ea. simplify_eq.
  eapply (remote_after_failure rs (Up (rs_attempt s1) (Some port)) m m) in Ea as [K3 A3];
    [|done|constructor; [|apply take_chars_count]].
  - split; [by eexists|]. intros _. by rewrite A3.
  - subst m. rewrite A2. destruct (should_reset _ _); auto.
Qed.

Lemma remote_iteration rs connect sc s w again s' w' :
  remote_at rs s (Waiting (rs_attempt s)) ->
  RemoteSupervisor.iteration connect sc (s, w) = (again, (s', w')) -> remote_goes_on rs again s'.
Proof.
  intros Hp Hr. unfold RemoteSupervisor.iteration in Hr.
  destruct (rsc_cancelled sc); [by simplify_eq; split; [by eexists|]|].
  assert (K1 : remote_at rs (RemoteSupervisor.publish (SupervisorState.Connecting (rs_attempt s)) s)
    (Trying (rs_attempt s))) by (eapply remote_publish; [done|constructor]).
  set (s1 := RemoteSupervisor.publish _ s) in *. change (rs_attempt s) with (rs_attempt s1) in K1.
  destruct (rsc_connect_end sc); [by simplify_eq; split; [by eexists|]|].
  destruct (connect w) as [[c|error] w1]; [|by eapply remote_retry_later].
  destruct (ping_all _ _ w1) as [[rtts|error] w2]; [|by eapply remote_retry_later].
  destruct (start_chain _ _ _ w2) as [[worker|error] w3]; [|by eapply remote_retry_later].
  by eapply remote_run_registered.
Qed.

Lemma remote_run_passes rs connect scs s w again s' w' :
  remote_at rs s (Waiting (rs_attempt s)) ->
  run_passes connect scs (s, w) = (again, (s', w')) -> remote_goes_on rs again s'.
Proof.
  revert s w. induction scs as [|sc scs IH]; intros s w Hp Hr; cbn [run_passes] in Hr.
  { simplify_eq. by split; [eexists|]. }
  destruct (RemoteSupervisor.iteration connect sc (s, w)) as [b [s1 w1]] eqn:Ei.
  destruct (remote_iteration _ _ _ _ _ _ _ _ Hp Ei) as [Hon Hgo].
  destruct b; [|by simplify_eq]. eapply IH; [by apply Hgo|done].
Qed.

Lemma remote_run_trace target retry connect scs w again s' w' :
  RemoteSupervisor.run connect scs (RemoteSupervisor.new target retry, w) = (again, (s', w')) ->
  exists p, status_trace (Retry.new retry) true (rs_states s') p
    /\ p = if again : bool then Waiting (rs_attempt s') else Ended.
Proof.
  intros Hr. unfold RemoteSupervisor.run in Hr.
  destruct (run_passes connect scs _) as [b [s1 w1]] eqn:Ep.
  apply (remote_run_passes (Retry.new retry)) in Ep as [(p & [_ Ht] & Hne) Hgo];
    [|by repeat constructor].
  destruct b; simplify_eq.
  - destruct (Hgo eq_refl) as [_ Hw]. by eexists.
  - exists Ended. split; [|done]. cbn. eapply tr_step; [done|by constructor].
Qed.

(** *** The port it shows *)

(** Connecting from [w], the server registers the forward on [port]. *)
Definition registers (connect : ST world SshChainError.t (list session)) (w : world) (port : Z) : Prop :=
  exists c w1 rtts w2 last_hop w3,
    connect w = (Ok c, w1) /\ ping_all c INITIAL_PING_TIMEOUT w1 = (Ok rtts, w2)
    /\ last c = Some last_hop
    /\ register_forward last_hop REMOTE_REQUEST_TIMEOUT w2 = (Ok port, w3).

(** Every port shown in [sts] is the one registered from [w]. *)
Definition shows_registered connect (w : world) (sts : list SupervisorState.t) : Prop :=
  Forall (fun st => match st with
                    | SupervisorState.Healthy _ port => exists p, port = Some p /\ registers connect w p
                    | _ => True
                    end) sts.

(** [sts] is published by the passes [scs], each showing its own registration. *)
Fixpoint passes_show connect (scs : list remote_script) (sw : RemoteForwardSupervisor * world)
    (sts : list SupervisorState.t) : Prop :=
  match scs with
  | [] => sts = []
  | sc :: scs => exists now later,
      sts = now ++ later /\ shows_registered connect sw.2 now
      /\ let '(again, sw') := RemoteSupervisor.iteration connect sc sw in
         if again then passes_show connect scs sw' later else later = []
  end.

Lemma shows_registered_app connect w l1 l2 :
  shows_registered connect w (l1 ++ l2) <-> shows_registered connect w l1 /\ shows_registered connect w l2.
Proof. apply Forall_app. Qed.

(** What a step appends to the published states. *)
Definition appends connect (w : world) (s s' : RemoteForwardSupervisor) : Prop :=
  exists now, rs_states s' = rs_states s ++ now /\ shows_registered connect w now.

Lemma appends_refl connect w s : appends connect w s s.
Proof. exists []. rewrite app_nil_r. split; [done|apply Forall_nil_2]. Qed.
Lemma appends_trans connect w s1 s2 s3 :
  appends connect w s1 s2 -> appends connect w s2 s3 -> appends connect w s1 s3.
Proof.
  intros (n1 & K1 & Hn1) (n2 & K2 & Hn2). exists (n1 ++ n2).
  rewrite K2, K1, app_assoc. by rewrite shows_registered_app.
Qed.
Lemma appends_publish connect w st s : shows_registered connect w [st] ->
  appends connect w s (RemoteSupervisor.publish st s).
Proof. by exists [st]. Qed.
Lemma appends_publish_all connect w sts s : shows_registered connect w sts ->
  appends connect w s (RemoteSupervisor.publish_all sts s).
Proof.
  unfold RemoteSupervisor.publish_all. revert s. induction sts as [|st sts IH]; intros s Hs; cbn; [apply appends_refl|].
  apply (shows_registered_app _ _ [st] sts) in Hs as [Hst Hsts].
  eapply appends_trans; [by apply appends_publish|by apply IH].
Qed.
Lemma appends_failure connect w n reason blocked jitter k s again s' :
  RemoteSupervisor.after_failure n reason blocked jitter k s = (again, s') -> appends connect w s s'.
Proof. intros [= _ <-]. apply appends_publish. apply Forall_singleton. by destruct blocked. Qed.

Lemma retry_later_appends connect w reason blocked sc s w1 again s' w' :
  RemoteSupervisor.retry_later reason blocked sc (s, w1) = (again, (s', w')) -> appends connect w s s'.
Proof.
  unfold RemoteSupervisor.retry_later. destruct (RemoteSupervisor.after_failure _ _ _ _ _ s) as [b s1] eqn:Ea.
  apply (appends_failure connect w) in Ea. destruct b; by intros [= <- <- <-].
Qed.

Lemma run_registered_appends connect w worker rtts sc s w1 again s' w' :
  registers connect w (rf_bound_port worker) ->
  run_registered worker rtts sc (s, w1) = (again, (s', w')) -> appends connect w s s'.
Proof.
  intros Hreg Hr. unfold run_registered in Hr.
  destruct (match RemoteForward.run _ _ w1 with Some _ => _ | None => _ end) as [outcome w2].
  destruct (RemoteForward.stop worker w2) as [r2 w3].
  set (s1 := RemoteSupervisor.publish (SupervisorState.Healthy rtts (Some (rf_bound_port worker))) s) in Hr.
  assert (K1 : appends connect w s s1).
  { apply appends_publish. apply Forall_singleton. by exists (rf_bound_port worker). }
  set (hs := observed _ _) in Hr.
  assert (K2 : appends connect w s1
    (RemoteSupervisor.publish_all (remote_health_state (rf_bound_port worker) <$> hs) s1)).
  { apply appends_publish_all. unfold shows_registered. rewrite Forall_fmap. apply Forall_true.
    intros [rtts'|k reason]; cbn; [|done]. by exists (rf_bound_port worker). }
  destruct (rsc_stopped sc); [by simplify_eq; eapply appends_trans|].
  destruct (RemoteSupervisor.after_failure _ _ _ _ _ _) as [b s3] eqn:Ea. simplify_eq.
  apply (appends_failure connect w) in Ea. eapply appends_trans; [done|]. eapply appends_trans; [done|exact Ea].
Qed.

Lemma remote_iteration_appends connect sc s w again s' w' :
  RemoteSupervisor.iteration connect sc (s, w) = (again, (s', w')) -> appends connect w s s'.
Proof.
  intros Hr. unfold RemoteSupervisor.iteration in Hr.
  destruct (rsc_cancelled sc); [simplify_eq; apply appends_refl|].
  assert (K1 : appends connect w s (RemoteSupervisor.publish (SupervisorState.Connecting (rs_attempt s)) s)).
  { apply appends_publish. by repeat constructor. }
  set (s1 := RemoteSupervisor.publish _ s) in *. eapply appends_trans; [exact K1|].
  destruct (rsc_connect_end sc); [simplify_eq; apply appends_refl|].
  destruct (connect w) as [[c|error] w1] eqn:Ec; [|by eapply retry_later_appends].
  destruct (ping_all _ _ w1) as [[rtts|error] w2] eqn:Ep; [|by eapply retry_later_appends].
  destruct (start_chain _ _ _ w2) as [[worker|error] w3] eqn:Es; [|by eapply retry_later_appends].
  eapply run_registered_appends; [|exact Hr]. unfold start_chain in Es.
  destruct (invalid_target _); [done|]. destruct (final_session c) as [x|] eqn:Ex; [|done].
  destruct (register_forward x _ w2) as [[port|e] w4] eqn:Er; [|done]. injection Es as <- <-.
  by exists c, w1, rtts, w2, x, w4.
Qed.

Lemma run_passes_show connect scs s w again s' w' :
  run_passes connect scs (s, w) = (again, (s', w')) ->
  exists sts, rs_states s' = rs_states s ++ sts /\ passes_show connect scs (s, w) sts.
Proof.
  revert s w. induction scs as [|sc scs IH]; intros s w Hr; cbn [run_passes] in Hr.
  { simplify_eq. exists []. by rewrite app_nil_r. }
  destruct (RemoteSupervisor.iteration connect sc (s, w)) as [b [s1 w1]] eqn:Ei.
  pose proof (remote_iteration_appends _ _ _ _ _ _ _ Ei) as (now & Hs1 & Hnow).
  destruct b.
  - apply IH in Hr as (later & Hs' & Hlater). exists (now ++ later). rewrite Hs', Hs1, app_assoc. split; [done|].
    exists now, later. split_and!; [done|done|]. by rewrite Ei.
  - simplify_eq. exists now. split; [done|]. exists now, []. rewrite app_nil_r. split_and!; [done|done|]. by rewrite Ei.
Qed.

End RemoteRefines.

(** ** Witnesses *)

(** The chain cannot be built, the user retries, and then stops the tunnel. *)
Definition toy_retried : script :=
  mkScript false [] FutureReady [] [] false 0 (mkWaitScript 0 [] (mkWakes true true)).

Theorem local_supervisor_refines_witness :
  exists s', run_until_stopped (H0 := toy_transport false) no_chain [toy_retried; toy_script]
      (toy_supervisor, empty_world) = (Ok false, (s', empty_world))
    /\ sv_states (finish (H := Toy.russh) (fun _ => 0) (Ok tt) s').2
       = [SupervisorState.Connecting 1; SupervisorState.Connecting 1;
          SupervisorState.Blocked "jump chain is empty"; SupervisorState.Connecting 2;
          SupervisorState.Blocked "jump chain is empty"; SupervisorState.Stopped]
    /\ status_trace (Retry.new RetryPolicy_default) false
         (sv_states (finish (H := Toy.russh) (fun _ => 0) (Ok tt) s').2) Ended.
Proof.
  destruct (run_until_stopped (H0 := toy_transport false) no_chain [toy_retried; toy_script]
    (toy_supervisor, empty_world)) as [r [s' w']] eqn:E.
  pose proof (local_supervisor_refines (H1 := toy_transport_laws false) bound_runtime
    SupervisorMode.Dynamic RetryPolicy_default toy_supervisor no_chain [toy_retried; toy_script]
    empty_world r s' w' (fun _ => 0) (Ok tt) eq_refl E) as [_ Ht].
  exists s'. split_and!; [|..|exact Ht]; injection E as <- <- <-; reflexivity.
Defined.

(** A pass that comes up, sees its session degrade and recover, and stops. *)
Definition toy_remote_passes : list remote_script :=
  [mkRemoteScript false FutureReady [RHealthTick; RCancelled] false [true] true 0 0 (mkWakes false false)].


(** A tunnel that was up and lost its session. *)
Theorem status_order_witness :
  let sts := [SupervisorState.Connecting 1; SupervisorState.Connecting 1;
              SupervisorState.Healthy [] None] in
  let b := SupervisorState.Degraded 1 "timeout" in
  exists p, status_trace (Retry.new RetryPolicy_default) false (sts ++ [b]) p
    /\ is_up (SupervisorState.Healthy [] None) = true /\ 1 <= 1 <= 2.
Proof.
  set (sts := [SupervisorState.Connecting 1; SupervisorState.Connecting 1]).
  assert (Ht : status_trace (Retry.new RetryPolicy_default) false
    (sts ++ SupervisorState.Healthy [] None :: SupervisorState.Degraded 1 "timeout" :: []) (Up 1 None)).
  { eapply (tr_step _ _ (sts ++ [SupervisorState.Healthy [] None])).
    - eapply (tr_step _ _ sts); [|by constructor].
      eapply (tr_step _ _ [SupervisorState.Connecting 1]); [constructor|constructor].
    - constructor; [lia|]. vm_compute. lia. }
  destruct (status_order _ _ _ _ _ Ht) as (_ & _ & Hd & _).
  exists (Up 1 None). split; [exact Ht|]. exact (Hd 1 "timeout"%string eq_refl).
Defined.
