(* ===== verification/Recovery.v ===== *)
(** * Recovery: a dead connection is noticed and replaced
    (the loops of crates/tunnel-core/src/local_forward.rs,
    remote_forward.rs, supervisor.rs and remote_supervisor.rs).

    LocalForward and RemoteForward prove why a worker may end; here it is that
    it does end: under every schedule in which the timers keep firing, whatever
    happens outside between two turns, a worker whose chain stays closed or
    whose pings keep failing finishes. And the supervisors never give up: as
    long as no one stops them, they survive any number of failed attempts - with
    a retry of the user after each that blocks -, and the first that succeeds
    makes the tunnel healthy. *)
From S2P Require Import Prelude Io Text Net Domain StateMachine Runtime Retry Socks5 Russh HostKey SshClient Chain LocalForward RemoteForward Supervisor RemoteSupervisor.

(** ** Endless schedules *)

Section Endless.
Context {B L R W : Type} (step : B -> L -> W -> option ((L + R) * W)).
Context (turns : nat -> B) (outside : nat -> W -> W).

(** The loop under an endless schedule: before each turn the world moves by
    itself; a turn whose branch is off does not take place. *)
Fixpoint after (n : nat) (l : L) (w : W) : (L + R) * W :=
  match n with
  | O => (inl l, w)
  | S n =>
      match after n l w with
      | (inl l, w) =>
          let w := outside n w in
          default (inl l, w) (step (turns n) l w)
      | (inr r, w) => (inr r, w)
      end
  end.

(** A branch that comes again and again. *)
Definition recurs (b : B) : Prop := forall n, exists m, (n <= m)%nat /\ turns m = b.

Lemma after_finished n m l w r w' :
  after n l w = (inr r, w') -> (n <= m)%nat -> (after m l w).1 = inr r.
Proof.
  intros Hn. induction 1 as [|m _ IH]; [by rewrite Hn|]. cbn.
  by destruct (after m l w) as [[]]; cbn in IH; simplify_eq.
Qed.

(** If from some turn on no turn raises a rank, and every turn of the recurring
    branch lowers it or ends the loop, then the loop ends. *)
Lemma ends_by_rank (I : L -> Prop) (rank : L -> nat) (b : B) k l w :
  recurs b -> I l ->
  (forall n l' w' w'' t, I l' -> after n l w = (inl l', w') ->
     step (turns n) l' (outside n w') = Some (t, w'') -> forall l'', t = inl l'' -> I l'') ->
  (forall n l' w', (k <= n)%nat -> I l' -> after n l w = (inl l', w') ->
     match step (turns n) l' (outside n w') with
     | Some (inl l'', _) => (rank l'' <= rank l')%nat /\ (turns n = b -> (rank l'' < rank l')%nat)
     | Some (inr _, _) => True
     | None => turns n <> b
     end) ->
  exists n r w', after n l w = (inr r, w').
Proof.
  intros Hb Hi0 Hinv Hrank.
  assert (HI : forall n l' w', after n l w = (inl l', w') -> I l').
  { induction n as [|n IH]; intros l' w' Hn; cbn in Hn; [by simplify_eq|].
    destruct (after n l w) as [[l1|r1] w1] eqn:E; [|done]. specialize (IH l1 w1 eq_refl).
    destruct (step (turns n) l1 (outside n w1)) as [[t w2]|] eqn:Es; cbn in Hn; [|by simplify_eq].
    injection Hn as -> ->. by eapply Hinv. }
  assert (Hgo : forall d n l' w', (k <= n)%nat -> after n l w = (inl l', w') -> (rank l' <= d)%nat ->
    exists n' r w'', after n' l w = (inr r, w'')).
  { induction d as [d IHd] using lt_wf_ind. intros n l' w' Hk Hn Hd.
    destruct (Hb n) as (m & Hm & Htm).
    assert (Hstay : forall j, (n + j <= m)%nat ->
      (exists n' r w'', after n' l w = (inr r, w''))
      \/ exists l1 w1, after (n + j) l w = (inl l1, w1) /\ (rank l1 <= d)%nat).
    { induction j as [|j IHj]; intros Hj; [right; rewrite Nat.add_0_r; eauto|].
      destruct (IHj ltac:(lia)) as [?|(l1 & w1 & H1 & Hr1)]; [by left|].
      pose proof (Hrank (n + j)%nat l1 w1 ltac:(lia) (HI _ _ _ H1) H1) as Hs.
      assert (Hnext : after (n + S j) l w = default (inl l1, outside (n + j)%nat w1)
        (step (turns (n + j)%nat) l1 (outside (n + j)%nat w1))) by (rewrite Nat.add_succ_r; cbn; by rewrite H1).
      destruct (step (turns (n + j)%nat) l1 (outside (n + j)%nat w1)) as [[[l2|r2] w2]|]; cbn in Hnext.
      - right. exists l2, w2. split; [done|lia].
      - left. by exists (n + S j)%nat, r2, w2.
      - right. exists l1, (outside (n + j)%nat w1). by split. }
    destruct (Hstay (m - n)%nat ltac:(lia)) as [?|(l1 & w1 & H1 & Hr1)]; [done|].
    replace (n + (m - n))%nat with m in H1 by lia.
    pose proof (Hrank m l1 w1 ltac:(lia) (HI _ _ _ H1) H1) as Hs.
    assert (Hnext : after (S m) l w = default (inl l1, outside m w1) (step (turns m) l1 (outside m w1)))
      by (cbn; by rewrite H1).
    destruct (step (turns m) l1 (outside m w1)) as [[[l2|r2] w2]|]; cbn in Hnext.
    - destruct Hs as [_ Hlt]. specialize (Hlt Htm). by apply (IHd (rank l2) ltac:(lia) (S m) l2 w2 ltac:(lia) Hnext).
    - by exists (S m), r2, w2.
    - done. }
  destruct (after k l w) as [[l1|r1] w1] eqn:Ek; [|by exists k, r1, w1].
  by apply (Hgo (rank l1) k l1 w1).
Qed.
End Endless.

(** ** A worker with a dead chain ends *)

Section Workers.
Context `{SshTransportLaws} (c : list session).

Definition local_turn_of (x : turn * world) : (Loop + result unit LocalForwardError.t) * world :=
  (match x.1 with Continue l => inl l | Finished r => inr r end, x.2).
Definition local_step (b : branch) (l : Loop) (w : world) := local_turn_of <$> run_step c b l w.

Definition remote_turn_of (x : remote_turn * world)
    : (Loop + result unit RemoteForwardError.t) * world :=
  (match x.1 with RContinue l => inl l | RFinished r => inr r end, x.2).
Definition remote_loop_step (b : remote_branch) (l : Loop) (w : world) :=
  remote_turn_of <$> remote_step c b l w.

(** From some turn on, the chain is found closed, or no ping gets through,
    whenever the loop looks. *)
Definition found_closed (w : world) : Prop := is_closed c w = true.
Definition unanswered (w : world) : Prop := is_err (ping_all c LocalForward.HEALTH_TIMEOUT w).1 = true.

Definition stays {B R} (step : B -> Loop -> world -> option ((Loop + R) * world)) (turns : nat -> B)
    (outside : nat -> world -> world) (w : world) (P : world -> Prop) (k : nat) : Prop :=
  forall n l' w', (k <= n)%nat -> after step turns outside n loop_start w = (inl l', w') ->
    P (outside n w').

(** How far the pings are from the third failure in a row. *)
Definition patience (l : Loop) : nat := Z.to_nat (3 - ping_failures l).

Lemma local_step_inv b l w t w' l' :
  loop_inv l -> local_step b l w = Some (t, w') -> t = inl l' -> loop_inv l'.
Proof.
  unfold local_step. intros Hi (([l1|r1] & w1) & Hs & Ht)%fmap_Some ->; cbn in Ht; [|done].
  unfold local_turn_of in Ht. cbn in Ht. injection Ht as -> ->. by apply (run_step_ok _ _ _ _ _ _ Hi) in Hs as [[? _] _].
Qed.

Lemma local_patience b l w :
  loop_inv l -> unanswered w ->
  match local_step b l w with
  | Some (inl l', _) => (patience l' <= patience l)%nat /\ (b = HealthTick -> (patience l' < patience l)%nat)
  | Some (inr _, _) => True
  | None => b <> HealthTick
  end.
Proof.
  intros Hi Hu. unfold local_step. destruct (run_step c b l w) as [[[l'|r] w']|] eqn:Es; cbn; [|done|].
  - destruct (run_step_ok _ _ _ _ _ _ Hi Es) as [[Hi' Hp] _]. unfold patience. destruct Hi as [_ _ Hf _], Hi' as [_ _ Hf' _].
    unfold unanswered, is_err in Hu. destruct b; cbn in Hp; try (rewrite Hp; split; [lia|done]).
    destruct (ping_all c LocalForward.HEALTH_TIMEOUT w).1; [done|]. cbn in Hp. rewrite Hp. unfold trail. split; lia.
  - intros ->. cbn in Es. destruct (ping_all c LocalForward.HEALTH_TIMEOUT w) as [r w']. destruct (count_ping r _) as [? []], r; done.
Qed.

Lemma local_ends turns outside w k :
  recurs turns SessionTick -> recurs turns HealthTick ->
  stays local_step turns outside w found_closed k \/ stays local_step turns outside w unanswered k ->
  exists n r w', after local_step turns outside n loop_start w = (inr r, w').
Proof.
  intros Hst Hht [Hd|Hd].
  - apply (ends_by_rank local_step turns outside loop_inv (fun _ => O) SessionTick k loop_start w Hst loop_start_inv).
    + intros. by eapply local_step_inv.
    + intros n l' w' Hk _ Hn. destruct (turns n) eqn:Et.
      2: unfold local_step; cbn; by rewrite (Hd n l' w' Hk Hn).
      all: by destruct (local_step _ _ _) as [[[] ]|].
  - apply (ends_by_rank local_step turns outside loop_inv patience HealthTick k loop_start w Hht loop_start_inv).
    + intros. by eapply local_step_inv.
    + intros n l' w' Hk Hi Hn. apply local_patience; [done|]. by apply (Hd n l' w').
Qed.

Lemma remote_loop_step_inv b l w t w' l' :
  loop_inv l -> remote_loop_step b l w = Some (t, w') -> t = inl l' -> loop_inv l'.
Proof.
  unfold remote_loop_step. intros Hi (([l1|r1] & w1) & Hs & Ht)%fmap_Some ->; cbn in Ht; [|done].
  unfold remote_turn_of in Ht. cbn in Ht. injection Ht as -> ->. by apply (remote_step_ok _ _ _ _ _ _ Hi) in Hs as [[? _] _].
Qed.

Lemma remote_patience b l w :
  loop_inv l -> unanswered w ->
  match remote_loop_step b l w with
  | Some (inl l', _) => (patience l' <= patience l)%nat /\ (b = RHealthTick -> (patience l' < patience l)%nat)
  | Some (inr _, _) => True
  | None => b <> RHealthTick
  end.
Proof.
  intros Hi Hu. unfold remote_loop_step. destruct (remote_step c b l w) as [[[l'|r] w']|] eqn:Es; cbn; [|done|].
  - destruct (remote_step_ok _ _ _ _ _ _ Hi Es) as [[Hi' Hp] _]. unfold patience. destruct Hi as [_ _ Hf _], Hi' as [_ _ Hf' _].
    unfold unanswered, is_err in Hu. destruct b; cbn in Hp; try (rewrite Hp; split; [lia|done]).
    change HEALTH_TIMEOUT with LocalForward.HEALTH_TIMEOUT in Hp.
    destruct (ping_all c LocalForward.HEALTH_TIMEOUT w).1; [done|]. cbn in Hp. rewrite Hp. unfold trail. split; lia.
  - intros ->. cbn in Es. destruct (ping_all c HEALTH_TIMEOUT w) as [r w']. destruct (count_ping r _) as [? []], r; done.
Qed.

Lemma remote_ends turns outside w k :
  recurs turns RSessionTick -> recurs turns RHealthTick ->
  stays remote_loop_step turns outside w found_closed k \/ stays remote_loop_step turns outside w unanswered k ->
  exists n r w', after remote_loop_step turns outside n loop_start w = (inr r, w').
Proof.
  intros Hst Hht [Hd|Hd].
  - apply (ends_by_rank remote_loop_step turns outside loop_inv (fun _ => O) RSessionTick k loop_start w Hst loop_start_inv).
    + intros. by eapply remote_loop_step_inv.
    + intros n l' w' Hk _ Hn. destruct (turns n) eqn:Et.
      2: unfold remote_loop_step; cbn; by rewrite (Hd n l' w' Hk Hn).
      all: by destruct (remote_loop_step _ _ _) as [[[] ]|].
  - apply (ends_by_rank remote_loop_step turns outside loop_inv patience RHealthTick k loop_start w Hht loop_start_inv).
    + intros. by eapply remote_loop_step_inv.
    + intros n l' w' Hk Hi Hn. apply remote_patience; [done|]. by apply (Hd n l' w').
Qed.
End Workers.

(** ** The supervisors go on *)

(** A pass no one stops: the token does not fire before the end of the delay,
    and accepting on the listener does not fail. *)
Definition calm_event (e : unhealthy_event) : Prop :=
  match e with ClientAccepted (Err _) => False | _ => True end.

Record calm (sc : script) : Prop := {
  ca_top : sc_cancelled sc = false;
  ca_connect : Forall calm_event (sc_connect_events sc) /\ sc_connect_end sc = FutureReady;
  ca_after : sc_stopped sc = false;
  ca_wait : Forall calm_event (ws_events (sc_wait sc)) /\ wk_timer (ws_wakes (sc_wait sc)) = true
}.

Record remote_calm (sc : remote_script) : Prop := {
  rc_top : rsc_cancelled sc = false;
  rc_connect : rsc_connect_end sc = FutureReady;
  rc_after : rsc_stopped sc = false;
  rc_wait : wk_timer (rsc_wakes sc) = true
}.

Section GoesOn.
Context `{SshTransportLaws}.

Lemma unhealthy_turn_calm e sw r sw' : calm_event e -> unhealthy_turn e sw = (r, sw') -> r = Ok tt.
Proof.
  destruct sw as [s w]. unfold unhealthy_turn, bind, get_sup, set_clients, on_sup, reject_unhealthy.
  destruct e as [task|[task|io]]; cbn; [by intros _ [= <- _]| |done]. intros _.
  case_bool_decide; [|by intros [= <- _]]. unfold bind, get_sup. destruct (sv_mode s); by intros [= <- _].
Qed.

Lemma while_calm {T} l base events (f : world -> T * world) sw :
  socket l <> None -> sup_inv l base sw -> Forall calm_event events ->
  exists t sw', while_unhealthy events FutureReady f sw = (Ok (Some t), sw').
Proof.
  intros Hl Hi He. revert sw Hi. induction He as [|e events He _ IH]; intros sw Hi; cbn;
    unfold bind; rewrite (require_listener_ok l base) by done.
  - destruct sw as [s w]. unfold on_world. destruct (f w) as [t w'] eqn:Ef. exists t, (s, w'). done.
  - destruct (unhealthy_turn e sw) as [r sw1] eqn:Et. pose proof (unhealthy_turn_calm _ _ _ _ He Et) as ->.
    destruct (unhealthy_turn_ok l base e sw _ sw1 Hi Et) as (Hi1 & _). by apply IH.
Qed.

(** Wait for the user after a blocking error, for the timer after any other. *)
Lemma awaited_ready blocked k :
  wk_timer k = true -> (blocked = true -> wk_hint k = true) -> awaited blocked k = FutureReady.
Proof.
  unfold awaited. intros -> Hb. destruct blocked; [by rewrite Hb|]. by destruct (wk_hint k).
Qed.

Lemma while_stopped {T} l base events (f : world -> T * world) sw :
  socket l <> None -> sup_inv l base sw -> Forall calm_event events ->
  exists sw', while_unhealthy events TokenFired f sw = (Ok None, sw').
Proof.
  intros Hl Hi He. revert sw Hi. induction He as [|e events He _ IH]; intros sw Hi; cbn;
    unfold bind; rewrite (require_listener_ok l base) by done; [by exists sw|].
  destruct (unhealthy_turn e sw) as [r sw1] eqn:Et. pose proof (unhealthy_turn_calm _ _ _ _ He Et) as ->.
  destruct (unhealthy_turn_ok l base e sw _ sw1 Hi Et) as (Hi1 & _). by apply IH.
Qed.

Lemma after_failure_calm l base attempt reason blocked ws sw :
  socket l <> None -> sup_inv l base sw -> Forall calm_event (ws_events ws) ->
  awaited blocked (ws_wakes ws) = FutureReady ->
  exists sw', Supervisor.after_failure attempt reason blocked ws sw = (Ok true, sw').
Proof.
  destruct sw as [s w]. intros Hl Hi He Hend. unfold Supervisor.after_failure, bind, get_sup, Supervisor.publish, on_sup.
  assert (Hi' : forall sts, sup_inv l base (mkSupervisor (sv_listener s) (sv_mode s) (sv_retries s) sts (sv_clients s)
    (sv_attempt s), w)) by (by destruct Hi).
  destruct blocked; rewrite Hend; cbn [sv_listener sv_mode sv_retries sv_states sv_clients sv_attempt].
  all: match goal with |- context [while_unhealthy ?ev _ ?f ?sw] =>
      destruct (while_calm l base ev f sw Hl (Hi' _) He) as (t & sw' & ->) end; by exists sw'.
Qed.

Lemma retry_later_calm l base reason blocked ws sw :
  socket l <> None -> sup_inv l base sw -> Forall calm_event (ws_events ws) ->
  awaited blocked (ws_wakes ws) = FutureReady ->
  exists sw', Supervisor.retry_later reason blocked ws sw = (Ok true, sw').
Proof.
  destruct sw as [s w]. intros Hl Hi He Hend. unfold Supervisor.retry_later, bind at 1, get_sup, bind at 1.
  destruct (after_failure_calm l base (sv_attempt s) reason blocked ws (s, w) Hl Hi He Hend) as [[s1 w1] ->].
  unfold bind, Supervisor.set_attempt, on_sup, ret. by eexists.
Qed.

(** Without a retry of the user, only a stop ends the wait after an error that
    blocks. *)
Lemma retry_later_blocked l base reason ws sw :
  socket l <> None -> sup_inv l base sw -> Forall calm_event (ws_events ws) -> wk_timer (ws_wakes ws) = true ->
  exists sw', Supervisor.retry_later reason true ws sw = (Ok (wk_hint (ws_wakes ws)), sw')
    /\ sv_states sw'.1 = sv_states sw.1 ++ [SupervisorState.Blocked (take_chars 512 reason)].
Proof.
  intros Hl Hi He Ht.
  assert (Hx : exists sw', Supervisor.retry_later reason true ws sw = (Ok (wk_hint (ws_wakes ws)), sw')).
  { destruct (wk_hint (ws_wakes ws)) eqn:Eh.
    { apply (retry_later_calm l base); [done..|]. by apply awaited_ready. }
    destruct sw as [s w]. unfold Supervisor.retry_later, bind at 1, get_sup, Supervisor.after_failure, bind, get_sup,
      Supervisor.publish, on_sup, awaited. rewrite Eh. cbn [orb andb negb].
    cbn [sv_listener sv_mode sv_retries sv_states sv_clients sv_attempt].
    match goal with |- context [while_unhealthy ?ev _ ?f ?sw] =>
      destruct (while_stopped l base ev f sw Hl ltac:(by destruct Hi) He) as (sw' & ->) end. by exists sw'. }
  destruct Hx as [sw' Hx]. exists sw'. split; [done|].
  by destruct (retry_later_ok l base reason true ws sw _ _ Hl Hi Hx) as (_ & Hs & _).
Qed.

(** A worker that ran is followed by another attempt; the states start with
    Healthy. *)
Lemma run_worker_calm l base c rtts sc s w :
  socket l <> None -> sv_listener s = Some l ->
  (length (sv_clients s) <= MAX_UNHEALTHY_CLIENTS)%nat -> live w = base ++ c -> calm sc ->
  exists sw' rest, run_worker c rtts sc (s, w) = (Ok true, sw')
    /\ sv_states sw'.1 = sv_states s ++ SupervisorState.Healthy rtts None :: rest.
Proof.
  intros Hl Hs Hc Hw [_ _ Hstop [Hev Hend]]. unfold run_worker, bind at 1, get_sup. rewrite Hs.
  unfold bind at 1, set_listener at 1, on_sup.
  assert (Hb : exists m, match sv_mode s with
    | SupervisorMode.Local remote => new_chain l c remote false
    | SupervisorMode.Dynamic => new_dynamic_chain l c false
    end = Ok (mkLocalForwardWorker l (Some c) m false false [] None)).
  { destruct (sv_mode s); eexists; by apply build_bound. }
  destruct Hb as [m ->]. cbn [map_err]. unfold bind at 1, lift, bind at 1, Supervisor.publish, on_sup, bind at 1, get_world, bind at 1, on_world at 1.
  set (worker := mkLocalForwardWorker l (Some c) m false false [] None).
  set (outcome := match LocalForward.run worker (sc_branches sc) w with
    | Some (Finished r, w') => (r, w')
    | Some (Continue _, w') => (Err LocalForwardError.SessionClosed, w')
    | None => (Err LocalForwardError.SessionClosed, w)
    end).
  assert (Hlive : live outcome.2 = base ++ c).
  { subst outcome. destruct (LocalForward.run worker (sc_branches sc) w) as [[[l'|r'] w']|] eqn:Er; cbn; [..|done];
      apply run_live in Er; congruence. }
  destruct outcome as [out w1]. cbn in Hlive. unfold bind at 1. rewrite publish_all_ok.
  unfold bind, on_world, set_listener, on_sup. cbn. rewrite Hstop. unfold Supervisor.set_attempt, on_sup.
  pose proof (disconnect_all_live c base w1 Hlive) as Hd.
  match goal with |- context [Supervisor.after_failure ?a ?reason false ?ws ?sw] =>
    destruct (after_failure_calm l base a reason false ws sw Hl) as [sw' Ha];
      [by split|done|by apply awaited_ready|]; rewrite Ha;
    destruct (after_failure_ok l base a reason false ws sw _ _ Hl ltac:(by split) Ha) as (_ & _ & _ & Hst & _) end.
  eexists _, _. split; [done|]. rewrite Hst. cbn. rewrite <-!app_assoc. done.
Qed.

(** If the attempt fails with an error that blocks, the user asks for a retry. *)
Definition retried (connect : ST world SshChainError.t (list session)) (sc : script) (w : world) : Prop :=
  forall e w1, connect w = (Err e, w1) -> chain_retryability e = Retryability.Blocked ->
    wk_hint (ws_wakes (sc_wait sc)) = true.

(** The same of every pass of a run. *)
Fixpoint user_retries (connect : ST world SshChainError.t (list session)) (scs : list script)
    (sw : Supervisor * world) : Prop :=
  match scs with
  | [] => True
  | sc :: scs => retried connect sc sw.2 /\ user_retries connect scs (Supervisor.iteration connect sc sw).2
  end.

Lemma iteration_calm connect l base sc sw :
  connector_ok connect -> socket l <> None -> sup_inv l base sw -> calm sc -> retried connect sc sw.2 ->
  exists sw', Supervisor.iteration connect sc sw = (Ok true, sw')
    /\ (forall c w1 rtts w2, connect sw.2 = (Ok c, w1) -> ping_all c INITIAL_PING_TIMEOUT w1 = (Ok rtts, w2) ->
          exists rest, sv_states sw'.1
            = sv_states sw.1 ++ SupervisorState.Connecting (sv_attempt sw.1)
                :: SupervisorState.Healthy rtts None :: rest).
Proof.
  intros Hcon Hl Hi Hca Hret. pose proof Hca as [Htop [Hev Hend] _ [Hwe Hwend]]. unfold Supervisor.iteration. rewrite Htop, Hend.
  destruct sw as [s w]. unfold bind at 1, get_sup, bind at 1, Supervisor.publish, on_sup.
  set (s1 := mkSupervisor _ _ _ _ _ _).
  assert (Hi1 : sup_inv l base (s1, w)) by (by destruct Hi).
  destruct (while_calm l base _ connect (s1, w) Hl Hi1 Hev) as (r & [s2 w2] & Hw).
  unfold bind at 1. rewrite Hw.
  destruct (while_unhealthy_ok l base _ _ _ _ _ _ Hl Hi1 Hw) as ((Ho & _) & Hst & _ & Hcl & Hres).
  destruct Hi1 as [Hil _ Hiw]. cbn [fst snd] in *. pose proof (Hcon _ _ _ Hres) as Hlive.
  destruct r as [c|error].
  - unfold bind at 1, on_world. destruct (ping_all c INITIAL_PING_TIMEOUT w2) as [pinged w3] eqn:Ep.
    pose proof (ping_all_live _ _ _ _ _ Ep) as Hw3. destruct pinged as [rtts|error].
    + destruct (run_worker_calm l base c rtts sc s2 w3) as (sw' & rest & -> & Hs');
        [done|congruence|done|congruence|done|].
      exists sw'. split; [done|]. intros c' w1' rtts' w2' Hc' Hp'. exists rest. rewrite Hs', Hst. subst s1. cbn.
      rewrite <-app_assoc. rewrite Hres in Hc'. injection Hc' as <- <-. rewrite Ep in Hp'. by injection Hp' as <- _.
    + destruct (retry_later_calm l base (show_chain_error error) false (sc_wait sc) (s2, disconnect c w3)) as [sw' Hr];
        [done|split; cbn; [congruence|done|apply (disconnect_all_live c); congruence]|done|by apply awaited_ready|].
      exists sw'. split; [exact Hr|]. intros c' w1' rtts' w2' Hc'. rewrite Hres in Hc'. injection Hc' as <- <-.
      by rewrite Ep.
  - destruct (retry_later_calm l base (show_chain_error error)
      (bool_decide (chain_retryability error = Retryability.Blocked)) (sc_wait sc) (s2, w2)) as [sw' Hr];
      [done|split; cbn; [congruence|done|congruence]|done| |].
    { apply awaited_ready; [done|]. intros Hb%bool_decide_eq_true_1. by eapply Hret. }
    exists sw'. split; [exact Hr|]. intros c' w1' rtts' w2' Hc'. by rewrite Hres in Hc'.
Qed.

(** An attempt that fails with an error that blocks: the tunnel is shown as
    blocked, and the supervisor goes on exactly if the user asks for it. *)
Lemma iteration_blocked connect l base sc sw e w1 :
  connector_ok connect -> socket l <> None -> sup_inv l base sw -> calm sc ->
  connect sw.2 = (Err e, w1) -> chain_retryability e = Retryability.Blocked ->
  exists sw', Supervisor.iteration connect sc sw = (Ok (wk_hint (ws_wakes (sc_wait sc))), sw')
    /\ sv_states sw'.1 = sv_states sw.1 ++ [SupervisorState.Connecting (sv_attempt sw.1);
                                           SupervisorState.Blocked (take_chars 512 (show_chain_error e))].
Proof.
  intros Hcon Hl Hi [Htop [Hev Hend] _ [Hwe Ht]] Hc Hb. unfold Supervisor.iteration. rewrite Htop, Hend.
  destruct sw as [s w]. unfold bind at 1, get_sup, bind at 1, Supervisor.publish, on_sup.
  set (s1 := mkSupervisor _ _ _ _ _ _).
  assert (Hi1 : sup_inv l base (s1, w)) by (by destruct Hi).
  destruct (while_calm l base _ connect (s1, w) Hl Hi1 Hev) as (r & [s2 w2] & Hw).
  unfold bind at 1. rewrite Hw.
  destruct (while_unhealthy_ok l base _ _ _ _ _ _ Hl Hi1 Hw) as ((Ho & _) & Hst & _ & Hcl & Hres).
  destruct Hi1 as [Hil _ Hiw]. cbn [fst snd] in *. rewrite Hc in Hres. injection Hres as <- <-.
  rewrite (bool_decide_eq_true_2 _ Hb). apply Hcon in Hc.
  destruct (retry_later_blocked l base (show_chain_error e) (sc_wait sc) (s2, w1)) as (sw' & Hr & Hs');
    [done|split; cbn; [congruence|done|congruence]|done..|].
  exists sw'. split; [exact Hr|]. rewrite Hs'. cbn. rewrite Hst. subst s1. cbn. by rewrite <-app_assoc.
Qed.

Lemma run_until_stopped_app connect scs sc sw :
  run_until_stopped connect (scs ++ [sc]) sw
  = match run_until_stopped connect scs sw with
    | (Ok true, sw') => run_until_stopped connect [sc] sw'
    | x => x
    end.
Proof.
  revert sw. induction scs as [|sc0 scs IH]; intros sw; [done|]. cbn [app run_until_stopped]. unfold bind.
  destruct (Supervisor.iteration connect sc0 sw) as [[[]|] sw1]; [apply IH|done|done].
Qed.

Lemma passes_calm connect l base scs sw :
  connector_ok connect -> socket l <> None -> sup_inv l base sw -> Forall calm scs ->
  user_retries connect scs sw ->
  exists sw', run_until_stopped connect scs sw = (Ok true, sw').
Proof.
  intros Hcon Hl Hi Hca. revert sw Hi. induction Hca as [|sc scs Hsc _ IH]; intros sw Hi; cbn; [by exists sw|].
  intros [Hret Hrest].
  destruct (iteration_calm connect l base sc sw Hcon Hl Hi Hsc Hret) as (sw1 & Hit & _). unfold bind. rewrite Hit in *.
  apply IH; [|done]. by apply (iteration_ok connect l base) in Hit as (? & _).
Qed.

(** *** Remote tunnels *)

Lemma remote_publish_states sts (s : RemoteForwardSupervisor) :
  rs_states (RemoteSupervisor.publish_all sts s) = rs_states s ++ sts.
Proof.
  revert s. induction sts as [|st sts IH]; intros s; cbn; [by rewrite app_nil_r|].
  unfold RemoteSupervisor.publish_all in IH. rewrite IH. cbn. by rewrite <-app_assoc.
Qed.

Lemma remote_retry_calm reason blocked sc s w :
  remote_calm sc -> (blocked = true -> wk_hint (rsc_wakes sc) = true) ->
  exists s', RemoteSupervisor.retry_later reason blocked sc (s, w) = (true, (s', w)).
Proof.
  intros [_ _ _ Hw] Hb. unfold RemoteSupervisor.retry_later, RemoteSupervisor.after_failure.
  rewrite (awaited_ready blocked) by done. by eexists.
Qed.

Lemma remote_retry_blocked reason sc s w :
  exists s', RemoteSupervisor.retry_later reason true sc (s, w) = (wk_hint (rsc_wakes sc), (s', w))
    /\ rs_states s' = rs_states s ++ [SupervisorState.Blocked (take_chars 512 reason)].
Proof.
  unfold RemoteSupervisor.retry_later, RemoteSupervisor.after_failure, awaited.
  destruct (wk_hint (rsc_wakes sc)); by eexists.
Qed.

(** The attempt of a Remote tunnel fails with an error that blocks. *)
Inductive remote_blocks (connect : ST world SshChainError.t (list session)) (target : LocalEndpoint)
    (w : world) : string -> Prop :=
  | blocks_connect e w1 :
      connect w = (Err e, w1) -> chain_retryability e = Retryability.Blocked ->
      remote_blocks connect target w (show_chain_error e)
  | blocks_register c w1 rtts w2 e w3 :
      connect w = (Ok c, w1) -> ping_all c INITIAL_PING_TIMEOUT w1 = (Ok rtts, w2) ->
      start_chain c target false w2 = (Err e, w3) -> remote_retryability e = Retryability.Blocked ->
      remote_blocks connect target w (show_remote_forward_error e).

Definition remote_retried (connect : ST world SshChainError.t (list session)) (sc : remote_script)
    (sw : RemoteForwardSupervisor * world) : Prop :=
  forall reason, remote_blocks connect (rs_local_target sw.1) sw.2 reason -> wk_hint (rsc_wakes sc) = true.

Fixpoint remote_user_retries (connect : ST world SshChainError.t (list session)) (scs : list remote_script)
    (sw : RemoteForwardSupervisor * world) : Prop :=
  match scs with
  | [] => True
  | sc :: scs => remote_retried connect sc sw
      /\ remote_user_retries connect scs (RemoteSupervisor.iteration connect sc sw).2
  end.

Lemma registered_calm worker rtts sc s w :
  remote_calm sc ->
  exists sw' rest, run_registered worker rtts sc (s, w) = (true, sw')
    /\ rs_states sw'.1
       = rs_states s ++ SupervisorState.Healthy rtts (Some (rf_bound_port worker)) :: rest.
Proof.
  intros [_ _ Hstop Hw]. unfold run_registered.
  destruct (match RemoteForward.run worker (rsc_branches sc) w with Some (RContinue _, w') => _ | _ => _ end) as [out w1].
  destruct (RemoteForward.stop worker w1) as [r2 w2]. rewrite Hstop.
  unfold RemoteSupervisor.after_failure. rewrite (awaited_ready false) by done. eexists _, _. split; [reflexivity|].
  cbn [fst rs_states RemoteSupervisor.publish RemoteSupervisor.set_attempt]. rewrite remote_publish_states. cbn [rs_states RemoteSupervisor.publish].
  by rewrite <-!app_assoc.
Qed.

Lemma remote_iteration_calm connect sc s w :
  remote_calm sc -> remote_retried connect sc (s, w) ->
  exists sw', RemoteSupervisor.iteration connect sc (s, w) = (true, sw')
    /\ forall c w1 rtts w2 worker w3, connect w = (Ok c, w1) ->
         ping_all c INITIAL_PING_TIMEOUT w1 = (Ok rtts, w2) ->
         start_chain c (rs_local_target s) false w2 = (Ok worker, w3) ->
         exists rest, rs_states sw'.1 = rs_states s ++ SupervisorState.Connecting (rs_attempt s)
           :: SupervisorState.Healthy rtts (Some (rf_bound_port worker)) :: rest.
Proof.
  intros Hc Hret. pose proof Hc as [Htop Hcon _ _]. unfold RemoteSupervisor.iteration. rewrite Htop, Hcon.
  destruct (connect w) as [[c|e] w1] eqn:Ec; cbn [fst snd].
  2:{ edestruct remote_retry_calm as [s' ->]; [done| |by eexists; split; [done|]].
      intros Hb%bool_decide_eq_true_1. by eapply Hret, blocks_connect. }
  destruct (ping_all c INITIAL_PING_TIMEOUT w1) as [[rtts|e] w2] eqn:Ep.
  2:{ edestruct remote_retry_calm as [s' ->]; [done|done|]. eexists. split; [done|].
      intros c' w1' rtts w2' worker w3 [= <- <-]. by rewrite Ep. }
  change (rs_local_target (RemoteSupervisor.publish _ s)) with (rs_local_target s).
  destruct (start_chain c (rs_local_target s) false w2) as [[worker|e] w3] eqn:Es.
  - edestruct registered_calm as (sw' & rest & -> & Hs'); [done|]. eexists. split; [done|].
    intros c' w1' rtts' w2' worker' w3' [= <- <-]. rewrite Ep. intros [= <- <-]. rewrite Es. intros [= <- <-].
    exists rest. rewrite Hs'. cbn. by rewrite <-app_assoc.
  - edestruct remote_retry_calm as [s' ->]; [done| |].
    { intros Hb%bool_decide_eq_true_1. by eapply Hret, blocks_register. }
    eexists. split; [done|].
    intros c' w1' rtts' w2' worker' w3' [= <- <-]. rewrite Ep. intros [= <- <-]. by rewrite Es.
Qed.

Lemma remote_iteration_blocked connect sc s w reason :
  remote_calm sc -> remote_blocks connect (rs_local_target s) w reason ->
  exists sw', RemoteSupervisor.iteration connect sc (s, w) = (wk_hint (rsc_wakes sc), sw')
    /\ rs_states sw'.1 = rs_states s ++ [SupervisorState.Connecting (rs_attempt s);
                                        SupervisorState.Blocked (take_chars 512 reason)].
Proof.
  intros [Htop Hcon _ _] Hb. unfold RemoteSupervisor.iteration. rewrite Htop, Hcon.
  change (rs_local_target (RemoteSupervisor.publish _ s)) with (rs_local_target s).
  destruct Hb as [e w1 -> He|c w1 rtts w2 e w3 -> -> -> He]; rewrite (bool_decide_eq_true_2 _ He);
    edestruct remote_retry_blocked as (s' & -> & Hs); eexists; (split; [done|]); cbn [fst];
    rewrite Hs; cbn; by rewrite <-app_assoc.
Qed.

Lemma run_passes_app connect scs sc sw :
  run_passes connect (scs ++ [sc]) sw
  = match run_passes connect scs sw with
    | (true, sw') => run_passes connect [sc] sw'
    | x => x
    end.
Proof.
  revert sw. induction scs as [|sc0 scs IH]; intros sw; [done|]. cbn [app run_passes].
  destruct (RemoteSupervisor.iteration connect sc0 sw) as [[] sw1]; [apply IH|done].
Qed.

Lemma remote_passes_calm connect scs sw :
  Forall remote_calm scs -> remote_user_retries connect scs sw ->
  exists sw', run_passes connect scs sw = (true, sw').
Proof.
  intros Hca. revert sw. induction Hca as [|sc scs Hsc _ IH]; intros [s w]; cbn [run_passes remote_user_retries]; [by eexists|].
  intros [Hret Hrest]. destruct (remote_iteration_calm connect sc s w Hsc Hret) as (sw1 & Hit & _).
  rewrite Hit in *. by apply IH.
Qed.
End GoesOn.

(** ** Theorems *)

Section RecoveryClaims.
Context `{SshTransportLaws}.

(** C16: A dead connection is noticed. Take the loop of a worker, local or
    remote, under any endless schedule of its branches in which both timers
    keep firing, with anything happening outside between two turns. If from
    some turn on the chain is closed whenever the loop looks, or no ping gets
    through, then the loop ends - whatever clients, channels and open requests
    keep it busy. *)
Theorem dead_worker_ends c w k :
  (forall turns outside, recurs turns SessionTick -> recurs turns HealthTick ->
     stays (local_step c) turns outside w (found_closed c) k
     \/ stays (local_step c) turns outside w (unanswered c) k ->
     exists n r w', after (local_step c) turns outside n loop_start w = (inr r, w'))
  /\ (forall turns outside, recurs turns RSessionTick -> recurs turns RHealthTick ->
     stays (remote_loop_step c) turns outside w (found_closed c) k
     \/ stays (remote_loop_step c) turns outside w (unanswered c) k ->
     exists n r w', after (remote_loop_step c) turns outside n loop_start w = (inr r, w')).
Proof. split; intros turns outside; [apply local_ends|apply remote_ends]. Qed.

(** C15: A supervisor does not give up. As long as no one stops it and its
    listener accepts, and the user asks for a retry after every error that
    blocks, the supervisor of a Local or Dynamic tunnel goes on after any number
    of passes, however the connections, pings and workers fail; and when the
    next attempt connects and answers, it publishes the attempt and then
    Healthy, on the same listener. After an error that blocks it shows Blocked
    and nothing else, and makes another attempt exactly if the user asks for it,
    however much time passes. The same holds of a Remote tunnel, once the
    registration succeeds too. *)
Theorem supervisor_recovers l mode retry self connect scs w :
  Supervisor.new l mode retry = Ok self -> connector_ok connect -> Forall calm scs ->
  user_retries connect scs (self, w) ->
  (exists s' w', run_until_stopped connect scs (self, w) = (Ok true, (s', w'))
     /\ sv_listener s' = Some l
     /\ (forall sc c w1 rtts w2, calm sc -> connect w' = (Ok c, w1) ->
          ping_all c INITIAL_PING_TIMEOUT w1 = (Ok rtts, w2) ->
          exists s'' w'' rest, run_until_stopped connect (scs ++ [sc]) (self, w) = (Ok true, (s'', w''))
            /\ sv_listener s'' = Some l
            /\ sv_states s'' = sv_states s' ++ SupervisorState.Connecting (sv_attempt s')
                 :: SupervisorState.Healthy rtts None :: rest)
     /\ (forall sc e w1, calm sc -> connect w' = (Err e, w1) -> chain_retryability e = Retryability.Blocked ->
          exists s'' w'', run_until_stopped connect (scs ++ [sc]) (self, w)
              = (Ok (wk_hint (ws_wakes (sc_wait sc))), (s'', w''))
            /\ sv_states s'' = sv_states s' ++ [SupervisorState.Connecting (sv_attempt s');
                 SupervisorState.Blocked (take_chars 512 (show_chain_error e))]))
  /\ (forall rs rscs, Forall remote_calm rscs -> remote_user_retries connect rscs (rs, w) ->
     exists s' w', run_passes connect rscs (rs, w) = (true, (s', w'))
       /\ (forall sc c w1 rtts w2 worker w3, remote_calm sc -> connect w' = (Ok c, w1) ->
            ping_all c INITIAL_PING_TIMEOUT w1 = (Ok rtts, w2) ->
            start_chain c (rs_local_target s') false w2 = (Ok worker, w3) ->
            exists s'' w'' rest, run_passes connect (rscs ++ [sc]) (rs, w) = (true, (s'', w''))
              /\ rs_states s'' = rs_states s' ++ SupervisorState.Connecting (rs_attempt s')
                   :: SupervisorState.Healthy rtts (Some (rf_bound_port worker)) :: rest)
       /\ (forall sc reason, remote_calm sc -> remote_blocks connect (rs_local_target s') w' reason ->
            exists s'' w'', run_passes connect (rscs ++ [sc]) (rs, w) = (wk_hint (rsc_wakes sc), (s'', w''))
              /\ rs_states s'' = rs_states s' ++ [SupervisorState.Connecting (rs_attempt s');
                   SupervisorState.Blocked (take_chars 512 reason)])).
Proof.
  intros Hn Hcon Hca Hret. destruct (new_inv l mode retry self w Hn) as [Hl Hi]. split.
  - destruct (passes_calm connect l (live w) scs (self, w) Hcon Hl Hi Hca Hret) as [[s' w'] Hr].
    pose proof (run_until_stopped_ok connect l (live w) scs _ _ _ Hcon Hl Hi Hr) as [Hi' _].
    exists s', w'. split; [done|]. split; [by destruct Hi'|]. split.
    + intros sc c w1 rtts w2 Hsc Hc Hp.
      destruct (iteration_calm connect l (live w) sc (s', w') Hcon Hl Hi' Hsc) as ([s'' w''] & Hit & Hst).
      { intros e w1' He. cbn in He. congruence. }
      destruct (Hst c w1 rtts w2 Hc Hp) as [rest Hrest]. exists s'', w'', rest.
      rewrite run_until_stopped_app, Hr. cbn [run_until_stopped]. unfold bind. rewrite Hit. split; [done|].
      split; [|done]. by apply (iteration_ok connect l (live w)) in Hit as [[] _].
    + intros sc e w1 Hsc Hc Hb.
      destruct (iteration_blocked connect l (live w) sc (s', w') e w1 Hcon Hl Hi' Hsc Hc Hb) as ([s'' w''] & Hit & Hst).
      exists s'', w''. rewrite run_until_stopped_app, Hr. cbn [run_until_stopped]. unfold bind. rewrite Hit.
      by destruct (wk_hint _).
  - intros rs rscs Hrc Hrr. destruct (remote_passes_calm connect rscs (rs, w) Hrc Hrr) as [[s' w'] Hr].
    exists s', w'. split; [done|]. split.
    + intros sc c w1 rtts w2 worker w3 Hsc Hc Hp Hs.
      destruct (remote_iteration_calm connect sc s' w' Hsc) as ([s'' w''] & Hit & Hst).
      { intros reason [e w1' He _|c' w1' rtts' w2' e w3' Hc' Hp' He _]; cbn in *; [congruence|].
        rewrite Hc in Hc'. injection Hc' as <- <-. rewrite Hp in Hp'. injection Hp' as <- <-. congruence. }
      destruct (Hst c w1 rtts w2 worker w3 Hc Hp Hs) as [rest Hrest]. exists s'', w'', rest.
      rewrite run_passes_app, Hr. cbn [run_passes]. by rewrite Hit.
    + intros sc reason Hsc Hb.
      destruct (remote_iteration_blocked connect sc s' w' reason Hsc Hb) as ([s'' w''] & Hit & Hst).
      exists s'', w''. rewrite run_passes_app, Hr. cbn [run_passes]. rewrite Hit. by destruct (wk_hint _).
Qed.
End RecoveryClaims.

(** ** Witnesses *)

(** A busy worker over a session that no longer answers: its timers fire in
    turn, and between them connections come. *)
Definition busy_turns (n : nat) : branch :=
  match (n mod 3)%nat with
  | O => SessionTick
  | 1%nat => Accepted (Ok n)
  | _ => HealthTick
  end.

Lemma busy_recurs b k : (k < 3)%nat -> (forall n, (n mod 3)%nat = k -> busy_turns n = b) -> recurs busy_turns b.
Proof.
  intros Hk Hb n. exists (3 * n + k)%nat. split; [lia|]. apply Hb.
  rewrite Nat.mul_comm, Nat.add_comm, Nat.Div0.mod_add. by apply Nat.mod_small.
Qed.

(** The session is gone from the world before every turn. *)
Definition gone (n : nat) (w : ClientWorld (H := Toy.russh)) : ClientWorld (H := Toy.russh) := empty_world.

Theorem dead_worker_ends_witness :
  exists n r w', after (local_step (H0 := toy_transport false) [dead_session]) busy_turns gone n
                   loop_start empty_world = (inr r, w').
Proof.
  refine (proj1 (dead_worker_ends (H1 := toy_transport_laws false) [dead_session] empty_world 0)
    busy_turns gone _ _ (or_intror (fun n l' w' _ _ => eq_refl))).
  - apply (busy_recurs SessionTick 0); [lia|]. intros n Hn. unfold busy_turns. rewrite Hn. reflexivity.
  - apply (busy_recurs HealthTick 2); [lia|]. intros n Hn. unfold busy_turns. rewrite Hn. reflexivity.
Defined.

(** A pass whose worker dies at once. *)
Definition calm_pass : script :=
  mkScript false [ClientAccepted (Ok 1%nat)] FutureReady [] [] false 0 (mkWaitScript 0 [] (mkWakes true false)).

Lemma calm_pass_calm : calm calm_pass.
Proof. by split; [|split; [apply Forall_singleton|]| |split; [apply Forall_nil|]]. Qed.

Definition first_pass :=
  run_until_stopped (H0 := toy_transport false) toy_connector [calm_pass] (toy_supervisor, empty_world).
Definition next_ping :=
  match toy_connector first_pass.2.2 with
  | (Ok c, w) => ping_all (H0 := toy_transport false) c INITIAL_PING_TIMEOUT w
  | (Err e, w) => (Err e, w)
  end.
Lemma first_connects : retried (H0 := toy_transport false) toy_connector calm_pass empty_world.
Proof. intros e w1 He. vm_compute in He. discriminate He. Qed.
Lemma next_ping_ok : is_ok next_ping.1 = true.
Proof. vm_compute. reflexivity. Qed.

Theorem supervisor_recovers_witness :
  exists s'' w'' rtts rest,
    run_until_stopped (H0 := toy_transport false) toy_connector [calm_pass; calm_pass]
      (toy_supervisor, empty_world) = (Ok true, (s'', w''))
    /\ sv_states s'' = sv_states first_pass.2.1 ++ SupervisorState.Connecting (sv_attempt first_pass.2.1)
         :: SupervisorState.Healthy rtts None :: rest.
Proof.
  destruct (supervisor_recovers (H1 := toy_transport_laws false) bound_runtime SupervisorMode.Dynamic
    RetryPolicy_default toy_supervisor toy_connector [calm_pass] empty_world eq_refl
    (chain_connector_ok (H1 := toy_transport_laws false) _ _ _) (Forall_cons_2 _ _ _ calm_pass_calm (Forall_nil_2 _))
    (conj first_connects I)) as [(s' & w' & Hr & _ & Hnext & _) _].
  assert (Hf : first_pass = (Ok true, (s', w'))) by exact Hr.
  pose proof next_ping_ok as Hp. unfold next_ping in Hp. rewrite Hf in *. cbn [fst snd] in *.
  destruct (toy_connector w') as [[c|e] w1] eqn:Ec; [|discriminate Hp].
  destruct (ping_all (H0 := toy_transport false) c INITIAL_PING_TIMEOUT w1) as [[rtts|e] w2] eqn:Ep; [|discriminate Hp].
  destruct (Hnext calm_pass c w1 rtts w2 calm_pass_calm eq_refl Ep) as (s'' & w'' & rest & Hrun & _ & Hst).
  exists s'', w'', rtts, rest. exact (conj Hrun Hst).
Defined.
