(* ===== verification/Path.v ===== *)
(** * Path: the parts of [std::path] and of the process environment the
    configuration store uses.

    A path is its text. Drive prefixes ([C:]) are modelled on Windows; UNC and
    verbatim prefixes are not. *)
From S2P Require Import Prelude Text Domain.

Inductive Platform := Unix | Windows.
#[export] Instance Platform_eq_dec : EqDecision Platform.
Proof. solve_decision. Defined.

(** What the store reads of the process: the target it was compiled for and
    [std::env::var_os]. *)
Record Env := mkEnv {
  platform : Platform;
  var_os : string -> option string
}.

Definition MAIN_SEPARATOR (p : Platform) : ascii :=
  match p with Unix => "/"%char | Windows => "\"%char end.

Definition is_separator (p : Platform) (c : ascii) : bool :=
  bool_decide (c = "/"%char) || (bool_decide (p = Windows) && bool_decide (c = "\"%char)).

(** [Components::trim_left]: empty and ["."] components at the front. *)
Fixpoint trim_components (p : Platform) (l : list ascii) : list ascii :=
  match l with
  | [] => []
  | c :: l1 =>
      if is_separator p c then trim_components p l1
      else if bool_decide (c = "."%char)
      then match l1 with
           | [] => []
           | d :: l2 => if is_separator p d then trim_components p l2 else l
           end
      else l
  end.

(** [path.strip_prefix("~")]: the components after a first component that is
    exactly ["~"]. *)
Definition strip_tilde (p : Platform) (path : PathBuf) : option PathBuf :=
  match String.list_ascii_of_string path with
  | c :: rest =>
      if bool_decide (c = "~"%char)
      then match rest with
           | [] => Some ""
           | d :: _ =>
               if is_separator p d
               then Some (String.string_of_list_ascii
                            (rev (trim_components p (rev (trim_components p rest)))))
               else None
           end
      else None
  | [] => None
  end.

Definition is_letter (c : ascii) : bool :=
  let n := byte_of_ascii c in
  ((65 <=? n) && (n <=? 90)) || ((97 <=? n) && (n <=? 122)).

(** The length of a drive prefix. *)
Definition prefix_len (p : Platform) (l : list ascii) : nat :=
  match p, l with
  | Windows, c :: d :: _ => if is_letter c && bool_decide (d = ":"%char) then 2%nat else O
  | _, _ => O
  end.

Definition has_root (p : Platform) (path : PathBuf) : bool :=
  let l := String.list_ascii_of_string path in
  match drop (prefix_len p l) l with c :: _ => is_separator p c | [] => false end.

Definition is_absolute (p : Platform) (path : PathBuf) : bool :=
  match p with
  | Unix => has_root p path
  | Windows =>
      has_root p path
      && negb (bool_decide (prefix_len p (String.list_ascii_of_string path) = O))
  end.

(** [PathBuf::join]: an argument with a prefix replaces the base, a rooted one
    keeps only the prefix of the base, and any other is appended after a
    separator (none after an empty base, a trailing separator or a bare
    drive). *)
Definition path_join (p : Platform) (base path : PathBuf) : PathBuf :=
  let b := String.list_ascii_of_string base in
  let l := String.list_ascii_of_string path in
  if negb (bool_decide (prefix_len p l = O)) then path
  else if has_root p path
  then String.string_of_list_ascii (take (prefix_len p b) b) +:+ path
  else
    let need_sep :=
      match last b with None => false | Some c => negb (is_separator p c) end
      && negb (bool_decide (prefix_len p b = length b)) in
    base +:+ (if need_sep then String (MAIN_SEPARATOR p) "" else "") +:+ path.

(** [Path::parent] of the path of a file: what precedes the last separator, the
    root included. *)
Definition parent (p : Platform) (path : PathBuf) : option PathBuf :=
  let fix go (l before acc : list ascii) (found : bool) : option (list ascii) :=
    match l with
    | [] => if found then Some before else None
    | c :: l =>
        if is_separator p c then go l acc (acc ++ [c]) true
        else go l before (acc ++ [c]) found
    end in
  match go (String.list_ascii_of_string path) [] [] false with
  | Some [] => Some (String (MAIN_SEPARATOR p) "")
  | Some l => Some (String.string_of_list_ascii l)
  | None => None
  end.

(** The home directory the way schema.rs looks it up. *)
Definition env_home (env : Env) : option PathBuf :=
  var_os env (match platform env with Windows => "USERPROFILE" | Unix => "HOME" end).

(** ** Facts *)

(** Only a path that starts with ["~"] is expanded. *)
Definition plain_start (path : PathBuf) : Prop :=
  match path with String c _ => c <> "~"%char | EmptyString => False end.

Lemma strip_tilde_plain p path : plain_start path -> strip_tilde p path = None.
Proof.
  destruct path as [|c path]; [done|]. simpl. intros H. unfold strip_tilde. simpl.
  by rewrite bool_decide_eq_false_2.
Qed.

Lemma plain_start_app a b : plain_start a -> plain_start (a +:+ b).
Proof. by destruct a. Qed.

Lemma letter_not_tilde c : is_letter c = true -> c <> "~"%char.
Proof. by intros H ->. Qed.

Lemma separator_not_tilde p c : is_separator p c = true -> c <> "~"%char.
Proof. intros H ->. by destruct p. Qed.

(** Joining to a base that does not start with ["~"] gives a path that does
    not either, whatever is joined. *)
Lemma path_join_plain p base path : plain_start base -> plain_start (path_join p base path).
Proof.
  intros Hb. unfold path_join. case_bool_decide as Hp; simpl.
  - case_match eqn:Hr; [|by apply plain_start_app].
    destruct base as [|b base]; [done|].
    destruct (prefix_len p (String.list_ascii_of_string (String b base))) as [|n] eqn:Eb;
      [|by destruct n].
    unfold has_root in Hr. rewrite Hp, drop_0 in Hr.
    destruct path as [|c path]; [done|]. simpl in *. by apply separator_not_tilde in Hr.
  - destruct path as [|c [|d path]]; [by destruct p..|]. destruct p; [done|].
    simpl in *. destruct (is_letter c) eqn:El; [by apply letter_not_tilde|done].
Qed.

Example strip_home : strip_tilde Unix "~/.ssh//id/./" = Some ".ssh//id".
Proof. reflexivity. Qed.
Example strip_user : strip_tilde Unix "~user/x" = None.
Proof. reflexivity. Qed.
Example join_home : path_join Windows "C:\Users\u" ".ssh/id" = "C:\Users\u\.ssh/id".
Proof. reflexivity. Qed.
Example join_rooted : path_join Windows "C:\Users" "/etc" = "C:/etc".
Proof. reflexivity. Qed.
Example parent_of_file : parent Unix "/home/u/.ssh/config" = Some "/home/u/.ssh".
Proof. reflexivity. Qed.
Example parent_of_root_file : parent Unix "/config" = Some "/".
Proof. reflexivity. Qed.
