(* ===== verification/Schema.v ===== *)
(** * Schema: the versioned configuration document and its conversion to and
    from the domain model (crates/config-store/src/schema.rs).

    The document is the record of a configuration file; Document has the way
    between it and the tables of the file. *)
From S2P Require Import Prelude Text Net Domain Validation Path.

Definition SCHEMA_VERSION : Z := 1.
Definition MAX_HOSTS : nat := 512.
Definition MAX_GROUPS : nat := 128.
Definition MAX_TUNNELS : nat := 1024.
Definition MAX_JUMP_HOPS : nat := 16.

Module ThemePreference.
Inductive t := System | Light | Dark.
#[global] Instance t_eq_dec : EqDecision t.
Proof. solve_decision. Defined.
End ThemePreference.

Record AppSettings := mkAppSettings {
  theme : ThemePreference.t;
  run_at_startup : bool;
  minimize_to_tray : bool;
  traffic_monitor : bool
}.

Definition AppSettings_default : AppSettings :=
  mkAppSettings ThemePreference.System false true false.

Module AuthType.
Inductive t := Password | PrivateKey | Agent | KeyboardInteractive.
#[global] Instance t_eq_dec : EqDecision t.
Proof. solve_decision. Defined.
End AuthType.

Record HostRecord := mkHostRecord {
  hr_id : string;
  hr_name : string;
  hr_hostname : string;
  hr_port : Z;
  hr_username : string;
  hr_auth_type : AuthType.t;
  hr_credential_ref : option string;
  hr_identity_file : option PathBuf;
  hr_passphrase_ref : option string;
  hr_agent_socket : option string;
  hr_host_key_policy : HostKeyPolicy.t;
  hr_connect_timeout_ms : Z;
  hr_keepalive_interval_ms : Z;
  hr_keepalive_max : Z;
  hr_notes : string
}.

Record GroupRecord := mkGroupRecord {
  gr_id : string;
  gr_name : string;
  gr_sort_order : Z
}.

Record TunnelRecord := mkTunnelRecord {
  tr_id : string;
  tr_name : string;
  tr_group_id : option string;
  tr_mode : TunnelMode.t;
  tr_jump_chain : list string;
  tr_local_host : string;
  tr_local_port : Z;
  tr_remote_host : option string;
  tr_remote_port : option Z;
  tr_auto_start : bool;
  tr_reconnect_base_ms : Z;
  tr_reconnect_max_ms : Z;
  tr_reconnect_reset_ms : Z;
  tr_reconnect_jitter_percent : Z;
  tr_description : string
}.

Record ConfigDocument := mkConfigDocument {
  schema_version : Z;
  doc_app : AppSettings;
  doc_hosts : list HostRecord;
  doc_groups : list GroupRecord;
  doc_tunnels : list TunnelRecord
}.

#[export] Instance AppSettings_eq_dec : EqDecision AppSettings.
Proof. solve_decision. Defined.
#[export] Instance HostRecord_eq_dec : EqDecision HostRecord.
Proof. solve_decision. Defined.
#[export] Instance GroupRecord_eq_dec : EqDecision GroupRecord.
Proof. solve_decision. Defined.
#[export] Instance TunnelRecord_eq_dec : EqDecision TunnelRecord.
Proof. solve_decision. Defined.
#[export] Instance ConfigDocument_eq_dec : EqDecision ConfigDocument.
Proof. solve_decision. Defined.

Definition ConfigDocument_default : ConfigDocument :=
  mkConfigDocument SCHEMA_VERSION AppSettings_default [] [] [].

Record DomainConfig := mkDomainConfig {
  dc_app : AppSettings;
  dc_hosts : list SshHost;
  dc_groups : list TunnelGroup;
  dc_tunnels : list TunnelConfig
}.

Module ConfigValidationError.
Inductive t :=
  | UnsupportedVersion (version : Z)
  | TooManyEntries (kind : string)
  | DuplicateId (kind id : string)
  | Host (id reason : string)
  | Tunnel (id reason : string)
  | DurationTooLarge.
End ConfigValidationError.
Import ConfigValidationError.

Definition show_config_validation_error (e : ConfigValidationError.t) : string :=
  match e with
  | UnsupportedVersion v => "unsupported config schema version " +:+ show_dec v
  | TooManyEntries kind => "too many " +:+ kind +:+ " entries"
  | DuplicateId kind id => "duplicate " +:+ kind +:+ " ID " +:+ id
  | Host id reason => "invalid host " +:+ id +:+ ": " +:+ reason
  | Tunnel id reason => "invalid tunnel " +:+ id +:+ ": " +:+ reason
  | DurationTooLarge => "duration in configuration exceeds supported millisecond range"
  end.

(** ** Document to domain *)

Definition expand_home (env : Env) (path : PathBuf) : option PathBuf :=
  match strip_tilde (platform env) path with
  | None => Some path
  | Some remainder =>
      match env_home env with
      | None => None
      | Some home => Some (path_join (platform env) home remainder)
      end
  end.

Definition host_incomplete (r : HostRecord) : bool :=
  trim_is_empty (hr_id r)
  || trim_is_empty (hr_name r)
  || trim_is_empty (hr_hostname r)
  || trim_is_empty (hr_username r)
  || bool_decide (hr_port r = 0)
  || bool_decide (hr_connect_timeout_ms r = 0)
  || bool_decide (hr_keepalive_max r = 0).

Definition auth_into_domain (env : Env) (r : HostRecord)
    : result AuthConfig.t ConfigValidationError.t :=
  let bad reason := Host (hr_id r) reason in
  match hr_auth_type r with
  | AuthType.Password =>
      match hr_credential_ref r with
      | Some s =>
          if str_is_empty s then Err (bad "password credential_ref is missing")
          else Ok (AuthConfig.Password (mkSecretRef s))
      | None => Err (bad "password credential_ref is missing")
      end
  | AuthType.PrivateKey =>
      let? file := ok_or (hr_identity_file r) (bad "identity_file is missing") in
      let? key_path := ok_or (expand_home env file) (bad "home directory is unavailable") in
      Ok (AuthConfig.PrivateKey key_path (mkSecretRef <$> hr_passphrase_ref r))
  | AuthType.Agent => Ok (AuthConfig.Agent (hr_agent_socket r))
  | AuthType.KeyboardInteractive => Ok AuthConfig.KeyboardInteractive
  end.

Definition host_into_domain (env : Env) (r : HostRecord)
    : result SshHost ConfigValidationError.t :=
  if host_incomplete r then Err (Host (hr_id r) "required field is empty or zero")
  else
    let? auth := auth_into_domain env r in
    Ok {| host_id := mkHostId (hr_id r);
          host_name := hr_name r;
          host_hostname := hr_hostname r;
          host_port := hr_port r;
          host_username := hr_username r;
          host_auth := auth;
          host_host_key_policy := hr_host_key_policy r;
          host_connect_timeout := from_millis (hr_connect_timeout_ms r);
          host_keepalive_interval := from_millis (hr_keepalive_interval_ms r);
          host_keepalive_max := hr_keepalive_max r;
          host_notes := hr_notes r |}.

Definition group_into_domain (r : GroupRecord) : TunnelGroup :=
  mkTunnelGroup (mkGroupId (gr_id r)) (gr_name r) (gr_sort_order r).

Definition remote_into_domain (r : TunnelRecord)
    : result (option RemoteEndpoint) ConfigValidationError.t :=
  match tr_remote_host r, tr_remote_port r with
  | Some host, Some port => Ok (Some (mkRemoteEndpoint host port))
  | None, None => Ok None
  | _, _ => Err (Tunnel (tr_id r) "remote_host and remote_port must be set together")
  end.

Definition tunnel_into_domain (r : TunnelRecord)
    : result TunnelConfig ConfigValidationError.t :=
  if bool_decide (MAX_JUMP_HOPS < length (tr_jump_chain r))%nat
  then Err (Tunnel (tr_id r) "jump chain exceeds 16 hosts")
  else
    let? remote := remote_into_domain r in
    Ok {| tunnel_id := mkTunnelId (tr_id r);
          tunnel_name := tr_name r;
          tunnel_group_id := mkGroupId <$> tr_group_id r;
          tunnel_mode := tr_mode r;
          tunnel_jump_chain := mkHostId <$> tr_jump_chain r;
          tunnel_local := mkLocalEndpoint (tr_local_host r) (tr_local_port r);
          tunnel_remote := remote;
          tunnel_auto_start := tr_auto_start r;
          tunnel_reconnect :=
            {| base_delay := from_millis (tr_reconnect_base_ms r);
               max_delay := from_millis (tr_reconnect_max_ms r);
               reset_after_healthy := from_millis (tr_reconnect_reset_ms r);
               jitter_percent := tr_reconnect_jitter_percent r |};
          tunnel_description := tr_description r |}.

(** The three loops of [into_domain]: [seen] is the [HashSet] of ids. *)
Fixpoint convert {R T} (kind : string) (id : R -> string)
    (f : R -> result T ConfigValidationError.t) (seen : gset string) (l : list R)
    : result (list T) ConfigValidationError.t :=
  match l with
  | [] => Ok []
  | r :: l =>
      if bool_decide (id r ∈ seen) then Err (DuplicateId kind (id r))
      else
        let? x := f r in
        let? xs := convert kind id f ({[id r]} ∪ seen) l in
        Ok (x :: xs)
  end.

Definition checked_tunnel (hosts : list SshHost) (groups : list TunnelGroup) (r : TunnelRecord)
    : result TunnelConfig ConfigValidationError.t :=
  let? tunnel := tunnel_into_domain r in
  let? _ := map_err (fun error => Tunnel (tunnel_id_0 (tunnel_id tunnel))
                                         (show_validation_error error))
                    (validate tunnel hosts groups) in
  Ok tunnel.

Definition into_domain (env : Env) (self : ConfigDocument)
    : result DomainConfig ConfigValidationError.t :=
  if negb (bool_decide (schema_version self = SCHEMA_VERSION))
  then Err (UnsupportedVersion (schema_version self))
  else if bool_decide (MAX_HOSTS < length (doc_hosts self))%nat
  then Err (TooManyEntries "hosts")
  else if bool_decide (MAX_GROUPS < length (doc_groups self))%nat
  then Err (TooManyEntries "groups")
  else if bool_decide (MAX_TUNNELS < length (doc_tunnels self))%nat
  then Err (TooManyEntries "tunnels")
  else
    let? hosts := convert "host" hr_id (host_into_domain env) ∅ (doc_hosts self) in
    let? groups := convert "group" gr_id (fun r => Ok (group_into_domain r)) ∅ (doc_groups self) in
    let? tunnels := convert "tunnel" tr_id (checked_tunnel hosts groups) ∅ (doc_tunnels self) in
    Ok (mkDomainConfig (doc_app self) hosts groups tunnels).

(** ** Domain to document *)

(** [u64::try_from(duration.as_millis())] *)
Definition milliseconds (d : Duration) : result Z ConfigValidationError.t :=
  if bool_decide (as_millis d <= u64_max) then Ok (as_millis d) else Err DurationTooLarge.

Definition auth_record (a : AuthConfig.t)
    : AuthType.t * option string * option PathBuf * option string * option string :=
  match a with
  | AuthConfig.Password c => (AuthType.Password, Some (secret_ref_0 c), None, None, None)
  | AuthConfig.PrivateKey key_path passphrase_ref =>
      (AuthType.PrivateKey, None, Some key_path, secret_ref_0 <$> passphrase_ref, None)
  | AuthConfig.Agent socket => (AuthType.Agent, None, None, None, socket)
  | AuthConfig.KeyboardInteractive => (AuthType.KeyboardInteractive, None, None, None, None)
  end.

Definition host_try_from (h : SshHost) : result HostRecord ConfigValidationError.t :=
  let '(auth_type, credential_ref, identity_file, passphrase_ref, agent_socket) :=
    auth_record (host_auth h) in
  let? connect_timeout_ms := milliseconds (host_connect_timeout h) in
  let? keepalive_interval_ms := milliseconds (host_keepalive_interval h) in
  Ok {| hr_id := host_id_0 (host_id h);
        hr_name := host_name h;
        hr_hostname := host_hostname h;
        hr_port := host_port h;
        hr_username := host_username h;
        hr_auth_type := auth_type;
        hr_credential_ref := credential_ref;
        hr_identity_file := identity_file;
        hr_passphrase_ref := passphrase_ref;
        hr_agent_socket := agent_socket;
        hr_host_key_policy := host_host_key_policy h;
        hr_connect_timeout_ms := connect_timeout_ms;
        hr_keepalive_interval_ms := keepalive_interval_ms;
        hr_keepalive_max := host_keepalive_max h;
        hr_notes := host_notes h |}.

Definition group_record (g : TunnelGroup) : GroupRecord :=
  mkGroupRecord (group_id_0 (group_id g)) (group_name g) (group_sort_order g).

Definition tunnel_try_from (t : TunnelConfig) : result TunnelRecord ConfigValidationError.t :=
  let? base := milliseconds (base_delay (tunnel_reconnect t)) in
  let? max := milliseconds (max_delay (tunnel_reconnect t)) in
  let? reset := milliseconds (reset_after_healthy (tunnel_reconnect t)) in
  Ok {| tr_id := tunnel_id_0 (tunnel_id t);
        tr_name := tunnel_name t;
        tr_group_id := group_id_0 <$> tunnel_group_id t;
        tr_mode := tunnel_mode t;
        tr_jump_chain := host_id_0 <$> tunnel_jump_chain t;
        tr_local_host := local_host (tunnel_local t);
        tr_local_port := local_port (tunnel_local t);
        tr_remote_host := remote_host <$> tunnel_remote t;
        tr_remote_port := remote_port <$> tunnel_remote t;
        tr_auto_start := tunnel_auto_start t;
        tr_reconnect_base_ms := base;
        tr_reconnect_max_ms := max;
        tr_reconnect_reset_ms := reset;
        tr_reconnect_jitter_percent := jitter_percent (tunnel_reconnect t);
        tr_description := tunnel_description t |}.

(** [iter().map(f).collect::<Result<Vec<_>, _>>()] *)
Fixpoint collect_results {A B E} (f : A -> result B E) (l : list A) : result (list B) E :=
  match l with
  | [] => Ok []
  | a :: l =>
      let? b := f a in
      let? bs := collect_results f l in
      Ok (b :: bs)
  end.

Definition try_from (value : DomainConfig) : result ConfigDocument ConfigValidationError.t :=
  let? hosts := collect_results host_try_from (dc_hosts value) in
  let groups := group_record <$> dc_groups value in
  let? tunnels := collect_results tunnel_try_from (dc_tunnels value) in
  Ok (mkConfigDocument SCHEMA_VERSION (dc_app value) hosts groups tunnels).

(** ** Specification *)

(** A duration the document can hold: whole milliseconds in a [u64]. *)
Definition whole_millis (d : Duration) : Prop := exists ms, u64 ms /\ d = from_millis ms.

Definition auth_ok (env : Env) (a : AuthConfig.t) : Prop :=
  match a with
  | AuthConfig.Password c => secret_ref_0 c <> ""
  | AuthConfig.PrivateKey p _ => expand_home env p = Some p
  | _ => True
  end.

Record host_ok (env : Env) (h : SshHost) : Prop := {
  ho_id : ~ blank (host_id_0 (host_id h));
  ho_name : ~ blank (host_name h);
  ho_hostname : ~ blank (host_hostname h);
  ho_username : ~ blank (host_username h);
  ho_port : host_port h <> 0;
  ho_timeout : whole_millis (host_connect_timeout h) /\ host_connect_timeout h <> 0;
  ho_interval : whole_millis (host_keepalive_interval h);
  ho_max : host_keepalive_max h <> 0;
  ho_auth : auth_ok env (host_auth h)
}.

Record tunnel_ok (hosts : list SshHost) (groups : list TunnelGroup) (t : TunnelConfig) : Prop := {
  to_valid : valid_tunnel hosts groups t;
  to_chain : (length (tunnel_jump_chain t) <= MAX_JUMP_HOPS)%nat;
  to_base : whole_millis (base_delay (tunnel_reconnect t));
  to_max : whole_millis (max_delay (tunnel_reconnect t));
  to_reset : whole_millis (reset_after_healthy (tunnel_reconnect t))
}.

(** What a stored configuration promises the rest of the program. *)
Record storable (env : Env) (c : DomainConfig) : Prop := {
  st_hosts_len : (length (dc_hosts c) <= MAX_HOSTS)%nat;
  st_groups_len : (length (dc_groups c) <= MAX_GROUPS)%nat;
  st_tunnels_len : (length (dc_tunnels c) <= MAX_TUNNELS)%nat;
  st_hosts_nodup : NoDup (host_id <$> dc_hosts c);
  st_groups_nodup : NoDup (group_id <$> dc_groups c);
  st_tunnels_nodup : NoDup (tunnel_id <$> dc_tunnels c);
  st_hosts : Forall (host_ok env) (dc_hosts c);
  st_tunnels : Forall (tunnel_ok (dc_hosts c) (dc_groups c)) (dc_tunnels c)
}.

(** The same configuration up to the order of the tunnels: what a map from ids
    to tunnels keeps of one. *)
#[export] Instance DomainConfig_equiv : Equiv DomainConfig := fun c c' =>
  dc_app c = dc_app c' /\ dc_hosts c = dc_hosts c' /\ dc_groups c = dc_groups c'
  /\ dc_tunnels c ≡ₚ dc_tunnels c'.
#[export] Instance DomainConfig_equivalence : Equivalence (≡@{DomainConfig}).
Proof.
  split.
  - by intros [].
  - intros c c' (? & ? & ? & ?). by split_and!.
  - intros c1 c2 c3 (? & ? & ? & ?) (? & ? & ? & ?). split_and!; by etransitivity.
Qed.

(** Whether it can be stored does not depend on that order. *)
#[export] Instance storable_proper env : Proper ((≡) ==> iff) (storable env).
Proof.
  assert (Himp : forall c c', c ≡ c' -> storable env c -> storable env c').
  { intros [a h g t] [a' h' g' t'] (Ha & Hh & Hg & Ht) []. simpl in *. subst.
    split; simpl in *; by rewrite <- ?Ht. }
  intros c c' He. split; [by apply Himp|]. by apply Himp.
Qed.

(** A document whose integers are those of the Rust types. *)
Definition host_typed (r : HostRecord) : Prop :=
  u64 (hr_connect_timeout_ms r) /\ u64 (hr_keepalive_interval_ms r).
Definition tunnel_typed (r : TunnelRecord) : Prop :=
  u64 (tr_reconnect_base_ms r) /\ u64 (tr_reconnect_max_ms r) /\ u64 (tr_reconnect_reset_ms r).
Definition document_typed (d : ConfigDocument) : Prop :=
  Forall host_typed (doc_hosts d) /\ Forall tunnel_typed (doc_tunnels d).

(** The home directory, when there is one, is not itself a ["~"] path. *)
Definition home_ok (env : Env) : Prop := forall home, env_home env = Some home -> plain_start home.

(** ** Lemmas *)

Lemma as_millis_from_millis ms : as_millis (from_millis ms) = ms.
Proof. unfold as_millis, from_millis. by rewrite Z.div_mul. Qed.

Lemma milliseconds_whole d :
  whole_millis d -> exists ms, milliseconds d = Ok ms /\ from_millis ms = d.
Proof.
  intros (ms & Hms & ->). exists ms. split; [|done]. unfold milliseconds.
  rewrite as_millis_from_millis, bool_decide_eq_true_2; [done|unfold u64 in Hms; lia].
Qed.

Lemma whole_from_millis ms : u64 ms -> whole_millis (from_millis ms).
Proof. by exists ms. Qed.

Lemma from_millis_zero ms : from_millis ms = 0 <-> ms = 0.
Proof. unfold from_millis, NANOS_PER_MILLI. lia. Qed.

Lemma convert_ok {R T} kind (id : R -> string) (f : R -> result T ConfigValidationError.t) seen l xs :
  convert kind id f seen l = Ok xs <->
  NoDup (id <$> l) /\ Forall (fun r => id r ∉ seen) l /\ Forall2 (fun r x => f r = Ok x) l xs.
Proof.
  revert seen xs. induction l as [|r l IH]; intros seen xs; simpl.
  { split; [|by intros (_ & _ & H%Forall2_nil_inv_l); simplify_eq].
    intros [= <-]. split_and!; constructor. }
  case_bool_decide as Hr.
  { split; [done|]. intros (_ & Hs & _). by apply Forall_cons in Hs as [? _]. }
  destruct (f r) as [x|e] eqn:Ef.
  2: { split; [done|]. intros (_ & _ & H). apply Forall2_cons_inv_l in H as (? & ? & ? & _). congruence. }
  destruct (convert kind id f ({[id r]} ∪ seen) l) as [ys|e] eqn:Ec.
  - apply IH in Ec as (Hnd & Hs & H2). split.
    + intros [= <-]. split_and!; [|constructor; [done|]|by constructor].
      * apply NoDup_cons. split; [|done]. rewrite list_elem_of_fmap. intros (y & Hy & Hin).
        rewrite Forall_forall in Hs. apply Hs in Hin. set_solver.
      * eapply Forall_impl; [exact Hs|]. set_solver.
    + intros (_ & _ & H). apply Forall2_cons_inv_l in H as (x' & xs' & Hx & H & ->).
      assert (x' = x) as -> by congruence. do 2 f_equal.
      clear -H H2. revert ys H2. induction H; intros ys H2; inversion H2; [done|].
      simplify_eq. f_equal; [congruence|by apply IHForall2].
  - split; [done|]. intros (Hnd & Hs & H). exfalso.
    apply Forall2_cons_inv_l in H as (x' & xs' & Hx & H & ->).
    apply NoDup_cons in Hnd as [Hni Hnd]. apply Forall_cons in Hs as [_ Hs].
    enough (convert kind id f ({[id r]} ∪ seen) l = Ok xs') by congruence.
    apply IH. split_and!; [done| |done]. rewrite Forall_forall in Hs |- *. intros y Hy.
    apply not_elem_of_union. split; [|by apply Hs]. rewrite elem_of_singleton. intros E.
    apply Hni. rewrite <- E. by apply list_elem_of_fmap_2.
Qed.

Lemma collect_results_ok {A B E} (f : A -> result B E) l ys :
  collect_results f l = Ok ys <-> Forall2 (fun a b => f a = Ok b) l ys.
Proof.
  revert ys. induction l as [|a l IH]; intros ys; simpl.
  { split; [by intros [= <-]|by intros ->%Forall2_nil_inv_l]. }
  split.
  - intros H. split_matches. constructor; [done|]. by apply IH.
  - intros H. apply Forall2_cons_inv_l in H as (b & bs & Hb & H & ->).
    rewrite Hb. apply IH in H. by rewrite H.
Qed.

Lemma Forall2_map_eq {A B C} (P : A -> B -> Prop) (f : A -> C) (g : B -> C) l k :
  (forall a b, P a b -> f a = g b) -> Forall2 P l k -> f <$> l = g <$> k.
Proof. intros Hfg. induction 1; [done|]. simpl. f_equal; auto. Qed.

Lemma Forall2_map_self {A B} (P : A -> B -> Prop) (f : A -> B) l :
  (forall a, P a (f a)) -> Forall2 P l (f <$> l).
Proof. intros H. induction l; constructor; auto. Qed.

Lemma Forall2_Forall_r' {A B} (P : A -> B -> Prop) (T : A -> Prop) (Q : B -> Prop) l k :
  (forall a b, T a -> P a b -> Q b) -> Forall T l -> Forall2 P l k -> Forall Q k.
Proof.
  intros H HT H2. induction H2; constructor; apply Forall_cons in HT as [? ?]; eauto.
Qed.

Lemma NoDup_field {A B C} (f : A -> B) (g : B -> C) `{!Inj (=) (=) g} (l : list A) :
  NoDup (f <$> l) -> NoDup ((fun a => g (f a)) <$> l).
Proof. intros H. rewrite (list_fmap_compose f g). by apply NoDup_fmap_2. Qed.

(** Converted in order, the ids stay distinct. *)
Lemma ids_nodup {A B C D} (idA : A -> C) (idB : B -> D) (g : C -> D) `{!Inj (=) (=) g}
    (P : A -> B -> Prop) l k :
  (forall a b, P a b -> g (idA a) = idB b) -> Forall2 P l k ->
  NoDup (idA <$> l) -> NoDup (idB <$> k).
Proof.
  intros Hg H2 Hnd. rewrite <- (Forall2_map_eq P (fun a => g (idA a)) idB l k Hg H2).
  by apply NoDup_field.
Qed.

#[export] Instance mkHostId_inj : Inj (=) (=) mkHostId.
Proof. by intros ?? [=]. Qed.
#[export] Instance mkGroupId_inj : Inj (=) (=) mkGroupId.
Proof. by intros ?? [=]. Qed.
#[export] Instance mkTunnelId_inj : Inj (=) (=) mkTunnelId.
Proof. by intros ?? [=]. Qed.
#[export] Instance host_id_0_inj : Inj (=) (=) host_id_0.
Proof. by intros [] [] [=->]. Qed.
#[export] Instance group_id_0_inj : Inj (=) (=) group_id_0.
Proof. by intros [] [] [=->]. Qed.
#[export] Instance tunnel_id_0_inj : Inj (=) (=) tunnel_id_0.
Proof. by intros [] [] [=->]. Qed.

Lemma expand_home_idem env path p :
  home_ok env -> expand_home env path = Some p -> expand_home env p = Some p.
Proof.
  intros Hh. unfold expand_home at 1. destruct (strip_tilde (platform env) path) as [r|] eqn:Es.
  - destruct (env_home env) as [home|] eqn:Eh; [|done]. intros [= <-].
    unfold expand_home. by rewrite strip_tilde_plain by (by apply path_join_plain, Hh).
  - intros [= ->]. unfold expand_home. by rewrite Es.
Qed.

Lemma auth_into_domain_ok env r a :
  home_ok env -> auth_into_domain env r = Ok a -> auth_ok env a.
Proof.
  intros Hh H. unfold auth_into_domain, str_is_empty, ok_or in H.
  split_matches; bools; simpl; try done. by eapply expand_home_idem.
Qed.

Lemma host_into_domain_spec env r h :
  host_into_domain env r = Ok h ->
  mkHostId (hr_id r) = host_id h /\ (home_ok env -> host_typed r -> host_ok env h).
Proof.
  unfold host_into_domain, host_incomplete. intros H.
  destruct (auth_into_domain env r) as [a|e] eqn:Ea; split_matches; bools.
  split; [done|]. intros Hh [Ht Hk].
  constructor; simpl; try done; try (by apply trim_is_empty_not_blank).
  - split; [by apply whole_from_millis|]. by rewrite from_millis_zero.
  - by apply whole_from_millis.
  - by eapply auth_into_domain_ok.
Qed.

Lemma tunnel_into_domain_spec r t :
  tunnel_into_domain r = Ok t ->
  mkTunnelId (tr_id r) = tunnel_id t /\ (length (tunnel_jump_chain t) <= MAX_JUMP_HOPS)%nat
  /\ (tunnel_typed r -> whole_millis (base_delay (tunnel_reconnect t))
        /\ whole_millis (max_delay (tunnel_reconnect t))
        /\ whole_millis (reset_after_healthy (tunnel_reconnect t))).
Proof.
  unfold tunnel_into_domain. case_bool_decide; [done|].
  destruct (remote_into_domain r); [|done]. intros [= <-]. simpl.
  rewrite length_fmap. split_and!; [done|lia|].
  intros (? & ? & ?). split_and!; by apply whole_from_millis.
Qed.

Lemma checked_tunnel_spec hosts groups r t :
  checked_tunnel hosts groups r = Ok t ->
  mkTunnelId (tr_id r) = tunnel_id t /\ (tunnel_typed r -> tunnel_ok hosts groups t).
Proof.
  unfold checked_tunnel. intros H.
  destruct (tunnel_into_domain r) as [t'|] eqn:Et; [|done].
  destruct (validate t' hosts groups) as [[]|] eqn:Ev; simplify_eq/=.
  apply tunnel_into_domain_spec in Et as (? & ? & Hw). split; [done|].
  intros (? & ? & ?)%Hw. constructor; try done. by apply validate_valid_iff.
Qed.

(** ** Loading *)

Lemma into_domain_cases env d c :
  into_domain env d = Ok c ->
  schema_version d = SCHEMA_VERSION
  /\ (length (doc_hosts d) <= MAX_HOSTS)%nat
  /\ (length (doc_groups d) <= MAX_GROUPS)%nat
  /\ (length (doc_tunnels d) <= MAX_TUNNELS)%nat
  /\ NoDup (hr_id <$> doc_hosts d) /\ NoDup (gr_id <$> doc_groups d)
  /\ NoDup (tr_id <$> doc_tunnels d)
  /\ Forall2 (fun r h => host_into_domain env r = Ok h) (doc_hosts d) (dc_hosts c)
  /\ group_into_domain <$> doc_groups d = dc_groups c
  /\ Forall2 (fun r t => checked_tunnel (dc_hosts c) (dc_groups c) r = Ok t)
       (doc_tunnels d) (dc_tunnels c)
  /\ dc_app c = doc_app d.
Proof.
  unfold into_domain. intros H.
  case_bool_decide; [|done]. do 3 (case_bool_decide; [done|]). simpl in H.
  destruct (convert "host" _ _ _ _) as [hosts|] eqn:Eh; [|done].
  destruct (convert "group" _ _ _ _) as [groups|] eqn:Eg; [|done].
  destruct (convert "tunnel" _ _ _ _) as [tunnels|] eqn:Et; [|done]. simplify_eq. simpl.
  apply convert_ok in Eh as (? & _ & ?). apply convert_ok in Eg as (? & _ & Hg).
  apply convert_ok in Et as (? & _ & ?).
  split_and!; try done; try lia.
  revert Hg. clear. induction 1; [done|]. simplify_eq/=. by f_equal.
Qed.

Lemma into_domain_storable env d c :
  home_ok env -> document_typed d -> into_domain env d = Ok c ->
  schema_version d = 1 /\ storable env c
  /\ host_id <$> dc_hosts c = (fun r => mkHostId (hr_id r)) <$> doc_hosts d
  /\ group_id <$> dc_groups c = (fun r => mkGroupId (gr_id r)) <$> doc_groups d
  /\ tunnel_id <$> dc_tunnels c = (fun r => mkTunnelId (tr_id r)) <$> doc_tunnels d.
Proof.
  intros Hh [Hth Htt] H.
  apply into_domain_cases in H as (? & ? & ? & ? & Nh & Ng & Nt & Fh & Hg & Ft & _).
  assert (Fg : Forall2 (fun r g => group_into_domain r = g) (doc_groups d) (dc_groups c))
    by (rewrite <- Hg; by apply Forall2_map_self).
  assert (Ih := fun r h H => proj1 (host_into_domain_spec env r h H)).
  assert (It := fun r t H => proj1 (checked_tunnel_spec (dc_hosts c) (dc_groups c) r t H)).
  assert (Ig : forall r g, group_into_domain r = g -> mkGroupId (gr_id r) = group_id g)
    by (by intros r g <-).
  split; [done|]. split; [constructor|].
  9: split_and!; symmetry;
       [exact (Forall2_map_eq _ _ _ _ _ Ih Fh)|exact (Forall2_map_eq _ _ _ _ _ Ig Fg)
       |exact (Forall2_map_eq _ _ _ _ _ It Ft)].
  - by rewrite <- (Forall2_length _ _ _ Fh).
  - by rewrite <- (Forall2_length _ _ _ Fg).
  - by rewrite <- (Forall2_length _ _ _ Ft).
  - by apply (ids_nodup _ _ _ _ _ _ Ih Fh).
  - by apply (ids_nodup _ _ _ _ _ _ Ig Fg).
  - by apply (ids_nodup _ _ _ _ _ _ It Ft).
  - eapply Forall2_Forall_r'; [|exact Hth|exact Fh]. intros r h ? Hrh.
    by apply (proj2 (host_into_domain_spec env r h Hrh)).
  - eapply Forall2_Forall_r'; [|exact Htt|exact Ft]. intros r t ? Hrt.
    by apply (proj2 (checked_tunnel_spec _ _ r t Hrt)).
Qed.

(** ** Saving and loading again *)

Lemma auth_record_round env h r :
  auth_ok env (host_auth h) ->
  (hr_auth_type r, hr_credential_ref r, hr_identity_file r, hr_passphrase_ref r, hr_agent_socket r)
  = auth_record (host_auth h) ->
  auth_into_domain env r = Ok (host_auth h).
Proof.
  unfold auth_into_domain, str_is_empty. intros Ha Hr.
  destruct r, (host_auth h) as [[s]|p pass|sock|]; simpl in *; simplify_eq; simpl.
  - by rewrite bool_decide_eq_false_2.
  - rewrite Ha. simpl. by destruct pass as [[]|].
  - done.
  - done.
Qed.

Lemma host_round env h :
  host_ok env h ->
  exists r, host_try_from h = Ok r /\ host_id_0 (host_id h) = hr_id r
    /\ host_into_domain env r = Ok h.
Proof.
  intros []. unfold host_try_from.
  destruct ho_timeout0 as [(ms & Hms & Htd)%milliseconds_whole Hnz].
  apply milliseconds_whole in ho_interval0 as (k & Hk & Hkd).
  destruct (auth_record (host_auth h)) as [[[[ty cr] f] pr] sock] eqn:Ea.
  rewrite Hms, Hk. eexists. split; [done|]. split; [done|].
  unfold host_into_domain. rewrite (auth_record_round env h) by done.
  unfold host_incomplete. simpl.
  repeat match goal with H : ~ blank _ |- _ => apply trim_is_empty_not_blank in H; rewrite H; clear H end.
  rewrite <- Htd in Hnz. rewrite from_millis_zero in Hnz.
  rewrite !bool_decide_eq_false_2 by done. simpl. rewrite Htd, Hkd.
  by destruct h as [[]].
Qed.

Lemma fmap_cancel {A B} (f : A -> B) (g : B -> A) (l : list A) :
  (forall a, g (f a) = a) -> g <$> (f <$> l) = l.
Proof. intros H. induction l; simpl; f_equal; auto. Qed.

Lemma tunnel_round hosts groups t :
  tunnel_ok hosts groups t ->
  exists r, tunnel_try_from t = Ok r /\ tunnel_id_0 (tunnel_id t) = tr_id r
    /\ checked_tunnel hosts groups r = Ok t.
Proof.
  intros [Hv Hc Hb Hm Hr]. unfold tunnel_try_from.
  apply milliseconds_whole in Hb as (b & -> & Hb). apply milliseconds_whole in Hm as (m & -> & Hm).
  apply milliseconds_whole in Hr as (k & -> & Hr).
  eexists. split; [done|]. split; [done|].
  enough (E : forall r, tunnel_into_domain r = Ok t -> checked_tunnel hosts groups r = Ok t).
  { apply E. unfold tunnel_into_domain, remote_into_domain. simpl.
    rewrite bool_decide_eq_false_2 by (rewrite length_fmap; lia). rewrite Hb, Hm, Hr.
    assert (Hj : mkHostId <$> (host_id_0 <$> tunnel_jump_chain t) = tunnel_jump_chain t).
    { apply fmap_cancel. by intros []. }
    rewrite Hj. by destruct t as [[] ? [[]|] ? ? [] [[]|] ? [] ?]. }
  intros r E. unfold checked_tunnel. rewrite E. apply validate_valid_iff in Hv. by rewrite Hv.
Qed.

Lemma Forall_round {A R E} (P : A -> Prop) (save : A -> result R E) (Q : A -> R -> Prop) l :
  (forall a, P a -> exists r, save a = Ok r /\ Q a r) -> Forall P l ->
  exists rs, collect_results save l = Ok rs /\ Forall2 Q l rs.
Proof.
  intros H. induction 1 as [|a l Ha _ (rs & Hrs & HQ)]; [by exists []|].
  destruct (H a Ha) as (r & Hr & Hq). exists (r :: rs). simpl. rewrite Hr, Hrs. split; [done|].
  by constructor.
Qed.

Lemma not_in_empty {R} (id : R -> string) l : Forall (fun r => id r ∉ (∅ : gset string)) l.
Proof. apply Forall_true. set_solver. Qed.

Lemma convert_round {T R} kind (id : R -> string) (idT : T -> string)
    (f : R -> result T ConfigValidationError.t) l rs :
  NoDup (idT <$> l) -> Forall2 (fun x r => idT x = id r /\ f r = Ok x) l rs ->
  convert kind id f ∅ rs = Ok l.
Proof.
  intros Hnd H2. apply convert_ok. split_and!; [|apply not_in_empty|].
  - erewrite <- (Forall2_map_eq _ idT id); [exact Hnd| |exact H2]. by intros ?? [].
  - apply Forall2_flip. eapply Forall2_impl; [exact H2|]. by intros ?? [].
Qed.

Lemma storable_loads_back env c :
  storable env c -> exists d, try_from c = Ok d /\ into_domain env d = Ok c.
Proof.
  intros [Lh Lg Lt Nh Ng Nt Oh Ot]. unfold try_from.
  destruct (Forall_round _ host_try_from (fun h r => host_id_0 (host_id h) = hr_id r
      /\ host_into_domain env r = Ok h) _ (host_round env) Oh) as (hs & -> & Fh).
  destruct (Forall_round _ tunnel_try_from (fun t r => tunnel_id_0 (tunnel_id t) = tr_id r
      /\ checked_tunnel (dc_hosts c) (dc_groups c) r = Ok t) _
      (tunnel_round (dc_hosts c) (dc_groups c)) Ot) as (ts & -> & Ft).
  assert (Fg : Forall2 (fun g r => group_id_0 (group_id g) = gr_id r
      /\ Ok (E := ConfigValidationError.t) (group_into_domain r) = Ok g)
      (dc_groups c) (group_record <$> dc_groups c)).
  { apply Forall2_map_self. by intros [[] ? ?]. }
  eexists. split; [done|]. unfold into_domain. simpl.
  rewrite <- (Forall2_length _ _ _ Fh), <- (Forall2_length _ _ _ Ft), length_fmap.
  rewrite !bool_decide_eq_false_2 by lia.
  rewrite (convert_round _ _ (fun h => host_id_0 (host_id h)) _ _ _ (NoDup_field _ _ _ Nh) Fh).
  rewrite (convert_round _ _ (fun g => group_id_0 (group_id g)) _ _ _ (NoDup_field _ _ _ Ng) Fg).
  rewrite (convert_round _ _ (fun t => tunnel_id_0 (tunnel_id t)) _ _ _ (NoDup_field _ _ _ Nt) Ft).
  by destruct c.
Qed.

(** ** Witnesses *)

Definition example_env : Env :=
  mkEnv Unix (fun v => if bool_decide (v = "HOME") then Some "/home/u" else None).

Definition example_host_record : HostRecord := {|
  hr_id := "h"; hr_name := "Bastion"; hr_hostname := "bastion.example"; hr_port := 22;
  hr_username := "u"; hr_auth_type := AuthType.PrivateKey; hr_credential_ref := None;
  hr_identity_file := Some "~/.ssh/id"; hr_passphrase_ref := Some "pass";
  hr_agent_socket := None; hr_host_key_policy := HostKeyPolicy.Strict;
  hr_connect_timeout_ms := 8000; hr_keepalive_interval_ms := 10000;
  hr_keepalive_max := 3; hr_notes := "" |}.

Definition example_tunnel_record : TunnelRecord := {|
  tr_id := "t"; tr_name := "DB"; tr_group_id := None; tr_mode := TunnelMode.Local;
  tr_jump_chain := ["h"]; tr_local_host := "127.0.0.1"; tr_local_port := 5432;
  tr_remote_host := Some "db"; tr_remote_port := Some 5432; tr_auto_start := true;
  tr_reconnect_base_ms := 1000; tr_reconnect_max_ms := 30000; tr_reconnect_reset_ms := 60000;
  tr_reconnect_jitter_percent := 20; tr_description := "" |}.

Definition example_document : ConfigDocument :=
  mkConfigDocument 1 AppSettings_default [example_host_record] [] [example_tunnel_record].

Definition example_config : DomainConfig :=
  match into_domain example_env example_document with
  | Ok c => c
  | Err _ => mkDomainConfig AppSettings_default [] [] []
  end.

(** A configuration whose host needs a secret. *)
Definition password_document : ConfigDocument :=
  mkConfigDocument 1 AppSettings_default
    [{| hr_id := "h"; hr_name := "Bastion"; hr_hostname := "bastion.example"; hr_port := 22;
        hr_username := "u"; hr_auth_type := AuthType.Password;
        hr_credential_ref := Some "new-secret"; hr_identity_file := None;
        hr_passphrase_ref := None; hr_agent_socket := None;
        hr_host_key_policy := HostKeyPolicy.Strict; hr_connect_timeout_ms := 8000;
        hr_keepalive_interval_ms := 10000; hr_keepalive_max := 3; hr_notes := "" |}] [] [].

Definition password_config : DomainConfig :=
  match into_domain example_env password_document with
  | Ok c => c
  | Err _ => mkDomainConfig AppSettings_default [] [] []
  end.

Lemma example_home_ok : home_ok example_env.
Proof. by intros home [= <-]. Qed.

Lemma example_typed : document_typed example_document.
Proof.
  split; apply Forall_singleton; repeat split; unfold u64, u64_max; simpl; lia.
Qed.

Lemma example_loads : into_domain example_env example_document = Ok example_config.
Proof. reflexivity. Qed.

Example example_key_expanded :
  host_auth <$> dc_hosts example_config
  = [AuthConfig.PrivateKey "/home/u/.ssh/id" (Some (mkSecretRef "pass"))].
Proof. reflexivity. Qed.
