(* ===== verification/Fs.v ===== *)
(** * Fs: the file-system operations the store performs, with faults, and the
    order of strings.

    A file is named by its directory and file name. Every operation first takes
    the next entry of [faults]: [Some] makes it fail with that error (a failed
    write leaves arbitrary contents behind), [None] or an exhausted list lets
    it run. Nothing else touches the files while an operation of the store
    runs. *)
From Stdlib Require OrderedTypeEx.
From stdpp Require Import sorting.
From S2P Require Import Prelude Io Text Domain Path.

Notation FilePath := (PathBuf * string)%type.

Record Fault := mkFault { fault_error : IoError; fault_partial : string }.

Record Fs := mkFs {
  files : gmap FilePath string;
  dirs : gset PathBuf;
  faults : list (option Fault)
}.

Definition not_found : IoError := mkIoError ErrorKind.NotFound "entity not found".
Definition already_exists : IoError := mkIoError ErrorKind.AlreadyExists "entity already exists".
Definition invalid_utf8 : IoError :=
  mkIoError ErrorKind.InvalidData "stream did not contain valid UTF-8".

(** The order in which the system lists a directory. *)
Class Os := {
  read_dir_order : list string -> list string;
  read_dir_order_perm : forall l, read_dir_order l ≡ₚ l
}.

(** ** Operations *)

Definition set_files (f : gmap FilePath string -> gmap FilePath string) (s : Fs) : Fs :=
  mkFs (f (files s)) (dirs s) (faults s).

(** Takes the next entry of [faults]; [spoil] is what a fault leaves behind. *)
Definition next_fault (spoil : string -> Fs -> Fs) : ST Fs IoError unit := fun s =>
  match faults s with
  | [] => (Ok tt, s)
  | None :: rest => (Ok tt, mkFs (files s) (dirs s) rest)
  | Some f :: rest =>
      (Err (fault_error f), spoil (fault_partial f) (mkFs (files s) (dirs s) rest))
  end.
Definition unspoiled (_ : string) (s : Fs) : Fs := s.

Definition create_dir_all (d : PathBuf) : ST Fs IoError unit :=
  next_fault unspoiled;;;
  modify (fun s => mkFs (files s) ({[d]} ∪ dirs s) (faults s)).

(** [OpenOptions::new().write(true).create_new(true).open(p)] *)
Definition create_new (p : FilePath) : ST Fs IoError unit :=
  next_fault unspoiled;;;
  let! s := get in
  if bool_decide (p.1 ∉ dirs s) then throw not_found
  else if bool_decide (is_Some (files s !! p)) then throw already_exists
  else modify (set_files <[p := ""]>).

(** [write_all], [io::copy] into the file, and [sync_all]. *)
Definition write_file (p : FilePath) (data : string) : ST Fs IoError unit :=
  next_fault (fun partial => set_files <[p := partial]>);;;
  modify (set_files <[p := data]>).
Definition sync_all (p : FilePath) : ST Fs IoError unit :=
  next_fault (fun partial => set_files <[p := partial]>).

(** [Path::exists]: an error counts as absent. *)
Definition path_exists {E} (present : Fs -> bool) : ST Fs E bool := fun s =>
  match next_fault unspoiled s with
  | (Ok _, s') => (Ok (present s'), s')
  | (Err _, s') => (Ok false, s')
  end.
Definition file_exists {E} (p : FilePath) : ST Fs E bool :=
  path_exists (fun s => bool_decide (is_Some (files s !! p))).
Definition dir_exists {E} (d : PathBuf) : ST Fs E bool :=
  path_exists (fun s => bool_decide (d ∈ dirs s)).

(** [File::open] (and [fs::metadata]): the contents, of which the caller uses
    what it needs. *)
Definition open_read (p : FilePath) : ST Fs IoError string :=
  next_fault unspoiled;;;
  let! s := get in
  lift (ok_or (files s !! p) not_found).

Definition rename (a b : FilePath) : ST Fs IoError unit :=
  next_fault unspoiled;;;
  let! s := get in
  let! data := lift (ok_or (files s !! a) not_found) in
  modify (set_files (fun m => <[b := data]> (delete a m))).

Definition remove_file (p : FilePath) : ST Fs IoError unit :=
  next_fault unspoiled;;;
  let! s := get in
  let! _ := lift (ok_or (files s !! p) not_found) in
  modify (set_files (delete p)).

(** The files of a directory, in the order the system lists them. *)
Definition entries (d : PathBuf) (m : gmap FilePath string) : list string :=
  (map_to_list (filter (fun '((q, _), _) => q = d) m)).*1.*2.

Definition read_dir `{Os} (d : PathBuf) : ST Fs IoError (list string) :=
  next_fault unspoiled;;;
  let! s := get in
  if bool_decide (d ∈ dirs s) then ret (read_dir_order (entries d (files s)))
  else throw not_found.

(** Drop of a [TempCleanup]: whatever the guarded code returns, the file is
    removed afterwards, errors ignored. *)
Definition with_cleanup {E A} (p : FilePath) (m : ST Fs E A) : ST Fs E A := fun s =>
  let '(r, s1) := m s in
  let '(_, s2) := remove_file p s1 in
  (r, s2).

(** ** Framing *)

(** [s'] differs from [s] at most in the files of [P]. *)
Definition touches (P : FilePath -> Prop) (s s' : Fs) : Prop :=
  forall p, ~ P p -> files s' !! p = files s !! p.

Lemma touches_refl P s : touches P s s.
Proof. by intros p. Qed.

Lemma touches_trans P s1 s2 s3 : touches P s1 s2 -> touches P s2 s3 -> touches P s1 s3.
Proof. intros H1 H2 p Hp. by rewrite H2, H1. Qed.

Lemma touches_weaken (P Q : FilePath -> Prop) s s' :
  (forall p, P p -> Q p) -> touches P s s' -> touches Q s s'.
Proof. intros HPQ H p Hp. apply H. naive_solver. Qed.

Lemma touches_none s s' p : touches (fun _ => False) s s' -> files s' !! p = files s !! p.
Proof. intros H. apply H. tauto. Qed.

(** [m] only touches files of [P]. *)
Definition only {E A} (P : FilePath -> Prop) (m : ST Fs E A) : Prop :=
  forall s r s', m s = (r, s') -> touches P s s'.

Lemma only_bind {E A B} P (m : ST Fs E A) (k : A -> ST Fs E B) :
  only P m -> (forall a, only P (k a)) -> only P (bind m k).
Proof.
  intros Hm Hk s r s'. unfold bind. destruct (m s) as [[a|e] s1] eqn:E1.
  - intros Hr. eapply touches_trans; [by eapply Hm|by eapply Hk].
  - intros [= _ <-]. by eapply Hm.
Qed.

Lemma only_pure {E A} P (f : Fs -> result A E) : only P (fun s => (f s, s)).
Proof. intros s r s' [= _ <-]. apply touches_refl. Qed.

Lemma only_lift {E A} P (r : result A E) : only P (lift r).
Proof. apply (only_pure P (fun _ => r)). Qed.

Lemma only_with_err {E F A} P (f : E -> F) (m : ST Fs E A) : only P m -> only P (with_err f m).
Proof.
  intros H s r s'. unfold with_err. destruct (m s) as [[a|e] s1] eqn:E1; intros [= _ <-]; by eapply H.
Qed.

Lemma only_if {E A} P (b : bool) (m1 m2 : ST Fs E A) :
  only P m1 -> only P m2 -> only P (if b then m1 else m2).
Proof. by destruct b. Qed.

Lemma only_weaken {E A} (P Q : FilePath -> Prop) (m : ST Fs E A) :
  (forall p, P p -> Q p) -> only P m -> only Q m.
Proof. intros HPQ H s r s' Hr. eapply touches_weaken; [done|by eapply H]. Qed.

Lemma only_modify {E} (P : FilePath -> Prop) (f : Fs -> Fs) :
  (forall s, touches P s (f s)) -> only P (E := E) (modify f).
Proof. by intros H s r s' [= _ <-]. Qed.

Lemma only_next_fault (P : FilePath -> Prop) spoil :
  (forall partial s, touches P s (spoil partial s)) -> only P (next_fault spoil).
Proof.
  intros H s r s'. unfold next_fault. destruct (faults s) as [|[f|] l]; intros [= _ <-]; try done.
  apply (H _ (mkFs _ _ _)).
Qed.

Lemma touches_insert (P : FilePath -> Prop) p data s :
  P p -> touches P s (set_files <[p := data]> s).
Proof. intros Hp q Hq. simpl. by rewrite lookup_insert_ne by naive_solver. Qed.

Lemma touches_delete (P : FilePath -> Prop) p s : P p -> touches P s (set_files (delete p) s).
Proof. intros Hp q Hq. simpl. by rewrite lookup_delete_ne by naive_solver. Qed.

Create HintDb fs.
#[export] Hint Resolve only_bind only_lift only_with_err only_if only_modify
  only_next_fault touches_refl touches_insert touches_delete : fs.
#[export] Hint Extern 0 (only _ (ret _)) => apply only_lift : fs.
#[export] Hint Extern 0 (only _ (throw _)) => apply only_lift : fs.
#[export] Hint Extern 0 (only _ get) => apply only_pure : fs.
#[export] Hint Extern 1 (touches _ _ _) => (intros ? ?; reflexivity) : fs.

Lemma only_create_dir_all P d : only P (create_dir_all d).
Proof. unfold create_dir_all. auto 6 with fs. Qed.
Lemma only_create_new (P : FilePath -> Prop) p : P p -> only P (create_new p).
Proof. unfold create_new. auto 10 with fs. Qed.
Lemma only_write_file (P : FilePath -> Prop) p data : P p -> only P (write_file p data).
Proof. unfold write_file. auto 10 with fs. Qed.
Lemma only_sync_all (P : FilePath -> Prop) p : P p -> only P (sync_all p).
Proof. unfold sync_all. auto 10 with fs. Qed.
Lemma only_path_exists {E} P f : only P (path_exists (E := E) f).
Proof.
  intros s r s' H. unfold path_exists in H.
  destruct (next_fault unspoiled s) as [[]] eqn:En; simplify_eq;
    (eapply only_next_fault; [|exact En]; auto with fs).
Qed.
Lemma only_open_read P p : only P (open_read p).
Proof. unfold open_read. auto 10 with fs. Qed.
Lemma only_rename (P : FilePath -> Prop) a b : P a -> P b -> only P (rename a b).
Proof.
  intros Ha Hb. unfold rename. apply only_bind; [auto with fs|]. intros _.
  apply only_bind; [auto with fs|]. intros s. apply only_bind; [auto with fs|]. intros data.
  apply only_modify. intros s' q Hq. simpl.
  rewrite lookup_insert_ne, lookup_delete_ne by naive_solver. done.
Qed.
Lemma only_remove_file (P : FilePath -> Prop) p : P p -> only P (remove_file p).
Proof. unfold remove_file. auto 12 with fs. Qed.
Lemma only_read_dir `{Os} P d : only P (read_dir d).
Proof. unfold read_dir. auto 10 with fs. Qed.
Lemma only_with_cleanup {E A} (P : FilePath -> Prop) p (m : ST Fs E A) :
  P p -> only P m -> only P (with_cleanup p m).
Proof.
  intros Hp Hm s r s'. unfold with_cleanup. destruct (m s) as [r1 s1] eqn:E1.
  destruct (remove_file p s1) as [r2 s2] eqn:E2. intros [= _ <-].
  eapply touches_trans; [by eapply Hm|by eapply only_remove_file].
Qed.

#[export] Hint Resolve only_create_dir_all only_create_new only_write_file only_sync_all
  only_path_exists only_open_read only_rename only_remove_file only_read_dir
  only_with_cleanup : fs.

(** ** The answers an operation uses *)

Definition with_faults (l : list (option Fault)) (s : Fs) : Fs := mkFs (files s) (dirs s) l.

(** [m] depends on the answers it uses only: as long as some are left, it would
    have done the same with any others after them. *)
Definition answered {E A} (m : ST Fs E A) : Prop :=
  forall s r s1, m s = (r, s1) -> faults s1 <> [] ->
  exists used, faults s = used ++ faults s1
    /\ forall l, m (with_faults (used ++ l) s) = (r, with_faults l s1).

(** [m] uses none. *)
Definition unasked {E A} (m : ST Fs E A) : Prop :=
  forall s r s1, m s = (r, s1) -> faults s1 = faults s
    /\ forall l, m (with_faults l s) = (r, with_faults l s1).

Lemma unasked_answered {E A} (m : ST Fs E A) : unasked m -> answered m.
Proof. intros Hm s r s1 [Hf Hl]%Hm _. exists []. by rewrite Hf. Qed.

Lemma answered_bind {E A B} (m : ST Fs E A) (k : A -> ST Fs E B) :
  answered m -> (forall a, answered (k a)) -> answered (bind m k).
Proof.
  intros Hm Hk s r s2. unfold bind. destruct (m s) as [[a|e] s1] eqn:E1; intros Hr Hne.
  - destruct (Hk a _ _ _ Hr Hne) as (u2 & Hf2 & H2).
    destruct (Hm _ _ _ E1) as (u1 & Hf1 & H1); [rewrite Hf2; by destruct u2, (faults s2)|].
    exists (u1 ++ u2). split; [by rewrite Hf1, Hf2, app_assoc|]. intros l. by rewrite <-app_assoc, H1, H2.
  - injection Hr as <- <-. destruct (Hm _ _ _ E1 Hne) as (u & Hf & H1). exists u. split; [done|].
    intros l. by rewrite H1.
Qed.

Lemma answered_next_fault spoil :
  (forall t l s, spoil t (with_faults l s) = with_faults l (spoil t s)) ->
  answered (next_fault spoil).
Proof.
  intros Hsp s r s1. unfold next_fault.
  destruct (faults s) as [|[f|] rest] eqn:Ef; intros [= <- <-] Hne.
  - by rewrite Ef in Hne.
  - exists [Some f]. change (mkFs (files s) (dirs s) rest) with (with_faults rest s) in *.
    rewrite Hsp. split; [done|]. intros l. cbn.
    change (mkFs (files s) (dirs s) l) with (with_faults l s). by rewrite Hsp.
  - by exists [None].
Qed.

Lemma answered_with_err {E F A} (f : E -> F) (m : ST Fs E A) : answered m -> answered (with_err f m).
Proof.
  intros Hm s r s1. unfold with_err. destruct (m s) as [[a|e] s2] eqn:E1; intros [= <- <-] Hne;
    destruct (Hm _ _ _ E1 Hne) as (u & Hf & H1); exists u; (split; [done|]); intros l; by rewrite H1.
Qed.

Lemma answered_lift {E A} (r : result A E) : answered (lift r).
Proof. apply unasked_answered. by intros s r' s1 [= <- <-]. Qed.

Ltac unasked_tac :=
  intros ? ? ?; unfold bind, get, lift, modify, throw, ret, set_files; cbn;
  repeat (case_bool_decide || case_match); intros; simplify_eq/=; done.

Lemma answered_path_exists {E} (present : Fs -> bool) :
  (forall l s, present (with_faults l s) = present s) -> answered (path_exists (E := E) present).
Proof.
  intros Hp s r s1. unfold path_exists. destruct (next_fault unspoiled s) as [r0 s0] eqn:En.
  intros Hr Hne. assert (s1 = s0) as -> by (by destruct r0; injection Hr).
  destruct (answered_next_fault unspoiled ltac:(done) _ _ _ En Hne) as (u & Hf & Hl).
  exists u. split; [done|]. intros l. rewrite Hl. destruct r0; injection Hr as <-; [by rewrite Hp|done].
Qed.

Lemma answered_create_dir_all d : answered (create_dir_all d).
Proof. apply answered_bind; [by apply answered_next_fault|]. intros _. apply unasked_answered. unasked_tac. Qed.
Lemma answered_create_new p : answered (create_new p).
Proof. apply answered_bind; [by apply answered_next_fault|]. intros _. apply unasked_answered. unasked_tac. Qed.
Lemma answered_write_file p data : answered (write_file p data).
Proof. apply answered_bind; [by apply answered_next_fault|]. intros _. apply unasked_answered. unasked_tac. Qed.
Lemma answered_sync_all p : answered (sync_all p).
Proof. by apply answered_next_fault. Qed.
Lemma answered_open_read p : answered (open_read p).
Proof. apply answered_bind; [by apply answered_next_fault|]. intros _. apply unasked_answered. unasked_tac. Qed.
Lemma answered_rename a b : answered (rename a b).
Proof. apply answered_bind; [by apply answered_next_fault|]. intros _. apply unasked_answered. unasked_tac. Qed.
Lemma answered_remove_file p : answered (remove_file p).
Proof. apply answered_bind; [by apply answered_next_fault|]. intros _. apply unasked_answered. unasked_tac. Qed.

Lemma answered_with_cleanup {E A} p (m : ST Fs E A) : answered m -> answered (with_cleanup p m).
Proof.
  intros Hm s r s2. unfold with_cleanup. destruct (m s) as [r1 s1] eqn:E1.
  destruct (remove_file p s1) as [r2 s3] eqn:E2. intros [= <- <-] Hne.
  destruct (answered_remove_file p _ _ _ E2 Hne) as (u2 & Hf2 & H2).
  destruct (Hm _ _ _ E1) as (u1 & Hf1 & H1); [rewrite Hf2; by destruct u2, (faults s3)|].
  exists (u1 ++ u2). split; [by rewrite Hf1, Hf2, app_assoc|]. intros l. by rewrite <-app_assoc, H1, H2.
Qed.

#[export] Hint Resolve answered_bind answered_with_err answered_lift answered_create_dir_all
  answered_create_new answered_write_file answered_sync_all answered_open_read answered_rename
  answered_remove_file answered_with_cleanup : fs.
#[export] Hint Extern 0 (answered (ret _)) => apply answered_lift : fs.
#[export] Hint Extern 0 (answered (throw _)) => apply answered_lift : fs.

(** ** Effects of the operations that succeed *)

(** Both ways through a bind. *)
Lemma bind_cases {S E A B} (m : ST S E A) (k : A -> ST S E B) s r s' :
  bind m k s = (r, s') ->
  (exists e, m s = (Err e, s') /\ r = Err e)
  \/ exists a s1, m s = (Ok a, s1) /\ k a s1 = (r, s').
Proof. unfold bind. destruct (m s) as [[a|e] s1]; naive_solver. Qed.

Lemma next_fault_ok spoil s u s' : next_fault spoil s = (Ok u, s') -> files s' = files s /\ dirs s' = dirs s.
Proof. unfold next_fault. intros H. by split_matches. Qed.

Lemma write_file_ok p data s u s' :
  write_file p data s = (Ok u, s') -> files s' = <[p := data]> (files s).
Proof.
  unfold write_file. intros ([] & s1 & H1 & H)%bind_ok. apply next_fault_ok in H1 as [Hf _].
  unfold modify in H. simplify_eq. simpl. by rewrite Hf.
Qed.

Lemma rename_ok a b s u s' :
  rename a b s = (Ok u, s') ->
  exists data, files s !! a = Some data /\ files s' = <[b := data]> (delete a (files s)).
Proof.
  unfold rename. intros ([] & s1 & H1 & H)%bind_ok. apply next_fault_ok in H1 as [Hf _].
  unfold bind, get, lift, modify, ok_or in H. rewrite <- Hf.
  destruct (files s1 !! a) as [data|]; simplify_eq. by exists data.
Qed.

Lemma open_read_ok p s data s' :
  open_read p s = (Ok data, s') -> files s !! p = Some data /\ files s' = files s.
Proof.
  unfold open_read. intros ([] & s1 & H1 & H)%bind_ok. apply next_fault_ok in H1 as [Hf _].
  unfold bind, get, lift, ok_or in H. rewrite <- Hf.
  by destruct (files s1 !! p); simplify_eq.
Qed.

Lemma remove_file_ok p s u s' :
  remove_file p s = (Ok u, s') -> files s' = delete p (files s).
Proof.
  unfold remove_file. intros ([] & s1 & H1 & H)%bind_ok. apply next_fault_ok in H1 as [Hf _].
  unfold bind, get, lift, modify, ok_or in H. rewrite <- Hf.
  by destruct (files s1 !! p); simplify_eq.
Qed.

Lemma rename_err a b s e s' : rename a b s = (Err e, s') -> files s' = files s.
Proof.
  unfold rename. intros [H|([] & s1 & H1 & H)]%bind_err.
  - unfold next_fault, unspoiled in H. by split_matches.
  - apply next_fault_ok in H1 as [<- _]. unfold bind, get, lift, modify, ok_or in H.
    by destruct (files s1 !! a); simplify_eq.
Qed.

Lemma create_new_ok p s u s' :
  create_new p s = (Ok u, s') -> files s !! p = None /\ files s' = <[p := ""]> (files s).
Proof.
  unfold create_new. intros ([] & s1 & H1 & H)%bind_ok. apply next_fault_ok in H1 as [<- _].
  unfold bind, get, throw, modify in H. do 2 (case_bool_decide; [done|]). simplify_eq.
  split; [|done]. by apply eq_None_not_Some.
Qed.

Lemma create_new_err p s e s' :
  create_new p s = (Err e, s') -> (forall P, touches P s s') /\ files s' = files s.
Proof.
  intros H. assert (Hf : files s' = files s).
  { unfold create_new in H. apply bind_err in H as [H|([] & s1 & H1 & H)].
    - unfold next_fault, unspoiled in H. by split_matches.
    - apply next_fault_ok in H1 as [<- _].
      unfold bind, get, throw, modify in H. by do 2 (case_bool_decide; [by simplify_eq|]). }
  split; [|done]. intros P p' _. by rewrite Hf.
Qed.

(** Without faults left, nothing fails but what the files forbid. *)
Definition calm (s : Fs) : Prop := faults s = [].

(** ** Directory listings *)

Lemma elem_of_entries d m n : n ∈ entries d m <-> is_Some (m !! (d, n)).
Proof.
  unfold entries. rewrite list_elem_of_fmap. setoid_rewrite list_elem_of_fmap. split.
  - intros ([d' n'] & -> & ([? ?] & ? & H)). simpl in *. subst.
    apply elem_of_map_to_list, map_lookup_filter_Some in H as [H ?]. simpl in *. subst. eauto.
  - intros [x Hx]. exists (d, n). split; [done|]. exists ((d, n), x). split; [done|].
    apply elem_of_map_to_list, map_lookup_filter_Some. done.
Qed.

Lemma entries_ext d m1 m2 : (forall n, m1 !! (d, n) = m2 !! (d, n)) -> entries d m1 = entries d m2.
Proof.
  intros H. unfold entries. do 3 f_equal. apply map_eq. intros [q n]. apply option_eq. intros x.
  rewrite !map_lookup_filter_Some. split; intros [Hx Hq]; simpl in Hq; subst; rewrite H in *; done.
Qed.

Lemma NoDup_entries d m : NoDup (entries d m).
Proof.
  unfold entries. apply NoDup_fmap_2_strong; [|apply NoDup_fst_map_to_list].
  intros [d1 n1] [d2 n2] H1 H2 Hn. simpl in Hn. subst.
  apply list_elem_of_fmap in H1 as ([? x1] & ? & H1).
  apply list_elem_of_fmap in H2 as ([? x2] & ? & H2). simpl in *. subst.
  apply elem_of_map_to_list, map_lookup_filter_Some in H1 as [_ H1].
  apply elem_of_map_to_list, map_lookup_filter_Some in H2 as [_ H2]. simpl in *. by subst.
Qed.

(** ** The order of strings: byte-wise, as [Ord for str] *)

Definition str_le (a b : string) : Prop := String.leb a b = true.
#[export] Instance str_le_dec a b : Decision (str_le a b) := decide (_ = _).
#[export] Instance str_le_total : Total str_le.
Proof. intros a b. apply String.leb_total. Qed.
#[export] Instance str_le_antisymm : AntiSymm (=) str_le.
Proof. intros a b. apply String.leb_antisym. Qed.

Lemma str_le_lt a b : str_le a b <-> OrderedTypeEx.String_as_OT.lt a b \/ a = b.
Proof.
  unfold str_le, String.leb. rewrite <- OrderedTypeEx.String_as_OT.cmp_lt,
    <- OrderedTypeEx.String_as_OT.cmp_eq. unfold OrderedTypeEx.String_as_OT.cmp.
  destruct (String.compare a b); naive_solver.
Qed.

#[export] Instance str_le_trans : Transitive str_le.
Proof.
  intros a b c. rewrite !str_le_lt. intros [H1| ->] [H2| ->]; auto.
  left. by eapply OrderedTypeEx.String_as_OT.lt_trans.
Qed.

(** The order of [sort_unstable_by(|a, b| b.cmp(a))]. *)
Definition newer (a b : string) : Prop := str_le b a.
#[export] Instance newer_dec a b : Decision (newer a b) := str_le_dec b a.
#[export] Instance newer_total : Total newer.
Proof. intros a b. apply (total str_le). Qed.
#[export] Instance newer_trans : Transitive newer.
Proof. intros a b c H1 H2. unfold newer in *. by trans b. Qed.

(** ** A file system without faults *)

Section calm.
Context (m : gmap FilePath string) (d : gset PathBuf).
Notation quiet := (mkFs m d []).

Lemma create_dir_all_calm q : create_dir_all q quiet = (Ok tt, mkFs m ({[q]} ∪ d) []).
Proof. done. Qed.
Lemma create_new_calm (p : FilePath) :
  p.1 ∈ d -> m !! p = None -> create_new p quiet = (Ok tt, mkFs (<[p := ""]> m) d []).
Proof.
  intros Hd Hp. unfold create_new, bind, next_fault, get. cbn [faults files dirs].
  rewrite bool_decide_eq_false_2 by tauto. rewrite bool_decide_eq_false_2; [done|].
  by apply eq_None_not_Some.
Qed.
Lemma create_new_taken (p : FilePath) : p.1 ∈ d -> m !! p <> None -> create_new p quiet = (Err already_exists, quiet).
Proof.
  intros Hd Hp. unfold create_new, bind, next_fault, get. cbn [faults files dirs].
  rewrite bool_decide_eq_false_2 by tauto.
  by rewrite bool_decide_eq_true_2 by (by apply not_eq_None_Some).
Qed.
Lemma write_file_calm (p : FilePath) data : write_file p data quiet = (Ok tt, mkFs (<[p := data]> m) d []).
Proof. done. Qed.
Lemma sync_all_calm (p : FilePath) : sync_all p quiet = (Ok tt, quiet).
Proof. done. Qed.
Lemma file_exists_calm {E} (p : FilePath) :
  file_exists (E := E) p quiet = (Ok (bool_decide (is_Some (m !! p))), quiet).
Proof. done. Qed.
Lemma dir_exists_calm {E} q : dir_exists (E := E) q quiet = (Ok (bool_decide (q ∈ d)), quiet).
Proof. done. Qed.
Lemma open_read_calm (p : FilePath) data : m !! p = Some data -> open_read p quiet = (Ok data, quiet).
Proof. intros H. unfold open_read, bind, next_fault, get, lift. cbn. by rewrite H. Qed.
Lemma rename_calm (a b : FilePath) data :
  m !! a = Some data -> rename a b quiet = (Ok tt, mkFs (<[b := data]> (delete a m)) d []).
Proof. intros H. unfold rename, bind, next_fault, get, lift. cbn. by rewrite H. Qed.
Lemma remove_file_calm (p : FilePath) data :
  m !! p = Some data -> remove_file p quiet = (Ok tt, mkFs (delete p m) d []).
Proof. intros H. unfold remove_file, bind, next_fault, get, lift. cbn. by rewrite H. Qed.
Lemma remove_file_absent (p : FilePath) : m !! p = None -> remove_file p quiet = (Err not_found, quiet).
Proof. intros H. unfold remove_file, bind, next_fault, get, lift. cbn. by rewrite H. Qed.
Lemma read_dir_calm `{Os} q :
  q ∈ d -> read_dir q quiet = (Ok (read_dir_order (entries q m)), quiet).
Proof.
  intros H1. unfold read_dir, bind, next_fault, get. cbn [faults files dirs].
  by rewrite bool_decide_eq_true_2.
Qed.
End calm.

Lemma with_err_step {S E F A} (f : E -> F) (m : ST S E A) s a s1 :
  m s = (Ok a, s1) -> with_err f m s = (Ok a, s1).
Proof. unfold with_err. by intros ->. Qed.
