(* ===== verification/Store.v ===== *)
(** * Store: loading, saving, exporting and backing up the configuration file
    (crates/config-store/src/store.rs).

    The [toml] crate is the class [Toml]: a printer and a parser of documents
    (Document builds it from the syntax of TOML and the serde attributes), of
    which the round trip theorems assume that the parser reads back what
    the printer wrote. The file system is [Fs]. *)
From stdpp Require Import sorting.
From S2P Require Import Prelude Io Text Net Domain Path Schema Fs.

Definition MAX_CONFIG_BYTES : Z := 4 * 1024 * 1024.
Definition MAX_BACKUPS : nat := 5.

(** [toml::from_str] and [toml::to_string_pretty] at [ConfigDocument]; an error
    is its text. *)
Class Toml := {
  from_str : string -> result ConfigDocument string;
  to_string_pretty : ConfigDocument -> result string string
}.

(** The printed text is UTF-8, and parses back to the document. *)
Class TomlLaws `{Toml} := {
  printed_is_utf8 d text : to_string_pretty d = Ok text -> from_utf8_ok (bytes text) = true;
  printed_parses d text : to_string_pretty d = Ok text -> from_str text = Ok d
}.

Module ConfigStoreError.
Inductive t :=
  | MissingAppData
  | TooLarge
  | Io (path : PathBuf) (source : IoError)
  | Parse (text : string)
  | Serialize (text : string)
  | Validation (e : ConfigValidationError.t)
  | BackupNameConflict.
End ConfigStoreError.

Definition show_config_store_error (e : ConfigStoreError.t) : string :=
  match e with
  | ConfigStoreError.MissingAppData =>
      "APPDATA is unavailable; choose a configuration directory"
  | ConfigStoreError.TooLarge => "configuration file exceeds 4 MiB"
  | ConfigStoreError.Io path source =>
      "configuration I/O at " +:+ path +:+ ": " +:+ io_text source
  | ConfigStoreError.Parse text => "invalid TOML configuration: " +:+ text
  | ConfigStoreError.Serialize text => "cannot serialize configuration: " +:+ text
  | ConfigStoreError.Validation e => show_config_validation_error e
  | ConfigStoreError.BackupNameConflict => "too many backup names share the current timestamp"
  end.

Record ConfigStore := mkConfigStore { directory : PathBuf }.

Definition new (directory : PathBuf) : ConfigStore := mkConfigStore directory.

Definition default_windows (env : Env) : result ConfigStore ConfigStoreError.t :=
  let? app_data := ok_or (var_os env "APPDATA") ConfigStoreError.MissingAppData in
  Ok (new (path_join (platform env) app_data "TunnelWarden")).

(** A file's whole path, for the error text. *)
Definition to_path (env : Env) (p : FilePath) : PathBuf := path_join (platform env) p.1 p.2.

Definition io_error (path : PathBuf) (source : IoError) : ConfigStoreError.t :=
  ConfigStoreError.Io path source.

(** [file.take(limit).read_to_string] *)
Definition take_bytes (limit : Z) (s : string) : string :=
  if bool_decide (str_len s <= limit) then s else String.substring 0 (Z.to_nat limit) s.
Definition read_to_string (limit : Z) (contents : string) : result string IoError :=
  let text := take_bytes limit contents in
  if from_utf8_ok (bytes text) then Ok text else Err invalid_utf8.

(** [str::starts_with] and [str::ends_with] *)
Definition starts_with (prefix s : string) : bool := String.prefix prefix s.
Definition ends_with (suffix s : string) : bool :=
  bool_decide (String.list_ascii_of_string suffix `suffix_of` String.list_ascii_of_string s).

Definition read_file `{Toml} (env : Env) (path : PathBuf) (contents : string)
    : result DomainConfig ConfigStoreError.t :=
  let? text := map_err (io_error path) (read_to_string (MAX_CONFIG_BYTES + 1) contents) in
  if bool_decide (MAX_CONFIG_BYTES < str_len text) then Err ConfigStoreError.TooLarge
  else
    let? document := map_err ConfigStoreError.Parse (from_str text) in
    map_err ConfigStoreError.Validation (into_domain env document).

Definition config_path (self : ConfigStore) : FilePath := (directory self, "config.toml").
Definition temp_path (self : ConfigStore) : FilePath := (directory self, "config.toml.tmp").
Definition backups (env : Env) (self : ConfigStore) : PathBuf :=
  path_join (platform env) (directory self) "backups".

Definition load `{Toml} (env : Env) (self : ConfigStore) : ST Fs ConfigStoreError.t DomainConfig :=
  fun s =>
    let path := to_path env (config_path self) in
    match open_read (config_path self) s with
    | (Ok file, s') => (read_file env path file, s')
    | (Err source, s') =>
        if bool_decide (io_kind source = ErrorKind.NotFound)
        then (map_err ConfigStoreError.Validation (into_domain env ConfigDocument_default), s')
        else (Err (io_error path source), s')
    end.

Definition import_file `{Toml} (env : Env) (path : FilePath)
    : ST Fs ConfigStoreError.t DomainConfig :=
  let! file := with_err (io_error (to_path env path)) (open_read path) in
  lift (read_file env (to_path env path) file).

Definition export_file `{Toml} (env : Env) (path : FilePath) (config : DomainConfig)
    : ST Fs ConfigStoreError.t unit :=
  let! document := lift (map_err ConfigStoreError.Validation (try_from config)) in
  let! _ := lift (map_err ConfigStoreError.Validation (into_domain env document)) in
  let! serialized := lift (map_err ConfigStoreError.Serialize (to_string_pretty document)) in
  if bool_decide (MAX_CONFIG_BYTES < str_len serialized) then throw ConfigStoreError.TooLarge
  else
    with_err (io_error (to_path env path)) (create_new path);;;
    fun s =>
      match (write_file path serialized;;; sync_all path) s with
      | (Ok _, s') => (Ok tt, s')
      | (Err source, s') =>
          let '(_, s'') := remove_file path s' in
          (Err (io_error (to_path env path) source), s'')
      end.

(** ** Saving *)

Definition backup_name (stamp suffix : Z) : string :=
  "config-" +:+ show_dec stamp +:+ "-" +:+ show_dec suffix +:+ ".toml".
Definition staged_name (stamp suffix : Z) : string := backup_name stamp suffix +:+ ".tmp".

(** What follows the creation of the staged file, its cleanup guard in force. *)
Definition copy_backup (env : Env) (staged backup : FilePath) (source : string)
    : ST Fs ConfigStoreError.t unit :=
  with_err (io_error (to_path env staged)) (write_file staged source);;;
  with_err (io_error (to_path env staged)) (sync_all staged);;;
  with_err (io_error (to_path env backup)) (rename staged backup).

Fixpoint backup_loop (env : Env) (self : ConfigStore) (stamp : Z) (suffixes : list Z)
    : ST Fs ConfigStoreError.t unit :=
  match suffixes with
  | [] => throw ConfigStoreError.BackupNameConflict
  | suffix :: rest =>
      let path := config_path self in
      let backup := (backups env self, backup_name stamp suffix) in
      let staged := (backups env self, staged_name stamp suffix) in
      let! taken := file_exists backup in
      if taken then backup_loop env self stamp rest
      else
        let! source := with_err (io_error (to_path env path)) (open_read path) in
        fun s =>
          match create_new staged s with
          | (Ok _, s') => with_cleanup staged (copy_backup env staged backup source) s'
          | (Err error, s') =>
              if bool_decide (io_kind error = ErrorKind.AlreadyExists)
              then backup_loop env self stamp rest s'
              else (Err (io_error (to_path env staged) error), s')
          end
  end.

(** [stamp] is the current time in milliseconds since the epoch. *)
Definition backup_current (env : Env) (self : ConfigStore) (stamp : Z)
    : ST Fs ConfigStoreError.t unit :=
  let path := config_path self in
  let! contents := with_err (io_error (to_path env path)) (open_read path) in
  if bool_decide (MAX_CONFIG_BYTES < str_len contents) then throw ConfigStoreError.TooLarge
  else
    with_err (io_error (backups env self)) (create_dir_all (backups env self));;;
    backup_loop env self stamp (seqZ 0 10).

Definition is_backup_name (name : string) : bool :=
  starts_with "config-" name && ends_with ".toml" name.

(** [newest.sort_unstable_by(|a, b| b.0.cmp(&a.0))] on distinct names. *)
Definition sort_newest (l : list string) : list string := merge_sort newer l.

(** The loop over the listing; the pairs of the code carry the entry's path,
    which is the directory joined with the name. *)
Fixpoint prune_loop (env : Env) (self : ConfigStore) (newest entries : list string)
    : ST Fs ConfigStoreError.t unit :=
  match entries with
  | [] => ret tt
  | name :: rest =>
      with_err (io_error (backups env self)) (next_fault unspoiled);;;
      if negb (is_backup_name name) then prune_loop env self newest rest
      else
        let newest := sort_newest (newest ++ [name]) in
        match last newest with
        | Some oldest =>
            if bool_decide (MAX_BACKUPS < length newest)%nat
            then
              let oldest := (backups env self, oldest) in
              with_err (io_error (to_path env oldest)) (remove_file oldest);;;
              prune_loop env self (removelast newest) rest
            else prune_loop env self newest rest
        | None => prune_loop env self newest rest
        end
  end.

Definition prune_backups `{Os} (env : Env) (self : ConfigStore)
    : ST Fs ConfigStoreError.t unit :=
  let! present := dir_exists (backups env self) in
  if negb present then ret tt
  else
    let! entries := with_err (io_error (backups env self)) (read_dir (backups env self)) in
    prune_loop env self [] entries.

(** From the creation of the temporary file's cleanup guard to its drop. *)
Definition write_and_replace (env : Env) (self : ConfigStore) (stamp : Z) (serialized : string)
    : ST Fs ConfigStoreError.t unit :=
  let path := config_path self in
  let temp := temp_path self in
  with_err (io_error (to_path env temp)) (write_file temp serialized;;; sync_all temp);;;
  let! present := file_exists path in
  (if present : bool then backup_current env self stamp else ret tt);;;
  with_err (io_error (to_path env path)) (rename temp path).

Definition save `{Toml, Os} (env : Env) (self : ConfigStore) (stamp : Z)
    (document : ConfigDocument) : ST Fs ConfigStoreError.t unit :=
  let! serialized := lift (map_err ConfigStoreError.Serialize (to_string_pretty document)) in
  let! _ := lift (map_err ConfigStoreError.Validation (into_domain env document)) in
  if bool_decide (MAX_CONFIG_BYTES < str_len serialized) then throw ConfigStoreError.TooLarge
  else
    with_err (io_error (directory self)) (create_dir_all (directory self));;;
    let temp := temp_path self in
    with_err (io_error (to_path env temp)) (create_new temp);;;
    with_cleanup temp (write_and_replace env self stamp serialized);;;
    prune_backups env self.

(** ** Framing *)

Section framing.
Context (env : Env) (self : ConfigStore).

Definition in_backups (p : FilePath) : Prop := p.1 = backups env self.

Lemma backups_not_directory : backups env self <> directory self.
Proof.
  unfold backups, path_join.
  assert (Hp : prefix_len (platform env) (String.list_ascii_of_string "backups") = O)
    by (by destruct (platform env)).
  assert (Hr : has_root (platform env) "backups" = false)
    by (unfold has_root; rewrite Hp; by destruct (platform env)).
  rewrite Hp, Hr, bool_decide_eq_true_2 by done. simpl. intros H.
  apply (f_equal String.length) in H.
  assert (Hl : forall a b, String.length (a +:+ b) = (String.length a + String.length b)%nat).
  { clear. induction a as [|c a IH]; intros b; simpl; [done|by rewrite IH]. }
  rewrite !Hl in H. simpl in H. lia.
Qed.

Lemma config_not_in_backups : ~ in_backups (config_path self).
Proof. intros H. by apply backups_not_directory. Qed.
Lemma temp_not_in_backups : ~ in_backups (temp_path self).
Proof. intros H. by apply backups_not_directory. Qed.
Lemma temp_not_config : temp_path self <> config_path self.
Proof. by intros [=]. Qed.

Lemma only_copy_backup staged backup source :
  in_backups staged -> in_backups backup -> only in_backups (copy_backup env staged backup source).
Proof. intros. unfold copy_backup. auto 10 with fs. Qed.

Lemma only_backup_loop stamp suffixes : only in_backups (backup_loop env self stamp suffixes).
Proof.
  induction suffixes as [|x rest IH]; simpl; [auto with fs|].
  apply only_bind; [apply only_path_exists|]. intros []; [done|].
  apply only_bind; [auto with fs|]. intros source s r s' H.
  destruct (create_new _ s) as [[u|e] s1] eqn:E1.
  - eapply touches_trans; [eapply (only_create_new in_backups); [|exact E1]; done|].
    eapply only_with_cleanup; [| |exact H]; [done|by apply only_copy_backup].
  - eapply touches_trans; [eapply (only_create_new in_backups); [|exact E1]; done|].
    case_bool_decide; [by eapply IH|]. simplify_eq. apply touches_refl.
Qed.

Lemma only_backup_current stamp : only in_backups (backup_current env self stamp).
Proof.
  unfold backup_current. apply only_bind; [auto with fs|]. intros c.
  apply only_if; [auto with fs|]. apply only_bind; [auto with fs|]. intros _.
  apply only_backup_loop.
Qed.

Lemma only_prune_loop newest l : only in_backups (prune_loop env self newest l).
Proof.
  revert newest. induction l as [|name l IH]; intros newest; simpl; [auto with fs|].
  apply only_bind; [auto with fs|]. intros _. apply only_if; [done|].
  destruct (last _); [|done]. apply only_if; [|done].
  apply only_bind; [|done]. apply only_with_err, only_remove_file. done.
Qed.

Lemma only_prune_backups `{Os} : only in_backups (prune_backups env self).
Proof.
  unfold prune_backups. apply only_bind; [apply only_path_exists|]. intros present.
  apply only_if; [auto with fs|]. apply only_bind; [auto with fs|]. intros l.
  apply only_prune_loop.
Qed.

Lemma only_write_and_replace stamp text :
  only (fun p => p = config_path self \/ p = temp_path self \/ in_backups p)
    (write_and_replace env self stamp text).
Proof.
  unfold write_and_replace. apply only_bind; [apply only_with_err; auto 10 with fs|]. intros _.
  apply only_bind; [apply only_path_exists|]. intros present. apply only_bind; [|auto 10 with fs].
  apply only_if; [|auto with fs]. eapply only_weaken, only_backup_current. tauto.
Qed.

(** ** Replacing the configuration *)

Lemma with_err_files {E F A} (f : E -> F) (m : ST Fs E A) s r s' :
  with_err f m s = (r, s') -> exists r0, m s = (r0, s') /\ r = map_err f r0.
Proof. unfold with_err. destruct (m s) as [[a|e] s1]; intros [= <- <-]; eauto. Qed.

Lemma temp_after_backup stamp (present : bool) s r s' :
  (if present then backup_current env self stamp else ret tt) s = (r, s') ->
  files s' !! temp_path self = files s !! temp_path self
  /\ files s' !! config_path self = files s !! config_path self.
Proof.
  intros H. assert (Ht : touches in_backups s s').
  { destruct present; [by eapply only_backup_current|]. eapply only_lift, H. }
  split; apply Ht; [apply temp_not_in_backups|apply config_not_in_backups].
Qed.

Lemma write_and_replace_spec stamp text s r s' :
  write_and_replace env self stamp text s = (r, s') ->
  files s' !! config_path self
  = match r with Ok _ => Some text | Err _ => files s !! config_path self end.
Proof.
  unfold write_and_replace. intros H.
  apply bind_cases in H as [(e & H & ->)|([] & s1 & E1 & H)].
  { apply (only_with_err (fun p => p = temp_path self)) in H; [|auto 10 with fs].
    apply H. by intros [=]. }
  assert (H1 : files s1 !! config_path self = files s !! config_path self).
  { apply (only_with_err (fun p => p = temp_path self)) in E1; [|auto 10 with fs].
    apply E1. by intros [=]. }
  assert (Ht : files s1 !! temp_path self = Some text).
  { apply with_err_files in E1 as ([[]|] & E1 & ?); [|done].
    apply bind_ok in E1 as ([] & s0 & Ew & Es). apply write_file_ok in Ew.
    apply next_fault_ok in Es as [-> _]. rewrite Ew. apply lookup_insert_eq. }
  apply bind_cases in H as [(e & E2 & ->)|(present & s2 & E2 & H)];
    apply (only_path_exists (fun _ => False)) in E2.
  { by rewrite E2 by tauto. }
  rewrite <- (E2 (config_path self)) in H1 by tauto. rewrite <- (E2 (temp_path self)) in Ht by tauto.
  apply bind_cases in H as [(e & E3 & ->)|([] & s3 & E3 & H)];
    apply temp_after_backup in E3 as [Et Ec].
  { congruence. }
  apply with_err_files in H as ([[]|e] & H & ->); simpl.
  - apply rename_ok in H as (data & Hd & ->). rewrite lookup_insert_eq. congruence.
  - apply rename_err in H as ->. congruence.
Qed.

End framing.

(** What the end of [save] knows: the document is valid and printed as [text],
    and the replacement returned [r1] in the state [s2]. *)
Lemma save_cases `{HT : Toml, HO : Os} env self stamp document s r s' :
  save env self stamp document s = (r, s') ->
  (is_err r = true /\ files s' !! config_path self = files s !! config_path self
   /\ touches (fun _ => False) s s')
  \/ exists text s1 s2 r1,
       to_string_pretty document = Ok text /\ is_ok (into_domain env document) = true
       /\ str_len text <= MAX_CONFIG_BYTES
       /\ files s !! temp_path self = None
       /\ touches (fun p => p = temp_path self) s s1
       /\ with_cleanup (temp_path self) (write_and_replace env self stamp text) s1 = (r1, s2)
       /\ match r1 with
          | Err e => r = Err e /\ s' = s2
          | Ok _ => prune_backups env self s2 = (r, s')
          end.
Proof.
  unfold save. intros Hs.
  apply bind_cases in Hs as [(e & Hs & ->)|(text & s1 & E & Hs)].
  { left. apply (only_lift (fun _ => False)) in Hs. split_and!; [done|by apply touches_none|done]. }
  unfold lift, map_err in E. destruct (to_string_pretty document) as [text0|] eqn:Et; simplify_eq.
  apply bind_cases in Hs as [(e & Hs & ->)|(c & s2 & E & Hs)].
  { left. apply (only_lift (fun _ => False)) in Hs. split_and!; [done|by apply touches_none|done]. }
  unfold lift, map_err in E. destruct (into_domain env document) as [c'|] eqn:Ed; simplify_eq.
  case_bool_decide as Hlen; [by left; unfold throw in Hs; simplify_eq; split_and!; [..|apply touches_refl]|].
  apply bind_cases in Hs as [(e & Hs & ->)|([] & s3 & E3 & Hs)].
  { left. apply (only_with_err (fun _ => False)) in Hs; [|auto with fs].
    split_and!; [done|by apply touches_none|done]. }
  apply (only_with_err (fun _ => False)) in E3; [|auto with fs].
  apply bind_cases in Hs as [(e & Hs & ->)|([] & s4 & E4 & Hs)].
  { left. apply with_err_files in Hs as ([?|e'] & Hs & ?); simplify_eq/=.
    apply create_new_err in Hs as [_ Hf].
    split_and!; [done|by rewrite Hf; apply touches_none|]. intros p Hp. by rewrite Hf, E3. }
  apply with_err_files in E4 as ([[]|e'] & E4 & ?); simplify_eq/=.
  pose proof (create_new_ok _ _ _ _ E4) as [Hnone _].
  right. exists text. apply bind_cases in Hs as [(e & Hs & ->)|([] & s5 & E5 & Hs)].
  - exists s4, s', (Err e). split_and!; try done; [lia|by rewrite <- (touches_none _ _ _ E3)|].
    eapply touches_trans; [eapply touches_weaken, E3; done|].
    eapply (only_create_new (fun p => p = temp_path self)), E4. done.
  - exists s4, s5, (Ok ()). split_and!; try done; [lia|by rewrite <- (touches_none _ _ _ E3)|].
    eapply touches_trans; [eapply touches_weaken, E3; done|].
    eapply (only_create_new (fun p => p = temp_path self)), E4. done.
Qed.

Lemma replace_spec env self stamp text s r s' :
  with_cleanup (temp_path self) (write_and_replace env self stamp text) s = (r, s') ->
  files s' !! config_path self
  = match r with Ok _ => Some text | Err _ => files s !! config_path self end
  /\ touches (fun p => p = config_path self \/ p = temp_path self \/ in_backups env self p) s s'.
Proof.
  intros H. split.
  - unfold with_cleanup in H. destruct (write_and_replace _ _ _ _ s) as [r1 s1] eqn:E1.
    destruct (remove_file _ s1) as [r2 s2] eqn:E2. simplify_eq.
    apply (only_remove_file (fun p => p = temp_path self)) in E2; [|done].
    rewrite E2 by (by intros [=]). by eapply write_and_replace_spec.
  - eapply only_with_cleanup; [| |exact H]; [auto|apply only_write_and_replace].
Qed.

(** The drop of the guard finds the file gone, removes it, or the system refuses. *)
Lemma with_cleanup_left {E A} p (m : ST Fs E A) s r s' :
  with_cleanup p m s = (r, s') ->
  exists s1, m s = (r, s1)
    /\ (files s' !! p = None \/ exists f, faults s1 = Some f :: faults s' /\ s' = with_faults (faults s') s1).
Proof.
  unfold with_cleanup. destruct (m s) as [r1 s1]. destruct (remove_file p s1) as [r2 s2] eqn:Er.
  intros [= -> ->]. exists s1. split; [done|]. destruct r2 as [[]|e].
  - left. apply remove_file_ok in Er as ->. apply lookup_delete_eq.
  - unfold remove_file in Er. apply bind_cases in Er as [(e' & Er & _)|([] & s2 & Er & Hr)].
    + right. unfold next_fault in Er. destruct (faults s1) as [|[f|] l] eqn:Ef; [done| |done].
      injection Er as _ <-. by exists f.
    + left. apply bind_cases in Hr as [(e' & Hg & _)|(s3 & s4 & Hg & Hr)]; [done|].
      injection Hg as <- <-. apply bind_cases in Hr as [(e' & Hl & _)|(data & s4 & Hl & Hr)]; [|done].
      unfold lift in Hl. injection Hl as Hl <-. by destruct (files s2 !! p).
Qed.

Section Answers.
Context (env : Env) (self : ConfigStore).

Lemma answered_backup_loop stamp suffixes : answered (backup_loop env self stamp suffixes).
Proof.
  induction suffixes as [|suffix rest IH]; cbn [backup_loop]; [auto with fs|].
  apply answered_bind; [by apply answered_path_exists|]. intros [|]; [done|].
  apply answered_bind; [auto with fs|]. intros source s r s1.
  set (staged := (_, staged_name stamp suffix)).
  destruct (create_new staged s) as [r0 s0] eqn:Ec.
  set (k := fun r0 : result unit IoError => match r0 with
    | Ok _ => with_cleanup staged (copy_backup env staged (backups env self, backup_name stamp suffix) source)
    | Err error => if bool_decide (io_kind error = ErrorKind.AlreadyExists)
        then backup_loop env self stamp rest else throw (io_error (to_path env staged) error) end).
  assert (Hk : forall r0, answered (k r0)).
  { intros [|]; cbn; [apply answered_with_cleanup; unfold copy_backup; auto 10 with fs|].
    case_bool_decide; auto with fs. }
  assert (Hrun : forall r0 s0, match r0 with
      | Ok _ => with_cleanup staged (copy_backup env staged (backups env self, backup_name stamp suffix) source) s0
      | Err error => if bool_decide (io_kind error = ErrorKind.AlreadyExists)
          then backup_loop env self stamp rest s0 else (Err (io_error (to_path env staged) error), s0) end
      = k r0 s0) by (intros [|] ?; cbn; [done|]; by case_bool_decide).
  rewrite Hrun. intros Hr Hne. destruct (Hk r0 _ _ _ Hr Hne) as (u2 & Hf2 & H2).
  destruct (answered_create_new staged _ _ _ Ec) as (u1 & Hf1 & H1); [rewrite Hf2; by destruct u2, (faults s1)|].
  exists (u1 ++ u2). split; [by rewrite Hf1, Hf2, app_assoc|]. intros l.
  rewrite <-app_assoc, H1. cbv beta iota. by rewrite Hrun, H2.
Qed.

Lemma answered_write_and_replace stamp text : answered (write_and_replace env self stamp text).
Proof.
  unfold write_and_replace. apply answered_bind; [auto with fs|]. intros _.
  apply answered_bind; [by apply answered_path_exists|]. intros present.
  apply answered_bind; [|auto with fs]. destruct present; [|auto with fs].
  unfold backup_current. apply answered_bind; [auto with fs|]. intros c.
  case_bool_decide; [auto with fs|]. apply answered_bind; [auto with fs|]. intros _.
  apply answered_backup_loop.
Qed.
End Answers.

Lemma replaced_temp env self stamp text s s' :
  write_and_replace env self stamp text s = (Ok tt, s') -> files s' !! temp_path self = None.
Proof.
  unfold write_and_replace. intros Hw.
  apply bind_ok in Hw as ([] & s2 & _ & Hw). apply bind_ok in Hw as (present & s3 & _ & Hw).
  apply bind_ok in Hw as ([] & s4 & _ & Hw). apply with_err_files in Hw as ([[]|] & Hw & ?); [|done].
  apply rename_ok in Hw as (data & _ & ->). rewrite lookup_insert_ne by done. apply lookup_delete_eq.
Qed.

(** The save failed and its last call, the removal of the temporary file, was
    refused: with that call allowed, it fails in the same way and leaves none. *)
Definition only_removal_refused `{Toml, Os} (env : Env) (self : ConfigStore) (stamp : Z)
    (document : ConfigDocument) (s : Fs) (r : result unit ConfigStoreError.t) (s' : Fs) : Prop :=
  is_err r = true /\ exists used f, faults s = used ++ Some f :: faults s'
    /\ save env self stamp document (with_faults (used ++ None :: faults s') s)
       = (r, set_files (delete (temp_path self)) s').

Lemma save_leaves `{HT : Toml, HO : Os} env self stamp document s r s' :
  save env self stamp document s = (r, s') -> files s !! temp_path self = None ->
  files s' !! temp_path self = None \/ only_removal_refused env self stamp document s r s'.
Proof.
  intros Hs Hnone. unfold only_removal_refused. unfold save in Hs |- *.
  apply bind_cases in Hs as [(e & Hs & ->)|(text & s1 & E1 & Hs)]; [injection Hs as _ <-; by left|].
  apply bind_cases in Hs as [(e & Hs & ->)|(c & s2 & E2 & Hs)].
  { injection E1 as _ <-. injection Hs as _ <-. by left. }
  injection E1 as E1 <-. injection E2 as E2 <-. unfold lift at 1 2. unfold bind at 1 2. rewrite E1, E2.
  case_bool_decide as Hlen; [injection Hs as _ <-; by left|].
  apply bind_cases in Hs as [(e & Hs & ->)|([] & s3 & E3 & Hs)];
    [|pose proof E3 as Hs3; apply (only_with_err (fun _ => False)) in Hs3; [|auto with fs]].
  { left. apply (only_with_err (fun _ => False)) in Hs; [|auto with fs]. by rewrite Hs by tauto. }
  apply bind_cases in Hs as [(e & Hs & ->)|([] & s4 & E4 & Hs)].
  { left. apply with_err_files in Hs as ([?|e'] & Hs & ?); simplify_eq/=.
    apply create_new_err in Hs as [_ Hf]. by rewrite Hf, Hs3 by tauto. }
  apply bind_cases in Hs as [(e & E5 & ->)|([] & s5 & E5 & Hs)];
    apply with_cleanup_left in E5 as (sa & Hw & Hleft).
  - destruct Hleft as [|(f & Hfa & Hs')]; [by left|]. destruct (files s' !! temp_path self) as [data|] eqn:Et;
      [|by left]. right. split; [done|].
    assert (Hdata : files sa !! temp_path self = Some data) by (by rewrite Hs' in Et).
    destruct (answered_write_and_replace env self stamp text _ _ _ Hw) as (u3 & Hf3 & H3); [by rewrite Hfa|].
    destruct (answered_with_err (io_error (to_path env (temp_path self))) _ (answered_create_new _) _ _ _ E4)
      as (u2 & Hf2 & H2); [rewrite Hf3, Hfa; by destruct u3|].
    destruct (answered_with_err (io_error (directory self)) _ (answered_create_dir_all _) _ _ _ E3)
      as (u1 & Hf1 & H1); [rewrite Hf2, Hf3, Hfa; by destruct u2, u3|].
    exists (u1 ++ u2 ++ u3), f. split; [by rewrite Hf1, Hf2, Hf3, Hfa, <-!app_assoc|].
    rewrite <-!app_assoc. unfold bind at 1. rewrite H1. unfold bind at 1. rewrite H2.
    unfold bind at 1, with_cleanup. rewrite H3. unfold remove_file, bind, next_fault, get, lift, modify. cbn.
    rewrite Hdata. cbn. by rewrite Hs'.
  - left. destruct Hleft as [Hn|(f & _ & Hs5)].
    + apply (only_prune_backups env self) in Hs. by rewrite Hs by apply temp_not_in_backups.
    + apply replaced_temp in Hw. apply (only_prune_backups env self) in Hs.
      rewrite Hs by apply temp_not_in_backups. by rewrite Hs5.
Qed.

Lemma read_file_saved `{TomlLaws} env path document text :
  to_string_pretty document = Ok text -> str_len text <= MAX_CONFIG_BYTES ->
  read_file env path text = map_err ConfigStoreError.Validation (into_domain env document).
Proof.
  intros Ht Hl. unfold read_file, read_to_string, take_bytes.
  rewrite bool_decide_eq_true_2 by lia. rewrite (printed_is_utf8 _ _ Ht). simpl.
  rewrite bool_decide_eq_false_2 by lia. by rewrite (printed_parses _ _ Ht).
Qed.

Lemma save_installs `{HT : Toml, HO : Os} env self stamp document s r s' :
  save env self stamp document s = (r, s') ->
  let installed := exists text, to_string_pretty document = Ok text
       /\ files s' !! config_path self = Some text in
  match r with
  | Ok _ => is_ok (into_domain env document) = true /\ installed
  | Err e => files s' !! config_path self = files s !! config_path self
             \/ (installed /\ exists s1, prune_backups env self s1 = (Err e, s'))
  end.
Proof.
  intros Hs. apply save_cases in Hs as [(Hr & Hf & _)|
    (text & s1 & s2 & r1 & Ht & Hd & _ & _ & Hb & Hw & Hr)]; cbn zeta.
  { destruct r; [done|by left]. }
  apply replace_spec in Hw as [Hc _]. destruct r1 as [[]|e].
  - pose proof (only_prune_backups env self _ _ _ Hr _ (config_not_in_backups env self)) as Hp.
    rewrite Hc in Hp. destruct r as [[]|e]; [by eauto|]. right. eauto.
  - destruct Hr as [-> ->]. left. rewrite Hc. apply Hb. by intros [=].
Qed.

(** C28: A save never loses the configuration. Whatever faults the file system
    shows, [save] touches no file but the configuration, its temporary file and
    the backups; if it succeeds, the document was valid and the next load
    returns exactly its configuration; if it fails, the configuration file is
    as it was - unless the replacement was done and only the pruning of old
    backups failed, when the new configuration is in place although the caller
    sees an error. Its temporary file is gone afterwards, unless the save failed
    and its last call, the removal of that file, was refused - with that call
    allowed the same save fails in the same way and leaves none; and one left there, by such a save
    or a crash, makes every later save fail and change nothing. *)
Theorem save_outcomes `{TomlLaws, Os} env self stamp document s r s' :
  save env self stamp document s = (r, s') ->
  touches (fun p => p = config_path self \/ p = temp_path self \/ in_backups env self p) s s'
  /\ (files s !! temp_path self <> None -> is_err r = true /\ files s' = files s)
  /\ (files s !! temp_path self = None -> files s' !! temp_path self = None
       \/ only_removal_refused env self stamp document s r s')
  /\ let installed := exists text, to_string_pretty document = Ok text
       /\ files s' !! config_path self = Some text
       /\ forall s'', files s'' = files s' -> calm s'' ->
            load env self s'' = (map_err ConfigStoreError.Validation (into_domain env document), s'')
     in
     match r with
     | Ok _ => is_ok (into_domain env document) = true /\ installed
     | Err e => files s' !! config_path self = files s !! config_path self
                \/ (installed /\ exists s1, prune_backups env self s1 = (Err e, s'))
     end.
Proof.
  intros Hs. pose proof (save_leaves _ _ _ _ _ _ _ Hs) as Hleft.
  apply save_cases in Hs as [(Hr & Hf & Ht)|
    (text & s1 & s2 & r1 & Ht & Hd & Hl & Hn & Hb & Hw & Hr)].
  { assert (Hsame : files s' = files s) by (apply map_eq; intros p; apply Ht; tauto).
    split_and!; [by eapply touches_weaken, Ht|done|done|]. destruct r; [done|by left]. }
  assert (Hinst : files s2 !! config_path self = Some text -> touches (in_backups env self) s2 s' ->
    exists text0, to_string_pretty document = Ok text0
       /\ files s' !! config_path self = Some text0
       /\ forall s'', files s'' = files s' -> calm s'' ->
            load env self s'' = (map_err ConfigStoreError.Validation (into_domain env document), s'')).
  { intros Hc Hp. assert (Hc' : files s' !! config_path self = Some text)
      by (by rewrite Hp by apply config_not_in_backups).
    exists text. split_and!; [done|done|]. intros s'' Hf Hcalm. unfold load.
    assert (Ho : open_read (config_path self) s'' = (Ok text, s'')).
    { unfold open_read, bind, next_fault, get, lift. rewrite Hcalm. by rewrite Hf, Hc'. }
    rewrite Ho. by rewrite (read_file_saved _ _ document text). }
  apply replace_spec in Hw as [Hc Hw].
  assert (Hsw : touches (fun p => p = config_path self \/ p = temp_path self \/ in_backups env self p) s s2).
  { eapply touches_trans; [|exact Hw]. eapply touches_weaken, Hb. auto. }
  destruct r1 as [[]|e].
  - assert (Hp : touches (in_backups env self) s2 s') by (by eapply only_prune_backups).
    split_and!; [|by rewrite Hn|done|].
    + eapply touches_trans; [exact Hsw|]. eapply touches_weaken, Hp. auto.
    + cbn zeta. destruct r as [[]|e]; [by split; [|apply Hinst]|].
      right. split; [by apply Hinst|]. by exists s2.
  - destruct Hr as [-> ->]. split_and!; [done|by rewrite Hn|done|]. left. rewrite Hc.
    apply Hb. by intros [=].
Qed.

(** ** Pruning *)

(** [kept] are the at most [cap] newest of [all], and [removed] the rest. *)
Record newest_of (cap : nat) (all kept removed : list string) : Prop := {
  no_split : kept ++ removed ≡ₚ all;
  no_cap : (length kept <= cap)%nat;
  no_full : removed <> [] -> length kept = cap;
  no_order : forall r k, r ∈ removed -> k ∈ kept -> str_le r k
}.

Lemma newest_of_all cap l : (length l <= cap)%nat -> newest_of cap l l [].
Proof. intros H. split; [by rewrite app_nil_r|done|done|by intros ? ? ?%elem_of_nil]. Qed.

(** An element no greater than [cap] others can be dropped first. *)
Lemma newest_of_drop cap oldest front rest kept removed :
  length front = cap -> NoDup (front ++ rest) ->
  (forall y, y ∈ front -> str_le oldest y) ->
  newest_of cap (front ++ rest) kept removed ->
  newest_of cap (front ++ oldest :: rest) kept (oldest :: removed).
Proof.
  intros Hc Hnd Hle [Hs Hcap Hfull Hord].
  assert (Hkr : NoDup (kept ++ removed)) by (by rewrite Hs).
  assert (Hmem : forall x, x ∈ front ++ rest <-> x ∈ kept \/ x ∈ removed)
    by (intros x; by rewrite <- Hs, elem_of_app).
  assert (Hlen : (length kept + length removed = cap + length rest)%nat)
    by (rewrite <- !length_app, Hs, length_app; lia).
  assert (Hold : forall k, k ∈ kept -> str_le oldest k).
  { intros k Hk. destruct (decide (k ∈ front)) as [|Hkf]; [by apply Hle|].
    destruct (decide (Forall (.∈ kept) front)) as [Hall|Hex].
    - exfalso. rewrite Forall_forall in Hall.
      assert (Hsub : k :: front ⊆+ kept).
      { apply NoDup_submseteq; [|by intros x [->|?]%elem_of_cons; auto].
        apply NoDup_cons. split; [done|]. by apply NoDup_app in Hnd as [? _]. }
      apply submseteq_length in Hsub. simpl in Hsub. lia.
    - apply not_Forall_Exists in Hex; [|apply _]. apply Exists_exists in Hex as (y & Hy & Hyk).
      trans y; [by apply Hle|]. apply Hord; [|done].
      destruct (proj1 (Hmem y)) as [|]; [apply elem_of_app; by left|done|done]. }
  split; [|done| |].
  - rewrite <- Permutation_middle, Hs. by rewrite Permutation_middle.
  - intros _. destruct removed as [|z removed]; [|by apply Hfull]. simpl in Hlen. lia.
  - intros r k [->|Hr]%elem_of_cons Hk; [by apply Hold|by apply Hord].
Qed.

Lemma newest_of_perm cap l l' kept removed :
  l ≡ₚ l' -> newest_of cap l kept removed -> newest_of cap l' kept removed.
Proof. intros Hp [Hs ? ? ?]. split; try done. by rewrite Hs. Qed.

(** What the files are after the removals. *)
Definition without (d : PathBuf) (removed : list string) (m m' : gmap FilePath string) : Prop :=
  forall p, m' !! p = if decide (p.1 = d /\ p.2 ∈ removed) then None else m !! p.

Lemma sorted_last l oldest :
  last (sort_newest l) = Some oldest ->
  sort_newest l = removelast (sort_newest l) ++ [oldest]
  /\ removelast (sort_newest l) ++ [oldest] ≡ₚ l
  /\ forall y, y ∈ removelast (sort_newest l) -> str_le oldest y.
Proof.
  intros Hlast. pose proof (StronglySorted_merge_sort newer l) as Hss.
  pose proof (merge_sort_Permutation newer l) as Hp.
  apply last_Some in Hlast as [front Hf]. unfold sort_newest in *. rewrite Hf in *.
  rewrite removelast_last. split_and!; [done|done|]. intros y Hy.
  eapply (StronglySorted_app_1_elem_of newer) in Hss; [exact Hss|done|left].
Qed.

Lemma cons_middle {A} (l : list A) x k : l ++ x :: k = (l ++ [x]) ++ k.
Proof. by rewrite <- app_assoc. Qed.

Lemma NoDup_app_filter {A} (l k : list A) f : NoDup (l ++ k) -> NoDup (l ++ List.filter f k).
Proof.
  induction k as [|x k IH]; simpl; [done|]. rewrite <- Permutation_middle.
  intros [Hx Hnd]%NoDup_cons. specialize (IH Hnd). destruct (f x); [|done].
  rewrite <- Permutation_middle. apply NoDup_cons. split; [|done].
  rewrite elem_of_app in *. intros [?|Hin]; [tauto|]. apply Hx. right.
  apply list_elem_of_In, filter_In in Hin as [Hin _]. by apply list_elem_of_In.
Qed.

Lemma prune_loop_spec env self newest l s u s' :
  NoDup (newest ++ l) -> (length newest <= MAX_BACKUPS)%nat ->
  prune_loop env self newest l s = (Ok u, s') ->
  exists kept removed,
    newest_of MAX_BACKUPS (newest ++ List.filter is_backup_name l) kept removed
    /\ without (backups env self) removed (files s) (files s').
Proof.
  revert newest s. induction l as [|name l IH]; intros newest s Hnd Hl Hp.
  { unfold prune_loop, ret in Hp. simplify_eq. exists newest, []. simpl. rewrite app_nil_r.
    split; [by apply newest_of_all|]. intros p. rewrite decide_False; [done|].
    by intros [_ ?%elem_of_nil]. }
  cbn [prune_loop] in Hp. apply bind_ok in Hp as ([] & s1 & E1 & Hp).
  apply with_err_files in E1 as ([[]|] & E1 & ?); simplify_eq.
  apply next_fault_ok in E1 as [Hf1 _]. rewrite <- Hf1. cbn [List.filter].
  destruct (is_backup_name name); cbn [negb] in Hp.
  2: { apply IH in Hp; [done| |done]. rewrite <- Permutation_middle in Hnd. by apply NoDup_cons in Hnd as [_ ?]. }
  pose proof (merge_sort_Permutation newer (newest ++ [name])) as Hperm.
  fold (sort_newest (newest ++ [name])) in Hperm.
  assert (Hall : sort_newest (newest ++ [name]) ++ l ≡ₚ newest ++ name :: l)
    by (by rewrite Hperm, <- app_assoc).
  destruct (last (sort_newest (newest ++ [name]))) as [oldest|] eqn:Elast.
  2: { apply last_None in Elast. rewrite Elast in Hperm. apply Permutation_nil in Hperm.
       by destruct newest. }
  destruct (sorted_last _ _ Elast) as (Heq & Hp2 & Hle).
  set (front := removelast _) in *. set (sorted := sort_newest _) in *.
  case_bool_decide as Hlen.
  - apply bind_ok in Hp as ([] & s2 & E2 & Hp).
    apply with_err_files in E2 as ([[]|] & E2 & ?); simplify_eq. apply remove_file_ok in E2 as Hf2.
    assert (Hfl : length front = MAX_BACKUPS).
    { apply Permutation_length in Hp2. apply Permutation_length in Hperm.
      rewrite !length_app in *. simpl in *. lia. }
    assert (Hnd' : NoDup (oldest :: front ++ l)).
    { by rewrite Permutation_middle, (cons_middle front oldest l), <- Heq, Hall. }
    pose proof Hnd' as [Hni Hndfl]%NoDup_cons.
    apply IH in Hp as (kept & removed & Hno & Hw); [|done|lia].
    exists kept, (oldest :: removed). split.
    + eapply newest_of_perm; [|eapply newest_of_drop; [exact Hfl| |exact Hle|exact Hno]].
      * by rewrite (cons_middle front oldest), Hp2, <- app_assoc.
      * by apply NoDup_app_filter.
    + intros p. rewrite Hw, Hf2. destruct p as [d n]. cbn [fst snd].
      destruct (decide (d = backups env self /\ n ∈ removed)) as [[-> Hn]|Hn].
      { rewrite decide_True; [done|]. split; [done|by right]. }
      destruct (decide (d = backups env self /\ n ∈ oldest :: removed)) as [[-> Ho]|Ho].
      * apply elem_of_cons in Ho as [->|]; [|naive_solver]. apply lookup_delete_eq.
      * apply lookup_delete_ne. intros [= <- <-]. apply Ho. split; [done|left].
  - apply IH in Hp as (kept & removed & Hno & Hw); [| |lia].
    + exists kept, removed. split; [|done]. eapply newest_of_perm; [|exact Hno].
      by rewrite Hperm, <- app_assoc.
    + by rewrite Hall.
Qed.

(** ** Saving without faults *)

Section quiet.
Context (env : Env) (self : ConfigStore).

Definition backup_names (m : gmap FilePath string) : list string :=
  List.filter is_backup_name (entries (backups env self) m).

Lemma is_backup_name_new stamp suffix : is_backup_name (backup_name stamp suffix) = true.
Proof.
  unfold is_backup_name, starts_with, ends_with, backup_name. apply andb_true_intro. split.
  - generalize (show_dec stamp +:+ "-" +:+ show_dec suffix +:+ ".toml"). by intros [].
  - apply bool_decide_eq_true_2. rewrite !list_ascii_app. rewrite !app_assoc. by eexists.
Qed.

Lemma staged_not_backup_name stamp suffix : staged_name stamp suffix <> backup_name stamp suffix.
Proof.
  unfold staged_name. intros H%(f_equal (fun s => length (String.list_ascii_of_string s))).
  rewrite list_ascii_app, length_app in H. simpl in H. lia.
Qed.

Lemma copy_backup_calm m d staged backup source :
  staged <> backup -> staged.1 ∈ d -> m !! staged = None ->
  with_cleanup staged (copy_backup env staged backup source) (mkFs (<[staged := ""]> m) d [])
  = (Ok tt, mkFs (<[backup := source]> m) d []).
Proof.
  intros Hne Hd Hs. unfold with_cleanup, copy_backup.
  erewrite bind_step by apply with_err_step, write_file_calm.
  erewrite bind_step by apply with_err_step, sync_all_calm.
  erewrite with_err_step by (apply rename_calm, lookup_insert_eq).
  rewrite insert_insert_eq, delete_insert_id by done.
  by rewrite remove_file_absent by (by rewrite lookup_insert_ne).
Qed.

Lemma backup_loop_calm stamp suffixes m d old :
  backups env self ∈ d -> m !! config_path self = Some old ->
  (exists i, i ∈ suffixes /\ m !! (backups env self, backup_name stamp i) = None
     /\ m !! (backups env self, staged_name stamp i) = None) ->
  exists i, i ∈ suffixes /\ m !! (backups env self, backup_name stamp i) = None
    /\ backup_loop env self stamp suffixes (mkFs m d [])
       = (Ok tt, mkFs (<[(backups env self, backup_name stamp i) := old]> m) d []).
Proof.
  intros Hd Hold. induction suffixes as [|x rest IH]; [intros (i & []%elem_of_nil & _)|].
  intros (i & Hi & Hb & Hs). cbn [backup_loop].
  erewrite bind_step by apply file_exists_calm.
  assert (Hrest : x <> i -> exists i, i ∈ rest /\ m !! (backups env self, backup_name stamp i) = None
    /\ backup_loop env self stamp rest (mkFs m d [])
       = (Ok tt, mkFs (<[(backups env self, backup_name stamp i) := old]> m) d [])).
  { intros Hx. apply IH. exists i. apply elem_of_cons in Hi as [->|]; done. }
  case_bool_decide as Hx.
  { destruct Hrest as (j & Hj & ? & ?); [intros ->; rewrite Hb in Hx; by destruct Hx|].
    exists j. split_and!; try done. by right. }
  apply eq_None_not_Some in Hx.
  erewrite bind_step by (apply with_err_step, open_read_calm, Hold).
  destruct (m !! (backups env self, staged_name stamp x)) eqn:Est.
  - rewrite create_new_taken by (simpl; congruence). cbn [io_kind already_exists].
    destruct Hrest as (j & Hj & ? & ?); [congruence|]. exists j. split_and!; try done. by right.
  - rewrite create_new_calm by done. rewrite copy_backup_calm; [|by intros ?%(f_equal snd)%staged_not_backup_name|done|done].
    exists x. split_and!; try done. left.
Qed.

Lemma prune_loop_calm newest l m d :
  NoDup (newest ++ l) -> (forall n, n ∈ newest ++ l -> is_Some (m !! (backups env self, n))) ->
  exists m', prune_loop env self newest l (mkFs m d []) = (Ok tt, mkFs m' d []).
Proof.
  revert newest m. induction l as [|name l IH]; intros newest m Hnd Hin; [by exists m|].
  cbn [prune_loop]. erewrite bind_step by (by apply with_err_step).
  assert (Hnd2 : NoDup (name :: newest ++ l)) by (by rewrite Permutation_middle).
  destruct (is_backup_name name); cbn [negb].
  2: { apply IH; [by apply NoDup_cons in Hnd2 as [_ ?]|]. intros n Hn. apply Hin. set_solver. }
  pose proof (merge_sort_Permutation newer (newest ++ [name])) as Hperm.
  fold (sort_newest (newest ++ [name])) in Hperm.
  assert (Hall : sort_newest (newest ++ [name]) ++ l ≡ₚ newest ++ name :: l)
    by (by rewrite Hperm, <- app_assoc).
  assert (Hcont : exists m', prune_loop env self (sort_newest (newest ++ [name])) l (mkFs m d [])
      = (Ok tt, mkFs m' d [])).
  { apply IH; [by rewrite Hall|]. intros n Hn. apply Hin. by rewrite <- Hall. }
  destruct (last _) as [oldest|] eqn:Elast; [|done]. case_bool_decide; [|done].
  destruct (sorted_last _ _ Elast) as (Heq & _ & _). revert Heq.
  generalize (removelast (sort_newest (newest ++ [name]))). intros front Heq.
  rewrite Heq, <- app_assoc in Hall.
  destruct (Hin oldest) as [data Hdata]; [rewrite <- Hall; set_solver|].
  erewrite bind_step by (by eapply with_err_step, remove_file_calm).
  assert (Hnd3 : NoDup (oldest :: front ++ l)) by (by rewrite Permutation_middle, Hall).
  apply NoDup_cons in Hnd3 as [Hni Hnd3]. apply IH; [done|]. intros n Hn.
  rewrite lookup_delete_ne by congruence. apply Hin. rewrite <- Hall. set_solver.
Qed.

Lemma prune_backups_calm `{Os} m d :
  (backups env self ∉ d -> backup_names m = []) ->
  exists m' kept removed, prune_backups env self (mkFs m d []) = (Ok tt, mkFs m' d [])
    /\ newest_of MAX_BACKUPS (backup_names m) kept removed
    /\ without (backups env self) removed m m'.
Proof.
  intros Hd. unfold prune_backups. erewrite bind_step by apply dir_exists_calm.
  case_bool_decide as Hin; cbn [negb].
  2: { exists m, [], []. rewrite Hd by done. split_and!; [done|by apply (newest_of_all _ []), Nat.le_0_l|].
       intros p. rewrite decide_False; [done|]. by intros [_ ?%elem_of_nil]. }
  erewrite bind_step by (by apply with_err_step, read_dir_calm).
  pose proof (read_dir_order_perm (entries (backups env self) m)) as Hp.
  set (l := read_dir_order _) in *.
  assert (Hnd : NoDup l) by (rewrite Hp; apply NoDup_entries).
  destruct (prune_loop_calm [] l m d) as [m' Hm'];
    [done|intros n Hn; apply elem_of_entries; by rewrite <- Hp|].
  rewrite Hm'. apply prune_loop_spec in Hm' as (kept & removed & Hno & Hw); [|done|simpl; lia].
  exists m', kept, removed. split_and!; [done| |done].
  eapply newest_of_perm; [|exact Hno]. simpl. unfold backup_names.
  clearbody l. clear -Hp. induction Hp; simpl; repeat case_match; try done; [by constructor|by constructor|by etrans].
Qed.

(** The files with the old configuration backed up under a free name. *)
Definition backed_up (stamp : Z) (m m' : gmap FilePath string) : Prop :=
  match m !! config_path self with
  | None => m' = m
  | Some old => exists i, i ∈ seqZ 0 10 /\ m !! (backups env self, backup_name stamp i) = None
                  /\ m' = <[(backups env self, backup_name stamp i) := old]> m
  end.

(** The old configuration, when there is one, can be backed up. *)
Definition can_back_up (stamp : Z) (m : gmap FilePath string) : Prop :=
  forall old, m !! config_path self = Some old ->
    str_len old <= MAX_CONFIG_BYTES
    /\ exists i, i ∈ seqZ 0 10 /\ m !! (backups env self, backup_name stamp i) = None
         /\ m !! (backups env self, staged_name stamp i) = None.

Lemma backup_path_ne n p : ~ in_backups env self p -> (backups env self, n) <> p.
Proof. by intros H <-. Qed.

Lemma backup_current_calm stamp m d old :
  m !! config_path self = Some old -> can_back_up stamp m ->
  exists m', backed_up stamp m m'
    /\ backup_current env self stamp (mkFs m d []) = (Ok tt, mkFs m' ({[backups env self]} ∪ d) []).
Proof.
  intros Hold Hcan. destruct (Hcan old Hold) as [Hlen Hfree]. unfold backup_current.
  erewrite bind_step by (apply with_err_step, open_read_calm, Hold).
  rewrite bool_decide_eq_false_2 by lia.
  erewrite bind_step by apply with_err_step, create_dir_all_calm.
  destruct (backup_loop_calm stamp (seqZ 0 10) m ({[backups env self]} ∪ d) old)
    as (i & Hi & Hn & ->); [set_solver|done|done|].
  eexists. split; [|done]. unfold backed_up. rewrite Hold. eauto.
Qed.

(** From the guard of the temporary file to its drop. *)
Lemma replace_calm stamp text m d :
  m !! temp_path self = None -> can_back_up stamp m ->
  exists m' d', backed_up stamp m m' /\ d ⊆ d' /\ (m' <> m -> backups env self ∈ d')
    /\ with_cleanup (temp_path self) (write_and_replace env self stamp text)
         (mkFs (<[temp_path self := ""]> m) d [])
       = (Ok tt, mkFs (<[config_path self := text]> m') d' []).
Proof.
  intros Htemp Hcan. set (m1 := <[temp_path self := text]> m).
  assert (Hb : forall n, m1 !! (backups env self, n) = m !! (backups env self, n))
    by (intros n; apply lookup_insert_ne; symmetry; apply backup_path_ne, temp_not_in_backups).
  assert (Hc : m1 !! config_path self = m !! config_path self) by (by apply lookup_insert_ne).
  assert (Hcan1 : can_back_up stamp m1).
  { intros old. rewrite Hc. intros H. destruct (Hcan old H) as (? & i & ?). split; [done|].
    exists i. by rewrite !Hb. }
  assert (Hbk : exists m2 m' d', (if bool_decide (is_Some (m1 !! config_path self))
        then backup_current env self stamp else ret tt) (mkFs m1 d []) = (Ok tt, mkFs m2 d' [])
      /\ backed_up stamp m m' /\ m2 = <[temp_path self := text]> m' /\ m' !! temp_path self = None
      /\ d ⊆ d' /\ (m' <> m -> backups env self ∈ d')).
  { case_bool_decide as Hsome.
    - destruct Hsome as [old Hold].
      destruct (backup_current_calm stamp m1 d old Hold Hcan1) as (m2 & Hup & ->).
      unfold backed_up in Hup. rewrite Hold in Hup. destruct Hup as (i & Hi & Hn & ->).
      exists (<[(backups env self, backup_name stamp i) := old]> m1),
             (<[(backups env self, backup_name stamp i) := old]> m), ({[backups env self]} ∪ d).
      split_and!; [done| | | |set_solver|set_solver].
      + unfold backed_up. rewrite <- Hc, Hold. exists i. by rewrite <- Hb.
      + unfold m1. apply insert_insert_ne. apply backup_path_ne, temp_not_in_backups.
      + rewrite lookup_insert_ne; [done|]. apply backup_path_ne, temp_not_in_backups.
    - exists m1, m, d. split_and!; try done. unfold backed_up. rewrite Hc in Hsome.
      by apply eq_None_not_Some in Hsome as ->. }
  destruct Hbk as (m2 & m' & d' & Hrun & Hup & -> & Ht & Hd & Hd').
  exists m', d'. split_and!; [done..|]. unfold with_cleanup, write_and_replace.
  erewrite bind_step.
  2: { apply with_err_step. erewrite bind_step by apply write_file_calm.
       rewrite insert_insert_eq. apply sync_all_calm. }
  fold m1. erewrite bind_step by apply file_exists_calm. erewrite bind_step by exact Hrun.
  erewrite with_err_step by (apply rename_calm, lookup_insert_eq).
  rewrite delete_insert_id by done.
  by rewrite remove_file_absent by (by rewrite lookup_insert_ne).
Qed.

End quiet.

(** Backups. Without faults, saving a valid document of at most 4 MiB
    succeeds whenever no temporary file is in the way and the old
    configuration fits and finds one of its ten names of this millisecond
    free. Then the configuration file holds the new text and the temporary file
    is gone; the old configuration was added to the backups; of all backups
    exactly the five with the greatest (newest) names remain, and no other
    file changed. *)
Theorem save_keeps_newest_backups `{Toml, Os} env self stamp document text m d :
  (forall p, is_Some (m !! p) -> p.1 ∈ d) ->
  to_string_pretty document = Ok text -> is_ok (into_domain env document) = true ->
  str_len text <= MAX_CONFIG_BYTES -> m !! temp_path self = None -> can_back_up env self stamp m ->
  exists m' m1 d1 kept removed,
    save env self stamp document (mkFs m d []) = (Ok tt, mkFs m' d1 [])
    /\ backed_up env self stamp m m1
    /\ newest_of MAX_BACKUPS (backup_names env self m1) kept removed
    /\ forall p, m' !! p = if decide (p = config_path self) then Some text
                         else if decide (p.1 = backups env self /\ p.2 ∈ removed) then None
                         else m1 !! p.
Proof.
  intros Hwf Htext Hdoc Hlen Htemp Hcan.
  destruct (replace_calm env self stamp text m ({[directory self]} ∪ d) Htemp Hcan)
    as (m1 & d1 & Hup & Hd & Hd1 & Hrep).
  assert (Hnames : backup_names env self (<[config_path self := text]> m1) = backup_names env self m1).
  { unfold backup_names. f_equal. apply entries_ext. intros n. apply lookup_insert_ne.
    symmetry. apply backup_path_ne, config_not_in_backups. }
  destruct (prune_backups_calm env self (<[config_path self := text]> m1) d1)
    as (m' & kept & removed & Hprune & Hno & Hw).
  { intros Hni. rewrite Hnames. assert (Hm : m1 = m) by (destruct (decide (m1 = m)); tauto).
    rewrite Hm. unfold backup_names. destruct (entries (backups env self) m) as [|n l] eqn:El; [done|].
    exfalso. apply Hni, Hd, elem_of_union_r, (Hwf (backups env self, n)), elem_of_entries.
    rewrite El. left. }
  exists m', m1, d1, kept, removed. split_and!; [|done|by rewrite <- Hnames|].
  - unfold save. rewrite Htext. destruct (into_domain env document); [|done].
    do 2 erewrite bind_step by done. rewrite bool_decide_eq_false_2 by lia.
    erewrite bind_step by apply with_err_step, create_dir_all_calm.
    erewrite bind_step by (apply with_err_step, create_new_calm; [simpl; set_solver|done]).
    erewrite bind_step by exact Hrep. exact Hprune.
  - intros p. rewrite Hw. destruct (decide (p = config_path self)) as [->|Hp].
    + rewrite decide_False by (by intros [?%config_not_in_backups _]). apply lookup_insert_eq.
    + by rewrite lookup_insert_ne by congruence.
Qed.

(** ** Witnesses *)

(** A serializer that knows three documents. *)
Module ToyToml.
Definition table : list (string * ConfigDocument) :=
  [("default", ConfigDocument_default); ("example", example_document);
   ("password", password_document)].

Definition parse (text : string) : result ConfigDocument string :=
  match find (fun '(t, _) => bool_decide (t = text)) table with
  | Some (_, d) => Ok d
  | None => Err "unknown text"
  end.
Definition print (d : ConfigDocument) : result string string :=
  match find (fun '(_, d') => bool_decide (d' = d)) table with
  | Some (text, _) => Ok text
  | None => Err "unknown document"
  end.

#[global] Instance toml : Toml := {| from_str := parse; to_string_pretty := print |}.
#[global] Instance toml_laws : TomlLaws.
Proof.
  split; intros d text; simpl; unfold print, find, table;
    repeat case_bool_decide; intros [= <-]; by subst.
Qed.
#[global] Instance os : Os := {| read_dir_order := id; read_dir_order_perm := fun l => reflexivity l |}.
End ToyToml.
Import ToyToml.

Definition example_store : ConfigStore := new "/cfg".
Definition example_files : gmap FilePath string :=
  list_to_map (("/cfg", "config.toml", "default")
    :: ((fun n => ("/cfg/backups", n, "old"))
          <$> ["config-1-0.toml"; "config-2-0.toml"; "config-3-0.toml"; "config-4-0.toml";
               "config-5-0.toml"; "notes.txt"])).
Definition example_dirs : gset PathBuf := {["/cfg"; "/cfg/backups"]}.
Definition example_save (faults : list (option Fault)) : result unit ConfigStoreError.t * Fs :=
  save example_env example_store 6 example_document (mkFs example_files example_dirs faults).

(** The oldest backup makes room for the previous configuration. *)
Example example_backups :
  files (example_save []).2 !! ("/cfg/backups", "config-1-0.toml") = None
  /\ files (example_save []).2 !! ("/cfg/backups", "config-6-0.toml") = Some "default"
  /\ files (example_save []).2 !! ("/cfg/backups", "notes.txt") = Some "old".
Proof. vm_compute. done. Qed.

(** The deletion of the oldest backup fails: the configuration is replaced, and
    the caller is told that it was not. *)
Definition prune_fault : list (option Fault) :=
  repeat None 24 ++ [Some (mkFault (io_other "sharing violation") "")].
Example example_prune_failure :
  is_err (example_save prune_fault).1 = true
  /\ files (example_save prune_fault).2 !! config_path example_store = Some "example".
Proof. vm_compute. done. Qed.

(** A temporary file left behind by a crash blocks saving. *)
Example stale_temporary_file :
  (save example_env example_store 6 example_document
     (mkFs (<[temp_path example_store := "half"]> example_files) example_dirs [])).1
  = Err (ConfigStoreError.Io "/cfg/config.toml.tmp" already_exists).
Proof. vm_compute. done. Qed.

Theorem save_outcomes_witness :
  is_ok (example_save []).1 = true
  /\ touches (fun p => p = config_path example_store \/ p = temp_path example_store
                       \/ in_backups example_env example_store p)
       (mkFs example_files example_dirs []) (example_save []).2.
Proof.
  split; [vm_compute; reflexivity|].
  exact (proj1 (save_outcomes example_env example_store 6 example_document
                  (mkFs example_files example_dirs []) _ _ (surjective_pairing _))).
Defined.

Lemma example_can_back_up : can_back_up example_env example_store 6 example_files.
Proof.
  intros old Hold. vm_compute in Hold. injection Hold as <-. split; [vm_compute; done|].
  exists 0. split; [vm_compute; left|]. split; vm_compute; reflexivity.
Qed.

Lemma example_parents p : is_Some (example_files !! p) -> p.1 ∈ example_dirs.
Proof.
  intros [x Hx]. apply elem_of_list_to_map_2 in Hx. unfold example_dirs.
  repeat (apply elem_of_cons in Hx as [Hx|Hx]; [injection Hx as -> _; set_solver|]).
  by apply elem_of_nil in Hx.
Qed.

Theorem save_keeps_newest_backups_witness :
  exists m' m1 d1 kept removed,
    example_save [] = (Ok tt, mkFs m' d1 [])
    /\ backed_up example_env example_store 6 example_files m1
    /\ newest_of MAX_BACKUPS (backup_names example_env example_store m1) kept removed
    /\ forall p, m' !! p = if decide (p = config_path example_store) then Some "example"
         else if decide (p.1 = backups example_env example_store /\ p.2 ∈ removed) then None
         else m1 !! p.
Proof.
  apply (save_keeps_newest_backups example_env example_store 6 example_document "example"
           example_files example_dirs example_parents).
  - vm_compute. reflexivity.
  - vm_compute. reflexivity.
  - vm_compute. discriminate.
  - vm_compute. reflexivity.
  - exact example_can_back_up.
Defined.
