(* ===== verification/Secrets.v ===== *)
(** * Secrets: the credential store (crates/config-store/src/secrets.rs) and the
    login entry (crates/config-store/src/startup.rs).

    The [keyring] crate and the Windows registry functions are classes: their
    states, their operations, and what their documentation promises of them. *)
From S2P Require Import Prelude Text Domain Path.

Definition SERVICE : string := "TunnelWarden".
Definition MAX_SECRET_BYTES : Z := 16 * 1024.

(** ** The keyring *)

(** [keyring::Entry] of [SERVICE] and a user, on a store of type [K]; errors
    are their texts. *)
Class Keyring (K : Type) := {
  entry_new : string -> string -> result unit string;
  get_password : string -> ST K string string;
  set_password : string -> string -> ST K string unit;
  delete_credential : string -> ST K string unit
}.

(** The entry's password without the effects of reading it. *)
Definition stored `{Keyring K} (user : string) (k : K) : option string :=
  match (get_password user k).1 with Ok p => Some p | Err _ => None end.

Class KeyringLaws (K : Type) `{Keyring K} := {
  get_reads user user' k : stored user' (get_password user k).2 = stored user' k;
  set_stores user p k k' : set_password user p k = (Ok tt, k') -> stored user k' = Some p;
  set_other user user' p k : user' <> user -> stored user' (set_password user p k).2 = stored user' k;
  delete_removes user k k' : delete_credential user k = (Ok tt, k') -> stored user k' = None;
  delete_other user user' k : user' <> user -> stored user' (delete_credential user k).2 = stored user' k
}.

Module SecretStoreError.
Inductive t := InvalidReference | TooLarge | Keyring (text : string).
End SecretStoreError.

Definition show_secret_store_error (e : SecretStoreError.t) : string :=
  match e with
  | SecretStoreError.InvalidReference => "invalid credential reference"
  | SecretStoreError.TooLarge => "credential exceeds 16 KiB"
  | SecretStoreError.Keyring text =>
      "Windows Credential Manager or system keyring failed: " +:+ text
  end.

Section SecretStore.
Context `{Keyring K}.
Notation op A := (ST K SecretStoreError.t A).

(** [.map_err(SecretStoreError::Keyring)] of a keyring operation. *)
Definition keyring_op {A} (m : ST K string A) : op A := fun k =>
  let '(r, k') := m k in (map_err SecretStoreError.Keyring r, k').

Definition reference_byte_ok (byte : Z) : bool :=
  is_ascii_alphanumeric byte || bool_decide (byte = 45) || bool_decide (byte = 95).

Definition reference_ok (reference : SecretRef) : bool :=
  negb (str_is_empty (secret_ref_0 reference)
        || bool_decide (128 < str_len (secret_ref_0 reference))
        || negb (forallb reference_byte_ok (bytes (secret_ref_0 reference)))).

Definition entry (reference : SecretRef) : result unit SecretStoreError.t :=
  if negb (reference_ok reference) then Err SecretStoreError.InvalidReference
  else map_err SecretStoreError.Keyring (entry_new SERVICE (secret_ref_0 reference)).

Definition load (reference : SecretRef) : op string :=
  lift (entry reference);;;
  let! secret := keyring_op (get_password (secret_ref_0 reference)) in
  if bool_decide (MAX_SECRET_BYTES < str_len secret) then throw SecretStoreError.TooLarge
  else ret secret.

Definition save (reference : SecretRef) (secret : string) : op unit :=
  if bool_decide (MAX_SECRET_BYTES < str_len secret) then throw SecretStoreError.TooLarge
  else
    lift (entry reference);;;
    keyring_op (set_password (secret_ref_0 reference) secret).

Definition delete (reference : SecretRef) : op unit :=
  lift (entry reference);;;
  keyring_op (delete_credential (secret_ref_0 reference)).

(** ** What the store promises *)

Context `{!KeyringLaws K}.

Lemma lift_bind {E A B} (r : result A E) (k : A -> ST K E B) s :
  bind (lift r) k s = match r with Ok a => k a s | Err e => (Err e, s) end.
Proof. by destruct r. Qed.

Lemma keyring_op_ok {A} (m : ST K string A) s a s' :
  keyring_op m s = (Ok a, s') -> m s = (Ok a, s').
Proof. unfold keyring_op. by destruct (m s) as [[]]; intros [= <- <-]. Qed.

(** A saved secret is the one a later [load] returns, and no other entry
    changed; a reference outside the accepted alphabet and a secret over
    16 KiB never reach the keyring. *)
Lemma save_then_load reference secret k k' :
  save reference secret k = (Ok tt, k') ->
  (load reference k').1 = Ok secret
  /\ reference_ok reference = true /\ str_len secret <= MAX_SECRET_BYTES
  /\ forall user, user <> secret_ref_0 reference -> stored user k' = stored user k.
Proof.
  unfold save, load. case_bool_decide as Hl; [done|]. rewrite lift_bind.
  destruct (entry reference) as [[]|] eqn:Ee; [|done]. intros Hs.
  apply keyring_op_ok in Hs.
  assert (Hr : reference_ok reference = true)
    by (unfold entry in Ee; destruct (reference_ok reference); done).
  split_and!; [|done|lia|].
  - rewrite lift_bind. pose proof (set_stores _ _ _ _ Hs) as Hst. unfold stored in Hst.
    unfold bind, keyring_op. destruct (get_password _ k') as [[p|] k2]; simplify_eq/=.
    by rewrite bool_decide_eq_false_2 by lia.
  - intros user Hu. pose proof (set_other (secret_ref_0 reference) user secret k Hu) as Ho.
    by rewrite Hs in Ho.
Qed.

(** [save] writes at most the entry of its reference, [delete] too. *)
Lemma save_other reference secret k user :
  user <> secret_ref_0 reference -> stored user (save reference secret k).2 = stored user k.
Proof.
  intros Hu. unfold save. case_bool_decide; [done|]. rewrite lift_bind.
  destruct (entry reference); [|done]. unfold keyring_op.
  rewrite <- (set_other (secret_ref_0 reference) user secret k Hu).
  by destruct (set_password _ _ k) as [[]].
Qed.

Lemma delete_others reference k user :
  user <> secret_ref_0 reference -> stored user (delete reference k).2 = stored user k.
Proof.
  intros Hu. unfold delete. rewrite lift_bind. destruct (entry reference); [|done].
  unfold keyring_op. rewrite <- (delete_other (secret_ref_0 reference) user k Hu).
  by destruct (delete_credential _ k) as [[]].
Qed.

Lemma delete_gone reference k k' :
  delete reference k = (Ok tt, k') -> stored (secret_ref_0 reference) k' = None.
Proof.
  unfold delete. rewrite lift_bind. destruct (entry reference); [|done].
  intros Hd%keyring_op_ok. by apply delete_removes in Hd.
Qed.

End SecretStore.

(** ** Login entry: startup.rs *)

(** [RegSetKeyValueW] and [RegDeleteKeyValueW] of the user's Run key: the value
    written, in UTF-16 units, and the Win32 status. *)
Class Registry (R : Type) := {
  reg_set : list Z -> R -> Z * R;
  reg_delete : R -> Z * R;
  current_exe : R -> result PathBuf string
}.

Definition ERROR_SUCCESS : Z := 0.
Definition ERROR_FILE_NOT_FOUND : Z := 2.
Definition ERROR_PATH_NOT_FOUND : Z := 3.

Module StartupError.
Inductive t := Executable (text : string) | Registry (status : Z) | TooLong | Unsupported.
End StartupError.

(** [raw_os_text] is the system's text for a status. *)
Definition show_startup_error (raw_os_text : Z -> string) (e : StartupError.t) : string :=
  match e with
  | StartupError.Executable text => "could not determine TunnelWarden executable: " +:+ text
  | StartupError.Registry status =>
      "Windows login startup registry operation failed: " +:+ raw_os_text status
  | StartupError.TooLong => "login startup command is too long"
  | StartupError.Unsupported => "login startup is supported only on Windows"
  end.

(** [encode_utf16] *)
Definition encode_utf16 (s : string) : list Z :=
  flat_map (fun c => if c <? 0x10000 then [c]
                     else [0xD800 + Z.shiftr (c - 0x10000) 10;
                           0xDC00 + Z.land (c - 0x10000) 0x3FF]) (chars s).

Definition login_command (executable : PathBuf) : list Z :=
  34 :: encode_utf16 executable ++ (34 :: encode_utf16 " --background" ++ [0]).

Section Startup.
Context `{Registry R}.

Definition set_windows_run (enabled : bool) (executable : PathBuf) : ST R StartupError.t unit :=
  fun r =>
    let finish (status : Z) (r' : R) :=
      if bool_decide (status = ERROR_SUCCESS)
         || (negb enabled && (bool_decide (status = ERROR_FILE_NOT_FOUND)
                              || bool_decide (status = ERROR_PATH_NOT_FOUND)))
      then (Ok tt, r') else (Err (StartupError.Registry status), r') in
    if enabled then
      let command := login_command executable in
      if bool_decide (u32_max < saturating_mul usize_max (Z.of_nat (length command)) 2)
      then (Err StartupError.TooLong, r)
      else let '(status, r') := reg_set command r in finish status r'
    else let '(status, r') := reg_delete r in finish status r'.

Definition set_run_at_login (env : Env) (enabled : bool) : ST R StartupError.t unit := fun r =>
  match platform env with
  | Windows =>
      match current_exe r with
      | Ok executable => set_windows_run enabled executable r
      | Err text => (Err (StartupError.Executable text), r)
      end
  | Unix => if enabled then (Err StartupError.Unsupported, r) else (Ok tt, r)
  end.
End Startup.
