(* ===== verification/Persist.v ===== *)
(** * Persist: [TunnelManager::persist_config] of
    crates/tunnel-core/src/manager.rs, which saves a configuration together
    with its new secret and the login entry, and takes both back when a later
    step fails. *)
From S2P Require Import Prelude Io Text Domain Path Schema Fs Store Secrets.

Record SecretUpdate := mkSecretUpdate {
  su_reference : SecretRef;
  su_value : string
}.

(** What the operation works on: the disk, the keyring and the registry. *)
Record Disk (K R : Type) := mkDisk {
  disk_fs : Fs;
  disk_keys : K;
  disk_login : R
}.
Arguments mkDisk {K R}.
Arguments disk_fs {K R}.
Arguments disk_keys {K R}.
Arguments disk_login {K R}.

Section Persist.
Context `{HT : Toml, HO : Os} `{HK : Keyring K} `{HR : Registry R}.
Context (env : Env) (raw_os_text : Z -> string).
Notation op A := (ST (Disk K R) string A).

Definition on_fs {A} (m : ST Fs ConfigStoreError.t A) : op A := fun w =>
  let '(r, s) := m (disk_fs w) in
  (map_err show_config_store_error r, mkDisk s (disk_keys w) (disk_login w)).
Definition on_keys {A} (m : ST K SecretStoreError.t A) : op A := fun w =>
  let '(r, k) := m (disk_keys w) in
  (map_err show_secret_store_error r, mkDisk (disk_fs w) k (disk_login w)).
Definition on_login {A} (m : ST R StartupError.t A) : op A := fun w =>
  let '(r, l) := m (disk_login w) in
  (map_err (show_startup_error raw_os_text) r, mkDisk (disk_fs w) (disk_keys w) l).

(** [let _ = SecretStore::delete(..)], when the update has a secret. *)
Definition drop_secret (secret : option SecretUpdate) (w : Disk K R) : Disk K R :=
  match secret with
  | Some u => (on_keys (Secrets.delete (su_reference u)) w).2
  | None => w
  end.

(** [stamp] is the time of the backup. The blocking task does not panic. *)
Definition persist_config (dir : PathBuf) (config : DomainConfig) (secret : option SecretUpdate)
    (old_run_at_login : bool) (stamp : Z) : op unit :=
  let run_at_login := run_at_startup (dc_app config) in
  let changes := negb (Bool.eqb run_at_login old_run_at_login) in
  let! document := lift (map_err show_config_validation_error (try_from config)) in
  match secret with
  | Some u => on_keys (Secrets.save (su_reference u) (su_value u))
  | None => ret tt
  end;;;
  fun w =>
    match (if changes then on_login (set_run_at_login env run_at_login) else ret tt) w with
    | (Err error, w1) => (Err error, drop_secret secret w1)
    | (Ok _, w1) =>
        match on_fs (Store.save env (Store.new dir) stamp document) w1 with
        | (Ok _, w2) => (Ok tt, w2)
        | (Err error, w2) =>
            let w3 := drop_secret secret w2 in
            if changes
            then match on_login (set_run_at_login env old_run_at_login) w3 with
                 | (Err rollback, w4) =>
                     (Err (error +:+ "; could not restore login startup setting: " +:+ rollback), w4)
                 | (Ok _, w4) => (Err error, w4)
                 end
            else (Err error, w3)
        end
    end.

(** ** What it promises *)

Context `{!TomlLaws, !KeyringLaws K}.

(** The user's entries other than the updated one. *)
Definition other_secret (secret : option SecretUpdate) (user : string) : Prop :=
  forall u, secret = Some u -> user <> secret_ref_0 (su_reference u).

Definition same_others (secret : option SecretUpdate) (w w' : Disk K R) : Prop :=
  forall user, other_secret secret user -> stored user (disk_keys w') = stored user (disk_keys w).

Lemma drop_secret_spec secret w :
  disk_fs (drop_secret secret w) = disk_fs w /\ same_others secret w (drop_secret secret w).
Proof.
  unfold drop_secret. destruct secret as [u|]; [|done]. unfold on_keys.
  destruct (Secrets.delete (su_reference u) (disk_keys w)) as [r k] eqn:E. split; [done|].
  intros user Hu. simpl.
  rewrite <- (delete_others (su_reference u) (disk_keys w) user (Hu u eq_refl)). by rewrite E.
Qed.

Lemma on_login_spec {A} (m : ST R StartupError.t A) w r w' :
  on_login m w = (r, w') -> disk_fs w' = disk_fs w /\ disk_keys w' = disk_keys w.
Proof. unfold on_login. destruct (m (disk_login w)). by intros [= <- <-]. Qed.

Lemma maybe_login_spec (b : bool) (m : ST R StartupError.t unit) w r w' :
  (if b then on_login m else ret tt) w = (r, w') ->
  disk_fs w' = disk_fs w /\ disk_keys w' = disk_keys w.
Proof. destruct b; [apply on_login_spec|]. by intros [= <- <-]. Qed.

Lemma save_secret_spec secret w r w' :
  match secret with
  | Some u => on_keys (Secrets.save (su_reference u) (su_value u))
  | None => ret tt
  end w = (r, w') ->
  disk_fs w' = disk_fs w /\ same_others secret w w'
  /\ (is_ok r = true -> forall u, secret = Some u ->
        (Secrets.load (su_reference u) (disk_keys w')).1 = Ok (su_value u)).
Proof.
  destruct secret as [u|]; [|by intros [= <- <-]]. unfold on_keys.
  destruct (Secrets.save _ _ (disk_keys w)) as [r0 k] eqn:E. intros [= <- <-]. split_and!; [done| |].
  - intros user Hu. simpl.
    rewrite <- (save_other (su_reference u) (su_value u) (disk_keys w) user (Hu u eq_refl)). by rewrite E.
  - intros Hok u' [= <-]. destruct r0 as [[]|]; [|done]. by apply save_then_load in E as [? _].
Qed.

(** What the disk shows when the new configuration is in place. *)
Definition installed (dir : PathBuf) (config : DomainConfig) (s : Fs) : Prop :=
  exists document text, try_from config = Ok document /\ to_string_pretty document = Ok text
    /\ files s !! config_path (Store.new dir) = Some text.

Definition persisted (dir : PathBuf) (config : DomainConfig) (r : result unit string) (s s' : Fs)
    : Prop :=
  match r with
  | Ok _ => installed dir config s'
  | Err _ => files s' !! config_path (Store.new dir) = files s !! config_path (Store.new dir)
             \/ (installed dir config s'
                 /\ exists s1 e, prune_backups env (Store.new dir) s1 = (Err e, s'))
  end.

Lemma store_save_persisted dir config document stamp w r w' :
  try_from config = Ok document ->
  on_fs (Store.save env (Store.new dir) stamp document) w = (r, w') ->
  persisted dir config r (disk_fs w) (disk_fs w') /\ disk_keys w' = disk_keys w.
Proof.
  intros Hd. unfold on_fs. destruct (Store.save _ _ _ _ _) as [r0 s] eqn:E. intros [= <- <-].
  split; [|done]. apply save_installs in E. unfold persisted, installed.
  destruct r0 as [[]|e]; simpl; [destruct E as (_ & text & ? & ?); eauto|].
  destruct E as [?|[(text & ? & ?) [s1 ?]]]; [by left|]. right. split; eauto.
Qed.
(** Dropping the new secret: the others stay, and it is gone unless the removal
    failed. *)
Lemma drop_undoes secret w1 w2 w3 w0 :
  same_others secret w0 w1 -> disk_keys w2 = disk_keys w1 ->
  disk_keys w3 = disk_keys (drop_secret secret w2) ->
  same_others secret w0 w3 /\ forall u, secret = Some u ->
    disk_keys w3 = (Secrets.delete (su_reference u) (disk_keys w1)).2
    /\ forall k', Secrets.delete (su_reference u) (disk_keys w1) = (Ok tt, k') ->
         stored (secret_ref_0 (su_reference u)) (disk_keys w3) = None.
Proof.
  intros H1 H2 H3. split.
  - intros user Hu. rewrite H3, (proj2 (drop_secret_spec secret w2) user Hu), H2. by apply H1.
  - intros u ->. rewrite H3, <-H2. unfold drop_secret, on_keys.
    destruct (Secrets.delete (su_reference u) (disk_keys w2)) as [r0 k] eqn:E. split; [done|].
    intros k' [= -> ->]. by apply delete_gone in E.
Qed.

(** Taking back the login entry touches neither files nor secrets. *)
Lemma rollback_spec secret old (changes : bool) error (w3 w' : Disk K R) r :
  (let w4 := drop_secret secret w3 in
   if changes
   then match on_login (set_run_at_login env old) w4 with
        | (Err rollback, w5) =>
            (Err (error +:+ "; could not restore login startup setting: " +:+ rollback), w5)
        | (Ok _, w5) => (Err error, w5)
        end
   else (Err error, w4)) = (r, w') ->
  disk_fs w' = disk_fs w3 /\ disk_keys w' = disk_keys (drop_secret secret w3)
  /\ exists e : string, r = Err (A := unit) e.
Proof.
  pose proof (proj1 (drop_secret_spec secret w3)) as Hfd. cbn zeta.
  destruct changes; [|intros; simplify_eq; eauto].
  destruct (on_login _ (drop_secret secret w3)) as [[[]|rb] w4] eqn:E4;
    apply on_login_spec in E4 as [Hf4 Hk4]; intros; simplify_eq; rewrite Hf4; eauto.
Qed.

Lemma persist_config_cases dir config secret old stamp w r w' :
  persist_config dir config secret old stamp w = (r, w') ->
  persisted dir config r (disk_fs w) (disk_fs w') /\ same_others secret w w'
  /\ forall u, secret = Some u ->
       match r with
       | Ok _ => (Secrets.load (su_reference u) (disk_keys w')).1 = Ok (su_value u)
       | Err _ =>
           (exists k, Secrets.save (su_reference u) (su_value u) (disk_keys w) = (Ok tt, k)
              /\ disk_keys w' = (Secrets.delete (su_reference u) k).2
              /\ forall k', Secrets.delete (su_reference u) k = (Ok tt, k') ->
                   stored (secret_ref_0 (su_reference u)) (disk_keys w') = None)
           \/ (is_ok (try_from config) = false /\ w' = w)
           \/ exists error keys,
                Secrets.save (su_reference u) (su_value u) (disk_keys w) = (Err error, keys)
                /\ w' = mkDisk (disk_fs w) keys (disk_login w)
       end.
Proof.
  unfold persist_config. intros Hrun.
  apply bind_cases in Hrun as [(e & Hrun & ->)|(document & w0 & E0 & Hrun)].
  { unfold lift in Hrun. destruct (try_from config); simplify_eq/=. split_and!; [by left|done|].
    intros u ->. right. by left. }
  unfold lift in E0. destruct (try_from config) as [d|] eqn:Ed; simplify_eq/=.
  apply bind_cases in Hrun as [(e & Hrun & ->)|([] & w1 & E1 & Hrun)].
  { apply save_secret_spec in Hrun as Hs. destruct Hs as (Hfs & Hso & _).
    split_and!; [by left; rewrite Hfs|done|]. intros u ->. right. right. unfold on_keys in Hrun.
    destruct (Secrets.save _ _ _) as [[[]|] ?]; simplify_eq/=. by do 2 eexists. }
  assert (Hsave : forall u, secret = Some u ->
    Secrets.save (su_reference u) (su_value u) (disk_keys w0) = (Ok tt, disk_keys w1)).
  { intros u ->. unfold on_keys in E1. by destruct (Secrets.save _ _ _) as [[[]|] ?]; simplify_eq/=. }
  apply save_secret_spec in E1 as (Hf1 & Hs1 & Hl1). specialize (Hl1 eq_refl).
  destruct ((if negb _ then on_login _ else ret tt) w1) as [[[]|error] w2] eqn:E2;
    apply maybe_login_spec in E2 as [Hf2 Hk2].
  - destruct (on_fs _ w2) as [[[]|error] w3] eqn:E3;
      apply (store_save_persisted _ config) in E3 as [Hp Hk3]; try done;
      rewrite Hf2, Hf1 in Hp.
    + simplify_eq. split_and!; [done| |].
      * intros user Hu. rewrite Hk3, Hk2. by apply Hs1.
      * intros u Hu. rewrite Hk3, Hk2. by apply Hl1.
    + apply rollback_spec in Hrun as (Hfw & Hkw & e' & ->).
      destruct (drop_undoes secret w1 w3 w' w0 Hs1) as [Hso Hgone]; [congruence|done|].
      split_and!; [unfold persisted in *; by rewrite Hfw|done|]. intros u Hu. left. destruct (Hgone u Hu). exists (disk_keys w1). split_and!; auto.
  - simplify_eq. destruct (drop_undoes secret w1 w2 (drop_secret secret w2) w0 Hs1) as [Hso Hgone]; [done|done|].
    split_and!; [left|done|intros u Hu; left; destruct (Hgone u Hu); exists (disk_keys w1); split_and!; auto].
    by rewrite (proj1 (drop_secret_spec secret w2)), Hf2, Hf1.
Qed.

(** A configuration without a document is refused before anything is done. *)
Lemma persist_config_refused dir config secret old stamp w e :
  try_from config = Err e ->
  persist_config dir config secret old stamp w = (Err (show_config_validation_error e), w).
Proof. unfold persist_config, bind, lift. by intros ->. Qed.

(** C35: Saving from the user interface. Whatever fails on the disk, in the
    keyring or in the registry, the stored secrets other than the new one are
    untouched; on success the configuration file holds the new document and the
    keyring returns the new secret; on an error the file is as it was, or the
    new configuration is in place and only pruning backups failed. A refused
    configuration leaves everything as it was: no file, secret or login entry is
    touched. Where the keyring itself refuses the secret, files and login entry
    are as they were; and after every later failure the new secret is gone,
    unless its removal failed too. *)
Theorem persist_config_outcomes dir config secret old stamp w r w' :
  persist_config dir config secret old stamp w = (r, w') ->
  persisted dir config r (disk_fs w) (disk_fs w') /\ same_others secret w w'
  /\ (forall e, try_from config = Err e -> r = Err (show_config_validation_error e) /\ w' = w)
  /\ forall u, secret = Some u ->
       match r with
       | Ok _ => (Secrets.load (su_reference u) (disk_keys w')).1 = Ok (su_value u)
       | Err _ =>
           (exists k, Secrets.save (su_reference u) (su_value u) (disk_keys w) = (Ok tt, k)
              /\ disk_keys w' = (Secrets.delete (su_reference u) k).2
              /\ forall k', Secrets.delete (su_reference u) k = (Ok tt, k') ->
                   stored (secret_ref_0 (su_reference u)) (disk_keys w') = None)
           \/ (is_ok (try_from config) = false /\ w' = w)
           \/ exists error keys,
                Secrets.save (su_reference u) (su_value u) (disk_keys w) = (Err error, keys)
                /\ w' = mkDisk (disk_fs w) keys (disk_login w)
       end.
Proof.
  intros Hrun. pose proof (persist_config_cases _ _ _ _ _ _ _ _ Hrun) as (? & ? & ?).
  split_and!; [done|done| |done]. intros e He. rewrite (persist_config_refused _ _ _ _ _ _ e He) in Hrun.
  by injection Hrun as <- <-.
Qed.
End Persist.

(** ** Witnesses *)

(** A keyring that is a map, and a registry that holds the login command. *)
Module ToyKeyring.
#[global] Instance keyring : Keyring (gmap string string) := {|
  entry_new := fun _ _ => Ok tt;
  get_password := fun user k => (ok_or (k !! user) "no entry", k);
  set_password := fun user p k => (Ok tt, <[user := p]> k);
  delete_credential := fun user k =>
    match k !! user with
    | Some _ => (Ok tt, base.delete user k)
    | None => (Err "no entry", k)
    end
|}.
#[global] Instance keyring_laws : KeyringLaws (gmap string string).
Proof.
  split; unfold stored; simpl.
  - done.
  - intros user p k k' [= <-]. by rewrite lookup_insert_eq.
  - intros user user' p k Hu. by rewrite lookup_insert_ne.
  - intros user k k'. destruct (k !! user); intros [= <-]. by rewrite lookup_delete_eq.
  - intros user user' k Hu. destruct (k !! user); simpl; [by rewrite lookup_delete_ne|done].
Qed.
#[global] Instance registry : Registry (option (list Z)) := {|
  reg_set := fun l _ => (0, Some l);
  reg_delete := fun r => match r with Some _ => (0, None) | None => (2, None) end;
  current_exe := fun _ => Ok "/app"
|}.
End ToyKeyring.
Import ToyToml ToyKeyring.

Definition example_secret : SecretUpdate := mkSecretUpdate (mkSecretRef "new-secret") "hunter2".
Definition example_disk (faults : list (option Fault)) : Disk (gmap string string) (option (list Z)) :=
  mkDisk (mkFs example_files example_dirs faults) {["old-secret" := "x"]} None.
Definition example_persist (faults : list (option Fault)) :=
  persist_config example_env (fun _ => "error") "/cfg" password_config (Some example_secret) false 6
    (example_disk faults).

(** A connect timeout of more milliseconds than a u64 holds has no document: refused. *)
Definition refused_config : DomainConfig :=
  mkDomainConfig (dc_app password_config)
    (map (fun h => mkSshHost (host_id h) (host_name h) (host_hostname h) (host_port h) (host_username h)
       (host_auth h) (host_host_key_policy h) (18446744073709551616 * 1000000) (host_keepalive_interval h)
       (host_keepalive_max h) (host_notes h)) (dc_hosts password_config))
    (dc_groups password_config) (dc_tunnels password_config).

Theorem persist_config_outcomes_witness :
  (example_persist []).1 = Ok tt
  /\ (Secrets.load (mkSecretRef "new-secret") (disk_keys (example_persist []).2)).1 = Ok "hunter2"
  /\ (persist_config example_env (fun _ => "error") "/cfg" refused_config (Some example_secret) false 6
        (example_disk [])).2 = example_disk [].
Proof.
  assert (E : (example_persist []).1 = Ok tt) by (vm_compute; reflexivity).
  split; [exact E|]. split.
  - pose proof (proj2 (proj2 (proj2 (persist_config_outcomes example_env (fun _ => "error") "/cfg"
      password_config (Some example_secret) false 6 (example_disk []) _ _
      (surjective_pairing (example_persist []))))) example_secret eq_refl) as Hload.
    rewrite E in Hload. exact Hload.
  - destruct (try_from refused_config) as [d|e] eqn:Et; [by vm_compute in Et|].
    exact (proj2 (proj1 (proj2 (proj2 (persist_config_outcomes example_env (fun _ => "error") "/cfg"
      refused_config (Some example_secret) false 6 (example_disk []) _ _ (surjective_pairing _)))) e Et)).
Defined.

(** A failure to delete the oldest backup is reported as a failed save: the new
    configuration, whose host needs the secret [new-secret], is in place, and
    that secret was deleted again. *)
Theorem pruning_failure_loses_secret :
  is_err (example_persist prune_fault).1 = true
  /\ installed "/cfg" password_config (disk_fs (example_persist prune_fault).2)
  /\ (host_auth <$> dc_hosts password_config)
       = [AuthConfig.Password (su_reference example_secret)]
  /\ stored "new-secret" (disk_keys (example_persist prune_fault).2) = None.
Proof.
  split_and!; [vm_compute; reflexivity| |vm_compute; reflexivity..].
  exists password_document, "password". split_and!; vm_compute; reflexivity.
Qed.
