(* ===== verification/SshImport.v ===== *)
(** * SshImport: reading an OpenSSH client configuration for import
    (crates/config-store/src/ssh_import.rs).

    The files are what the operating system answers for each path
    ([ImportFiles]); the [glob] crate is the class [Glob]. *)
From S2P Require Import Prelude Io Text Domain Path.

Definition MAX_BYTES : Z := 2 * 1024 * 1024.
Definition MAX_FILES : Z := 32.
Definition MAX_ENTRIES : nat := 512.
Definition MAX_WARNINGS : nat := 64.

(** [glob::Pattern::new(p).is_ok_and(|p| p.matches(s))] and [glob::glob(p)];
    the errors are their texts. *)
Class Glob := {
  glob_matches : string -> string -> bool;
  glob : string -> result (list (result PathBuf string)) string
}.

(** [canonicalize], the length [metadata] reports, and the bytes [fs::read]
    returns. *)
Record ImportFiles := mkImportFiles {
  canonicalize : PathBuf -> result PathBuf IoError;
  metadata_len : PathBuf -> result Z IoError;
  read_bytes : PathBuf -> result string IoError
}.

Record SshImportEntry := mkSshImportEntry {
  ie_host : SshHost;
  ie_alias : string;
  ie_proxy_jump : option string;
  ie_warnings : list string
}.

Record SshImportPreview := mkSshImportPreview {
  ip_entries : list SshImportEntry;
  ip_warnings : list string
}.

Module SshImportError.
Inductive t := Io (e : IoError) | TooLarge | Utf8.
End SshImportError.

Definition show_ssh_import_error (e : SshImportError.t) : string :=
  match e with
  | SshImportError.Io e => "SSH config read failed: " +:+ io_text e
  | SshImportError.TooLarge => "SSH config exceeds import limits"
  | SshImportError.Utf8 => "SSH config is not valid UTF-8"
  end.

Record Limits := mkLimits {
  l_bytes : Z;
  l_files : Z;
  l_visited : gset PathBuf;
  l_warnings : list string
}.
Definition Limits_default : Limits := mkLimits 0 0 ∅ [].

Definition warn (l : Limits) (message : string) : Limits :=
  if bool_decide (length (l_warnings l) < MAX_WARNINGS)%nat
  then mkLimits (l_bytes l) (l_files l) (l_visited l) (l_warnings l ++ [message])
  else l.

Record Block := mkBlock {
  patterns : list string;
  values : list (string * string)
}.
Definition Block_default : Block := mkBlock [] [].

(** ** Words *)

(** [char::encode_utf8] *)
Definition encode_char (c : Z) : list Z :=
  if c <? 0x80 then [c]
  else if c <? 0x800 then [0xC0 + Z.shiftr c 6; 0x80 + Z.land c 0x3F]
  else if c <? 0x10000
  then [0xE0 + Z.shiftr c 12; 0x80 + Z.land (Z.shiftr c 6) 0x3F; 0x80 + Z.land c 0x3F]
  else [0xF0 + Z.shiftr c 18; 0x80 + Z.land (Z.shiftr c 12) 0x3F;
        0x80 + Z.land (Z.shiftr c 6) 0x3F; 0x80 + Z.land c 0x3F].
Definition encode (cs : list Z) : string := of_bytes (flat_map encode_char cs).

Definition HASH : Z := 35.
Definition SINGLE_QUOTE : Z := 39.
Definition DOUBLE_QUOTE : Z := 34.
Definition EQUALS : Z := 61.

(** The loop over the characters; returns the words and the word in progress. *)
Fixpoint split_loop (cs : list Z) (words : list (list Z)) (word : list Z) (quote : option Z)
    : list (list Z) * list Z :=
  match cs with
  | [] => (words, word)
  | ch :: cs =>
      if bool_decide (quote = None) && bool_decide (ch = HASH) then (words, word)
      else if bool_decide (ch = SINGLE_QUOTE) || bool_decide (ch = DOUBLE_QUOTE) then
        if bool_decide (quote = Some ch) then split_loop cs words word None
        else if bool_decide (quote = None) then split_loop cs words word (Some ch)
        else split_loop cs words (word ++ [ch]) quote
      else if is_whitespace ch && bool_decide (quote = None) then
        match word with
        | [] => split_loop cs words [] quote
        | _ => split_loop cs (words ++ [word]) [] quote
        end
      else split_loop cs words (word ++ [ch]) quote
  end.

(** [str::split_once] at a character. *)
Fixpoint split_once (c : Z) (cs : list Z) : option (list Z * list Z) :=
  match cs with
  | [] => None
  | x :: cs =>
      if bool_decide (x = c) then Some ([], cs)
      else match split_once c cs with
           | Some (key, value) => Some (x :: key, value)
           | None => None
           end
  end.

Definition split_chars (cs : list Z) : list (list Z) :=
  let '(words, word) := split_loop cs [] [] None in
  let words := match word with [] => words | _ => words ++ [word] end in
  match words with
  | [] => []
  | first :: rest =>
      match split_once EQUALS first with
      | Some (key, value) => key :: value :: rest
      | None =>
          match rest with
          | second :: rest' => if bool_decide (second = [EQUALS]) then first :: rest' else words
          | [] => words
          end
      end
  end.

Definition split_words (line : string) : list string := encode <$> split_chars (chars line).

(** [str::lines] on the bytes. *)
Definition strip_cr (l : list ascii) : list ascii :=
  match last l with
  | Some c => if bool_decide (c = "013"%char) then removelast l else l
  | None => l
  end.
Fixpoint lines_loop (l line : list ascii) : list (list ascii) :=
  match l with
  | [] => match line with [] => [] | _ => [line] end
  | c :: l =>
      if bool_decide (c = "010"%char) then strip_cr line :: lines_loop l []
      else lines_loop l (line ++ [c])
  end.
Definition lines (content : string) : list string :=
  String.string_of_list_ascii <$> lines_loop (String.list_ascii_of_string content) [].

Definition eq_ignore_ascii_case (a b : string) : bool :=
  bool_decide (to_ascii_lowercase a = to_ascii_lowercase b).

Definition strip_prefix (prefix s : string) : option string :=
  if String.prefix prefix s
  then Some (String.substring (String.length prefix) (String.length s - String.length prefix) s)
  else None.

Definition starts_with_bang (s : string) : bool :=
  match s with String c _ => bool_decide (c = "!"%char) | EmptyString => false end.
Definition has_wildcard (s : string) : bool :=
  existsb (fun c => bool_decide (c = "*"%char) || bool_decide (c = "?"%char))
          (String.list_ascii_of_string s).

(** [s.replace("%h", alias)] *)
Fixpoint replace_h (alias s : string) : string :=
  match s with
  | String c (String d rest as tail) =>
      if bool_decide (c = "%"%char) && bool_decide (d = "h"%char)
      then alias +:+ replace_h alias rest
      else String c (replace_h alias tail)
  | _ => s
  end.

Definition home_dir (env : Env) : PathBuf :=
  match var_os env "USERPROFILE" with
  | Some home => home
  | None => default "" (var_os env "HOME")
  end.

(** ** Reading the files *)

(** The counters and the lines collected so far, and what a call returns;
    [None] when the fuel of the recursion is used up. *)
Notation reading A := (Limits * list string -> option (A * (Limits * list string))).

Definition warned (message : string) (st : Limits * list string) : Limits * list string :=
  (warn st.1 message, st.2).

Section Reading.
Context `{Glob} (env : Env) (fs : ImportFiles).
Notation outcome := (result unit SshImportError.t).

(** The paths an [Include] pattern matched; [read] is [read_lines]. *)
Fixpoint include_paths (read : PathBuf -> reading outcome) (paths : list (result PathBuf string))
    : reading unit := fun st =>
  match paths with
  | [] => Some (tt, st)
  | result :: rest =>
      if bool_decide (MAX_FILES <= l_files st.1)
      then Some (tt, warned "Include file limit reached" st)
      else
        match result with
        | Ok child =>
            match read child st with
            | None => None
            | Some (Ok _, st) => include_paths read rest st
            | Some (Err error, st) =>
                include_paths read rest
                  (warned ("Include " +:+ child +:+ ": " +:+ show_ssh_import_error error) st)
            end
        | Err error => include_paths read rest (warned ("Include: " +:+ error) st)
        end
  end.

(** The path pattern of one argument of [Include] in the file [path]. *)
Definition include_pattern (path : PathBuf) (include : string) : PathBuf :=
  match strip_prefix "~/" include with
  | Some rest => path_join (platform env) (home_dir env) rest
  | None =>
      if is_absolute (platform env) include then include
      else path_join (platform env) (default "." (parent (platform env) path)) include
  end.

Fixpoint includes (read : PathBuf -> reading outcome) (path : PathBuf) (words : list string)
    : reading unit := fun st =>
  match words with
  | [] => Some (tt, st)
  | include :: rest =>
      let pattern := include_pattern path include in
      match glob pattern with
      | Ok paths =>
          match include_paths read (take (Z.to_nat (MAX_FILES + 1)) paths) st with
          | Some (_, st) => includes read path rest st
          | None => None
          end
      | Err error =>
          includes read path rest (warned ("Include " +:+ pattern +:+ ": " +:+ error) st)
      end
  end.

Fixpoint content_lines (read : PathBuf -> reading outcome) (path : PathBuf) (ls : list string)
    : reading unit := fun st =>
  match ls with
  | [] => Some (tt, st)
  | line :: rest =>
      match split_words line with
      | word :: words =>
          if eq_ignore_ascii_case word "include"
          then match includes read path words st with
               | Some (_, st) => content_lines read path rest st
               | None => None
               end
          else content_lines read path rest (st.1, st.2 ++ [line])
      | [] => content_lines read path rest (st.1, st.2 ++ [line])
      end
  end.

Definition file_error {A} (e : SshImportError.t) (st : Limits * list string)
    : option (result A SshImportError.t * (Limits * list string)) := Some (Err e, st).

(** One call; the recursive calls are [read]. *)
Definition read_lines_with (read : PathBuf -> reading outcome) (path : PathBuf)
    : reading outcome := fun st =>
  let '(limits, ls) := st in
  match canonicalize fs path with
  | Err e => file_error (SshImportError.Io e) st
  | Ok path =>
      if bool_decide (path ∈ l_visited limits) then Some (Ok tt, st)
      else
        let limits := mkLimits (l_bytes limits) (l_files limits + 1) ({[path]} ∪ l_visited limits)
                        (l_warnings limits) in
        let st := (limits, ls) in
        if bool_decide (MAX_FILES < l_files limits) then file_error SshImportError.TooLarge st
        else
          match metadata_len fs path with
          | Err e => file_error (SshImportError.Io e) st
          | Ok len =>
              let remaining := saturating_sub MAX_BYTES (l_bytes limits) in
              if bool_decide (remaining < len) then file_error SshImportError.TooLarge st
              else
                match read_bytes fs path with
                | Err e => file_error (SshImportError.Io e) st
                | Ok contents =>
                    if bool_decide (remaining < str_len contents)
                    then file_error SshImportError.TooLarge st
                    else
                      let limits := mkLimits (l_bytes limits + str_len contents) (l_files limits)
                                      (l_visited limits) (l_warnings limits) in
                      let st := (limits, ls) in
                      if from_utf8_ok (bytes contents)
                      then match content_lines read path (lines contents) st with
                           | Some (_, st) => Some (Ok tt, st)
                           | None => None
                           end
                      else file_error SshImportError.Utf8 st
                end
          end
  end.

Fixpoint read_lines (fuel : nat) (path : PathBuf) : reading outcome := fun st =>
  match fuel with
  | O => None
  | S fuel => read_lines_with (read_lines fuel) path st
  end.

(** Every call that recurses has counted a file, and an included file is only
    read when fewer than [MAX_FILES] are counted. *)
Definition READ_FUEL : nat := Z.to_nat (MAX_FILES + 1).

(** ** Blocks and aliases *)

Definition matches_alias (ps : list string) (alias : string) : bool :=
  (fix go (ps : list string) (positive : bool) : bool :=
     match ps with
     | [] => positive
     | pattern :: ps =>
         let excluded := starts_with_bang pattern in
         let pattern := default pattern (strip_prefix "!" pattern) in
         let matches := glob_matches pattern alias in
         if matches && excluded then false
         else go ps (if matches then true else positive)
     end) ps false.

Record Parsing := mkParsing {
  p_limits : Limits;
  p_blocks : list Block;
  p_aliases : list string
}.

Definition add_alias (aliases : list string) (pattern : string) : list string :=
  if negb (starts_with_bang pattern) && negb (has_wildcard pattern)
     && bool_decide (length aliases < MAX_ENTRIES)%nat && negb (bool_decide (pattern ∈ aliases))
  then aliases ++ [pattern] else aliases.

Definition line_warning (line_number : nat) (text : string) : string :=
  "Line " +:+ show_dec (Z.of_nat line_number + 1) +:+ text.

(** [blocks.last_mut()]: add a value to the last block. *)
Definition push_value (blocks : list Block) (key value : string) : list Block :=
  match last blocks with
  | Some block => removelast blocks ++ [mkBlock (patterns block) (values block ++ [(key, value)])]
  | None => blocks
  end.

Definition parse_line (p : Parsing) (numbered : nat * string) : Parsing :=
  let '(line_number, line) := numbered in
  match split_words line with
  | [] => p
  | word :: args =>
      let key := to_ascii_lowercase word in
      if bool_decide (key = "host") then
        match args with
        | [] => mkParsing (warn (p_limits p) (line_warning line_number ": empty Host directive"))
                  (p_blocks p) (p_aliases p)
        | _ => mkParsing (p_limits p) (p_blocks p ++ [mkBlock args []])
                 (foldl add_alias (p_aliases p) args)
        end
      else if bool_decide (key = "match") then
        mkParsing (warn (p_limits p) (line_warning line_number ": Match blocks are unsupported"))
          (p_blocks p ++ [Block_default]) (p_aliases p)
      else
        match args with
        | value :: _ => mkParsing (p_limits p) (push_value (p_blocks p) key value) (p_aliases p)
        | [] => p
        end
  end.

Definition parse_lines (limits : Limits) (ls : list string) : Parsing :=
  foldl parse_line (mkParsing limits [mkBlock ["*"] []] []) (imap pair ls).

Definition supported_keys : list string :=
  ["hostname"; "user"; "port"; "identityfile"; "identitiesonly"; "proxyjump"; "connecttimeout";
   "serveraliveinterval"; "serveralivecountmax"; "hostkeyalias"; "userknownhostsfile"].

(** [values.entry(key).or_insert(value)], or a warning (at most 16). *)
Definition add_value (acc : gmap string string * list string) (kv : string * string)
    : gmap string string * list string :=
  let '(vs, warnings) := acc in
  let '(key, value) := kv in
  if bool_decide (key ∈ supported_keys)
  then (match vs !! key with Some _ => vs | None => <[key := value]> vs end, warnings)
  else (vs, if bool_decide (length warnings < 16)%nat
            then warnings ++ ["Unsupported: " +:+ key] else warnings).

Definition collect_values (blocks : list Block) (alias : string)
    : gmap string string * list string :=
  foldl (fun acc block =>
           if matches_alias (patterns block) alias then foldl add_value acc (values block) else acc)
    (∅, []) blocks.

Definition seconds (vs : gmap string string) (key : string) (dflt : Z) : Z :=
  match vs !! key with
  | Some value => default dflt (parse_uint u64_max value)
  | None => dflt
  end.

Definition valid_port (vs : gmap string string) : Z :=
  match vs !! "port" with
  | Some value =>
      match parse_uint u16_max value with
      | Some port => if bool_decide (0 < port) then port else 22
      | None => 22
      end
  | None => 22
  end.

Definition import_auth (vs : gmap string string) : AuthConfig.t :=
  match vs !! "identityfile" with
  | Some path =>
      AuthConfig.PrivateKey
        (match strip_prefix "~/" path with
         | Some rest => path_join (platform env) (home_dir env) rest
         | None => path
         end) None
  | None => AuthConfig.Agent None
  end.

Definition import_host (default_user alias : string) (vs : gmap string string) : SshHost := {|
  host_id := mkHostId ("ssh-" +:+ alias);
  host_name := alias;
  host_hostname := replace_h alias (default alias (vs !! "hostname"));
  host_port := valid_port vs;
  host_username := default default_user (vs !! "user");
  host_auth := import_auth vs;
  host_host_key_policy := HostKeyPolicy.Strict;
  host_connect_timeout := from_secs (Z.max (seconds vs "connecttimeout" 10) 1);
  host_keepalive_interval := from_secs (Z.max (seconds vs "serveraliveinterval" 30) 1);
  host_keepalive_max := clamp 1 u32_max (seconds vs "serveralivecountmax" 3);
  host_notes := ""
|}.

Definition import_warnings (vs : gmap string string) (host : SshHost) : list string :=
  (if bool_decide (is_Some (vs !! "port")) && bool_decide (valid_port vs = 22)
      && negb (bool_decide (vs !! "port" = Some "22"))
   then ["Invalid port; using 22"] else [])
  ++ (if bool_decide (is_Some (vs !! "proxyjump"))
      then ["ProxyJump requires a tunnel Jump Chain; not applied to this jumper"] else [])
  ++ flat_map (fun unsupported =>
       if bool_decide (is_Some (vs !! unsupported))
       then [unsupported +:+ " is not mapped; verify host key settings before use"] else [])
       ["hostkeyalias"; "userknownhostsfile"]
  ++ (if bool_decide (vs !! "identitiesonly" = Some "yes")
         && bool_decide (vs !! "identityfile" = None)
      then ["IdentitiesOnly yes has no IdentityFile"] else [])
  ++ (if str_is_empty (host_username host)
      then ["User is empty; choose a username before importing"] else []).

Definition import_entry (default_user : string) (blocks : list Block) (alias : string)
    : SshImportEntry :=
  let '(vs, warnings) := collect_values blocks alias in
  let host := import_host default_user alias vs in
  {| ie_host := host;
     ie_alias := alias;
     ie_proxy_jump := vs !! "proxyjump";
     ie_warnings := warnings ++ import_warnings vs host |}.

Definition default_user : string :=
  default "" (match var_os env "USER" with Some u => Some u | None => var_os env "USERNAME" end).

Definition preview_ssh_config (path : PathBuf)
    : option (result SshImportPreview SshImportError.t) :=
  match read_lines READ_FUEL path (Limits_default, []) with
  | None => None
  | Some (Err e, _) => Some (Err e)
  | Some (Ok _, (limits, ls)) =>
      let p := parse_lines limits ls in
      let limits :=
        if bool_decide (length (p_aliases p) = MAX_ENTRIES)
        then warn (p_limits p) "Only the first 512 explicit hosts are previewed"
        else p_limits p in
      Some (Ok (mkSshImportPreview (import_entry default_user (p_blocks p) <$> p_aliases p)
                  (l_warnings limits)))
  end.
End Reading.

(** ** Termination and limits *)

Record limits_ok (l : Limits) : Prop := {
  lo_bytes : 0 <= l_bytes l <= MAX_BYTES;
  lo_files : 0 <= l_files l <= MAX_FILES;
  lo_visited : l_files l = Z.of_nat (size (l_visited l));
  lo_warnings : (length (l_warnings l) <= MAX_WARNINGS)%nat
}.

Lemma warn_ok l m : limits_ok l -> limits_ok (warn l m) /\ l_files (warn l m) = l_files l.
Proof.
  intros [Hb Hf Hv Hw]. unfold warn. case_bool_decide; [|done].
  split; [|done]. split; simpl; [done..|]. rewrite length_app. simpl. lia.
Qed.

Lemma warn_bytes l m : l_bytes (warn l m) = l_bytes l.
Proof. unfold warn. by case_bool_decide. Qed.

(** The bytes of the lines read, and the bytes counted beyond them. *)
Definition total_len (ls : list string) : Z := Z.of_nat (sum_list_with String.length ls).
Definition slack (st : Limits * list string) : Z := l_bytes st.1 - total_len st.2.

Lemma total_len_app a b : total_len (a ++ b) = total_len a + total_len b.
Proof. unfold total_len. rewrite sum_list_with_app. lia. Qed.

Lemma strip_cr_length l : (length (strip_cr l) <= length l)%nat.
Proof.
  unfold strip_cr. destruct (last l) as [c|]; [|done]. case_bool_decide; [|done].
  destruct l as [|a l]; [done|]. rewrite removelast_firstn_len, length_take. lia.
Qed.

Lemma lines_total content : total_len (lines content) <= str_len content.
Proof.
  unfold lines, str_len. rewrite <-(String.string_of_list_ascii_of_string content) at 2.
  assert (Hs : forall l, String.length (String.string_of_list_ascii l) = length l)
    by (induction l; simpl; congruence).
  rewrite Hs. generalize (String.list_ascii_of_string content). intros l.
  enough (Hg : forall line, total_len (String.string_of_list_ascii <$> lines_loop l line)
    <= Z.of_nat (length l + length line)) by (specialize (Hg []); cbn in Hg; lia).
  unfold total_len. induction l as [|c l IH]; intros line; cbn [lines_loop length].
  - destruct line as [|a line]; cbn [fmap list_fmap sum_list_with]; rewrite ?Hs; cbn; lia.
  - case_bool_decide.
    + cbn [fmap list_fmap sum_list_with]. rewrite Hs. pose proof (strip_cr_length line).
      specialize (IH []). cbn in IH. lia.
    + specialize (IH (line ++ [c])). rewrite length_app in IH. cbn in IH. lia.
Qed.

(** From any state with [n] to [top] files counted, [m] returns, keeps the
    limits, uncounts no file, and adds at most [added] bytes of lines more than
    it counts. *)
Definition returns {A} (n top added : Z) (m : reading A) : Prop :=
  forall st, limits_ok st.1 -> n <= l_files st.1 <= top ->
  exists a st', m st = Some (a, st') /\ limits_ok st'.1 /\ l_files st.1 <= l_files st'.1
    /\ slack st <= slack st' + added.

Section Limits.
Context `{Glob} (env : Env) (fs : ImportFiles).
Context (n : Z) (read : PathBuf -> reading (result unit SshImportError.t)).
Hypothesis read_returns : forall path, returns n (MAX_FILES - 1) 0 (read path).

Lemma warned_returns {A} added (m : reading A) message st :
  returns n MAX_FILES added m -> limits_ok st.1 -> n <= l_files st.1 <= MAX_FILES ->
  exists a st', m (warned message st) = Some (a, st') /\ limits_ok st'.1
    /\ l_files st.1 <= l_files st'.1 /\ slack st <= slack st' + added.
Proof.
  intros Hm Hok Hn. destruct (warn_ok st.1 message Hok) as [Hw E].
  destruct (Hm (warned message st)) as (a & st' & ? & ? & Hf & Hs); [done|simpl; lia|].
  unfold slack in *. simpl in Hf, Hs. rewrite warn_bytes in Hs. exists a, st'. split_and!; [done..|lia|lia].
Qed.

(** A part that returned, and the rest after it. *)
Lemma then_returns {A} top added (m : reading A) st st1 :
  returns n MAX_FILES added m -> limits_ok st.1 -> n <= l_files st.1 <= top ->
  limits_ok st1.1 -> l_files st.1 <= l_files st1.1 -> slack st <= slack st1 + 0 ->
  exists a st', m st1 = Some (a, st') /\ limits_ok st'.1
    /\ l_files st.1 <= l_files st'.1 /\ slack st <= slack st' + added.
Proof.
  intros Hm Hok Hn Hok1 Hf1 Hs1. pose proof (lo_files _ Hok1).
  destruct (Hm st1) as (a & st' & ? & ? & ? & ?); [done|lia|]. exists a, st'. split_and!; [done..|lia|lia].
Qed.

Lemma include_paths_returns paths : returns n MAX_FILES 0 (include_paths read paths).
Proof.
  induction paths as [|p rest IH]; intros st Hok Hn; cbn [include_paths];
    [exists tt, st; split_and!; [done..|lia]|].
  case_bool_decide.
  { destruct (warn_ok st.1 "Include file limit reached" Hok) as [? E].
    eexists _, _. split; [done|]. unfold slack. simpl. rewrite warn_bytes. split_and!; [done|lia|lia]. }
  destruct p as [child|e]; [|by apply warned_returns].
  destruct (read_returns child st Hok ltac:(lia)) as ([[]|e] & st1 & -> & Hok1 & Hf1 & Hs1).
  - by eapply then_returns.
  - destruct (warned_returns 0 _ ("Include " +:+ child +:+ ": " +:+ show_ssh_import_error e) st1 IH Hok1)
      as (a & st' & ? & ? & ? & ?); [pose proof (lo_files _ Hok1); lia|]. exists a, st'. split_and!; [done..|lia|lia].
Qed.

Lemma includes_returns path words : returns n MAX_FILES 0 (includes env read path words).
Proof.
  induction words as [|w rest IH]; intros st Hok Hn; cbn [includes];
    [exists tt, st; split_and!; [done..|lia]|].
  destruct (glob _) as [paths|e]; [|by apply warned_returns].
  destruct (include_paths_returns (take (Z.to_nat (MAX_FILES + 1)) paths) st Hok Hn)
    as ([] & st1 & -> & Hok1 & Hf1 & Hs1). by eapply then_returns.
Qed.

Lemma content_lines_returns path ls : returns n MAX_FILES (total_len ls) (content_lines env read path ls).
Proof.
  assert (Hnil : forall st, limits_ok st.1 -> exists a st', Some (tt, st) = Some (a, st')
    /\ limits_ok st'.1 /\ l_files st.1 <= l_files st'.1 /\ slack st <= slack st' + total_len []).
  { intros st Hok. exists tt, st. unfold total_len. cbn. split_and!; [done..|lia]. }
  induction ls as [|line rest IH]; intros st Hok Hn; cbn [content_lines]; [by apply Hnil|].
  assert (Hline : total_len (line :: rest) = Z.of_nat (String.length line) + total_len rest)
    by (unfold total_len; cbn; lia).
  assert (Hkeep : exists a st', content_lines env read path rest (st.1, st.2 ++ [line]) = Some (a, st')
    /\ limits_ok st'.1 /\ l_files st.1 <= l_files st'.1 /\ slack st <= slack st' + total_len (line :: rest)).
  { destruct (IH (st.1, st.2 ++ [line]) Hok Hn) as (a & st' & ? & ? & ? & Hs). exists a, st'.
    split_and!; [done..|]. unfold slack in *. cbn [fst snd] in Hs. rewrite total_len_app in Hs.
    unfold total_len in Hs at 2. cbn in Hs. lia. }
  destruct (split_words line) as [|word words]; [done|].
  destruct (eq_ignore_ascii_case word "include"); [|done].
  destruct (includes_returns path words st Hok Hn) as ([] & st1 & -> & Hok1 & Hf1 & Hs1).
  destruct (then_returns _ _ _ _ _ IH Hok Hn Hok1 Hf1 Hs1) as (a & st' & ? & ? & ? & ?).
  exists a, st'. split_and!; [done..|lia].
Qed.
End Limits.

(** A file within the limits, and the counters after it. *)
Lemma read_lines_returns `{Glob} env fs fuel path n :
  MAX_FILES + 1 - n <= Z.of_nat fuel -> returns n (MAX_FILES - 1) 0 (read_lines env fs fuel path).
Proof.
  revert path n. induction fuel as [|fuel IH]; intros path n Hfuel [l ls] Hok Hn; cbn [fst] in *; [lia|].
  assert (Hdone : forall r l', limits_ok l' -> l_files l <= l_files l' -> l_bytes l = l_bytes l' ->
    exists (r' : result unit SshImportError.t) st',
      Some (r, (l', ls)) = Some (r', st') /\ limits_ok st'.1 /\ l_files l <= l_files st'.1
      /\ slack (l, ls) <= slack st' + 0)
    by (intros r l' ? ? Hb; exists r, (l', ls); unfold slack; cbn; rewrite Hb; split_and!; [done..|lia]).
  cbn [read_lines]. unfold read_lines_with, file_error.
  destruct (canonicalize fs path) as [p|e]; [|by apply Hdone].
  case_bool_decide as Hp; [by apply Hdone|]. cbn [l_bytes l_files l_visited l_warnings].
  destruct Hok as [Hb Hf Hv Hw].
  assert (Hl1 : forall b, 0 <= b <= MAX_BYTES ->
    limits_ok (mkLimits b (l_files l + 1) ({[p]} ∪ l_visited l) (l_warnings l))).
  { intros b Hb'; split; simpl; [done|lia| |done]. rewrite Hv, size_union by set_solver.
    rewrite size_singleton. lia. }
  rewrite bool_decide_eq_false_2 by lia.
  destruct (metadata_len fs p) as [len|e]; [|apply Hdone; [by apply Hl1|simpl; lia|done]].
  case_bool_decide; [apply Hdone; [by apply Hl1|simpl; lia|done]|].
  destruct (read_bytes fs p) as [contents|e]; [|apply Hdone; [by apply Hl1|simpl; lia|done]].
  case_bool_decide as Hlen; [apply Hdone; [by apply Hl1|simpl; lia|done]|].
  assert (Hlen' : 0 <= l_bytes l + str_len contents <= MAX_BYTES)
    by (unfold saturating_sub, str_len in *; lia).
  set (l1 := mkLimits (l_bytes l + str_len contents) _ _ _).
  assert (Hsl : slack (l, ls) <= slack (l1, ls) - str_len contents) by (unfold slack; cbn; lia).
  destruct (from_utf8_ok (bytes contents)).
  2: { exists (Err SshImportError.Utf8), (l1, ls). split_and!; [done|by apply Hl1|cbn; lia|].
       unfold str_len in *. lia. }
  destruct (content_lines_returns env (l_files l + 1) (read_lines env fs fuel)
    (fun q => IH q (l_files l + 1) ltac:(lia)) p (lines contents) (l1, ls))
    as ([] & st' & -> & Hok' & Hf' & Hs'); [by apply Hl1|simpl; lia|].
  simpl in Hf'. pose proof (lines_total contents). eexists _, st'. split_and!; [done..|lia|lia].
Qed.

(** ** What the preview shows *)

(** The directives that apply to [alias], in the order of the files. *)
Definition applicable `{Glob} (blocks : list Block) (alias : string) : list (string * string) :=
  flat_map values (List.filter (fun b => matches_alias (patterns b) alias) blocks).

(** OpenSSH's rule: the first value obtained for a keyword is used. *)
Definition first_value (kvs : list (string * string)) (key : string) : option string :=
  snd <$> find (fun kv => bool_decide (kv.1 = key)) kvs.

Lemma add_values_lookup kvs acc key :
  (foldl add_value acc kvs).1 !! key
  = match acc.1 !! key with
    | Some v => Some v
    | None => if bool_decide (key ∈ supported_keys) then first_value kvs key else None
    end.
Proof.
  revert acc. induction kvs as [|[k v] kvs IH]; intros [vs ws]; cbn [foldl].
  { simpl. destruct (vs !! key); [done|]. by case_bool_decide. }
  rewrite IH. unfold add_value, first_value. cbn [find fst].
  destruct (bool_decide_reflect (k ∈ supported_keys)) as [Hk|Hk]; cbn [fst].
  - destruct (bool_decide_reflect (k = key)) as [->|Hne].
    + rewrite (bool_decide_eq_true_2 (key ∈ supported_keys)) by done.
      destruct (vs !! key) eqn:E; [by rewrite E|]. by rewrite lookup_insert_eq.
    + destruct (vs !! k); [done|]. by rewrite lookup_insert_ne.
  - destruct (vs !! key); [done|]. destruct (bool_decide_reflect (k = key)) as [->|Hne]; [|done].
    by rewrite bool_decide_eq_false_2.
Qed.

Lemma collect_values_lookup `{Glob} blocks alias key :
  (collect_values blocks alias).1 !! key
  = if bool_decide (key ∈ supported_keys) then first_value (applicable blocks alias) key else None.
Proof.
  assert (Hfold : forall acc, foldl (fun acc b =>
      if matches_alias (patterns b) alias then foldl add_value acc (values b) else acc) acc blocks
    = foldl add_value acc (applicable blocks alias)).
  { induction blocks as [|b blocks IH]; intros acc; [done|]. cbn [foldl]. rewrite IH.
    unfold applicable. cbn [List.filter]. destruct (matches_alias _ _); [|done].
    cbn [flat_map]. by rewrite foldl_app. }
  unfold collect_values. rewrite Hfold, add_values_lookup. cbn [fst]. by rewrite lookup_empty.
Qed.

(** The aliases: explicit names of [Host] lines, each once, at most 512. *)
Definition aliases_ok (aliases : list string) : Prop :=
  NoDup aliases /\ (length aliases <= MAX_ENTRIES)%nat
  /\ Forall (fun a => starts_with_bang a = false /\ has_wildcard a = false) aliases.

Lemma add_alias_ok aliases p : aliases_ok aliases -> aliases_ok (add_alias aliases p).
Proof.
  intros (Hnd & Hlen & Hall). unfold add_alias. destruct (_ && _) eqn:E; [|done]. bools.
  split_and!; [|rewrite length_app; simpl; lia|by apply Forall_app; split; [|apply Forall_singleton]].
  apply NoDup_app. split_and!; [done|set_solver|apply NoDup_singleton].
Qed.

Lemma parse_lines_ok limits ls :
  limits_ok limits ->
  aliases_ok (p_aliases (parse_lines limits ls)) /\ limits_ok (p_limits (parse_lines limits ls)).
Proof.
  intros Hok. unfold parse_lines.
  assert (H0 : aliases_ok (p_aliases (mkParsing limits [mkBlock ["*"] []] []))
               /\ limits_ok (p_limits (mkParsing limits [mkBlock ["*"] []] [])))
    by (split; [split_and!; [constructor|simpl; lia|constructor]|done]).
  revert H0. generalize (mkParsing limits [mkBlock ["*"] []] []). generalize (imap pair ls).
  clear. intros l. induction l as [|[i line] l IH]; intros p [Ha Hl]; [done|]. cbn [foldl].
  apply IH. unfold parse_line. destruct (split_words line) as [|w args]; [done|].
  repeat case_bool_decide; destruct args as [|a args]; simpl; try done;
    (split; [|try done; by apply warn_ok]); [done| |done..].
  revert Ha. generalize (p_aliases p). cbn [foldl].
  assert (forall ps al, aliases_ok al -> aliases_ok (foldl add_alias al ps)) as Hfold.
  { induction ps as [|q ps IHps]; intros al Hal; [done|]. by apply IHps, add_alias_ok. }
  intros al Hal. by apply (Hfold (a :: args)).
Qed.

Lemma valid_port_range vs : 1 <= valid_port vs <= u16_max.
Proof.
  unfold valid_port. destruct (vs !! "port") as [v|]; [|unfold u16_max; lia].
  destruct (parse_uint u16_max v) as [port|] eqn:E; [|unfold u16_max; lia].
  case_bool_decide; [|unfold u16_max; lia]. apply parse_uint_le in E; unfold u16_max in *; lia.
Qed.

(** The number of a keyword, or the default where there is none or it is none. *)
Definition number_of (kvs : list (string * string)) (key : string) (max dflt : Z) : Z :=
  match first_value kvs key with Some value => default dflt (parse_uint max value) | None => dflt end.

(** What an entry is made of: each field from the first value of its keyword. *)
Record entry_of (env : Env) (kvs : list (string * string)) (alias : string) (e : SshImportEntry)
    : Prop := {
  eo_alias : ie_alias e = alias;
  eo_names : host_id (ie_host e) = mkHostId ("ssh-" +:+ alias) /\ host_name (ie_host e) = alias;
  eo_hostname :
    host_hostname (ie_host e) = replace_h alias (default alias (first_value kvs "hostname"));
  eo_user : host_username (ie_host e) = default (default_user env) (first_value kvs "user");
  eo_port : host_port (ie_host e) = (let port := number_of kvs "port" u16_max 22 in
                                     if decide (0 < port) then port else 22);
  eo_agent : first_value kvs "identityfile" = None -> host_auth (ie_host e) = AuthConfig.Agent None;
  eo_key file : first_value kvs "identityfile" = Some file ->
    host_auth (ie_host e) = AuthConfig.PrivateKey
      (match strip_prefix "~/" file with
       | Some rest => path_join (platform env) (home_dir env) rest
       | None => file
       end) None;
  eo_policy : host_host_key_policy (ie_host e) = HostKeyPolicy.Strict;
  eo_timeout : host_connect_timeout (ie_host e)
    = from_secs (Z.max 1 (number_of kvs "connecttimeout" u64_max 10));
  eo_interval : host_keepalive_interval (ie_host e)
    = from_secs (Z.max 1 (number_of kvs "serveraliveinterval" u64_max 30));
  eo_max : host_keepalive_max (ie_host e)
    = Z.max 1 (Z.min u32_max (number_of kvs "serveralivecountmax" u64_max 3));
  eo_jump : ie_proxy_jump e = first_value kvs "proxyjump";
  eo_warned : ie_proxy_jump e <> None ->
    "ProxyJump requires a tunnel Jump Chain; not applied to this jumper" ∈ ie_warnings e
}.

Lemma import_entry_of `{Glob} env blocks alias :
  entry_of env (applicable blocks alias) alias (import_entry env (default_user env) blocks alias).
Proof.
  unfold import_entry. pose proof (collect_values_lookup blocks alias) as Hv.
  destruct (collect_values blocks alias) as [vs ws]. cbn [fst] in Hv.
  assert (Hkey : forall key, key ∈ supported_keys -> first_value (applicable blocks alias) key = vs !! key)
    by (intros key Hk; by rewrite Hv, bool_decide_eq_true_2).
  assert (Hnum : forall key max dflt, key ∈ supported_keys -> number_of (applicable blocks alias) key max dflt
    = match vs !! key with Some value => default dflt (parse_uint max value) | None => dflt end)
    by (intros key max dflt Hk; unfold number_of; by rewrite Hkey).
  split; cbn; rewrite ?Hkey, ?Hnum by set_solver; unfold seconds, import_auth; try done.
  - unfold valid_port. destruct (vs !! "port") as [value|]; [|done].
    destruct (parse_uint u16_max value) as [port|] eqn:Ep; [|done]. cbn.
    case_bool_decide; by case_decide.
  - by intros ->.
  - by intros file ->.
  - by rewrite Z.max_comm.
  - by rewrite Z.max_comm.
  - unfold clamp, u32_max. lia.
  - intros Hj. unfold import_warnings. apply elem_of_app. right. apply elem_of_app. right.
    apply elem_of_app. left. rewrite bool_decide_eq_true_2 by (by apply not_eq_None_Some). left.
Qed.


(** ** Example: the configuration of the source's own test *)

Module ToyGlob.
#[global] Instance toy_glob : Glob := {|
  glob_matches := fun p s => bool_decide (p = "*") || bool_decide (p = s);
  glob := fun p => Ok [Ok p]
|}.
End ToyGlob.

Definition newline : string := String "010"%char "".
Definition join_lines (l : list string) : string := foldr (fun a b => a +:+ newline +:+ b) "" l.
Definition example_texts : gmap PathBuf string :=
  list_to_map [("/d/extra", join_lines ["Host bastion"; " HostName 1.2.3.4"; " User ops"]);
    ("/d/config", join_lines
      ["Include extra"; "Host lab"; " HostName 10.0.0.2"; " User alice"; " ProxyJump bastion";
       " BadDirective yes"; "Host *"; " Port 2222"; " User default"])].
Definition example_import : ImportFiles := {|
  canonicalize := Ok;
  metadata_len := fun p => Ok (str_len (default "" (example_texts !! p)));
  read_bytes := fun p => ok_or (example_texts !! p) (io_other "missing")
|}.

Example preview_example :
  match preview_ssh_config (H := ToyGlob.toy_glob) (mkEnv Unix (fun _ => None)) example_import "/d/config" with
  | Some (Ok p) =>
      (fun e => (ie_alias e, host_hostname (ie_host e), host_username (ie_host e),
                 host_port (ie_host e), ie_proxy_jump e)) <$> ip_entries p
  | _ => []
  end
  = [("bastion", "1.2.3.4", "ops", 2222, None); ("lab", "10.0.0.2", "alice", 2222, Some "bastion")].
Proof. vm_compute. reflexivity. Qed.
