(* ===== verification/Manager.v ===== *)
(** * Manager: [TunnelManager], the single owner of every tunnel's supervisor
    (crates/tunnel-core/src/manager.rs).

    A supervisor runs in a task of its own. The tasks are kept in the manager's
    surroundings ([World]): a task's entry exists from [tokio::spawn] until the
    manager has awaited it, so an entry no [ActiveTunnel] points to is a leaked
    task. What the tasks publish, and when they end, is up to the environment
    (the steps of [ManagerProps]; Engine lets each task run its supervisor). *)
From S2P Require Import Prelude Io Text Net Domain Validation StateMachine Runtime Retry Russh HostKey SshClient Chain LocalForward Supervisor RemoteSupervisor Path Schema Fs Store Secrets Persist SshImport.

#[local] Notation delete := base.delete.

Definition MAX_TUNNELS : nat := 1024.
Definition MAX_HOST_KEY_PROMPTS : nat := 16.
Definition MAX_LOG_EVENTS : nat := 500.

Record TunnelView := mkTunnelView {
  tv_state : SupervisorState.t;
  tv_local_addr : option SocketAddr
}.
Notation ManagerSnapshot := (gmap TunnelId TunnelView).

Module LogLevel.
Inductive t := Debug | Info | Warning | Error.
End LogLevel.
Module LogSource.
Inductive t := Tunnel | Host.
End LogSource.

Record LogEvent := mkLogEvent {
  le_timestamp_unix : Z;
  le_level : LogLevel.t;
  le_source : LogSource.t;
  le_subject : string;
  le_stage : string;
  le_message : string
}.

Record HostKeyPromptView := mkHostKeyPromptView {
  pv_id : Z;
  pv_host : string;
  pv_port : Z;
  pv_algorithm : string;
  pv_fingerprint : string
}.

(** A [oneshot] sender is the number of its channel. *)
Module CoreCommand.
Inductive t :=
  | StartAll
  | StopAll
  | StartGroup (group : GroupId)
  | StopGroup (group : GroupId)
  | StartTunnel (id : TunnelId)
  | StopTunnel (id : TunnelId)
  | RestartTunnel (id : TunnelId)
  | RetryTunnel (id : TunnelId)
  | NetworkRecovered
  | SaveConfig (directory : PathBuf) (config : DomainConfig) (secret : option SecretUpdate) (reply : Z)
  | ImportConfig (path : FilePath) (reply : Z)
  | PreviewSshConfig (path : PathBuf) (reply : Z)
  | ExportConfig (path : FilePath) (config : DomainConfig) (reply : Z)
  | ResolveHostKey (id : Z) (decision : HostKeyDecision.t).
End CoreCommand.

Module ManagerError.
Inductive t := TooManyTunnels | DuplicateTunnel (id : string).
End ManagerError.

Definition show_manager_error (e : ManagerError.t) : string :=
  match e with
  | ManagerError.TooManyTunnels => "too many tunnels"
  | ManagerError.DuplicateTunnel id => "duplicate tunnel ID: " +:+ id
  end.

(** ** Supervisor tasks *)

(** What a spawned supervisor was given: itself, the hosts of its chain, the
    remote binding its connector passes on, and the application's known_hosts
    file. [address] is what its listener was bound to, which the code does not
    keep. *)
Module TaskSpec.
Inductive t :=
  | Local (supervisor : Supervisor) (address : SocketAddr) (hosts : list SshHost)
      (known_hosts : option PathBuf)
  | Remote (supervisor : RemoteForwardSupervisor) (hosts : list SshHost)
      (remote : option RemoteEndpoint) (known_hosts : option PathBuf).
End TaskSpec.

(** [t_changed] is what [has_changed] answers the manager's receiver, and
    [t_result] what awaiting the finished task returns. *)
Record Task := mkTask {
  t_spec : TaskSpec.t;
  t_state : SupervisorState.t;
  t_changed : bool;
  t_result : option (result (option string) string);
  t_cancelled : bool;
  t_hint : bool
}.

Definition spawned (spec : TaskSpec.t) : Task :=
  mkTask spec (SupervisorState.Connecting 1) false None false false.

(** The handles of an active tunnel are those of its task. *)
Record ActiveTunnel := mkActiveTunnel { at_task : nat }.

Record PendingHostKey := mkPendingHostKey { pk_view : HostKeyPromptView; pk_reply : Z }.

Module Reply.
Inductive t :=
  | Saved (r : result unit string)
  | Config (r : result DomainConfig string)
  | Preview (r : result SshImportPreview string).
End Reply.

Record World (K R : Type) := mkWorld {
  tasks : gmap nat Task;
  next_task : nat;
  unix_now : Z;
  closed_replies : gset Z;
  decisions : list (Z * HostKeyDecision.t);
  replies : list (Z * Reply.t);
  disk : Disk K R
}.
Arguments mkWorld {K R}.
Arguments tasks {K R}.
Arguments next_task {K R}.
Arguments unix_now {K R}.
Arguments closed_replies {K R}.
Arguments decisions {K R}.
Arguments replies {K R}.
Arguments disk {K R}.

(** The fields ending in [_views], and [snapshots], are the last values sent to
    the user interface. *)
Record TunnelManager (K R : Type) := mkTunnelManager {
  hosts : list SshHost;
  groups : list TunnelGroup;
  tunnels : gmap TunnelId TunnelConfig;
  snapshots : ManagerSnapshot;
  current : ManagerSnapshot;
  logs : list LogEvent;
  log_views : list LogEvent;
  active : gmap TunnelId ActiveTunnel;
  auto_start : list TunnelId;
  host_key_views : list HostKeyPromptView;
  config_views : DomainConfig;
  pending_host_keys : list PendingHostKey;
  next_host_key_id : Z;
  app_known_hosts_path : option PathBuf;
  world : World K R
}.
Arguments mkTunnelManager {K R}.
Arguments hosts {K R}.
Arguments groups {K R}.
Arguments tunnels {K R}.
Arguments snapshots {K R}.
Arguments current {K R}.
Arguments logs {K R}.
Arguments log_views {K R}.
Arguments active {K R}.
Arguments auto_start {K R}.
Arguments host_key_views {K R}.
Arguments config_views {K R}.
Arguments pending_host_keys {K R}.
Arguments next_host_key_id {K R}.
Arguments app_known_hosts_path {K R}.
Arguments world {K R}.

(** ** Updates *)

Section Updates.
Context {K R : Type}.

Definition on_world (f : World K R -> World K R) (m : TunnelManager K R) : TunnelManager K R :=
  mkTunnelManager (hosts m) (groups m) (tunnels m) (snapshots m) (current m) (logs m) (log_views m)
    (active m) (auto_start m) (host_key_views m) (config_views m) (pending_host_keys m)
    (next_host_key_id m) (app_known_hosts_path m) (f (world m)).
Definition on_current (f : ManagerSnapshot -> ManagerSnapshot) (m : TunnelManager K R) : TunnelManager K R :=
  mkTunnelManager (hosts m) (groups m) (tunnels m) (snapshots m) (f (current m)) (logs m) (log_views m)
    (active m) (auto_start m) (host_key_views m) (config_views m) (pending_host_keys m)
    (next_host_key_id m) (app_known_hosts_path m) (world m).
Definition on_active (f : gmap TunnelId ActiveTunnel -> gmap TunnelId ActiveTunnel) (m : TunnelManager K R) : TunnelManager K R :=
  mkTunnelManager (hosts m) (groups m) (tunnels m) (snapshots m) (current m) (logs m) (log_views m) (f
    (active m)) (auto_start m) (host_key_views m) (config_views m) (pending_host_keys m)
    (next_host_key_id m) (app_known_hosts_path m) (world m).
(** [TunnelManager::publish] *)
Definition publish  (m : TunnelManager K R) : TunnelManager K R :=
  mkTunnelManager (hosts m) (groups m) (tunnels m) (current m) (current m) (logs m) (log_views m) (active
    m) (auto_start m) (host_key_views m) (config_views m) (pending_host_keys m)
    (next_host_key_id m) (app_known_hosts_path m) (world m).
Definition set_pending (p : list PendingHostKey) (m : TunnelManager K R) : TunnelManager K R :=
  mkTunnelManager (hosts m) (groups m) (tunnels m) (snapshots m) (current m) (logs m) (log_views m)
    (active m) (auto_start m) (host_key_views m) (config_views m) p (next_host_key_id m)
    (app_known_hosts_path m) (world m).
(** [TunnelManager::publish_host_keys] *)
Definition publish_host_keys  (m : TunnelManager K R) : TunnelManager K R :=
  mkTunnelManager (hosts m) (groups m) (tunnels m) (snapshots m) (current m) (logs m) (log_views m)
    (active m) (auto_start m) (pk_view <$> pending_host_keys m) (config_views m)
    (pending_host_keys m) (next_host_key_id m) (app_known_hosts_path m) (world m).
Definition set_logs (l : list LogEvent) (m : TunnelManager K R) : TunnelManager K R :=
  mkTunnelManager (hosts m) (groups m) (tunnels m) (snapshots m) (current m) l l (active m) (auto_start m)
    (host_key_views m) (config_views m) (pending_host_keys m) (next_host_key_id m)
    (app_known_hosts_path m) (world m).
Definition set_next_id (n : Z) (m : TunnelManager K R) : TunnelManager K R :=
  mkTunnelManager (hosts m) (groups m) (tunnels m) (snapshots m) (current m) (logs m) (log_views m)
    (active m) (auto_start m) (host_key_views m) (config_views m) (pending_host_keys m) n
    (app_known_hosts_path m) (world m).
Definition set_config_views (c : DomainConfig) (m : TunnelManager K R) : TunnelManager K R :=
  mkTunnelManager (hosts m) (groups m) (tunnels m) (snapshots m) (current m) (logs m) (log_views m)
    (active m) (auto_start m) (host_key_views m) c (pending_host_keys m) (next_host_key_id
    m) (app_known_hosts_path m) (world m).
Definition set_config (h : list SshHost) (g : list TunnelGroup) (t : gmap TunnelId TunnelConfig) (m : TunnelManager K R) : TunnelManager K R :=
  mkTunnelManager h g t (snapshots m) (current m) (logs m) (log_views m) (active m) (auto_start m)
    (host_key_views m) (config_views m) (pending_host_keys m) (next_host_key_id m)
    (app_known_hosts_path m) (world m).
Definition clear_auto_start  (m : TunnelManager K R) : TunnelManager K R :=
  mkTunnelManager (hosts m) (groups m) (tunnels m) (snapshots m) (current m) (logs m) (log_views m)
    (active m) [] (host_key_views m) (config_views m) (pending_host_keys m)
    (next_host_key_id m) (app_known_hosts_path m) (world m).
Definition set_known_hosts (p : option PathBuf) (m : TunnelManager K R) : TunnelManager K R :=
  mkTunnelManager (hosts m) (groups m) (tunnels m) (snapshots m) (current m) (logs m) (log_views m)
    (active m) (auto_start m) (host_key_views m) (config_views m) (pending_host_keys m)
    (next_host_key_id m) p (world m).

Definition on_tasks (f : gmap nat Task -> gmap nat Task) : TunnelManager K R -> TunnelManager K R :=
  on_world (fun w => mkWorld (f (tasks w)) (next_task w) (unix_now w) (closed_replies w)
                       (decisions w) (replies w) (disk w)).

(** [tokio::spawn]: the new task's number is [next_task]. *)
Definition spawn (spec : TaskSpec.t) : TunnelManager K R -> TunnelManager K R :=
  on_world (fun w => mkWorld (<[next_task w := spawned spec]> (tasks w)) (S (next_task w))
                       (unix_now w) (closed_replies w) (decisions w) (replies w) (disk w)).

(** Awaiting a task, aborted or not, until it is over. *)
Definition join_task (n : nat) : TunnelManager K R -> TunnelManager K R := on_tasks (delete n).

(** [reply.send(..)] *)
Definition answer (reply : Z) (r : Reply.t) : TunnelManager K R -> TunnelManager K R :=
  on_world (fun w => mkWorld (tasks w) (next_task w) (unix_now w) (closed_replies w)
                       (decisions w) (replies w ++ [(reply, r)]) (disk w)).
Definition send_decision (reply : Z) (d : HostKeyDecision.t)
    : TunnelManager K R -> TunnelManager K R :=
  on_world (fun w => mkWorld (tasks w) (next_task w) (unix_now w) (closed_replies w)
                       (decisions w ++ [(reply, d)]) (replies w) (disk w)).
Definition set_disk (d : Disk K R) : TunnelManager K R -> TunnelManager K R :=
  on_world (fun w => mkWorld (tasks w) (next_task w) (unix_now w) (closed_replies w)
                       (decisions w) (replies w) d).
End Updates.

(** ** Views and logs *)

(** [std::mem::discriminant] *)
Definition discriminant (s : SupervisorState.t) : nat :=
  match s with
  | SupervisorState.Connecting _ => 0
  | SupervisorState.Reconnecting _ _ _ => 1
  | SupervisorState.Healthy _ _ => 2
  | SupervisorState.Degraded _ _ => 3
  | SupervisorState.Blocked _ => 4
  | SupervisorState.Stopped => 5
  end.

Section Views.
Context {K R : Type}.
Notation manager := (TunnelManager K R).

Definition push_log (level : LogLevel.t) (source : LogSource.t) (subject stage message : string)
    (m : manager) : manager :=
  set_logs (push_bounded MAX_LOG_EVENTS (logs m)
              (mkLogEvent (unix_now (world m)) level source subject stage message)) m.

Definition log_state (id : TunnelId) (state : SupervisorState.t) : manager -> manager :=
  let '(level, message) :=
    match state with
    | SupervisorState.Stopped => (LogLevel.Info, "Stopped")
    | SupervisorState.Connecting _ => (LogLevel.Info, "Connecting to SSH host")
    | SupervisorState.Healthy _ _ => (LogLevel.Info, "SSH connection healthy")
    | SupervisorState.Degraded _ _ => (LogLevel.Warning, "SSH connection degraded")
    | SupervisorState.Reconnecting _ _ _ => (LogLevel.Warning, "Reconnecting")
    | SupervisorState.Blocked _ =>
        (LogLevel.Error, "Tunnel blocked; inspect status for details")
    end in
  push_log level LogSource.Tunnel (tunnel_id_0 id) "Lifecycle" message.

Definition set_state (id : TunnelId) (state : SupervisorState.t) (local_addr : option SocketAddr)
    (m : manager) : manager :=
  match current m !! id with
  | None => m
  | Some view =>
      let changed := negb (bool_decide (discriminant (tv_state view) = discriminant state)) in
      let m := on_current <[id := mkTunnelView state local_addr]> m in
      let m := if changed then log_state id state m else m in
      publish m
  end.

Definition blocked (id : TunnelId) (reason : string) : manager -> manager :=
  set_state id (SupervisorState.Blocked reason) None.

(** ** Host key prompts *)

Definition queue_host_key (prompt : HostKeyPrompt) (reply : Z) (m : manager) : manager :=
  if bool_decide (MAX_HOST_KEY_PROMPTS <= length (pending_host_keys m))%nat
  then send_decision reply HostKeyDecision.Cancel m
  else
    let view := {| pv_id := next_host_key_id m;
                   pv_host := prompt_host prompt;
                   pv_port := prompt_port prompt;
                   pv_algorithm := prompt_algorithm prompt;
                   pv_fingerprint := prompt_fingerprint prompt |} in
    let m := set_next_id (Z.max (wrapping_add u64_max (next_host_key_id m) 1) 1) m in
    let m := set_pending (pending_host_keys m ++ [mkPendingHostKey view reply]) m in
    let m := push_log LogLevel.Warning LogSource.Host (pv_host view) "Host key"
               "Confirmation required" m in
    publish_host_keys m.

(** [iter().position(..)] and [Vec::remove]. *)
Fixpoint take_prompt (id : Z) (l : list PendingHostKey)
    : option (PendingHostKey * list PendingHostKey) :=
  match l with
  | [] => None
  | p :: l =>
      if bool_decide (pv_id (pk_view p) = id) then Some (p, l)
      else match take_prompt id l with
           | Some (q, rest) => Some (q, p :: rest)
           | None => None
           end
  end.

Definition resolve_host_key (id : Z) (decision : HostKeyDecision.t) (m : manager) : manager :=
  match take_prompt id (pending_host_keys m) with
  | Some (pending, rest) =>
      let m := set_pending rest m in
      publish_host_keys (send_decision (pk_reply pending) decision m)
  | None => m
  end.
End Views.

(** ** Starting and stopping *)

(** What the operating system answers one start: clock readings and binds. *)
Record StartEnv := mkStartEnv {
  se_clock : nat -> SystemTime;
  se_instant : Instant;
  se_bind : SocketAddr -> result TcpListener IoError
}.

(** The hosts of a chain: for each hop the first host with its id. *)
Definition find_host (hosts : list SshHost) (id : HostId) : option SshHost :=
  find (fun h => bool_decide (host_id h = id)) hosts.
Fixpoint find_hosts (hosts : list SshHost) (chain : list HostId) : option (list SshHost) :=
  match chain with
  | [] => Some []
  | id :: chain =>
      match find_host hosts id, find_hosts hosts chain with
      | Some h, Some hs => Some (h :: hs)
      | _, _ => None
      end
  end.

Definition supervisor_mode (t : TunnelConfig) : option SupervisorMode.t :=
  match tunnel_mode t with
  | TunnelMode.Local => SupervisorMode.Local <$> tunnel_remote t
  | _ => Some SupervisorMode.Dynamic
  end.

(** [format!("{}:{}", host, port)] *)
Definition listen_text (e : LocalEndpoint) : string :=
  local_host e +:+ ":" +:+ show_dec (local_port e).

Section Lifecycle.
Context `{Russh} {K R : Type}.
Notation manager := (TunnelManager K R).

(** Everything of [start] that happens before the task is spawned: the task to
    spawn and the address it listens on, or why the tunnel is blocked. *)
Definition prepare_listener (os : StartEnv) (hosts : list SshHost) (known : option PathBuf)
    (t : TunnelConfig) : result (TaskSpec.t * option SocketAddr) string :=
  match parse_socket_addr (listen_text (tunnel_local t)) with
  | None => Err "Invalid listener address: invalid socket address syntax"
  | Some address =>
      let '(bound, listener) :=
        start_listener (se_clock os) (se_instant os) address (se_bind os address) Runtime.new in
      let? _ := map_err show_listener_runtime_error bound in
      let local_addr := match Runtime.local_addr listener with Ok a => a | Err _ => None end in
      let? mode := ok_or (supervisor_mode t) "Remote target is missing" in
      let? supervisor := map_err show_supervisor_error
                           (Supervisor.new listener mode (tunnel_reconnect t)) in
      Ok (TaskSpec.Local supervisor address hosts known, local_addr)
  end.

Definition prepare (os : StartEnv) (m : manager) (t : TunnelConfig)
    : result (TaskSpec.t * option SocketAddr) string :=
  let? _ := map_err show_validation_error (Validation.validate t (hosts m) (groups m)) in
  let? chain := ok_or (find_hosts (hosts m) (tunnel_jump_chain t)) "Unknown jump host" in
  match tunnel_mode t with
  | TunnelMode.Local | TunnelMode.Dynamic =>
      prepare_listener os chain (app_known_hosts_path m) t
  | TunnelMode.Remote =>
      Ok (TaskSpec.Remote (RemoteSupervisor.new (tunnel_local t) (tunnel_reconnect t)) chain
            (tunnel_remote t) (app_known_hosts_path m), None)
  end.

Definition start (os : StartEnv) (id : TunnelId) (m : manager) : manager :=
  match active m !! id with
  | Some _ => m
  | None =>
      match tunnels m !! id with
      | None => m
      | Some tunnel =>
          match prepare os m tunnel with
          | Err reason => blocked id reason m
          | Ok (spec, local_addr) =>
              let task := next_task (world m) in
              let m := spawn spec m in
              let m := set_state id (SupervisorState.Connecting 1) local_addr m in
              on_active <[id := mkActiveTunnel task]> m
          end
      end
  end.

(** The task is over when [stop] goes on: it ended after the cancellation, or
    was aborted and awaited. *)
Definition stop (id : TunnelId) (m : manager) : manager :=
  let m :=
    match active m !! id with
    | Some a => join_task (at_task a) (on_active (delete id) m)
    | None => m
    end in
  set_state id SupervisorState.Stopped None m.

(** ** Following the supervisors *)

(** [borrow_and_update] *)
Definition mark_seen (t : Task) : Task :=
  mkTask (t_spec t) (t_state t) false (t_result t) (t_cancelled t) (t_hint t).

Definition set_view (id : TunnelId) (view : TunnelView) : manager -> manager :=
  on_current <[id := view]>.

(** One turn of the loop over [active]. *)
Definition poll_one (acc : manager * list (TunnelId * SupervisorState.t) * bool * list TunnelId)
    (id : TunnelId) : manager * list (TunnelId * SupervisorState.t) * bool * list TunnelId :=
  let '(m, transitions, changed, finished) := acc in
  match active m !! id ≫= fun a => (a,.) <$> tasks (world m) !! at_task a with
  | None => acc
  | Some (a, task) =>
      let '(m, transitions, changed) :=
        if t_changed task then
          let m := on_tasks <[at_task a := mark_seen task]> m in
          match current m !! id with
          | Some view =>
              (set_view id (mkTunnelView (t_state task) (tv_local_addr view)) m,
               if bool_decide (discriminant (tv_state view) = discriminant (t_state task))
               then transitions else transitions ++ [(id, t_state task)],
               true)
          | None => (m, transitions, changed)
          end
        else (m, transitions, changed) in
      (m, transitions, changed,
       match t_result task with Some _ => finished ++ [id] | None => finished end)
  end.

(** One turn of the loop over the finished tunnels. *)
Definition reap_one (acc : manager * list (TunnelId * SupervisorState.t) * bool)
    (id : TunnelId) : manager * list (TunnelId * SupervisorState.t) * bool :=
  let '(m, transitions, changed) := acc in
  match active m !! id ≫= fun a => (a,.) <$> (tasks (world m) !! at_task a ≫= t_result) with
  | None => acc
  | Some (a, result) =>
      let m := join_task (at_task a) (on_active (delete id) m) in
      let reason :=
        match result with
        | Ok (Some reason) => reason
        | Ok None => "Tunnel task exited"
        | Err error => error
        end in
      match current m !! id with
      | Some _ =>
          (set_view id (mkTunnelView (SupervisorState.Blocked reason) None) m,
           transitions ++ [(id, SupervisorState.Blocked reason)], true)
      | None => (m, transitions, changed)
      end
  end.

(** [order] is the iteration order of a [HashMap]'s keys. *)
Context (order : gset TunnelId -> list TunnelId).

Definition refresh (m : manager) : manager :=
  let kept := List.filter (fun p => negb (bool_decide (pk_reply p ∈ closed_replies (world m))))
                (pending_host_keys m) in
  let shorter := negb (bool_decide (length kept = length (pending_host_keys m))) in
  let m := set_pending kept m in
  let m := if shorter then publish_host_keys m else m in
  let '(m, transitions, changed, finished) :=
    foldl poll_one (m, [], false, []) (order (dom (active m))) in
  let '(m, transitions, changed) := foldl reap_one (m, transitions, changed) finished in
  let m := foldl (fun m '(id, state) => log_state id state m) m transitions in
  if changed then publish m else m.

(** ** Replacing the configuration *)

Definition same_tunnel_runtime (old new : TunnelConfig) : bool :=
  bool_decide (tunnel_mode old = tunnel_mode new)
  && bool_decide (tunnel_jump_chain old = tunnel_jump_chain new)
  && bool_decide (tunnel_local old = tunnel_local new)
  && bool_decide (tunnel_remote old = tunnel_remote new)
  && bool_decide (tunnel_reconnect old = tunnel_reconnect new).

Definition same_host_connection (old new : option SshHost) : bool :=
  match old, new with
  | Some old, Some new =>
      bool_decide (host_hostname old = host_hostname new)
      && bool_decide (host_port old = host_port new)
      && bool_decide (host_username old = host_username new)
      && bool_decide (host_auth old = host_auth new)
      && bool_decide (host_host_key_policy old = host_host_key_policy new)
      && bool_decide (host_connect_timeout old = host_connect_timeout new)
      && bool_decide (host_keepalive_interval old = host_keepalive_interval new)
      && bool_decide (host_keepalive_max old = host_keepalive_max new)
  | None, None => true
  | _, _ => false
  end.

Definition collect_tunnels (l : list TunnelConfig) : gmap TunnelId TunnelConfig :=
  foldl (fun ts t => <[tunnel_id t := t]> ts) ∅ l.

Definition needs_restart (m : manager) (new_hosts : list SshHost)
    (updated : gmap TunnelId TunnelConfig) (id : TunnelId) : bool :=
  match tunnels m !! id, updated !! id with
  | Some old, Some new =>
      negb (same_tunnel_runtime old new)
      || existsb (fun hop => negb (same_host_connection (find_host (hosts m) hop)
                                                         (find_host new_hosts hop)))
           (tunnel_jump_chain old)
  | _, _ => true
  end.

Definition stopped_view : TunnelView := mkTunnelView SupervisorState.Stopped None.

(** [current.retain(..)], then [entry(id).or_insert(stopped)]. *)
Definition refit (ts : gmap TunnelId TunnelConfig) (views : ManagerSnapshot) : ManagerSnapshot :=
  filter (fun '(id, _) => is_Some (ts !! id)) views ∪ ((fun _ => stopped_view) <$> ts).

Definition replace_config (os : TunnelId -> StartEnv) (config : DomainConfig) (m : manager)
    : manager :=
  let m := set_config_views config m in
  let old_running := dom (active m) in
  let updated := collect_tunnels (dc_tunnels config) in
  let restart := List.filter (needs_restart m (dc_hosts config) updated) (order old_running) in
  let m := foldl (fun m id => stop id m) m restart in
  let m := set_config (dc_hosts config) (dc_groups config) updated m in
  let m := on_current (refit updated) m in
  let m := publish m in
  let to_start :=
    List.filter (fun id => match updated !! id with
                           | Some t => tunnel_auto_start t || bool_decide (id ∈ old_running)
                           | None => false
                           end) (order (dom updated)) in
  foldl (fun m id => start (os id) id m) m to_start.
End Lifecycle.

(** ** Commands *)

(** What the [select!] of [run] reacts to; the tick is off while nothing is
    active. *)
Module Input.
Inductive t :=
  | Command (os : TunnelId -> StartEnv) (stamp : Z) (command : CoreCommand.t)
  | Prompt (prompt : HostKeyPrompt) (reply : Z)
  | Tick.
End Input.

Section Commands.
Context `{Russh} `{HT : Toml, HO : Os} `{HK : Keyring K} `{HR : Registry R} `{HG : Glob}.
Context (env : Env) (raw_os_text : Z -> string) (import_files : ImportFiles).
Context (order : gset TunnelId -> list TunnelId).
Notation manager := (TunnelManager K R).

(** [notify_one] on the retry hint of a tunnel's supervisor, when its latest
    state satisfies [p]. *)
Definition hint_if (p : SupervisorState.t -> bool) (a : ActiveTunnel) (m : manager) : manager :=
  match tasks (world m) !! at_task a with
  | Some t =>
      if p (t_state t)
      then on_tasks <[at_task a := mkTask (t_spec t) (t_state t) (t_changed t) (t_result t)
                                     (t_cancelled t) true]> m
      else m
  | None => m
  end.

Definition is_blocked_or_reconnecting (s : SupervisorState.t) : bool :=
  match s with SupervisorState.Blocked _ | SupervisorState.Reconnecting _ _ _ => true | _ => false end.
Definition is_reconnecting (s : SupervisorState.t) : bool :=
  match s with SupervisorState.Reconnecting _ _ _ => true | _ => false end.

Definition start_all (os : TunnelId -> StartEnv) (ids : list TunnelId) (m : manager) : manager :=
  foldl (fun m id => start (os id) id m) m ids.
Definition stop_all (ids : list TunnelId) (m : manager) : manager :=
  foldl (fun m id => stop id m) m ids.

(** The tunnels of a group. *)
Definition group_ids (group : GroupId) (m : manager) : list TunnelId :=
  List.filter (fun id => match tunnels m !! id with
                         | Some t => bool_decide (tunnel_group_id t = Some group)
                         | None => false
                         end) (order (dom (tunnels m))).

Definition save_config (os : TunnelId -> StartEnv) (stamp : Z) (directory : PathBuf)
    (config : DomainConfig) (secret : option SecretUpdate) (reply : Z) (m : manager) : manager :=
  let old_run_at_login := run_at_startup (dc_app (config_views m)) in
  let '(result, d) := persist_config env raw_os_text directory config secret old_run_at_login
                        stamp (disk (world m)) in
  let m := set_disk d m in
  let m := if is_ok result then replace_config order os config m else m in
  answer reply (Reply.Saved result) m.

(** A blocking operation on files; the blocking task does not panic. *)
Definition on_files {A} (op : ST Fs ConfigStoreError.t A) (m : manager)
    : result A string * manager :=
  let '(r, d) := on_fs op (disk (world m)) in (r, set_disk d m).

Definition dispatch (os : TunnelId -> StartEnv) (stamp : Z) (command : CoreCommand.t)
    (m : manager) : manager :=
  match command with
  | CoreCommand.StartAll => start_all os (order (dom (tunnels m))) m
  | CoreCommand.StopAll => stop_all (order (dom (active m))) m
  | CoreCommand.StartGroup group => start_all os (group_ids group m) m
  | CoreCommand.StopGroup group => stop_all (group_ids group m) m
  | CoreCommand.StartTunnel id => start (os id) id m
  | CoreCommand.StopTunnel id => stop id m
  | CoreCommand.RestartTunnel id => start (os id) id (stop id m)
  | CoreCommand.RetryTunnel id =>
      match active m !! id with
      | Some a => hint_if is_blocked_or_reconnecting a m
      | None => start (os id) id m
      end
  | CoreCommand.NetworkRecovered =>
      foldl (fun m id => match active m !! id with
                         | Some a => hint_if is_reconnecting a m
                         | None => m
                         end) m (order (dom (active m)))
  | CoreCommand.SaveConfig directory config secret reply =>
      save_config os stamp directory config secret reply m
  | CoreCommand.ImportConfig path reply =>
      let '(r, m) := on_files (Store.import_file env path) m in answer reply (Reply.Config r) m
  | CoreCommand.PreviewSshConfig path reply =>
      match preview_ssh_config env import_files path with
      | Some r => answer reply (Reply.Preview (map_err show_ssh_import_error r)) m
      | None => m
      end
  | CoreCommand.ExportConfig path config reply =>
      let '(r, m) := on_files (Store.export_file env path config) m in
      answer reply (Reply.Saved r) m
  | CoreCommand.ResolveHostKey id decision => resolve_host_key id decision m
  end.

(** ** The manager's life *)


Definition react (input : Input.t) (m : manager) : manager :=
  match input with
  | Input.Command os stamp command => dispatch os stamp command m
  | Input.Prompt prompt reply => queue_host_key prompt reply m
  | Input.Tick => if bool_decide (active m = ∅) then m else refresh order m
  end.

(** [mem::take(&mut self.auto_start)] and the loop over it; [cancelled i]: the
    shutdown token has fired when the loop reaches its [i]-th tunnel. *)
Fixpoint auto_start_loop (os : TunnelId -> StartEnv) (cancelled : nat -> bool) (i : nat)
    (ids : list TunnelId) (m : manager) : manager :=
  match ids with
  | [] => m
  | id :: ids =>
      if cancelled i then m
      else auto_start_loop os cancelled (S i) ids (start (os id) id m)
  end.

Definition launch (os : TunnelId -> StartEnv) (cancelled : nat -> bool) (m : manager) : manager :=
  auto_start_loop os cancelled 0 (auto_start m) (clear_auto_start m).

Definition cancel (t : Task) : Task :=
  mkTask (t_spec t) (t_state t) (t_changed t) (t_result t) true (t_hint t).

(** What follows the loop: every task is cancelled, then awaited, those that
    miss the common deadline after an abort. *)
Definition shut_down (m : manager) : manager :=
  let m := foldl (fun m id => match active m !! id with
                              | Some a => on_tasks (alter cancel (at_task a)) m
                              | None => m
                              end) m (order (dom (active m))) in
  let m := set_pending [] m in
  let drained := order (dom (active m)) in
  let handles := active m in
  let m := on_active (fun _ => ∅) m in
  foldl (fun m id => match handles !! id with
                     | Some a => join_task (at_task a) m
                     | None => m
                     end) m drained.

(** [new] in a world where nothing of the manager runs yet. *)
Definition insert_tunnel (acc : result (gmap TunnelId TunnelConfig * ManagerSnapshot * list TunnelId)
                                       ManagerError.t) (t : TunnelConfig)
    : result (gmap TunnelId TunnelConfig * ManagerSnapshot * list TunnelId) ManagerError.t :=
  let? (definitions, current, auto) := acc in
  match definitions !! tunnel_id t with
  | Some _ => Err (ManagerError.DuplicateTunnel (tunnel_id_0 (tunnel_id t)))
  | None =>
      Ok (<[tunnel_id t := t]> definitions, <[tunnel_id t := stopped_view]> current,
          if tunnel_auto_start t then auto ++ [tunnel_id t] else auto)
  end.

Definition new (hosts : list SshHost) (groups : list TunnelGroup) (tunnels : list TunnelConfig)
    (w : World K R) : result manager ManagerError.t :=
  if bool_decide (MAX_TUNNELS < length tunnels)%nat then Err ManagerError.TooManyTunnels
  else
    let? (definitions, current, auto) := foldl insert_tunnel (Ok (∅, ∅, [])) tunnels in
    let config := mkDomainConfig AppSettings_default hosts groups
                    (omap (fun id => definitions !! id) (order (dom definitions))) in
    Ok (mkTunnelManager hosts groups definitions current current [] [] ∅ auto [] config [] 1 None w).

Definition with_app_known_hosts (path : PathBuf) (m : manager) : manager :=
  set_known_hosts (Some path) m.
Definition with_app_settings (app : AppSettings) (m : manager) : manager :=
  let c := config_views m in
  set_config_views (mkDomainConfig app (dc_hosts c) (dc_groups c) (dc_tunnels c)) m.
End Commands.

(** ** The hops of a connection attempt *)

Section Hops.
Context `{Russh} (env : Env).
(** [CredentialSource::load] on a blocking worker, at the [ix]-th host: the
    join error, or what [load] returned. *)
Context (credentials : nat -> SecretRef -> result (result string string) string).

Definition load_secret (reference : SecretRef) (hop : nat) : result string SshChainError.t :=
  match credentials hop reference with
  | Err error => Err (SshChainError.Credential (Z.of_nat hop) error)
  | Ok (Err reason) => Err (SshChainError.Credential (Z.of_nat hop) (take_chars 256 reason))
  | Ok (Ok secret) => Ok secret
  end.

Definition known_hosts_files (app_known_hosts_path : option PathBuf) : list PathBuf :=
  let home := match var_os env "USERPROFILE" with Some h => Some h | None => var_os env "HOME" end in
  match home with
  | Some h => [path_join (platform env) (path_join (platform env) h ".ssh") "known_hosts"]
  | None => []
  end
  ++ match app_known_hosts_path with Some p => [p] | None => [] end.

Definition hop_credential_for (host : SshHost) (hop : nat) : result SshCredential.t SshChainError.t :=
  match host_auth host with
  | AuthConfig.Agent _ => Ok SshCredential.Agent
  | AuthConfig.KeyboardInteractive =>
      Err (SshChainError.Credential (Z.of_nat hop)
             "Keyboard-interactive authentication is not available yet")
  | AuthConfig.Password credential_ref =>
      let? secret := load_secret credential_ref hop in Ok (SshCredential.Password secret)
  | AuthConfig.PrivateKey _ (Some reference) =>
      let? secret := load_secret reference hop in Ok (SshCredential.PrivateKey (Some secret))
  | AuthConfig.PrivateKey _ None => Ok (SshCredential.PrivateKey None)
  end.

Fixpoint build_hops_from (ix : nat) (hosts : list SshHost) (known_hosts : list PathBuf)
    : result (list HopSpec) SshChainError.t :=
  match hosts with
  | [] => Ok []
  | host :: hosts =>
      let? credential := hop_credential_for host (S ix) in
      let? hops := build_hops_from (S ix) hosts known_hosts in
      Ok (mkHopSpec host credential known_hosts :: hops)
  end.

Definition build_hops (hosts : list SshHost) (app_known_hosts_path : option PathBuf)
    : result (list HopSpec) SshChainError.t :=
  build_hops_from 0 hosts (known_hosts_files app_known_hosts_path).
End Hops.
