(* ===== verification/Frames.v ===== *)
(** * Frames: what the manager's operations leave alone.

    A projection of the manager that ignores its tasks, its active tunnels, its
    views and its logs ([Framed]) is the same after starting, stopping and
    following tunnels. The client instantiates the class and has the lemmas. *)
From S2P Require Import Prelude Io Text Net Domain Validation StateMachine Runtime Retry Russh HostKey SshClient Chain LocalForward Supervisor RemoteSupervisor Path Schema Fs Store Secrets Persist SshImport Manager.

#[local] Notation delete := base.delete.

Class Framed {K R X : Type} (g : TunnelManager K R -> X) : Prop := {
  framed_tasks f m : g (on_tasks f m) = g m;
  framed_spawn spec m : g (spawn spec m) = g m;
  framed_active f m : g (on_active f m) = g m;
  framed_current f m : g (on_current f m) = g m;
  framed_logs l m : g (Manager.set_logs l m) = g m;
  framed_publish m : g (publish m) = g m
}.

Section Frames.
Context `{Russh} {K R X : Type} (g : TunnelManager K R -> X) `{!Framed g}.
Notation manager := (TunnelManager K R).

Lemma log_state_framed id st (m : manager) : g (log_state id st m) = g m.
Proof. destruct st; apply framed_logs. Qed.

Lemma set_state_framed id st addr (m : manager) : g (set_state id st addr m) = g m.
Proof.
  unfold set_state. destruct (current m !! id) as [view|]; [|done]. cbv zeta. rewrite framed_publish.
  destruct (negb _); rewrite ?log_state_framed; apply framed_current.
Qed.

Lemma stop_framed id (m : manager) : g (stop id m) = g m.
Proof.
  unfold stop, join_task. rewrite set_state_framed. destruct (active m !! id); [|done].
  by rewrite ?framed_tasks, framed_active.
Qed.

Lemma start_framed os id (m : manager) : g (start os id m) = g m.
Proof.
  unfold start, blocked. destruct (active m !! id); [done|]. destruct (tunnels m !! id); [|done].
  destruct (prepare os m _) as [[spec addr]|]; [|apply set_state_framed].
  by rewrite framed_active, set_state_framed, framed_spawn.
Qed.

Lemma foldl_framed {A} (f : manager -> A -> manager) l (m : manager) :
  (forall m a, g (f m a) = g m) -> g (foldl f m l) = g m.
Proof. intros Hf. revert m. induction l as [|a l IH]; intros m; [done|]. simpl. by rewrite IH, Hf. Qed.

Lemma hint_if_framed p a (m : manager) : g (hint_if p a m) = g m.
Proof. unfold hint_if. destruct (tasks _ !! _); [|done]. destruct (p _); [apply framed_tasks|done]. Qed.

Lemma auto_start_framed os cancelled i ids (m : manager) :
  g (auto_start_loop os cancelled i ids m) = g m.
Proof.
  revert i m. induction ids as [|id ids IH]; intros i m; [done|]. cbn.
  destruct (cancelled i); [done|]. by rewrite IH, start_framed.
Qed.

Lemma poll_one_framed acc id : g (poll_one acc id).1.1.1 = g acc.1.1.1.
Proof.
  destruct acc as [[[m ts] b] fin]. unfold poll_one, set_view.
  destruct (active m !! id ≫= _) as [[a task]|]; [|done].
  destruct (t_changed task); [|done]. destruct (current _ !! id); cbn; by rewrite ?framed_current, framed_tasks.
Qed.

Lemma reap_one_framed acc id : g (reap_one acc id).1.1 = g acc.1.1.
Proof.
  destruct acc as [[m ts] b]. unfold reap_one, set_view, join_task.
  destruct (active m !! id ≫= _) as [[a r]|]; [|done].
  destruct (current _ !! id); cbn; by rewrite ?framed_current, framed_tasks, framed_active.
Qed.

Lemma foldl_acc_framed {A B} (f : A -> B -> A) (pick : A -> manager) l acc :
  (forall acc b, g (pick (f acc b)) = g (pick acc)) -> g (pick (foldl f acc l)) = g (pick acc).
Proof. intros Hf. revert acc. induction l as [|b l IH]; intros acc; [done|]. simpl. by rewrite IH, Hf. Qed.

(** [refresh] drops the prompts nobody waits for, and otherwise follows the
    tunnels. *)
Definition kept_prompts (m : manager) : list PendingHostKey :=
  List.filter (fun p => negb (bool_decide (pk_reply p ∈ closed_replies (world m)))) (pending_host_keys m).
Definition pruned (m : manager) : manager :=
  let shorter := negb (bool_decide (length (kept_prompts m) = length (pending_host_keys m))) in
  if shorter then publish_host_keys (set_pending (kept_prompts m) m) else set_pending (kept_prompts m) m.

Lemma refresh_framed order (m : manager) : g (refresh order m) = g (pruned m).
Proof.
  unfold refresh. fold (kept_prompts m). cbv zeta. fold (pruned m). set (m1 := pruned m).
  pose proof (foldl_acc_framed poll_one (fun acc => acc.1.1.1) (order (dom (active m1))) (m1, [], false, [])
    poll_one_framed) as Hp.
  destruct (foldl poll_one _ _) as [[[m2 ts] b] fin].
  pose proof (foldl_acc_framed reap_one (fun acc => acc.1.1) fin (m2, ts, b) reap_one_framed) as Hr.
  destruct (foldl reap_one _ _) as [[m3 ts'] b']. simpl in *.
  assert (Hl : g (foldl (fun m '(id, state) => log_state id state m) m3 ts') = g m3)
    by (apply foldl_framed; intros ? []; apply log_state_framed).
  destruct b'; rewrite ?framed_publish; congruence.
Qed.
End Frames.
