(* ===== verification/ManagerProps.v ===== *)
(** * ManagerProps: what the tunnel manager guarantees. *)
From S2P Require Import Prelude Io Text Net Domain Validation StateMachine LifecycleSpec LifecycleProps Runtime Retry Russh HostKey SshClient Chain LocalForward Supervisor RemoteSupervisor Path Schema Fs Store Secrets Persist SshImport Manager.

#[local] Notation delete := base.delete.

(** ** Specification *)

(** What a connection attempt depends on. *)
Definition connection (h : SshHost) :=
  (host_hostname h, host_port h, host_username h, host_auth h, host_host_key_policy h,
   host_connect_timeout h, host_keepalive_interval h, host_keepalive_max h).

(** The hosts a supervisor was given connect like the configured ones. *)
Definition runs_chain (hosts : list SshHost) (chain : list HostId) (given : list SshHost) : Prop :=
  Forall2 (fun hop h => connection <$> find_host hosts hop = Some (connection h)) chain given.

(** What a supervisor was built from, names, groups, notes and marks apart. *)
Definition behaviour (t : TunnelConfig) :=
  (tunnel_mode t, tunnel_jump_chain t, tunnel_local t, tunnel_remote t, tunnel_reconnect t).

(** The running tunnel [id] behaves and connects as before under the new hosts and tunnels. *)
Definition unaffected {K R} (m : TunnelManager K R) (new_hosts : list SshHost)
    (updated : gmap TunnelId TunnelConfig) (id : TunnelId) : Prop :=
  exists old new, tunnels m !! id = Some old /\ updated !! id = Some new
    /\ behaviour old = behaviour new
    /\ forall hop, hop ∈ tunnel_jump_chain old ->
       connection <$> find_host (hosts m) hop = connection <$> find_host new_hosts hop.

(** The task does what the configuration asks of the tunnel. *)
Definition runs (hosts : list SshHost) (t : TunnelConfig) (spec : TaskSpec.t) : Prop :=
  match spec with
  | TaskSpec.Local supervisor address given _ =>
      tunnel_mode t <> TunnelMode.Remote
      /\ supervisor_mode t = Some (sv_mode supervisor)
      /\ sv_retries supervisor = Retry.new (tunnel_reconnect t)
      /\ parse_socket_addr (listen_text (tunnel_local t)) = Some address
      /\ (exists l, sv_listener supervisor = Some l /\ socket l <> None)
      /\ runs_chain hosts (tunnel_jump_chain t) given
  | TaskSpec.Remote supervisor given remote _ =>
      tunnel_mode t = TunnelMode.Remote
      /\ supervisor = RemoteSupervisor.new (tunnel_local t) (tunnel_reconnect t)
      /\ remote = tunnel_remote t
      /\ runs_chain hosts (tunnel_jump_chain t) given
  end.

Section Spec.
Context {K R : Type}.
Notation manager := (TunnelManager K R).

(** Every supervisor task belongs to exactly one active tunnel, and runs the
    current configuration of that tunnel. *)
Record tasks_inv (m : manager) : Prop := {
  ti_running : forall id a, active m !! id = Some a -> exists task t,
    tasks (world m) !! at_task a = Some task /\ tunnels m !! id = Some t
    /\ runs (hosts m) t (t_spec task);
  ti_owned : forall n, is_Some (tasks (world m) !! n) ->
    exists id a, active m !! id = Some a /\ at_task a = n;
  ti_once : forall id1 id2 a1 a2, active m !! id1 = Some a1 -> active m !! id2 = Some a2 ->
    at_task a1 = at_task a2 -> id1 = id2;
  ti_fresh : forall n, is_Some (tasks (world m) !! n) -> (n < next_task (world m))%nat;
  ti_keys : forall id t, tunnels m !! id = Some t -> tunnel_id t = id
}.

(** The view has one line per configured tunnel, and the bounded queues are
    within their bounds and shown as they are. *)
Record views_ok (m : manager) : Prop := {
  vo_views : dom (current m) = dom (tunnels m);
  vo_logs : (length (logs m) <= MAX_LOG_EVENTS)%nat;
  vo_prompts : (length (pending_host_keys m) <= MAX_HOST_KEY_PROMPTS)%nat;
  vo_log_views : log_views m = logs m;
  vo_prompt_views : host_key_views m = pk_view <$> pending_host_keys m
}.

Definition published (m : manager) : Prop := snapshots m = current m.

Record manager_inv (m : manager) : Prop := {
  mi_tasks : tasks_inv m;
  mi_views : views_ok m;
  mi_published : published m
}.

(** What the tasks and the rest of the world do between two reactions: tasks
    publish states, end, and take hints; prompts are abandoned; time passes;
    files change. Nobody else spawns or removes the manager's tasks. *)
Definition world_step (w w' : World K R) : Prop :=
  next_task w' = next_task w
  /\ forall n, t_spec <$> tasks w' !! n = t_spec <$> tasks w !! n.
End Spec.

Section Reachable.
Context `{Russh} `{HT : Toml, HO : Os} `{HK : Keyring K} `{HR : Registry R} `{HG : Glob}.
Context (env : Env) (raw_os_text : Z -> string) (import_files : ImportFiles).
Context (order : gset TunnelId -> list TunnelId).

Inductive reachable : TunnelManager K R -> Prop :=
  | reach_new hosts groups tunnels w m :
      tasks w = ∅ -> new order hosts groups tunnels w = Ok m -> reachable m
  | reach_known_hosts path m : reachable m -> reachable (with_app_known_hosts path m)
  | reach_settings app m : reachable m -> reachable (with_app_settings app m)
  | reach_launch os cancelled m : reachable m -> reachable (launch os cancelled m)
  | reach_react input m :
      reachable m -> reachable (react env raw_os_text import_files order input m)
  | reach_world w' m :
      reachable m -> world_step (world m) w' -> reachable (on_world (fun _ => w') m).
End Reachable.

(** ** Starting *)

Lemma find_hosts_runs hosts chain hs : find_hosts hosts chain = Some hs -> runs_chain hosts chain hs.
Proof.
  revert hs. induction chain as [|id chain IH]; intros hs; simpl; [intros [= <-]; constructor|].
  destruct (find_host hosts id) as [h|] eqn:Eh; [|done].
  destruct (find_hosts hosts chain) as [hs'|]; [|done]. intros [= <-].
  constructor; [by rewrite Eh|by apply IH].
Qed.

Section Start.
Context `{Russh} {K R : Type}.
Notation manager := (TunnelManager K R).

Lemma start_new_listener os address bound :
  exists l, start_listener (se_clock os) (se_instant os) address bound Runtime.new
    = (match bind_outcome bound with Ok _ => Ok 1 | Err source => Err (Bind address source) end, l)
    /\ match bind_outcome bound with
       | Ok (sock, a) => socket l = Some sock /\ Runtime.local_addr l = Ok (Some a)
       | Err _ => socket l = None
       end.
Proof.
  destruct (start_from_stopped (se_clock os) (se_instant os) address bound Runtime.new _
    (proj2 (rt_inv_stopped Runtime.new rt_inv_new eq_refl)) eq_refl ltac:(vm_compute; reflexivity))
    as (l & lc & Hs & _ & Ho).
  exists l. rewrite Hs. split; [done|]. unfold bind_outcome in *.
  destruct bound as [sock|]; [|by destruct Ho].
  destruct (tcp_local_addr sock) as [a|] eqn:Ea; [|by destruct Ho]. destruct Ho as [Hl _].
  split; [done|]. unfold Runtime.local_addr. rewrite Hl. simpl. by rewrite Ea.
Qed.

(** Every outcome of preparing a Local or Dynamic tunnel that has its mode's
    target. *)
Lemma prepare_listener_spec os hs known t mode :
  supervisor_mode t = Some mode ->
  prepare_listener os hs known t =
  match parse_socket_addr (listen_text (tunnel_local t)) with
  | None => Err "Invalid listener address: invalid socket address syntax"
  | Some address =>
      match bind_outcome (se_bind os address) with
      | Err source => Err (show_listener_runtime_error (Bind address source))
      | Ok (_, a) =>
          let '(_, l) := start_listener (se_clock os) (se_instant os) address (se_bind os address) Runtime.new in
          Ok (TaskSpec.Local (mkSupervisor (Some l) mode (Retry.new (tunnel_reconnect t))
                [SupervisorState.Connecting 1] [] 1) address hs known, Some a)
      end
  end.
Proof.
  intros Hm. unfold prepare_listener. rewrite Hm.
  destruct (parse_socket_addr _) as [address|]; [|done].
  destruct (start_new_listener os address (se_bind os address)) as (l & -> & Hl).
  destruct (bind_outcome _) as [[sock a]|source]; [|done]. destruct Hl as [Hs Ha].
  cbn. rewrite Ha. unfold Supervisor.new. by rewrite Hs.
Qed.

Lemma prepare_runs os (m : manager) t spec a :
  prepare os m t = Ok (spec, a) -> runs (hosts m) t spec /\ valid_tunnel (hosts m) (groups m) t.
Proof.
  unfold prepare. intros Hp.
  destruct (Validation.validate _ _ _) as [[]|e] eqn:Ev; [|done].
  apply validate_valid_iff in Ev. simpl in Hp.
  destruct (find_hosts _ _) as [hs|] eqn:Eh; [|done]. apply find_hosts_runs in Eh. simpl in Hp.
  split; [|done]. destruct (tunnel_mode t) eqn:Em; [|by simplify_eq; split_and!|].
  all: unfold prepare_listener in Hp; destruct (parse_socket_addr _) as [address|] eqn:Ea; [|done];
    destruct (start_new_listener os address (se_bind os address)) as (l & Hs & Hl); rewrite Hs in Hp;
    destruct (bind_outcome _) as [[sock b]|source]; [|done]; destruct Hl as [Hsock _];
    cbn in Hp; destruct (supervisor_mode t) as [mode|] eqn:Emode; [|done]; cbn in Hp;
    unfold Supervisor.new in Hp; rewrite Hsock in Hp; cbn in Hp; simplify_eq; cbn;
    split_and!; try done; try congruence; exists l; split; [done|congruence].
Qed.
End Start.

(** ** What the operations leave alone *)

Section Frames.
Context {K R : Type}.
Notation manager := (TunnelManager K R).

(** What [tasks_inv] speaks of. *)
Definition core_of (m : manager) :=
  (hosts m, tunnels m, active m, tasks (world m), next_task (world m)).

(** What [views_ok] and [published] speak of. *)
Definition shown (m : manager) :=
  (current m, snapshots m, tunnels m, (logs m, log_views m), (pending_host_keys m, host_key_views m)).

Lemma tasks_inv_core (m m' : manager) : core_of m' = core_of m -> tasks_inv m -> tasks_inv m'.
Proof. unfold core_of. intros [= Hh Ht Ha Hk Hn] []. split; rewrite ?Hh, ?Ht, ?Ha, ?Hk, ?Hn; done. Qed.

Lemma views_shown (m m' : manager) :
  shown m' = shown m -> views_ok m /\ published m -> views_ok m' /\ published m'.
Proof.
  unfold shown, published. intros [= Hc Hs Ht Hl Hv Hp Hw] [[] Hpub]. split; [split|];
    rewrite ?Hc, ?Hs, ?Ht, ?Hl, ?Hv, ?Hp, ?Hw; done.
Qed.

Lemma set_state_core id st a (m : manager) : core_of (set_state id st a m) = core_of m.
Proof. unfold set_state. destruct (current m !! id); [|done]. by destruct (negb _), st. Qed.

Lemma log_state_views id st (m : manager) : views_ok m -> views_ok (log_state id st m).
Proof.
  intros [Hv Hl Hp Hlv Hpv]. unfold log_state. destruct st; (split; try done); cbn;
    rewrite push_bounded_length; unfold MAX_LOG_EVENTS in *; lia.
Qed.

Lemma log_state_frame id st (m : manager) :
  core_of (log_state id st m) = core_of m /\ current (log_state id st m) = current m
  /\ snapshots (log_state id st m) = snapshots m.
Proof. by destruct st. Qed.

Lemma set_state_views id st a (m : manager) : views_ok m -> views_ok (set_state id st a m).
Proof.
  intros Hv. unfold set_state. destruct (current m !! id) as [view|] eqn:E; [|done].
  assert (Hv' : views_ok (on_current <[id := mkTunnelView st a]> m)).
  { destruct Hv as [Hd Hl Hp Hlv Hpv]. split; try done. cbn. rewrite dom_insert_L, Hd.
    assert (id ∈ dom (tunnels m)) by (rewrite <- Hd; by eapply elem_of_dom_2). set_solver. }
  assert (Hv2 : views_ok (if negb (bool_decide (discriminant (tv_state view) = discriminant st))
    then log_state id st (on_current <[id := mkTunnelView st a]> m)
    else on_current <[id := mkTunnelView st a]> m)) by (case_match; [by apply log_state_views|done]).
  destruct Hv2. by split.
Qed.

Lemma set_state_published id st a (m : manager) : published m -> published (set_state id st a m).
Proof. unfold set_state. by destruct (current m !! id). Qed.

(** The view of one tunnel after [set_state]. *)
Lemma set_state_current id st a (m : manager) :
  current (set_state id st a m)
  = match current m !! id with
    | Some _ => <[id := mkTunnelView st a]> (current m)
    | None => current m
    end.
Proof.
  unfold set_state. destruct (current m !! id) as [v|]; [|done]. cbn.
  destruct (negb _); [|done]. by rewrite (proj1 (proj2 (log_state_frame id st _))).
Qed.

Lemma set_state_inv id st a (m : manager) : manager_inv m -> manager_inv (set_state id st a m).
Proof.
  intros [Ht Hv Hp]. split; [|by apply set_state_views|by apply set_state_published].
  eapply tasks_inv_core, Ht. apply set_state_core.
Qed.

(** A change of neither the tasks nor what is shown. *)
Lemma inv_same (m m' : manager) :
  core_of m' = core_of m -> shown m' = shown m -> manager_inv m -> manager_inv m'.
Proof.
  intros Hc Hs [Ht Hv Hp]. destruct (views_shown m m' Hs (conj Hv Hp)) as [Hv' Hp'].
  split; [by eapply tasks_inv_core|done|done].
Qed.
End Frames.

(** ** Starting and stopping keep the invariant *)

Section Keep.
Context `{Russh} {K R : Type}.
Notation manager := (TunnelManager K R).

(** A new task for an idle configured tunnel. *)
Lemma tasks_inv_spawn spec id t (m : manager) :
  tasks_inv m -> active m !! id = None -> tunnels m !! id = Some t -> runs (hosts m) t spec ->
  tasks_inv (on_active <[id := mkActiveTunnel (next_task (world m))]> (spawn spec m)).
Proof.
  intros [Hrun Hown Honce Hfresh Hkeys] Hid Ht Hr. set (n := next_task (world m)).
  assert (Hne : forall id' a, active m !! id' = Some a -> at_task a <> n).
  { intros id' a Ha E. destruct (Hrun id' a Ha) as (task & _ & Htask & _).
    assert (at_task a < n)%nat by (by apply Hfresh; eauto). lia. }
  split; cbn; fold n.
  - intros id' a. destruct (decide (id' = id)) as [->|Hne'].
    + rewrite lookup_insert_eq. intros [= <-]. exists (spawned spec), t. cbn.
      by rewrite lookup_insert_eq.
    + rewrite lookup_insert_ne by done. intros Ha.
      destruct (Hrun id' a Ha) as (task & t' & Htask & ? & ?).
      exists task, t'. rewrite lookup_insert_ne; [done|]. by apply not_eq_sym, (Hne id').
  - intros n'. destruct (decide (n' = n)) as [->|Hn'].
    + intros _. exists id, (mkActiveTunnel n). by rewrite lookup_insert_eq.
    + rewrite lookup_insert_ne by done. intros (id' & a & Ha & <-)%Hown. exists id', a.
      rewrite lookup_insert_ne; [done|]. intros ->. congruence.
  - intros id1 id2 a1 a2 [[<- <-]|[? H1]]%lookup_insert_Some [[<- <-]|[? H2]]%lookup_insert_Some E;
      [done| | |by eapply Honce].
    + cbn in E. symmetry in E. by apply Hne in H2.
    + cbn in E. by apply Hne in H1.
  - intros n' [x Hx]. apply lookup_insert_Some in Hx as [[<- _]|[_ Hx]]; [lia|].
    assert (n' < n)%nat by (by apply Hfresh; eauto). lia.
  - done.
Qed.

(** The end of an active tunnel's task. *)
Lemma tasks_inv_join id a (m : manager) :
  tasks_inv m -> active m !! id = Some a ->
  tasks_inv (join_task (at_task a) (on_active (delete id) m)).
Proof.
  intros [Hrun Hown Honce Hfresh Hkeys] Ha. split; cbn.
  - intros id' a' [Hne Ha']%lookup_delete_Some. destruct (Hrun id' a' Ha') as (task & t & ? & ? & ?).
    exists task, t. rewrite lookup_delete_ne; [done|]. intros E. by apply Hne, (Honce id id' a a').
  - intros n [x [Hn Hx]%lookup_delete_Some]. destruct (Hown n) as (id' & a' & Ha' & E); [by eauto|].
    exists id', a'. rewrite lookup_delete_ne; [done|]. intros ->. congruence.
  - intros id1 id2 a1 a2 [_ H1]%lookup_delete_Some [_ H2]%lookup_delete_Some. by apply Honce.
  - intros n [x [_ Hx]%lookup_delete_Some]. apply Hfresh. eauto.
  - done.
Qed.

Lemma start_inv os id (m : manager) : manager_inv m -> manager_inv (start os id m).
Proof.
  intros Hi. unfold start. destruct (active m !! id) eqn:Ea; [done|].
  destruct (tunnels m !! id) as [t|] eqn:Et; [|done].
  destruct (prepare os m t) as [[spec addr]|reason] eqn:Ep; [|by apply set_state_inv].
  apply prepare_runs in Ep as [Hr _]. destruct Hi as [Ht Hv Hp].
  destruct (views_shown m (spawn spec m) eq_refl (conj Hv Hp)) as [Hv1 Hp1].
  split.
  - eapply tasks_inv_core, (tasks_inv_spawn spec id t m Ht Ea Et Hr).
    pose proof (set_state_core id (SupervisorState.Connecting 1) addr (spawn spec m)) as Hc.
    unfold core_of in *. cbn in Hc |- *. by simplify_eq Hc; intros -> -> -> -> ->.
  - apply (views_shown (set_state id (SupervisorState.Connecting 1) addr (spawn spec m))); [done|].
    split; [by apply set_state_views|by apply set_state_published].
  - apply (views_shown (set_state id (SupervisorState.Connecting 1) addr (spawn spec m))); [done|].
    split; [by apply set_state_views|by apply set_state_published].
Qed.

Lemma join_inv id a (m : manager) :
  manager_inv m -> active m !! id = Some a ->
  manager_inv (join_task (at_task a) (on_active (delete id) m)).
Proof.
  intros [Ht Hv Hp] Ha. destruct (views_shown m (join_task (at_task a) (on_active (delete id) m))
    eq_refl (conj Hv Hp)). split; [by apply tasks_inv_join|done..].
Qed.

Lemma stop_inv id (m : manager) : manager_inv m -> manager_inv (stop id m).
Proof.
  intros Hi. unfold stop. apply set_state_inv.
  destruct (active m !! id) as [a|] eqn:Ea; [by apply join_inv|done].
Qed.

Lemma fold_inv {A} (f : manager -> A -> manager) l (m : manager) :
  (forall m a, manager_inv m -> manager_inv (f m a)) -> manager_inv m ->
  manager_inv (foldl f m l).
Proof. intros Hf. revert m. induction l as [|a l IH]; intros m Hm; [done|]. by apply IH, Hf. Qed.
End Keep.

(** ** Following the supervisors keeps the invariant *)

Section Follow.
Context `{Russh} {K R : Type}.
Notation manager := (TunnelManager K R).

(** Whatever the tasks do, as long as none appears, vanishes or changes what it
    was given. *)
Lemma tasks_inv_world w' (m : manager) :
  tasks_inv m -> world_step (world m) w' -> tasks_inv (on_world (fun _ => w') m).
Proof.
  intros [Hrun Hown Honce Hfresh Hkeys] [Hn Hs].
  assert (Hdom : forall n, is_Some (tasks w' !! n) -> is_Some (tasks (world m) !! n)).
  { intros n Hx. apply (fmap_is_Some t_spec). rewrite <- Hs. by apply fmap_is_Some. }
  split; cbn; [|by intros n Hx; apply Hown, Hdom|done|by intros n Hx; rewrite Hn; apply Hfresh, Hdom|done].
  intros id a Ha. destruct (Hrun id a Ha) as (task & t & Htask & Ht & Hr).
  specialize (Hs (at_task a)). rewrite Htask in Hs. simpl in Hs.
  apply fmap_Some in Hs as (task' & Htask' & Hspec). exists task', t. by rewrite <- Hspec.
Qed.

Lemma world_inv w' (m : manager) :
  manager_inv m -> world_step (world m) w' -> manager_inv (on_world (fun _ => w') m).
Proof.
  intros [Ht Hv Hp] Hw. destruct (views_shown m (on_world (fun _ => w') m) eq_refl (conj Hv Hp)).
  split; [by apply tasks_inv_world|done..].
Qed.

(** A task is marked without changing what it was given. *)
Lemma retouch_step n task task' (m : manager) :
  tasks (world m) !! n = Some task -> t_spec task' = t_spec task ->
  exists w', world_step (world m) w' /\ on_tasks <[n := task']> m = on_world (fun _ => w') m.
Proof.
  intros Hn Hs. eexists. split; [|reflexivity]. split; [done|]. intros n'. cbn.
  destruct (decide (n' = n)) as [->|]; [|by rewrite lookup_insert_ne].
  rewrite lookup_insert_eq, Hn. simpl. by rewrite Hs.
Qed.

Lemma set_view_ok id view (m : manager) :
  is_Some (current m !! id) -> views_ok m -> views_ok (set_view id view m).
Proof.
  intros Hi [Hd Hl Hp Hlv Hpv]. split; try done. cbn. rewrite dom_insert_L, Hd.
  apply elem_of_dom in Hi. rewrite Hd in Hi. set_solver.
Qed.

(** The invariant while [refresh] runs: what is shown may lag behind once
    something changed. *)
Definition lagging (m : manager) (changed : bool) : Prop :=
  tasks_inv m /\ views_ok m /\ (changed = false -> published m).

Lemma poll_one_lagging m tr ch fin id :
  lagging m ch ->
  let '(m', tr', ch', fin') := poll_one (m, tr, ch, fin) id in lagging m' ch'.
Proof.
  intros (Ht & Hv & Hp). unfold poll_one, lagging.
  destruct (active m !! id) as [a|]; [|done]. simpl.
  destruct (tasks (world m) !! at_task a) as [task|] eqn:Etask; [|done]. simpl.
  destruct (t_changed task); [|done].
  destruct (retouch_step (at_task a) task (mark_seen task) m Etask eq_refl) as (w' & Hw & ->).
  destruct (current m !! id) as [view|] eqn:Ev.
  - split_and!; [|by apply set_view_ok; [eauto|destruct Hv]|done].
    eapply tasks_inv_core, (tasks_inv_world w' m Ht Hw). done.
  - split_and!; [by apply tasks_inv_world|by destruct Hv|done].
Qed.

Lemma reap_one_lagging m tr ch id :
  lagging m ch -> let '(m', tr', ch') := reap_one (m, tr, ch) id in lagging m' ch'.
Proof.
  intros (Ht & Hv & Hp). unfold reap_one, lagging.
  destruct (active m !! id) as [a|] eqn:Ea; [|done]. simpl.
  destruct (tasks (world m) !! at_task a ≫= t_result) as [result|]; [|done]. simpl.
  assert (Hj := tasks_inv_join id a m Ht Ea).
  destruct (current m !! id) as [view|] eqn:Ev.
  - split_and!; [|by apply set_view_ok; [eauto|destruct Hv]|done].
    eapply tasks_inv_core, Hj. done.
  - split_and!; [done|by destruct Hv|done].
Qed.

Lemma poll_lagging ids m tr ch fin :
  lagging m ch -> let '(m', tr', ch', fin') := foldl poll_one (m, tr, ch, fin) ids in lagging m' ch'.
Proof.
  revert m tr ch fin. induction ids as [|id ids IH]; intros m tr ch fin Hl; [done|].
  cbn [foldl]. pose proof (poll_one_lagging m tr ch fin id Hl) as Hone.
  destruct (poll_one (m, tr, ch, fin) id) as [[[m1 tr1] ch1] fin1]. by apply IH.
Qed.

Lemma reap_lagging ids m tr ch :
  lagging m ch -> let '(m', tr', ch') := foldl reap_one (m, tr, ch) ids in lagging m' ch'.
Proof.
  revert m tr ch. induction ids as [|id ids IH]; intros m tr ch Hl; [done|].
  cbn [foldl]. pose proof (reap_one_lagging m tr ch id Hl) as Hone.
  destruct (reap_one (m, tr, ch) id) as [[m1 tr1] ch1]. by apply IH.
Qed.

Lemma log_all_lagging tr m ch :
  lagging m ch -> lagging (foldl (fun m '(id, state) => log_state id state m) m tr) ch.
Proof.
  revert m. induction tr as [|[id st] tr IH]; intros m (Ht & Hv & Hp); [done|]. cbn [foldl]. apply IH.
  destruct (log_state_frame id st m) as (Hc & Hcur & Hsn).
  split_and!; [by eapply tasks_inv_core|by apply log_state_views|].
  intros Hch. unfold published in *. rewrite Hcur, Hsn. by apply Hp.
Qed.

Lemma filter_same_length {A} (f : A -> bool) l :
  length (List.filter f l) = length l -> List.filter f l = l.
Proof.
  induction l as [|x l IH]; simpl; [done|]. destruct (f x); simpl.
  - intros [= Hl]. by rewrite IH.
  - intros Hl. pose proof (List.filter_length_le f l). lia.
Qed.

Lemma refresh_inv order (m : manager) : manager_inv m -> manager_inv (refresh order m).
Proof.
  intros [Ht Hv Hp]. unfold refresh.
  set (kept := List.filter _ (pending_host_keys m)).
  set (m0 := if negb _ then publish_host_keys (set_pending kept m) else set_pending kept m).
  assert (Hm0 : lagging m0 false).
  { subst m0. destruct Hv as [Hd Hl Hpr Hlv Hpv].
    pose proof (List.filter_length_le (fun p => negb (bool_decide (pk_reply p ∈ closed_replies (world m))))
      (pending_host_keys m)) as Hle. fold kept in Hle.
    destruct (bool_decide_reflect (length kept = length (pending_host_keys m))) as [He|He]; simpl.
    - apply filter_same_length in He. fold kept in He. rewrite He.
      split_and!; [by apply (tasks_inv_core m)|by split|done].
    - split_and!; [by apply (tasks_inv_core m)|split; try done; cbn; lia|done]. }
  pose proof (poll_lagging (order (dom (active m0))) m0 [] false [] Hm0) as Hpoll.
  destruct (foldl poll_one _ _) as [[[m1 tr1] ch1] fin1].
  pose proof (reap_lagging fin1 m1 tr1 ch1 Hpoll) as Hreap.
  destruct (foldl reap_one _ _) as [[m2 tr2] ch2].
  destruct (log_all_lagging tr2 m2 ch2 Hreap) as (Ht3 & Hv3 & Hp3).
  destruct ch2; [|by split; [| |apply Hp3]].
  split; [|by destruct Hv3; split|done]. eapply tasks_inv_core, Ht3. done.
Qed.
End Follow.

(** ** Replacing the configuration *)

Section Replace.
Context `{Russh} {K R : Type}.
Notation manager := (TunnelManager K R).
Context (order : gset TunnelId -> list TunnelId).
Hypothesis order_perm : forall s, order s ≡ₚ elements s.

Lemma order_elem s id : id ∈ order s <-> id ∈ s.
Proof. rewrite order_perm. apply elem_of_elements. Qed.
Lemma order_nodup s : NoDup (order s).
Proof. rewrite order_perm. apply NoDup_elements. Qed.

(** Stopping tunnels one after the other. *)
Lemma stop_frame id (m : manager) :
  hosts (stop id m) = hosts m /\ tunnels (stop id m) = tunnels m
  /\ active (stop id m) = delete id (active m)
  /\ tasks (world (stop id m))
     = match active m !! id with
       | Some a => delete (at_task a) (tasks (world m))
       | None => tasks (world m)
       end.
Proof.
  unfold stop. match goal with |- context [set_state id ?st ?a ?m0] =>
    pose proof (set_state_core id st a m0) as Hc end.
  unfold core_of in Hc. injection Hc as Hh Ht Ha Hk _. rewrite Hh, Ht, Ha, Hk.
  destruct (active m !! id) as [a|] eqn:E; cbn; [done|]. by rewrite delete_id.
Qed.

Lemma stop_all_frame ids (m : manager) :
  tasks_inv m ->
  hosts (stop_all ids m) = hosts m /\ tunnels (stop_all ids m) = tunnels m
  /\ (forall id, active (stop_all ids m) !! id
        = if bool_decide (id ∈ ids) then None else active m !! id)
  /\ (forall id a, active m !! id = Some a ->
        tasks (world (stop_all ids m)) !! at_task a
        = if bool_decide (id ∈ ids) then None else tasks (world m) !! at_task a).
Proof.
  revert m. induction ids as [|i ids IH]; intros m Hi; [done|].
  destruct (stop_frame i m) as (Hh & Ht & Ha & Hk).
  assert (Hi' : tasks_inv (stop i m)).
  { unfold stop. eapply tasks_inv_core; [apply set_state_core|].
    destruct (active m !! i) eqn:E; [by apply tasks_inv_join|done]. }
  destruct (IH (stop i m) Hi') as (Hh' & Ht' & Ha' & Hk'). change (stop_all (i :: ids) m) with (stop_all ids (stop i m)).
  split_and!; [congruence|congruence| |].
  - intros id. rewrite Ha', Ha. destruct (decide (id = i)) as [->|Hne].
    + rewrite lookup_delete_eq, (bool_decide_eq_true_2 (i ∈ i :: ids)) by left. by destruct (bool_decide (i ∈ ids)).
    + rewrite lookup_delete_ne by done.
      by rewrite (bool_decide_ext (id ∈ i :: ids) (id ∈ ids)) by set_solver.
  - intros id a Hid. destruct (decide (id = i)) as [->|Hne].
    + rewrite (bool_decide_eq_true_2 (i ∈ i :: ids)) by left.
      destruct (tasks (world (stop_all ids (stop i m))) !! at_task a) as [x|] eqn:E; [|done].
      exfalso. assert (tasks_inv (stop_all ids (stop i m))) as [_ Hown _ _ _].
      { clear -Hi'. revert Hi'. generalize (stop i m). induction ids as [|j ids IH]; intros m0 H0; [done|].
        apply IH. unfold stop. eapply tasks_inv_core; [apply set_state_core|].
        destruct (active m0 !! j) eqn:E; [by apply tasks_inv_join|done]. }
      destruct (Hown (at_task a)) as (id' & a' & Hact & Hsame); [by eauto|].
      rewrite Ha', Ha in Hact. destruct (bool_decide (id' ∈ ids)); [done|]. apply lookup_delete_Some in Hact as [Hne Hact].
      apply Hne. by apply (ti_once _ Hi i id' a a').
    + rewrite (Hk' id a) by (by rewrite Ha, lookup_delete_ne).
      rewrite (bool_decide_ext (id ∈ i :: ids) (id ∈ ids)) by set_solver.
      destruct (bool_decide (id ∈ ids)); [done|]. rewrite Hk. destruct (active m !! i) as [ai|] eqn:Ei; [|done].
      rewrite lookup_delete_ne; [done|]. intros E. apply Hne. by apply (ti_once _ Hi id i a ai).
Qed.

Lemma same_tunnel_runtime_iff old new :
  same_tunnel_runtime old new = true <-> behaviour old = behaviour new.
Proof.
  unfold same_tunnel_runtime, behaviour. rewrite !andb_true_iff, !bool_decide_eq_true.
  split; [intros; destruct_and?; congruence|intros [=]; by split_and!].
Qed.

Lemma same_host_connection_iff o o' :
  same_host_connection o o' = true <-> connection <$> o = connection <$> o'.
Proof.
  destruct o as [h|], o' as [h'|]; [|done..]. unfold same_host_connection, connection.
  rewrite !andb_true_iff, !bool_decide_eq_true. cbn.
  split; [intros; destruct_and?; congruence|intros [=]; by split_and!].
Qed.

Lemma needs_restart_unaffected (m : manager) new_hosts updated id :
  needs_restart m new_hosts updated id = false <-> unaffected m new_hosts updated id.
Proof.
  unfold needs_restart, unaffected.
  destruct (tunnels m !! id) as [old|]; [|split; [done|by intros (? & ? & ? & _)]].
  destruct (updated !! id) as [new|]; [|split; [done|by intros (? & ? & _ & ? & _)]].
  rewrite orb_false_iff, negb_false_iff, same_tunnel_runtime_iff.
  rewrite <-not_true_iff_false, existsb_exists. split.
  - intros [Hb Hc]. exists old, new. split_and!; [done..|]. intros hop Hhop.
    apply same_host_connection_iff. apply not_false_is_true. intros Hf. apply Hc. exists hop.
    by rewrite <-list_elem_of_In, Hf.
  - intros (? & ? & [= <-] & [= <-] & Hb & Hc). split; [done|]. intros (hop & Hin & Hf).
    apply negb_true_iff in Hf. apply list_elem_of_In, Hc in Hin.
    apply same_host_connection_iff in Hin. congruence.
Qed.

(** A supervisor that needs no restart runs the new configuration. *)
Lemma needs_restart_false (m : manager) new_hosts updated id old spec :
  tunnels m !! id = Some old -> runs (hosts m) old spec ->
  needs_restart m new_hosts updated id = false ->
  exists new, updated !! id = Some new /\ runs new_hosts new spec.
Proof.
  intros Hold Hr (? & new & Hl & Hnew & [= Hm Hc Hlo Hre Hp] & Hhops)%needs_restart_unaffected.
  rewrite Hold in Hl. injection Hl as <-. exists new. split; [done|].
  assert (Hchain : forall given, runs_chain (hosts m) (tunnel_jump_chain old) given ->
    runs_chain new_hosts (tunnel_jump_chain old) given).
  { unfold runs_chain. intros given Hg. clear -Hhops Hg. revert Hhops.
    induction Hg as [|hop h chain given Hh _ IH]; intros Hs; constructor.
    - rewrite <-Hs by left. done.
    - apply IH. intros hop' Hin. apply Hs. by right. }
  unfold runs, supervisor_mode in *. rewrite <-Hm, <-Hc, <-Hlo, <-Hre, <-Hp.
  destruct spec; naive_solver.
Qed.

Lemma collect_keys l id t : collect_tunnels l !! id = Some t -> tunnel_id t = id.
Proof.
  unfold collect_tunnels.
  enough (Hg : forall ts : gmap TunnelId TunnelConfig,
    (forall id t, ts !! id = Some t -> tunnel_id t = id) ->
    forall id t, foldl (fun ts t => <[tunnel_id t := t]> ts) ts l !! id = Some t -> tunnel_id t = id)
    by (apply Hg; intros ? ? Hx; by rewrite lookup_empty in Hx).
  clear. induction l as [|t0 l IH]; intros ts Hts; [done|]. apply IH. intros id t.
  intros [[<- <-]|[_ Hx]]%lookup_insert_Some; [done|by apply Hts].
Qed.

Lemma refit_dom ts views : dom (refit ts views) = dom ts.
Proof.
  unfold refit. rewrite dom_union_L, dom_fmap_L. apply set_eq. intros id.
  rewrite elem_of_union. split; [|by right]. intros [Hd|Hd]; [|done].
  apply elem_of_dom in Hd as [v Hv]. apply map_lookup_filter_Some in Hv as [_ Hv].
  by apply elem_of_dom.
Qed.

(** Starting changes nothing for the other tunnels and tasks. *)
Lemma start_frame os id (m : manager) :
  hosts (start os id m) = hosts m /\ tunnels (start os id m) = tunnels m
  /\ (next_task (world m) <= next_task (world (start os id m)))%nat
  /\ (forall n, (n < next_task (world m))%nat -> tasks (world (start os id m)) !! n = tasks (world m) !! n)
  /\ (forall id' a, active m !! id' = Some a -> active (start os id m) !! id' = Some a)
  /\ (forall id', id' <> id -> active (start os id m) !! id' = active m !! id'
        /\ current (start os id m) !! id' = current m !! id').
Proof.
  unfold start. destruct (active m !! id) eqn:Ea; [done|]. destruct (tunnels m !! id); [|done].
  destruct (prepare os m _) as [[spec addr]|reason].
  - pose proof (set_state_core id (SupervisorState.Connecting 1) addr (spawn spec m)) as Hc.
    pose proof (set_state_current id (SupervisorState.Connecting 1) addr (spawn spec m)) as Hcur.
    unfold core_of in Hc. injection Hc as Hh Ht Ha Hk Hn. cbn [hosts tunnels on_active active world current].
    rewrite Hh, Ht, Hk, Hn, Ha, Hcur. cbn. split_and!; [done|done|lia| | |].
    + intros n Hlt. apply lookup_insert_ne. lia.
    + intros id' a Hid. rewrite lookup_insert_ne; [done|]. intros ->. congruence.
    + intros id' Hne. split; [by rewrite lookup_insert_ne|].
      destruct (current m !! id); [by rewrite lookup_insert_ne|done].
  - unfold blocked.
    pose proof (set_state_core id (SupervisorState.Blocked reason) None m) as Hc.
    unfold core_of in Hc. injection Hc as Hh Ht Ha Hk Hn. rewrite Hh, Ht, Hk, Hn, Ha.
    split_and!; try done. intros id' Hne. split; [done|]. rewrite set_state_current.
    destruct (current m !! id); [by rewrite lookup_insert_ne|done].
Qed.

(** What became of a start: the tunnel runs, or its view says why not. *)
Definition attempted (m : manager) (id : TunnelId) : Prop :=
  is_Some (active m !! id)
  \/ exists reason, tv_state <$> current m !! id = Some (SupervisorState.Blocked reason).

Lemma start_attempted os id (m : manager) :
  views_ok m -> is_Some (tunnels m !! id) -> attempted (start os id m) id.
Proof.
  intros [Hd _ _ _ _] [t Ht]. unfold attempted, start.
  destruct (active m !! id) eqn:Ea; [left; rewrite Ea; eauto|]. rewrite Ht.
  destruct (prepare os m t) as [[spec addr]|reason].
  - left. cbn. rewrite lookup_insert_eq. eauto.
  - right. exists reason. unfold blocked. rewrite set_state_current.
    assert (is_Some (current m !! id)) as [v ->] by (apply elem_of_dom; rewrite Hd; by eapply elem_of_dom_2).
    by rewrite lookup_insert_eq.
Qed.

Lemma start_all_frame os ids (m : manager) :
  hosts (start_all os ids m) = hosts m /\ tunnels (start_all os ids m) = tunnels m
  /\ (forall n, (n < next_task (world m))%nat ->
        tasks (world (start_all os ids m)) !! n = tasks (world m) !! n)
  /\ (forall id a, active m !! id = Some a -> active (start_all os ids m) !! id = Some a)
  /\ (forall id, id ∉ ids -> active (start_all os ids m) !! id = active m !! id
        /\ current (start_all os ids m) !! id = current m !! id).
Proof.
  revert m. induction ids as [|i ids IH]; intros m; [done|].
  destruct (start_frame (os i) i m) as (Hh & Ht & Hn & Hk & Ha & Ho).
  destruct (IH (start (os i) i m)) as (Hh' & Ht' & Hk' & Ha' & Ho').
  change (start_all os (i :: ids) m) with (start_all os ids (start (os i) i m)).
  split_and!; [congruence|congruence| | |].
  - intros n Hlt. rewrite Hk' by lia. by apply Hk.
  - intros id a Hid. by apply Ha', Ha.
  - intros id [Hne Hni]%not_elem_of_cons. destruct (Ho' id Hni) as [-> ->]. by apply Ho.
Qed.

Lemma start_all_attempted os ids (m : manager) id :
  manager_inv m -> NoDup ids -> id ∈ ids -> is_Some (tunnels m !! id) ->
  attempted (start_all os ids m) id.
Proof.
  revert m. induction ids as [|i ids IH]; intros m Hi Hnd Hid Ht; [by apply elem_of_nil in Hid|].
  change (start_all os (i :: ids) m) with (start_all os ids (start (os i) i m)).
  apply NoDup_cons in Hnd as [Hni Hnd]. apply elem_of_cons in Hid as [->|Hid].
  - destruct (start_all_frame os ids (start (os i) i m)) as (_ & _ & _ & _ & Ho).
    unfold attempted. destruct (Ho i Hni) as [-> ->]. by apply start_attempted; [destruct Hi|].
  - apply IH; [by apply start_inv|done|done|]. by rewrite (proj1 (proj2 (start_frame (os i) i m))).
Qed.

Lemma in_filter {A} (f : A -> bool) l x : x ∈ List.filter f l <-> x ∈ l /\ f x = true.
Proof. by rewrite list_elem_of_In, filter_In, <- list_elem_of_In. Qed.

Lemma stop_all_next ids (m : manager) :
  next_task (world (stop_all ids m)) = next_task (world m).
Proof.
  revert m. induction ids as [|i ids IH]; intros m; [done|].
  change (stop_all (i :: ids) m) with (stop_all ids (stop i m)). rewrite IH. unfold stop.
  match goal with |- context [set_state ?i0 ?st ?a ?mm] =>
    pose proof (set_state_core i0 st a mm) as Hc end.
  unfold core_of in Hc. injection Hc as _ _ _ _ ->. by destruct (active m !! i).
Qed.

Lemma stop_all_inv ids (m : manager) : manager_inv m -> manager_inv (stop_all ids m).
Proof. intros Hi. apply fold_inv; [intros; by apply stop_inv|done]. Qed.

(** The configuration is swapped once the affected supervisors are over. *)
Definition swap_config (config : DomainConfig) (m : manager) : manager :=
  publish (on_current (refit (collect_tunnels (dc_tunnels config)))
    (set_config (dc_hosts config) (dc_groups config) (collect_tunnels (dc_tunnels config)) m)).

Definition to_restart (config : DomainConfig) (m : manager) : list TunnelId :=
  List.filter (needs_restart m (dc_hosts config) (collect_tunnels (dc_tunnels config)))
    (order (dom (active m))).

Lemma swap_config_inv config (m : manager) :
  manager_inv m -> manager_inv (swap_config config (stop_all (to_restart config m) m)).
Proof.
  intros Hi. pose proof (stop_all_inv (to_restart config m) m Hi) as [Ht1 Hv1 _].
  destruct (stop_all_frame (to_restart config m) m (mi_tasks _ Hi)) as (Hh & Htu & Ha & Hk).
  set (m1 := stop_all (to_restart config m) m) in *.
  split; [|destruct Hv1; split; try done; apply refit_dom|done].
  destruct Ht1 as [Hrun Hown Honce Hfresh _]. split; cbn; [|done|done|done|apply collect_keys].
  intros id a Hid. destruct (Hrun id a Hid) as (task & t & Htask & Ht & Hr).
  rewrite Ha in Hid. destruct (bool_decide_reflect (id ∈ to_restart config m)) as [|Hno]; [done|].
  assert (Hn : needs_restart m (dc_hosts config) (collect_tunnels (dc_tunnels config)) id = false).
  { apply not_true_iff_false. intros Hyes. apply Hno, in_filter. split; [|done].
    apply order_elem. by eapply elem_of_dom_2. }
  rewrite Hh in Hr. rewrite Htu in Ht.
  destruct (needs_restart_false m _ _ id t (t_spec task) Ht Hr Hn) as (new & ? & ?).
  by exists task, new.
Qed.

Lemma replace_config_eq os config (m : manager) :
  replace_config order os config m =
  start_all os
    (List.filter (fun id => match collect_tunnels (dc_tunnels config) !! id with
       | Some t => tunnel_auto_start t || bool_decide (id ∈ dom (active m))
       | None => false end) (order (dom (collect_tunnels (dc_tunnels config)))))
    (swap_config config (stop_all (to_restart config (set_config_views config m))
       (set_config_views config m))).
Proof. done. Qed.

Lemma replace_config_inv os config (m : manager) :
  manager_inv m -> manager_inv (replace_config order os config m).
Proof.
  intros Hi. rewrite replace_config_eq. apply fold_inv; [intros; by apply start_inv|].
  apply swap_config_inv. by apply (inv_same m).
Qed.

(** The state a configuration change leaves behind. *)
Lemma replace_config_outcome os config (m : manager) :
  manager_inv m ->
  let updated := collect_tunnels (dc_tunnels config) in
  let m' := replace_config order os config m in
  hosts m' = dc_hosts config /\ tunnels m' = updated
  /\ (forall id a, active m !! id = Some a ->
        if needs_restart m (dc_hosts config) updated id
        then tasks (world m') !! at_task a = None
        else active m' !! id = Some a
             /\ tasks (world m') !! at_task a = tasks (world m) !! at_task a)
  /\ (forall id t, updated !! id = Some t ->
        tunnel_auto_start t = true \/ is_Some (active m !! id) -> attempted m' id)
  /\ (forall id, updated !! id = None -> active m' !! id = None /\ current m' !! id = None).
Proof.
  intros Hi. cbv zeta. rewrite replace_config_eq.
  set (m0 := set_config_views config m). set (ids := List.filter _ (order (dom _))).
  assert (Hi0 : manager_inv m0) by (by apply (inv_same m)).
  pose proof (swap_config_inv config m0 Hi0) as Hsw.
  destruct (stop_all_frame (to_restart config m0) m0 (mi_tasks _ Hi0)) as (_ & _ & Ha & Hk).
  set (m2 := swap_config _ _) in *.
  destruct (start_all_frame os ids m2) as (Hh' & Ht' & Hk' & Ha' & Ho').
  assert (Hnext : next_task (world m2) = next_task (world m)).
  { exact (stop_all_next (to_restart config m0) m0). }
  assert (Hmem : forall id, id ∈ to_restart config m0 <-> is_Some (active m !! id)
    /\ needs_restart m (dc_hosts config) (collect_tunnels (dc_tunnels config)) id = true).
  { intros id. unfold to_restart. rewrite in_filter, order_elem, elem_of_dom. done. }
  split_and!; [by rewrite Hh'|by rewrite Ht'| | |].
  - intros id a Hid. specialize (Hk id a Hid).
    destruct (ti_running _ (mi_tasks _ Hi) id a Hid) as (task & t & Htask & _ & _).
    assert (Hlt : (at_task a < next_task (world m2))%nat)
      by (rewrite Hnext; apply (ti_fresh _ (mi_tasks _ Hi)); eauto).
    rewrite Hk' by done. change (tasks (world m2)) with (tasks (world (stop_all (to_restart config m0) m0))).
    destruct (needs_restart m _ _ id) eqn:En.
    + rewrite Hk. rewrite bool_decide_eq_true_2; [done|]. by apply Hmem.
    + assert (Hno : id ∉ to_restart config m0) by (intros [_ ?]%Hmem; congruence).
      split; [apply Ha'; change (active m2) with (active (stop_all (to_restart config m0) m0))|rewrite Hk].
      * by rewrite Ha, bool_decide_eq_false_2.
      * by rewrite bool_decide_eq_false_2.
  - intros id t Hid Hor. apply start_all_attempted; [done| | |exact (mk_is_Some _ _ Hid)].
    + apply (NoDup_app_filter []), order_nodup.
    + apply in_filter. split; [apply order_elem; by eapply elem_of_dom_2|]. rewrite Hid.
      apply orb_true_iff. destruct Hor as [?|?]; [by left|right].
      by apply bool_decide_eq_true_2, elem_of_dom.
  - intros id Hid. destruct (Ho' id) as [-> ->].
    { intros [_ Hx]%in_filter. by rewrite Hid in Hx. }
    pose proof (swap_config_inv config m0 Hi0) as [Htk Hvw _]. fold m2 in Htk, Hvw. split.
    + destruct (active m2 !! id) as [a|] eqn:E; [|done].
      destruct (ti_running _ Htk id a E) as (_ & t & _ & Ht & _). change (tunnels m2) with (collect_tunnels (dc_tunnels config)) in Ht. congruence.
    + apply not_elem_of_dom. rewrite (vo_views _ Hvw). by apply not_elem_of_dom.
Qed.
End Replace.

(** ** Every reachable state *)

Section Invariant.
Context `{Russh} `{HT : Toml, HO : Os} `{HK : Keyring K} `{HR : Registry R} `{HG : Glob}.
Context (env : Env) (raw_os_text : Z -> string) (import_files : ImportFiles).
Context (order : gset TunnelId -> list TunnelId).
Hypothesis order_perm : forall s, order s ≡ₚ elements s.
Notation manager := (TunnelManager K R).

Lemma hint_if_inv p a (m : manager) : manager_inv m -> manager_inv (hint_if p a m).
Proof.
  intros Hi. unfold hint_if. destruct (tasks (world m) !! at_task a) as [t|] eqn:E; [|done].
  destruct (p (t_state t)); [|done].
  destruct (retouch_step (at_task a) t (mkTask (t_spec t) (t_state t) (t_changed t) (t_result t)
    (t_cancelled t) true) m E eq_refl) as (w' & Hw & ->). by apply world_inv.
Qed.

Lemma queue_host_key_inv prompt reply (m : manager) :
  manager_inv m -> manager_inv (queue_host_key prompt reply m).
Proof.
  intros Hi. unfold queue_host_key. case_bool_decide; [by apply (inv_same m)|].
  destruct Hi as [Ht [Hd Hl Hp Hlv Hpv] Hpub]. split; [by apply (tasks_inv_core m)| |done].
  split; try done; cbn.
  - rewrite push_bounded_length; unfold MAX_LOG_EVENTS in *; lia.
  - rewrite length_app. simpl. lia.
Qed.

Lemma take_prompt_length id l p rest :
  take_prompt id l = Some (p, rest) -> length l = S (length rest).
Proof.
  revert p rest. induction l as [|q l IH]; intros p rest; simpl; [done|].
  case_bool_decide; [by intros [= _ <-]|]. destruct (take_prompt id l) as [[p' r']|] eqn:E; [|done].
  intros [= <- <-]. simpl. by rewrite (IH p' r').
Qed.

Lemma resolve_host_key_inv id d (m : manager) : manager_inv m -> manager_inv (resolve_host_key id d m).
Proof.
  intros Hi. unfold resolve_host_key. destruct (take_prompt id _) as [[p rest]|] eqn:E; [|done].
  apply take_prompt_length in E. destruct Hi as [Ht [Hd Hl Hp Hlv Hpv] Hpub].
  split; [by apply (tasks_inv_core m)| |done]. split; try done. cbn. lia.
Qed.

Lemma on_files_inv {A} (op : ST Fs ConfigStoreError.t A) (m : manager) r m' :
  on_files op m = (r, m') -> manager_inv m -> manager_inv m'.
Proof.
  unfold on_files. destruct (on_fs op (disk (world m))). intros [= <- <-]. by apply inv_same.
Qed.

Lemma answer_inv reply r (m : manager) : manager_inv m -> manager_inv (answer reply r m).
Proof. by apply (inv_same m). Qed.

Lemma save_config_inv os stamp dir config secret reply (m : manager) :
  manager_inv m ->
  manager_inv (save_config env raw_os_text order os stamp dir config secret reply m).
Proof.
  intros Hi. unfold save_config. destruct (persist_config _ _ _ _ _ _ _ _) as [r d].
  apply answer_inv. destruct (is_ok r); [apply replace_config_inv; [done|]|];
    by apply (inv_same m).
Qed.

Lemma dispatch_inv os stamp command (m : manager) :
  manager_inv m -> manager_inv (dispatch env raw_os_text import_files order os stamp command m).
Proof.
  intros Hi. destruct command; cbn [dispatch].
  - apply fold_inv; [intros; by apply start_inv|done].
  - by apply stop_all_inv.
  - apply fold_inv; [intros; by apply start_inv|done].
  - by apply stop_all_inv.
  - by apply start_inv.
  - by apply stop_inv.
  - by apply start_inv, stop_inv.
  - destruct (active m !! id); [by apply hint_if_inv|by apply start_inv].
  - apply fold_inv; [|done]. intros m1 id Hi1. destruct (active m1 !! id); [by apply hint_if_inv|done].
  - by apply save_config_inv.
  - destruct (on_files _ m) as [r m'] eqn:E. apply (on_files_inv _ _ _ _ E) in Hi. by apply (inv_same m').
  - destruct (preview_ssh_config _ _ _) as [r|]; [by apply (inv_same m)|done].
  - destruct (on_files _ m) as [r m'] eqn:E. apply (on_files_inv _ _ _ _ E) in Hi. by apply (inv_same m').
  - by apply resolve_host_key_inv.
Qed.

Lemma react_inv input (m : manager) :
  manager_inv m -> manager_inv (react env raw_os_text import_files order input m).
Proof.
  intros Hi. destruct input as [os stamp command|prompt reply|]; cbn [react].
  - by apply dispatch_inv.
  - by apply queue_host_key_inv.
  - case_bool_decide; [done|by apply refresh_inv].
Qed.

Lemma launch_inv os cancelled (m : manager) : manager_inv m -> manager_inv (launch os cancelled m).
Proof.
  intros Hi. unfold launch. assert (Hc : manager_inv (clear_auto_start m)) by (by apply (inv_same m)).
  revert Hc. generalize (clear_auto_start m), (auto_start m), O. intros m1 ids. revert m1.
  induction ids as [|id ids IH]; intros m1 i Hc; [done|]. cbn [auto_start_loop].
  destruct (cancelled i); [done|]. by apply IH, start_inv.
Qed.

Lemma insert_tunnel_spec l acc defs cur auto :
  foldl insert_tunnel acc l = Ok (defs, cur, auto) ->
  exists defs0 cur0 auto0, acc = Ok (defs0, cur0, auto0)
    /\ (dom cur0 = dom defs0 -> dom cur = dom defs)
    /\ ((forall id t, defs0 !! id = Some t -> tunnel_id t = id) ->
        forall id t, defs !! id = Some t -> tunnel_id t = id).
Proof.
  revert acc. induction l as [|t l IH]; intros acc; [by cbn; intros ->; eauto 10|].
  cbn [foldl]. intros (defs1 & cur1 & auto1 & E & Hd & Hk)%IH. unfold insert_tunnel in E.
  destruct acc as [[[d0 c0] a0]|]; [|done]. destruct (d0 !! tunnel_id t); [done|].
  injection E as <- <- <-. exists d0, c0, a0. split_and!; [done| |].
  - intros H0. apply Hd. by rewrite !dom_insert_L, H0.
  - intros H0. apply Hk. intros id t0 [[<- <-]|[_ Hx]]%lookup_insert_Some; [done|by apply H0].
Qed.

Lemma manager_new_inv hosts groups tunnels w (m : manager) :
  tasks w = ∅ -> new order hosts groups tunnels w = Ok m -> manager_inv m.
Proof.
  intros Hw. unfold new. case_bool_decide; [done|].
  destruct (foldl insert_tunnel _ tunnels) as [[[defs cur] auto]|] eqn:E; [|done]. intros [= <-].
  apply insert_tunnel_spec in E as (d0 & c0 & a0 & [= <- <- <-] & Hd & Hk).
  split; [|split; cbn; [by apply Hd|lia|lia|done|done]|done].
  split; cbn; rewrite ?Hw; try done.
  - intros n [x Hx]. by rewrite lookup_empty in Hx.
  - intros n [x Hx]. by rewrite lookup_empty in Hx.
  - intros id t. apply Hk. intros ? ? Hx. by rewrite lookup_empty in Hx.
Qed.

Lemma manager_reachable_inv m :
  reachable env raw_os_text import_files order m -> manager_inv m.
Proof.
  induction 1 as [hs gs ts w m Hw Hn|path m _ IH|app m _ IH|os c m _ IH|input m _ IH|w' m _ IH Hw].
  - by eapply manager_new_inv.
  - by apply (inv_same m).
  - by apply (inv_same m).
  - by apply launch_inv.
  - by apply react_inv.
  - by apply world_inv.
Qed.
End Invariant.

(** ** Stopping and shutting down *)

Section Stopping.
Context `{Russh} {K R : Type}.
Notation manager := (TunnelManager K R).
Context (order : gset TunnelId -> list TunnelId).
Hypothesis order_perm : forall s, order s ≡ₚ elements s.

Lemma stop_outcome id (m : manager) :
  manager_inv m ->
  let m' := stop id m in
  active m' !! id = None
  /\ (forall a, active m !! id = Some a -> tasks (world m') !! at_task a = None)
  /\ (is_Some (tunnels m !! id) -> current m' !! id = Some stopped_view)
  /\ forall id', id' <> id ->
       active m' !! id' = active m !! id' /\ current m' !! id' = current m !! id'
       /\ forall a, active m !! id' = Some a ->
            tasks (world m') !! at_task a = tasks (world m) !! at_task a.
Proof.
  intros [Ht [Hd _ _ _ _] _]. cbv zeta. destruct (stop_frame id m) as (_ & _ & Ha & Hk).
  assert (Hcur : current (stop id m) = match current m !! id with
      Some _ => <[id := stopped_view]> (current m) | None => current m end).
  { unfold stop. rewrite set_state_current. by destruct (active m !! id). }
  split_and!.
  - rewrite Ha. apply lookup_delete_eq.
  - intros a Hid. rewrite Hk, Hid. apply lookup_delete_eq.
  - intros [t Hid]. rewrite Hcur.
    assert (is_Some (current m !! id)) as [v ->] by (apply elem_of_dom; rewrite Hd; by eapply elem_of_dom_2).
    apply lookup_insert_eq.
  - intros id' Hne. rewrite Ha, Hk, Hcur. split_and!; [by rewrite lookup_delete_ne| |].
    + destruct (current m !! id); [by rewrite lookup_insert_ne|done].
    + intros a Hid. destruct (active m !! id) as [a0|] eqn:E; [|done].
      rewrite lookup_delete_ne; [done|]. intros Es. apply Hne. by apply (ti_once _ Ht id' id a a0).
Qed.

Lemma cancel_all_frame l (m : manager) :
  let m' := foldl (fun m id => match active m !! id with
                               | Some a => on_tasks (alter cancel (at_task a)) m
                               | None => m
                               end) m l in
  active m' = active m /\ forall n, is_Some (tasks (world m') !! n) <-> is_Some (tasks (world m) !! n).
Proof.
  revert m. induction l as [|id l IH]; intros m; [done|]. cbn [foldl].
  destruct (active m !! id) as [a|] eqn:E; [|apply IH].
  destruct (IH (on_tasks (alter cancel (at_task a)) m)) as [-> Hn]. split; [done|]. intros n.
  rewrite Hn. cbn. by rewrite <- !elem_of_dom, dom_alter_L.
Qed.

Lemma join_all_frame (handles : gmap TunnelId ActiveTunnel) l (m : manager) :
  let m' := foldl (fun m id => match handles !! id with
                               | Some a => join_task (at_task a) m
                               | None => m
                               end) m l in
  active m' = active m /\ pending_host_keys m' = pending_host_keys m
  /\ forall n, is_Some (tasks (world m') !! n) ->
       is_Some (tasks (world m) !! n)
       /\ forall id a, id ∈ l -> handles !! id = Some a -> at_task a <> n.
Proof.
  revert m. induction l as [|id l IH]; intros m.
  { split_and!; [done..|]. intros n Hn. split; [done|]. by intros ? ? ?%elem_of_nil. }
  cbn [foldl]. destruct (handles !! id) as [a|] eqn:E.
  - destruct (IH (join_task (at_task a) m)) as (-> & -> & Hn). split_and!; [done..|]. intros n Hx.
    destruct (Hn n Hx) as [Hd Hl]. cbn in Hd. destruct Hd as [x [Hne Hx']%lookup_delete_Some].
    split; [by eauto|]. intros id' a' [->|Hin]%elem_of_cons Ha; [congruence|by eapply Hl].
  - destruct (IH m) as (-> & -> & Hn). split_and!; [done..|]. intros n Hx. destruct (Hn n Hx) as [Hd Hl].
    split; [done|]. intros id' a' [->|Hin]%elem_of_cons Ha; [congruence|by eapply Hl].
Qed.

Lemma shut_down_empty (m : manager) :
  manager_inv m ->
  active (shut_down order m) = ∅ /\ pending_host_keys (shut_down order m) = []
  /\ tasks (world (shut_down order m)) = ∅.
Proof.
  intros [[Hrun Hown _ _ _] _ _]. unfold shut_down.
  destruct (cancel_all_frame (order (dom (active m))) m) as [Ha Hk].
  set (m1 := foldl _ m (order (dom (active m)))) in *. cbv zeta.
  destruct (join_all_frame (active (set_pending [] m1)) (order (dom (active (set_pending [] m1))))
    (on_active (fun _ => ∅) (set_pending [] m1))) as (-> & -> & Hj).
  split_and!; [done|done|]. apply map_empty. intros n.
  destruct (tasks _ !! n) as [x|] eqn:E; [|done]. exfalso.
  destruct (Hj n (mk_is_Some _ _ E)) as [Hd Hl]. cbn in Hd. apply Hk, Hown in Hd as (id & a & Hid & <-).
  eapply (Hl id a); [|by cbn; rewrite Ha|done]. cbn. rewrite Ha, order_perm, elem_of_elements.
  by eapply elem_of_dom_2.
Qed.

(** ** Starting a valid tunnel *)

Lemma find_host_resolves hosts id h : resolves_to hosts id h -> find_host hosts id = Some h.
Proof.
  unfold resolves_to, find_host. induction hosts as [|x hosts IH]; simpl; [done|].
  case_bool_decide; [by intros [= -> _]|done].
Qed.

Lemma find_hosts_valid hosts chain :
  (forall hop, hop ∈ chain -> exists h, resolves_to hosts hop h) ->
  exists hs, find_hosts hosts chain = Some hs.
Proof.
  induction chain as [|hop chain IH]; intros Hall; [by exists []|]. simpl.
  destruct (Hall hop) as [h Hh]; [left|]. rewrite (find_host_resolves _ _ _ Hh).
  destruct IH as [hs ->]; [intros ? ?; apply Hall; by right|]. by exists (h :: hs).
Qed.

Lemma valid_supervisor_mode hosts groups t :
  valid_tunnel hosts groups t -> exists mode, supervisor_mode t = Some mode.
Proof.
  intros [_ _ _ _ _ _ _ _ _ Hr]. unfold supervisor_mode, remote_ok in *.
  destruct (tunnel_mode t), (tunnel_remote t); simpl in *; eauto; done.
Qed.
End Stopping.

(** ** Properties *)

Section Properties.
Context `{Russh} `{HT : Toml, HO : Os} `{HK : Keyring K} `{HR : Registry R} `{HG : Glob}.
Context (env : Env) (raw_os_text : Z -> string) (import_files : ImportFiles).
Context (order : gset TunnelId -> list TunnelId).
Hypothesis order_perm : forall s, order s ≡ₚ elements s.
Notation reachable := (reachable (K := K) (R := R) env raw_os_text import_files order).

(** C10: The manager owns its supervisors. After any sequence of commands, host
    key prompts and ticks, and whatever the supervisors publish or however they
    end in between: every supervisor task that is alive belongs to exactly one
    active tunnel (none is leaked, none runs twice), that tunnel is configured,
    and the task runs its current configuration - mode, target, retry policy,
    listening address and the connection data of every hop. The view has
    exactly the configured tunnels; at most 500 log events and 16 host key
    prompts are kept; and what the user interface was sent is what the manager
    holds. *)
Theorem manager_owns_tasks m : reachable m -> tasks_inv m /\ views_ok m /\ published m.
Proof. intros Hr. by destruct (manager_reachable_inv _ _ _ _ order_perm m Hr). Qed.

(** C13: A configuration change restarts exactly what it affects. A running
    tunnel that stays, with the same mode, jump chain, listening address, target
    and retry policy, and through hops with the same connection data - whatever
    becomes of its name, its group, its notes or its start mark, and of the names
    of the hosts - keeps its supervisor, which is not touched; every other running
    one is over before the new configuration applies. Each tunnel that was running
    or is marked for automatic start was started (and runs, or its view shows why
    it is blocked); and tunnels that are gone have neither supervisor nor view. *)
Theorem config_change_outcome os config m :
  reachable m ->
  let updated := collect_tunnels (dc_tunnels config) in
  let m' := replace_config order os config m in
  hosts m' = dc_hosts config /\ tunnels m' = updated
  /\ (forall id a, active m !! id = Some a ->
        (unaffected m (dc_hosts config) updated id ->
           active m' !! id = Some a /\ tasks (world m') !! at_task a = tasks (world m) !! at_task a)
        /\ (~ unaffected m (dc_hosts config) updated id -> tasks (world m') !! at_task a = None))
  /\ (forall id t, updated !! id = Some t ->
        tunnel_auto_start t = true \/ is_Some (active m !! id) -> attempted m' id)
  /\ (forall id, updated !! id = None -> active m' !! id = None /\ current m' !! id = None).
Proof.
  intros Hr updated m'.
  apply (manager_reachable_inv _ _ _ _ order_perm) in Hr.
  apply (replace_config_outcome order order_perm os config) in Hr as (Hh & Ht & Hrun & Hrest).
  split; [done|]. split; [done|]. split; [|done].
  intros id a Ha. specialize (Hrun id a Ha). rewrite <-needs_restart_unaffected.
  destruct (needs_restart _ _ _ _); [by split|]. split; [done|]. by intros [].
Qed.

(** Stopping is complete and precise. After Stop of a tunnel its supervisor
    task is over, its view is Stopped without an address, and no other tunnel's
    task or view changed; after a shutdown no supervisor task is left and no
    host key prompt is pending. *)
Theorem stopping_outcome id m :
  reachable m ->
  (let m' := stop id m in
   active m' !! id = None
   /\ (forall a, active m !! id = Some a -> tasks (world m') !! at_task a = None)
   /\ (is_Some (tunnels m !! id) -> current m' !! id = Some stopped_view)
   /\ forall id', id' <> id ->
        active m' !! id' = active m !! id' /\ current m' !! id' = current m !! id'
        /\ forall a, active m !! id' = Some a ->
             tasks (world m') !! at_task a = tasks (world m) !! at_task a)
  /\ active (shut_down order m) = ∅ /\ pending_host_keys (shut_down order m) = []
  /\ tasks (world (shut_down order m)) = ∅.
Proof.
  intros Hr. apply (manager_reachable_inv _ _ _ _ order_perm) in Hr. split; [by apply stop_outcome|].
  by apply shut_down_empty.
Qed.
End Properties.

(** Starting a valid Local or Dynamic tunnel. With an IPv4 listening
    address the outcome is that of the bind: the supervisor of exactly this
    configuration, with the bound address shown, or the bind error. With an
    IPv6 listening address - which validation accepts - the start always fails,
    because the address is parsed from ["host:port"] without brackets. *)
Theorem listener_start_outcomes `{Russh} {K R} os (m : TunnelManager K R) t :
  valid_tunnel (hosts m) (groups m) t -> tunnel_mode t <> TunnelMode.Remote ->
  u16 (local_port (tunnel_local t)) ->
  exists ip, parse_ip_addr (local_host (tunnel_local t)) = Some ip
    /\ match ip with
       | V6 _ => prepare os m t = Err "Invalid listener address: invalid socket address syntax"
       | V4 o =>
           let address := SAV4 o (local_port (tunnel_local t)) in
           match bind_outcome (se_bind os address) with
           | Err source => prepare os m t = Err (show_listener_runtime_error (Bind address source))
           | Ok (_, a) => exists spec, prepare os m t = Ok (spec, Some a) /\ runs (hosts m) t spec
           end
       end.
Proof.
  intros Hv Hm Hp. destruct (vt_bind _ _ _ Hv Hm) as [ip Hip]. exists ip. split; [done|].
  destruct (find_hosts_valid _ _ (vt_hosts _ _ _ Hv)) as [hs Hhs].
  destruct (valid_supervisor_mode _ _ _ Hv) as [mode Hmode].
  assert (Hprep : prepare os m t = prepare_listener os hs (app_known_hosts_path m) t).
  { unfold prepare. rewrite (proj2 (validate_valid_iff _ _ _) Hv). simpl. rewrite Hhs. simpl.
    by destruct (tunnel_mode t). }
  pose proof (prepare_runs os m t) as Hruns. revert Hruns.
  rewrite Hprep, (prepare_listener_spec _ _ _ _ _ Hmode). unfold listen_text.
  rewrite (parse_host_port _ ip _ Hp Hip). destruct ip as [o|s]; [|done]. cbv zeta.
  destruct (bind_outcome _) as [[sock a]|source]; [|done].
  destruct (start_listener _ _ _ _ _) as [r l]. intros Hruns.
  eexists. split; [reflexivity|]. by apply (Hruns _ (Some a)).
Qed.

(** ** Witnesses *)

Import ToyToml ToyKeyring ToyGlob.

Notation toy_manager := (TunnelManager (gmap string string) (option (list Z))).

Definition example_world : World (gmap string string) (option (list Z)) :=
  mkWorld ∅ 0 1700000000 ∅ [] [] (example_disk []).

Definition toy_os : TunnelId -> StartEnv := fun _ =>
  mkStartEnv (fun _ => 7) 9 (fun a => Ok (mkTcpListener (Ok a))).

Definition example_manager : toy_manager :=
  match new elements (dc_hosts example_config) (dc_groups example_config)
          (dc_tunnels example_config) example_world with
  | Ok m => m
  | Err _ => mkTunnelManager [] [] ∅ ∅ ∅ [] [] ∅ [] [] example_config [] 1 None example_world
  end.

(** The example tunnel is started automatically. *)
Definition running_manager : toy_manager :=
  launch (H := Toy.russh) toy_os (fun _ => false) example_manager.

Lemma running_reachable :
  reachable (H := Toy.russh) example_env (fun _ => "error") example_import elements running_manager.
Proof.
  apply reach_launch. eapply (reach_new _ _ _ _ (dc_hosts example_config) (dc_groups example_config)
    (dc_tunnels example_config) example_world); reflexivity.
Qed.

Example running_view :
  tv_local_addr <$> current running_manager !! mkTunnelId "t"
  = Some (Some (SAV4 [127; 0; 0; 1] 5432)).
Proof. vm_compute. reflexivity. Qed.

Theorem manager_owns_tasks_witness :
  is_Some (active running_manager !! mkTunnelId "t") /\ tasks_inv running_manager.
Proof.
  split; [vm_compute; eexists; reflexivity|].
  exact (proj1 (manager_owns_tasks (H := Toy.russh) example_env (fun _ => "error") example_import
    elements (fun s => reflexivity _) running_manager running_reachable)).
Defined.

(** The tunnel and its jumper are only renamed, moved and annotated. *)
Definition renamed_config : DomainConfig :=
  mkDomainConfig (dc_app example_config)
    (map (fun h => mkSshHost (host_id h) "Renamed" (host_hostname h) (host_port h) (host_username h)
       (host_auth h) (host_host_key_policy h) (host_connect_timeout h) (host_keepalive_interval h)
       (host_keepalive_max h) "moved") (dc_hosts example_config))
    (dc_groups example_config)
    (map (fun t => mkTunnelConfig (tunnel_id t) "Renamed" None (tunnel_mode t)
       (tunnel_jump_chain t) (tunnel_local t) (tunnel_remote t) false (tunnel_reconnect t) "moved")
       (dc_tunnels example_config)).

(** Removing every tunnel stops the running one; renaming it does not. *)
Theorem config_change_outcome_witness :
  active (replace_config (H := Toy.russh) elements toy_os password_config running_manager)
    !! mkTunnelId "t" = None
  /\ exists a, active running_manager !! mkTunnelId "t" = Some a
     /\ active (replace_config (H := Toy.russh) elements toy_os renamed_config running_manager)
          !! mkTunnelId "t" = Some a.
Proof.
  split.
  - destruct (config_change_outcome (H := Toy.russh) example_env (fun _ => "error") example_import
      elements (fun s => reflexivity _) toy_os password_config running_manager running_reachable)
      as (_ & _ & _ & _ & Hgone).
    exact (proj1 (Hgone (mkTunnelId "t") eq_refl)).
  - assert (Ha : active running_manager !! mkTunnelId "t" = Some (mkActiveTunnel 0))
      by (vm_compute; reflexivity).
    destruct (config_change_outcome (H := Toy.russh) example_env (fun _ => "error") example_import
      elements (fun s => reflexivity _) toy_os renamed_config running_manager running_reachable)
      as (_ & _ & Hrun & _ & _).
    exists (mkActiveTunnel 0). split; [exact Ha|]. apply (proj1 (Hrun _ _ Ha)).
    do 2 eexists. split; [vm_compute; reflexivity|]. split; [vm_compute; reflexivity|].
    split; [reflexivity|]. intros hop Hhop%list_elem_of_In. cbn in Hhop.
    destruct Hhop as [<-|[]]. vm_compute. reflexivity.
Defined.

Theorem stopping_outcome_witness :
  active (stop (mkTunnelId "t") running_manager) !! mkTunnelId "t" = None
  /\ tasks (world (shut_down elements running_manager)) = ∅.
Proof.
  destruct (stopping_outcome (H := Toy.russh) example_env (fun _ => "error") example_import
    elements (fun s => reflexivity _) (mkTunnelId "t") running_manager running_reachable)
    as ((Ha & _) & _ & _ & Ht).
  exact (conj Ha Ht).
Defined.

(** The example tunnel on the IPv6 loopback address is valid, and never starts. *)
Definition ipv6_tunnel : TunnelConfig :=
  mkTunnelConfig (mkTunnelId "t") "DB" None TunnelMode.Local [mkHostId "h"]
    (mkLocalEndpoint "::1" 5432) (Some (mkRemoteEndpoint "db" 5432)) true RetryPolicy_default "".

Lemma ipv6_tunnel_valid : valid_tunnel (hosts example_manager) (groups example_manager) ipv6_tunnel.
Proof. apply validate_valid_iff. vm_compute. reflexivity. Qed.

Theorem listener_start_outcomes_witness :
  exists ip, parse_ip_addr "::1" = Some ip /\ prepare (H := Toy.russh) (toy_os (mkTunnelId "t")) example_manager ipv6_tunnel
    = Err "Invalid listener address: invalid socket address syntax".
Proof.
  destruct (listener_start_outcomes (H := Toy.russh) (toy_os (mkTunnelId "t")) example_manager ipv6_tunnel
    ipv6_tunnel_valid) as (ip & Hip & Ho).
  - discriminate.
  - split; vm_compute; discriminate.
  - exists ip. split; [exact Hip|]. vm_compute in Hip. injection Hip as <-. exact Ho.
Defined.
