(* ===== verification/Prompts.v ===== *)
(** * Prompts: the dialogue about unknown host keys, from the connection that
    asks to the decision it gets (the host-key part of
    crates/tunnel-core/src/manager.rs; crates/ssh-engine/src/host_key.rs asks,
    crates/app/src/workspace.rs answers).

    The manager numbers the prompts it queues; the window shows them and
    answers by number. [Dialogue] keeps, beside the manager, the prompts that
    were sent with the channel each waits on, the ones that were queued, and the
    answers taken from the command queue. *)
From S2P Require Import Prelude Io Text Net Domain Validation StateMachine Runtime Retry Russh HostKey SshClient Chain LocalForward Supervisor RemoteSupervisor Path Schema Fs Store Secrets Persist SshImport Manager Frames ManagerProps.

#[local] Notation delete := base.delete.

Record Dialogue (K R : Type) := mkDialogue {
  dg_manager : TunnelManager K R;
  dg_asked : list (HostKeyPrompt * Z);
  dg_shown : list PendingHostKey;
  dg_answers : list (Z * HostKeyDecision.t)
}.
Arguments mkDialogue {K R}.
Arguments dg_manager {K R}.
Arguments dg_asked {K R}.
Arguments dg_shown {K R}.
Arguments dg_answers {K R}.

(** The answer a command carries. *)
Definition answer_of (c : CoreCommand.t) : option (Z * HostKeyDecision.t) :=
  match c with CoreCommand.ResolveHostKey id decision => Some (id, decision) | _ => None end.

(** What is queued for a prompt: nothing when 16 wait. *)
Definition newly_shown {K R} (prompt : HostKeyPrompt) (reply : Z) (m : TunnelManager K R)
    : list PendingHostKey :=
  if bool_decide (MAX_HOST_KEY_PROMPTS <= length (pending_host_keys m))%nat then []
  else [mkPendingHostKey
          {| pv_id := next_host_key_id m; pv_host := prompt_host prompt; pv_port := prompt_port prompt;
             pv_algorithm := prompt_algorithm prompt; pv_fingerprint := prompt_fingerprint prompt |} reply].

Section Dialogue.
Context `{Russh} `{HT : Toml, HO : Os} `{HK : Keyring K} `{HR : Registry R} `{HG : Glob}.
Context (env : Env) (raw_os_text : Z -> string) (import_files : ImportFiles).
Context (order : gset TunnelId -> list TunnelId).
Notation react := (react env raw_os_text import_files order).

(** One move of the manager; each prompt comes with a channel of its own. *)
Inductive move : Dialogue K R -> Dialogue K R -> Prop :=
  | mv_prompt prompt reply d :
      reply ∉ (dg_asked d).*2 ->
      move d (mkDialogue (react (Input.Prompt prompt reply) (dg_manager d))
        (dg_asked d ++ [(prompt, reply)])
        (dg_shown d ++ newly_shown prompt reply (dg_manager d)) (dg_answers d))
  | mv_command os stamp c d :
      move d (mkDialogue (react (Input.Command os stamp c) (dg_manager d)) (dg_asked d) (dg_shown d)
        (dg_answers d ++ option_list (answer_of c)))
  | mv_tick d :
      move d (mkDialogue (react Input.Tick (dg_manager d)) (dg_asked d) (dg_shown d) (dg_answers d))
  | mv_launch os cancelled d :
      move d (mkDialogue (launch os cancelled (dg_manager d)) (dg_asked d) (dg_shown d) (dg_answers d))
  | mv_world w' d :
      world_step (world (dg_manager d)) w' -> decisions w' = decisions (world (dg_manager d)) ->
      move d (mkDialogue (on_world (fun _ => w') (dg_manager d)) (dg_asked d) (dg_shown d) (dg_answers d))
  | mv_shut_down d :
      move d (mkDialogue (shut_down order (dg_manager d)) (dg_asked d) (dg_shown d) (dg_answers d)).

(** The manager's life. *)
Inductive dialogue : Dialogue K R -> Prop :=
  | dg_new hosts groups tunnels w known app m :
      tasks w = ∅ -> decisions w = [] -> Manager.new order hosts groups tunnels w = Ok m ->
      dialogue (mkDialogue (with_app_settings app (with_app_known_hosts known m)) [] [] [])
  | dg_move d d' : dialogue d -> move d d' -> dialogue d'.
End Dialogue.

(** ** What is kept *)

(** The part of the manager the dialogue speaks of. *)
Definition talk {K R} (m : TunnelManager K R)
    : list PendingHostKey * Z * list HostKeyPromptView * list (Z * HostKeyDecision.t) :=
  (pending_host_keys m, next_host_key_id m, host_key_views m, decisions (world m)).

#[export] Instance talk_framed K R : Framed (@talk K R).
Proof. by split. Qed.

(** The view tells what was asked. *)
Definition tells (view : HostKeyPromptView) (prompt : HostKeyPrompt) : Prop :=
  pv_host view = prompt_host prompt /\ pv_port view = prompt_port prompt
  /\ pv_algorithm view = prompt_algorithm prompt /\ pv_fingerprint view = prompt_fingerprint prompt.

(** Where a decision comes from: the queue was full, or the user answered the
    prompt that was queued with this channel. *)
Definition decided_by (asked : list (HostKeyPrompt * Z)) (shown : list PendingHostKey)
    (answers : list (Z * HostKeyDecision.t)) (reply : Z) (decision : HostKeyDecision.t) : Prop :=
  (decision = HostKeyDecision.Cancel /\ reply ∈ asked.*2 /\ reply ∉ pk_reply <$> shown)
  \/ exists p prompt, p ∈ shown /\ pk_reply p = reply /\ (prompt, reply) ∈ asked
       /\ tells (pk_view p) prompt /\ (pv_id (pk_view p), decision) ∈ answers.

Record talk_inv (pending : list PendingHostKey) (next : Z) (views : list HostKeyPromptView)
    (decided : list (Z * HostKeyDecision.t)) (asked : list (HostKeyPrompt * Z))
    (shown : list PendingHostKey) (answers : list (Z * HostKeyDecision.t)) : Prop := {
  tk_next : next = 1 + Z.of_nat (length shown);
  tk_ids : forall i p, shown !! i = Some p -> pv_id (pk_view p) = 1 + Z.of_nat i;
  tk_tell : forall p, p ∈ shown -> exists prompt, (prompt, pk_reply p) ∈ asked /\ tells (pk_view p) prompt;
  tk_asked : NoDup asked.*2;
  tk_shown : NoDup (pk_reply <$> shown);
  tk_fewer : (length shown <= length asked)%nat;
  tk_pending : pending `sublist_of` shown;
  tk_views : forall view, view ∈ views -> view ∈ pk_view <$> shown;
  tk_once : NoDup decided.*1;
  tk_waiting : forall p, p ∈ pending -> pk_reply p ∉ decided.*1;
  tk_decided : forall reply d, (reply, d) ∈ decided -> decided_by asked shown answers reply d
}.

Lemma decided_asked asked shown answers reply d :
  decided_by asked shown answers reply d -> reply ∈ asked.*2.
Proof.
  intros [(_ & ? & _)|(p & prompt & _ & _ & Hin & _)]; [done|].
  by apply (list_elem_of_fmap_2 snd) in Hin.
Qed.

Lemma decided_mono asked shown answers reply d asked' shown' answers' :
  (forall p, p ∈ shown' -> pk_reply p ∉ asked.*2) ->
  decided_by asked shown answers reply d ->
  decided_by (asked ++ asked') (shown ++ shown') (answers ++ answers') reply d.
Proof.
  intros Hnew [(-> & Ha & Hs)|(p & prompt & Hp & Hr & Ha & Ht & Hd)]; [left|right].
  - split_and!; [done|rewrite fmap_app; set_solver|]. rewrite fmap_app. intros [?|Hin]%elem_of_app; [done|].
    apply list_elem_of_fmap in Hin as (p & -> & Hp). by apply (Hnew p).
  - exists p, prompt. set_solver.
Qed.

Lemma take_prompt_split id l p rest :
  take_prompt id l = Some (p, rest) ->
  exists l1 l2, l = l1 ++ p :: l2 /\ rest = l1 ++ l2 /\ pv_id (pk_view p) = id.
Proof.
  revert rest. induction l as [|q l IH]; intros rest; cbn; [done|].
  case_bool_decide as Hq; [intros [= <- <-]; by exists [], l|].
  destruct (take_prompt id l) as [[p' rest']|]; [|done]. intros [= -> <-].
  destruct (IH rest' eq_refl) as (l1 & l2 & -> & -> & Hid). by exists (q :: l1), l2.
Qed.

(** Fewer prompts wait. *)
Lemma talk_fewer pending pending' next views views' decided asked shown answers :
  pending' `sublist_of` pending -> (forall view, view ∈ views' -> view ∈ views \/ view ∈ pk_view <$> pending') ->
  talk_inv pending next views decided asked shown answers ->
  talk_inv pending' next views' decided asked shown answers.
Proof.
  intros Hp Hv [Hn Hi Ht Ha Hs Hf Hpe Hvi Ho Hw Hd].
  assert (Hp' : pending' `sublist_of` shown) by (by etrans).
  split; try done.
  - intros view Hin. destruct (Hv view Hin) as [?|Hin']; [by apply Hvi|].
    eapply elem_of_sublist; [exact Hin'|]. by apply fmap_sublist.
  - intros p Hin. apply Hw. by eapply elem_of_sublist.
Qed.

(** An answer is taken: to the prompt of that number, if it still waits. *)
Lemma talk_answered l1 p l2 next views decided asked shown answers d :
  talk_inv (l1 ++ p :: l2) next views decided asked shown answers ->
  talk_inv (l1 ++ l2) next (pk_view <$> l1 ++ l2) (decided ++ [(pk_reply p, d)]) asked shown
    (answers ++ [(pv_id (pk_view p), d)]).
Proof.
  intros [Hn Hi Ht Ha Hs Hf Hpe Hvi Ho Hw Hd].
  assert (Hsub : l1 ++ l2 `sublist_of` l1 ++ p :: l2) by (apply sublist_app; [done|by apply sublist_cons]).
  assert (Hin : p ∈ shown) by (eapply elem_of_sublist; [|exact Hpe]; set_solver).
  assert (Hnd : NoDup (pk_reply <$> l1 ++ p :: l2)) by (eapply sublist_NoDup; [exact Hs|by apply fmap_sublist]).
  assert (Hnew : pk_reply p ∉ decided.*1) by (apply Hw; set_solver).
  split; try done.
  - by etrans.
  - intros view Hv. eapply elem_of_sublist; [exact Hv|]. apply fmap_sublist. by etrans.
  - rewrite fmap_app. apply NoDup_app. split_and!; [done| |apply NoDup_singleton]. set_solver.
  - intros q Hq. rewrite fmap_app. intros [Hdec|Hdec]%elem_of_app.
    + eapply Hw; [|exact Hdec]. eapply elem_of_sublist; done.
    + apply list_elem_of_singleton in Hdec. cbn in Hdec.
      rewrite fmap_app, fmap_cons in Hnd. apply NoDup_app in Hnd as (_ & Hdis & Hnd).
      apply NoDup_cons in Hnd as [Hp2 _]. apply elem_of_app in Hq as [Hq|Hq].
      * apply (Hdis (pk_reply q)); [by apply list_elem_of_fmap_2|]. rewrite Hdec. left.
      * apply Hp2. rewrite <-Hdec. by apply list_elem_of_fmap_2.
  - intros reply d' [Hr|Hr]%elem_of_app.
    + pose proof (decided_mono asked shown answers reply d' [] [] [(pv_id (pk_view p), d)]) as Hm.
      rewrite !app_nil_r in Hm. apply Hm; [set_solver|by apply Hd].
    + apply list_elem_of_singleton in Hr. injection Hr as -> ->. right.
      destruct (Ht p Hin) as (prompt & Hasked & Htell). exists p, prompt. set_solver.
Qed.

(** A prompt is sent while 16 wait. *)
Lemma talk_refused pending next views decided asked shown answers prompt reply :
  reply ∉ asked.*2 -> talk_inv pending next views decided asked shown answers ->
  talk_inv pending next views (decided ++ [(reply, HostKeyDecision.Cancel)])
    (asked ++ [(prompt, reply)]) shown answers.
Proof.
  intros Hr [Hn Hi Ht Ha Hs Hf Hpe Hvi Ho Hw Hd].
  assert (Hshown : forall p, p ∈ shown -> pk_reply p ∈ asked.*2).
  { intros p Hp. destruct (Ht p Hp) as (q & Hq & _). by apply (list_elem_of_fmap_2 snd) in Hq. }
  assert (Hnd : reply ∉ decided.*1).
  { intros ([r d] & -> & Hin)%list_elem_of_fmap. by apply Hd, decided_asked in Hin. }
  split; try done.
  - intros p Hp. destruct (Ht p Hp) as (q & Hq & Htell). exists q. set_solver.
  - rewrite fmap_app. apply NoDup_app. split_and!; [done| |apply NoDup_singleton]. set_solver.
  - rewrite length_app. lia.
  - rewrite fmap_app. apply NoDup_app. split_and!; [done| |apply NoDup_singleton]. set_solver.
  - intros p Hp. rewrite fmap_app. intros [?|Hin]%elem_of_app; [by eapply Hw|].
    apply list_elem_of_singleton in Hin. cbn in Hin. apply Hr. rewrite <-Hin. apply Hshown.
    by eapply elem_of_sublist.
  - intros r d [Hin|Hin]%elem_of_app.
    + pose proof (decided_mono asked shown answers r d [(prompt, reply)] [] []) as Hm.
      rewrite !app_nil_r in Hm. apply Hm; [set_solver|by apply Hd].
    + apply list_elem_of_singleton in Hin. injection Hin as -> ->. left. split_and!; [done| |].
      * rewrite fmap_app. set_solver.
      * intros (p & -> & Hp)%list_elem_of_fmap. by apply Hr, Hshown.
Qed.

(** A prompt is queued under the next number. *)
Lemma talk_queued pending next views decided asked shown answers prompt p :
  pk_reply p ∉ asked.*2 -> pv_id (pk_view p) = next -> tells (pk_view p) prompt ->
  Z.of_nat (length asked) + 1 < u64_max ->
  talk_inv pending next views decided asked shown answers ->
  talk_inv (pending ++ [p]) (Z.max (wrapping_add u64_max next 1) 1) (pk_view <$> pending ++ [p]) decided
    (asked ++ [(prompt, pk_reply p)]) (shown ++ [p]) answers.
Proof.
  intros Hr Hid Htell Hb [Hn Hi Ht Ha Hs Hf Hpe Hvi Ho Hw Hd].
  assert (Hshown : forall q, q ∈ shown -> pk_reply q ∈ asked.*2).
  { intros q Hq. destruct (Ht q Hq) as (pr & Hpr & _). by apply (list_elem_of_fmap_2 snd) in Hpr. }
  assert (Hpe' : pending ++ [p] `sublist_of` shown ++ [p]) by (by apply sublist_app).
  split; try done.
  - rewrite length_app. cbn. unfold wrapping_add. rewrite Z.mod_small by (unfold u64_max in *; lia). lia.
  - intros i q Hq. apply lookup_app_Some in Hq as [Hq|[Hge Hq]]; [by apply Hi|].
    apply list_lookup_singleton_Some in Hq as [Hz <-]. rewrite Hid, Hn. lia.
  - intros q [Hq|Hq]%elem_of_app.
    + destruct (Ht q Hq) as (pr & Hpr & Hte). exists pr. set_solver.
    + apply list_elem_of_singleton in Hq as ->. exists prompt. set_solver.
  - rewrite fmap_app. apply NoDup_app. split_and!; [done| |apply NoDup_singleton]. set_solver.
  - rewrite fmap_app. apply NoDup_app. split_and!; [done| |apply NoDup_singleton].
    intros r (q & -> & Hq)%list_elem_of_fmap Hin. apply list_elem_of_singleton in Hin.
    apply Hr. rewrite <-Hin. by apply Hshown.
  - rewrite !length_app. cbn. lia.
  - intros view Hv. eapply elem_of_sublist; [exact Hv|]. by apply fmap_sublist.
  - intros q [Hq|Hq]%elem_of_app; [by apply Hw|]. apply list_elem_of_singleton in Hq as ->.
    intros ([r d] & Hrd & Hin)%list_elem_of_fmap. cbn in Hrd. apply Hr. rewrite Hrd.
    by eapply decided_asked, Hd.
  - intros r d Hin.
    pose proof (decided_mono asked shown answers r d [(prompt, pk_reply p)] [p] []) as Hm.
    rewrite !app_nil_r in Hm. apply Hm; [set_solver|by apply Hd].
Qed.

(** ** Every run *)

Section DialogueClaims.
Context `{Russh} `{HT : Toml, HO : Os} `{HK : Keyring K} `{HR : Registry R} `{HG : Glob}.
Context (env : Env) (raw_os_text : Z -> string) (import_files : ImportFiles).
Context (order : gset TunnelId -> list TunnelId).
Notation manager := (TunnelManager K R).
Notation move := (move env raw_os_text import_files order).
Notation dialogue := (dialogue env raw_os_text import_files order).

Lemma replace_config_talk os config (m : manager) : talk (replace_config order os config m) = talk m.
Proof.
  unfold replace_config. rewrite (foldl_framed talk) by (intros; apply (start_framed talk)).
  match goal with |- talk (publish (on_current _ (set_config _ _ _ ?x))) = _ => change (talk x = talk m) end.
  by rewrite (foldl_framed talk) by (intros; apply (stop_framed talk)).
Qed.

(** Only an answer concerns the prompts. *)
Lemma dispatch_talk os stamp c (m : manager) :
  answer_of c = None -> talk (dispatch env raw_os_text import_files order os stamp c m) = talk m.
Proof.
  intros Hc. destruct c as [| | | | | | | | |dir config secret reply|path reply|path reply|path config reply|];
    cbn [Manager.dispatch answer_of] in *; try done; unfold start_all, stop_all.
  1-4: apply (foldl_framed talk); intros; first [apply (start_framed talk)|apply (stop_framed talk)].
  - apply (start_framed talk).
  - apply (stop_framed talk).
  - by rewrite (start_framed talk), (stop_framed talk).
  - destruct (active m !! id); [apply (hint_if_framed talk)|apply (start_framed talk)].
  - apply (foldl_framed talk). intros m0 id. destruct (active m0 !! id); [apply (hint_if_framed talk)|done].
  - unfold save_config. destruct (Persist.persist_config _ _ _ _ _ _ _ _) as [r d].
    change (talk (if is_ok r then replace_config order os config (set_disk d m) else set_disk d m) = talk m).
    destruct (is_ok r); [by rewrite replace_config_talk|done].
  - unfold on_files. by destruct (on_fs _ _).
  - by destruct (preview_ssh_config _ _ _).
  - unfold on_files. by destruct (on_fs _ _).
Qed.

Lemma shut_down_talk (m : manager) :
  talk (shut_down order m) = ([], next_host_key_id m, host_key_views m, decisions (world m)).
Proof.
  unfold shut_down. rewrite (foldl_framed talk).
  2:{ intros m0 id. destruct (_ !! id); [apply (framed_tasks (g := talk))|done]. }
  set (m1 := foldl _ m _). assert (Hm : talk m1 = talk m).
  { apply (foldl_framed talk). intros m0 id. destruct (active m0 !! id); [apply (framed_tasks (g := talk))|done]. }
  unfold talk in *. cbn. by injection Hm as _ -> -> ->.
Qed.

Definition dialogue_inv (d : Dialogue K R) : Prop :=
  talk_inv (pending_host_keys (dg_manager d)) (next_host_key_id (dg_manager d))
    (host_key_views (dg_manager d)) (decisions (world (dg_manager d)))
    (dg_asked d) (dg_shown d) (dg_answers d).

Lemma talk_same (m m' : manager) asked shown answers :
  talk m' = talk m -> dialogue_inv (mkDialogue m asked shown answers) ->
  dialogue_inv (mkDialogue m' asked shown answers).
Proof. unfold talk, dialogue_inv. intros [= Hp Hn Hv Hd]. cbn. by rewrite Hp, Hn, Hv, Hd. Qed.

Lemma pruned_inv (m : manager) asked shown answers :
  dialogue_inv (mkDialogue m asked shown answers) ->
  dialogue_inv (mkDialogue (pruned m) asked shown answers).
Proof.
  assert (Hsub : kept_prompts m `sublist_of` pending_host_keys m).
  { unfold kept_prompts. induction (pending_host_keys m) as [|p l IH]; [done|]. cbn.
    destruct (negb _); [by apply sublist_skip|by apply sublist_cons]. }
  unfold dialogue_inv, pruned. intros Hi. cbn in Hi. destruct (negb _); cbn; (eapply talk_fewer; [exact Hsub| |exact Hi]); auto.
Qed.

Lemma resolve_inv id decision (m : manager) asked shown answers :
  dialogue_inv (mkDialogue m asked shown answers) ->
  dialogue_inv (mkDialogue (resolve_host_key id decision m) asked shown (answers ++ [(id, decision)])).
Proof.
  unfold dialogue_inv, resolve_host_key. cbn. intros Hi.
  destruct (take_prompt id (pending_host_keys m)) as [[p rest]|] eqn:Et; cbn.
  - apply take_prompt_split in Et as (l1 & l2 & Hp & -> & <-). rewrite Hp in Hi. by apply (talk_answered _ _ _ _ _ _ _ _ _ decision) in Hi.
  - destruct Hi as [Hn Hid Ht Ha Hs Hf Hpe Hvi Ho Hw Hd]. split; try done.
    intros reply d Hin. pose proof (decided_mono asked shown answers reply d [] [] [(id, decision)]) as Hm.
    rewrite !app_nil_r in Hm. apply Hm; [set_solver|by apply Hd].
Qed.

(** Only a prompt is asked, and asked once. *)
Lemma move_asked d d' : move d d' -> dg_asked d `prefix_of` dg_asked d'.
Proof. by intros []; cbn; [apply prefix_app_r|..]. Qed.

Lemma move_kept d d' :
  move d d' -> Z.of_nat (length (dg_asked d')) < u64_max -> dialogue_inv d -> dialogue_inv d'.
Proof.
  intros Hm Hb Hi. destruct Hm as [prompt reply d Hr|os stamp c d|d|os cancelled d|w' d Hw Hdec|d];
    destruct d as [m asked shown answers]; cbn [dg_manager dg_asked dg_shown dg_answers] in *.
  - rewrite length_app in Hb. cbn in Hb. unfold dialogue_inv in *.
    cbn [Manager.react dg_manager dg_asked dg_shown dg_answers] in *.
    unfold newly_shown, queue_host_key. case_bool_decide.
    + rewrite app_nil_r. cbn. by apply talk_refused.
    + cbv zeta. cbn. eapply talk_queued; cbn; [done|done|done|lia|done].
  - destruct (answer_of c) as [[id decision]|] eqn:Ec; cbn [option_list].
    + destruct c; try done. injection Ec as <- <-. by apply resolve_inv.
    + rewrite app_nil_r. eapply talk_same; [|exact Hi]. by apply dispatch_talk.
  - cbn [Manager.react]. case_bool_decide; [done|]. eapply talk_same; [apply (refresh_framed talk)|].
    by apply pruned_inv.
  - eapply talk_same; [|exact Hi]. unfold launch. by rewrite (auto_start_framed talk).
  - eapply talk_same; [|exact Hi]. unfold talk. cbn in *. by rewrite Hdec.
  - unfold dialogue_inv in *. cbn [dg_manager dg_asked dg_shown dg_answers] in *.
    pose proof (shut_down_talk m) as Ht. unfold talk in Ht. injection Ht as -> -> -> ->.
    eapply talk_fewer; [apply sublist_nil_l| |exact Hi]. auto.
Qed.

Lemma new_kept hosts groups tunnels w known app m :
  decisions w = [] -> Manager.new order hosts groups tunnels w = Ok m ->
  dialogue_inv (mkDialogue (with_app_settings app (with_app_known_hosts known m)) [] [] []).
Proof.
  intros Hdec Hnew. unfold Manager.new in Hnew. case_bool_decide; [done|].
  destruct (foldl insert_tunnel _ tunnels) as [[[? ?] ?]|]; [|done]. injection Hnew as <-.
  unfold dialogue_inv. cbn. rewrite Hdec. split; cbn; try done; try (by apply NoDup_nil_2); set_solver.
Qed.

Lemma dialogue_kept d :
  dialogue d -> Z.of_nat (length (dg_asked d)) < u64_max -> dialogue_inv d.
Proof.
  induction 1 as [hosts groups tunnels w known app m Hw Hdec Hnew|d d' Hd IH Hm]; intros Hb.
  - by eapply new_kept.
  - eapply move_kept; [exact Hm|exact Hb|]. apply IH.
    pose proof (prefix_length _ _ (move_asked d d' Hm)). lia.
Qed.

(** C8: A decision reaches the connection it was made for. Through any commands,
    prompts, ticks, reloads and shutdowns, and until 2^64 - 1 prompts have been
    sent: a number shown to the user names one prompt for good, and what is
    shown under it - host, port, algorithm, fingerprint - is what the
    connection asked about; a connection gets at most one decision; it gets
    what the user answered under the number of its own prompt, or, if its
    prompt was never shown because 16 were waiting, the refusal; and the window
    is given only prompts that some connection asked. *)
Theorem decisions_reach_their_prompt d :
  dialogue d -> Z.of_nat (length (dg_asked d)) < u64_max ->
  let m := dg_manager d in
  NoDup ((fun p => pv_id (pk_view p)) <$> dg_shown d)
  /\ (forall p, p ∈ dg_shown d -> exists prompt, (prompt, pk_reply p) ∈ dg_asked d /\ tells (pk_view p) prompt)
  /\ NoDup (decisions (world m)).*1
  /\ (forall reply decision, (reply, decision) ∈ decisions (world m) ->
        decided_by (dg_asked d) (dg_shown d) (dg_answers d) reply decision)
  /\ (forall view, view ∈ host_key_views m -> view ∈ pk_view <$> dg_shown d).
Proof.
  intros Hd Hb m. destruct (dialogue_kept d Hd Hb) as [Hn Hi Ht Ha Hs Hf Hpe Hvi Ho Hw Hde].
  split_and!; try done. apply NoDup_fmap_2_strong.
  - intros p q Hp Hq Heq. apply list_elem_of_lookup in Hp as [i Hp], Hq as [j Hq].
    pose proof (Hi i p Hp) as Ep. pose proof (Hi j q Hq) as Eq. assert (i = j) as -> by lia. congruence.
  - eapply NoDup_fmap_1. exact Hs.
Qed.
End DialogueClaims.

(** ** Witness *)
Import ToyToml ToyKeyring ToyGlob.

Definition ask (host fingerprint : string) : HostKeyPrompt := mkHostKeyPrompt host 22 "ssh-ed25519" fingerprint.
Definition toy_react := react (H := Toy.russh) example_env (fun _ => "error") example_import elements.

(** Two connections ask; the user trusts the second one's key. *)
Definition silent : Dialogue (gmap string string) (option (list Z)) :=
  mkDialogue (with_app_settings (dc_app example_config) (with_app_known_hosts "known" example_manager)) [] [] [].
Definition after_prompt (prompt : HostKeyPrompt) (reply : Z) (d : Dialogue (gmap string string) (option (list Z)))
    : Dialogue (gmap string string) (option (list Z)) :=
  mkDialogue (toy_react (Input.Prompt prompt reply) (dg_manager d)) (dg_asked d ++ [(prompt, reply)])
    (dg_shown d ++ newly_shown prompt reply (dg_manager d)) (dg_answers d).
Definition after_answer (id : Z) (decision : HostKeyDecision.t) (d : Dialogue (gmap string string) (option (list Z)))
    : Dialogue (gmap string string) (option (list Z)) :=
  mkDialogue (toy_react (Input.Command toy_os 5 (CoreCommand.ResolveHostKey id decision)) (dg_manager d))
    (dg_asked d) (dg_shown d) (dg_answers d ++ [(id, decision)]).
Definition example_dialogue : Dialogue (gmap string string) (option (list Z)) :=
  after_answer 2 HostKeyDecision.TrustOnce
    (after_prompt (ask "two.example" "SHA256:b") 8 (after_prompt (ask "one.example" "SHA256:a") 7 silent)).

Lemma example_dialogue_runs :
  dialogue (H := Toy.russh) example_env (fun _ => "error") example_import elements example_dialogue.
Proof.
  eapply dg_move; [|apply mv_command]. eapply dg_move; [|apply mv_prompt; cbn; set_solver].
  eapply dg_move; [|apply mv_prompt; cbn; set_solver].
  eapply (dg_new _ _ _ _ (dc_hosts example_config) (dc_groups example_config) (dc_tunnels example_config)
    example_world); reflexivity.
Qed.

Theorem decisions_reach_their_prompt_witness :
  decisions (world (dg_manager example_dialogue)) = [(8, HostKeyDecision.TrustOnce)]
  /\ exists p, p ∈ dg_shown example_dialogue /\ pk_reply p = 8
       /\ (pv_id (pk_view p), HostKeyDecision.TrustOnce) ∈ dg_answers example_dialogue.
Proof.
  assert (Hdec : decisions (world (dg_manager example_dialogue)) = [(8, HostKeyDecision.TrustOnce)])
    by (vm_compute; reflexivity).
  split; [exact Hdec|].
  destruct (decisions_reach_their_prompt (H := Toy.russh) example_env (fun _ => "error") example_import
    elements example_dialogue example_dialogue_runs ltac:(vm_compute; reflexivity)) as (_ & _ & _ & Hd & _).
  rewrite Hdec in Hd. destruct (Hd 8 HostKeyDecision.TrustOnce ltac:(left)) as [(Hc & _)|(p & q & Hp & Hr & _ & _ & Ha)].
  - discriminate Hc.
  - exists p. exact (conj Hp (conj Hr Ha)).
Defined.
