(* ===== verification/Trust.v ===== *)
(** * Trust: verifications of server keys that wait for the user
    (crates/ssh-engine/src/host_key.rs, [check_server_key], with the channel of
    prompts of crates/tunnel-core/src/manager.rs).

    HostKey has one verification with whatever answer it gets, Prompts the
    manager's side of the dialogue. Here both run together: any number of
    connections verify keys against the same known-hosts files, ask through one
    channel of [MAX_HOST_KEY_PROMPTS] places, and wait for a reply, while the
    manager takes commands, reloads its configuration and shuts down. *)
From S2P Require Import Prelude Io Text Net Domain Validation StateMachine Runtime Retry Russh HostKey SshClient Chain LocalForward Supervisor RemoteSupervisor Path Schema Fs Store Secrets Persist SshImport Manager Frames ManagerProps Prompts.

#[local] Notation delete := base.delete.

(** A verification at [answer.await]. *)
Record Waiting `{Russh} := mkWaiting {
  wt_self : HostKeyVerifier;
  wt_pk : PublicKeyOrCertificate;
  wt_disk : Russh.disk
}.

Arguments mkWaiting {_}.

(** A verification that has returned: what it was given, the reply channel it
    asked on, if it asked, and what it found later. *)
Record Ended `{Russh} := mkEnded {
  en_self : HostKeyVerifier;
  en_pk : PublicKeyOrCertificate;
  en_disk : Russh.disk;
  en_reply : option Z;
  en_answer : option HostKeyDecision.t;
  en_later : Russh.disk;
  en_failed : option string
}.

Arguments mkEnded {_}.

Definition en_verdict `{Russh} (e : Ended) : verdict :=
  check_server_key (en_self e) (en_pk e) (en_disk e) (en_answer e) (en_later e) (en_failed e).

(** [tu_open]: the manager's end of the channel exists. [tu_opened]: the reply
    channels ever made, with the prompt each was sent with. [tu_known]: the
    known-hosts files. *)
Record Trust `{Russh} (K R : Type) := mkTrust {
  tu_dialogue : Dialogue K R;
  tu_open : bool;
  tu_channel : list (HostKeyPrompt * Z);
  tu_opened : gmap Z HostKeyPrompt;
  tu_waiting : gmap Z Waiting;
  tu_ended : list Ended;
  tu_known : Russh.disk
}.
Arguments mkTrust {_ K R}.
Arguments tu_dialogue {_ K R}.
Arguments tu_open {_ K R}.
Arguments tu_channel {_ K R}.
Arguments tu_opened {_ K R}.
Arguments tu_waiting {_ K R}.
Arguments tu_ended {_ K R}.
Arguments tu_known {_ K R}.

Section Trust.
Context `{Russh} {K R : Type}.
Notation trust := (Trust K R).

(** [try_send] finds a place. *)
Definition has_room (t : trust) : bool :=
  tu_open t && bool_decide (length (tu_channel t) < MAX_HOST_KEY_PROMPTS)%nat.

(** The verifier sends its prompts into this channel. *)
Definition sends_to (self : HostKeyVerifier) (t : trust) : Prop :=
  forall a, hv_approval self = Some a -> ap_room a = has_room t.

(** What [answer.await] gives: the decision, or nothing once no one holds the
    sender any more. *)
Definition heard (t : trust) (reply : Z) (answer : option HostKeyDecision.t) : Prop :=
  let m := dg_manager (tu_dialogue t) in
  match answer with
  | Some decision => (reply, decision) ∈ decisions (world m)
  | None => reply ∉ (decisions (world m)).*1 /\ reply ∉ (tu_channel t).*2
            /\ reply ∉ pk_reply <$> pending_host_keys m
  end.

Definition set_dialogue (d : Dialogue K R) (t : trust) : trust :=
  mkTrust d (tu_open t) (tu_channel t) (tu_opened t) (tu_waiting t) (tu_ended t) (tu_known t).
Definition set_channel (open : bool) (channel : list (HostKeyPrompt * Z)) (t : trust) : trust :=
  mkTrust (tu_dialogue t) open channel (tu_opened t) (tu_waiting t) (tu_ended t) (tu_known t).
Definition set_waiting (waiting : gmap Z Waiting) (t : trust) : trust :=
  mkTrust (tu_dialogue t) (tu_open t) (tu_channel t) (tu_opened t) waiting (tu_ended t) (tu_known t).
Definition set_known (known : Russh.disk) (t : trust) : trust :=
  mkTrust (tu_dialogue t) (tu_open t) (tu_channel t) (tu_opened t) (tu_waiting t) (tu_ended t) known.
Definition add_ended (e : Ended) (t : trust) : trust :=
  mkTrust (tu_dialogue t) (tu_open t) (tu_channel t) (tu_opened t) (tu_waiting t) (tu_ended t ++ [e])
    (v_disk (en_verdict e)).

(** A verification asks on a new reply channel. *)
Definition ask_user (self : HostKeyVerifier) (key : public_key) (reply : Z) (t : trust) : trust :=
  let prompt := fingerprint_prompt self key in
  mkTrust (tu_dialogue t) (tu_open t) (tu_channel t ++ [(prompt, reply)])
    (<[reply := prompt]> (tu_opened t))
    (<[reply := mkWaiting self (PublicKey key) (tu_known t)]> (tu_waiting t))
    (tu_ended t) (tu_known t).

(** The manager takes the next prompt out of the channel. *)
Definition take_next (prompt : HostKeyPrompt) (reply : Z) (m : TunnelManager K R)
    (rest : list (HostKeyPrompt * Z)) (t : trust) : trust :=
  let d := tu_dialogue t in
  set_channel (tu_open t) rest
    (set_dialogue (mkDialogue m (dg_asked d ++ [(prompt, reply)])
       (dg_shown d ++ newly_shown prompt reply (dg_manager d)) (dg_answers d)) t).
End Trust.

Section Runs.
Context `{Russh} `{HT : Toml, HO : Os} `{HK : Keyring K} `{HR : Registry R} `{HG : Glob}.
Context (env : Env) (raw_os_text : Z -> string) (import_files : ImportFiles).
Context (order : gset TunnelId -> list TunnelId).
Notation trust := (Trust K R).
Notation dialogue := (dialogue env raw_os_text import_files order).
Notation move := (move env raw_os_text import_files order).
Notation react := (react env raw_os_text import_files order).

Inductive trust_step : trust -> trust -> Prop :=
  | ts_verdict self pk v t :
      sends_to self t -> consult self pk (tu_known t) = inl v ->
      trust_step t (add_ended (mkEnded self pk (tu_known t) None None (tu_known t) None) t)
  | ts_ask self pk key approval reply t :
      sends_to self t -> consult self pk (tu_known t) = inr (key, approval) ->
      reply ∉ dom (tu_opened t) ->
      trust_step t (ask_user self key reply t)
  | ts_receive prompt reply rest t :
      tu_channel t = (prompt, reply) :: rest ->
      trust_step t (take_next prompt reply
                      (react (Input.Prompt prompt reply) (dg_manager (tu_dialogue t))) rest t)
  | ts_manager d' t :
      move (tu_dialogue t) d' -> dg_asked d' = dg_asked (tu_dialogue t) ->
      trust_step t (set_dialogue d' t)
  | ts_manager_gone t :
      trust_step t (set_channel false [] t)
  | ts_answered reply w answer task_failed t :
      tu_waiting t !! reply = Some w -> heard t reply answer ->
      trust_step t
        (add_ended (mkEnded (wt_self w) (wt_pk w) (wt_disk w) (Some reply) answer (tu_known t) task_failed)
           (set_waiting (delete reply (tu_waiting t)) t))
  | ts_abandoned reply t :
      trust_step t (set_waiting (delete reply (tu_waiting t)) t)
  | ts_edited known t :
      trust_step t (set_known known t).

Inductive trust_run : trust -> Prop :=
  | tr_start d known :
      dialogue d -> dg_asked d = [] -> trust_run (mkTrust d true [] ∅ ∅ [] known)
  | tr_step t t' : trust_run t -> trust_step t t' -> trust_run t'.

(** ** What is kept *)

(** Where an ended verification comes from. *)
Definition ended_ok (d : Dialogue K R) (opened : gmap Z HostKeyPrompt) (e : Ended) : Prop :=
  match en_reply e with
  | None => en_answer e = None /\ en_later e = en_disk e
            /\ exists v, consult (en_self e) (en_pk e) (en_disk e) = inl v
  | Some reply =>
      exists key approval,
        consult (en_self e) (en_pk e) (en_disk e) = inr (key, approval)
        /\ opened !! reply = Some (fingerprint_prompt (en_self e) key)
        /\ forall decision, en_answer e = Some decision ->
             decided_by (dg_asked d) (dg_shown d) (dg_answers d) reply decision
  end.

Definition waiting_ok (opened : gmap Z HostKeyPrompt) (reply : Z) (w : Waiting) : Prop :=
  exists key approval, consult (wt_self w) (wt_pk w) (wt_disk w) = inr (key, approval)
    /\ opened !! reply = Some (fingerprint_prompt (wt_self w) key).

(** An element of an [omap] without duplicates has one origin. *)
Lemma omap_NoDup_inj {A B} (f : A -> option B) (l : list A) i j x y b :
  NoDup (omap f l) -> l !! i = Some x -> l !! j = Some y -> f x = Some b -> f y = Some b -> i = j.
Proof.
  revert i j. induction l as [|a l IH]; intros i j Hnd Hi Hj Hx Hy; [done|].
  assert (Hin : forall k z, l !! k = Some z -> f z = Some b -> b ∈ omap f l).
  { intros k z Hz Hf. apply list_elem_of_omap. exists z. split; [by eapply list_elem_of_lookup_2|done]. }
  cbn in Hnd. destruct i as [|i], j as [|j]; cbn in Hi, Hj; simplify_eq; try done.
  - rewrite Hx in Hnd. apply NoDup_cons in Hnd as [Hn _]. destruct Hn. by eapply Hin.
  - rewrite Hy in Hnd. apply NoDup_cons in Hnd as [Hn _]. destruct Hn. by eapply Hin.
  - f_equal. apply IH; try done. destruct (f a); [by apply NoDup_cons in Hnd as [_ ?]|done].
Qed.

Definition reply_list (l : list Ended) : list Z := omap en_reply l.

Record trust_inv (t : trust) : Prop := {
  ui_dialogue : dialogue (tu_dialogue t);
  ui_fresh : NoDup ((dg_asked (tu_dialogue t) ++ tu_channel t).*2);
  ui_opened : forall prompt reply, (prompt, reply) ∈ dg_asked (tu_dialogue t) ++ tu_channel t ->
    tu_opened t !! reply = Some prompt;
  ui_waiting : forall reply w, tu_waiting t !! reply = Some w -> waiting_ok (tu_opened t) reply w;
  ui_ended : forall e, e ∈ tu_ended t -> ended_ok (tu_dialogue t) (tu_opened t) e;
  ui_once : NoDup (reply_list (tu_ended t));
  ui_over : forall reply, reply ∈ reply_list (tu_ended t) ->
    tu_waiting t !! reply = None /\ reply ∈ dom (tu_opened t)
}.

Lemma decided_kept d d' reply decision :
  move d d' -> decided_by (dg_asked d) (dg_shown d) (dg_answers d) reply decision ->
  decided_by (dg_asked d') (dg_shown d') (dg_answers d') reply decision.
Proof.
  intros Hm Hd. destruct Hm as [prompt r d Hr|os stamp c d|d|os cancelled d|w' d Hw Hdec|d]; try exact Hd; cbn.
  - rewrite <-(app_nil_r (dg_answers d)). apply decided_mono; [|done]. intros p. unfold newly_shown.
    case_bool_decide; [by intros ?%elem_of_nil|]. by intros ->%list_elem_of_singleton.
  - rewrite <-(app_nil_r (dg_asked d)), <-(app_nil_r (dg_shown d)). apply decided_mono; [|done]. set_solver.
Qed.

Lemma ended_kept d d' opened opened' e :
  (d' = d \/ move d d') -> opened ⊆ opened' -> ended_ok d opened e -> ended_ok d' opened' e.
Proof.
  unfold ended_ok. intros Hd Ho. destruct (en_reply e) as [reply|]; [|done].
  intros (key & a & Hc & Hl & Hdec). exists key, a. split_and!; [done|by eapply lookup_weaken|].
  intros decision Ha. specialize (Hdec decision Ha). destruct Hd as [->|Hm]; [done|by eapply decided_kept].
Qed.

(** The manager moves on, the rest stays. *)
Lemma moved_inv (d' : Dialogue K R) channel (t : trust) open :
  move (tu_dialogue t) d' -> dg_asked d' ++ channel `sublist_of` dg_asked (tu_dialogue t) ++ tu_channel t ->
  trust_inv t -> trust_inv (set_channel open channel (set_dialogue d' t)).
Proof.
  intros Hm Hsub [Hd Hf Ho Hw He Hon Hov]. split; cbn.
  - by eapply dg_move.
  - eapply sublist_NoDup; [exact Hf|by apply fmap_sublist].
  - intros prompt reply Hin. apply Ho. by eapply elem_of_sublist.
  - done.
  - intros e Hin. eapply ended_kept; [by right|reflexivity|by apply He].
  - done.
  - done.
Qed.

Lemma asked_inv self key approval reply (t : trust) pk :
  consult self pk (tu_known t) = inr (key, approval) -> reply ∉ dom (tu_opened t) ->
  trust_inv t -> trust_inv (ask_user self key reply t).
Proof.
  intros Hc Hr [Hd Hf Ho Hw He Hon Hov]. pose proof (consult_asks _ _ _ _ _ Hc) as (_ & -> & _).
  apply not_elem_of_dom in Hr.
  assert (Hnew : reply ∉ (dg_asked (tu_dialogue t) ++ tu_channel t).*2).
  { intros ([prompt r] & -> & Hin)%list_elem_of_fmap. apply Ho in Hin. cbn in *. congruence. }
  split; cbn.
  - done.
  - rewrite app_assoc, fmap_app. apply NoDup_app. split_and!; [done| |apply NoDup_singleton]. set_solver.
  - intros prompt r. rewrite app_assoc. intros [Hin|Hin]%elem_of_app.
    + rewrite lookup_insert_ne; [by apply Ho|]. intros ->. apply Ho in Hin. congruence.
    + apply list_elem_of_singleton in Hin as [= -> ->]. by rewrite lookup_insert_eq.
  - intros r w [[<- <-]|[Hne Hl]]%lookup_insert_Some.
    + exists key, approval. split; [done|]. by rewrite lookup_insert_eq.
    + destruct (Hw r w Hl) as (k & a & ? & ?). exists k, a. by rewrite lookup_insert_ne.
  - intros e Hin. eapply ended_kept; [by left|by apply insert_subseteq|by apply He].
  - done.
  - intros r Hin. destruct (Hov r Hin) as [Hnone Hdom]. apply elem_of_dom in Hdom as [p Hp].
    assert (reply <> r) by congruence. rewrite lookup_insert_ne, dom_insert by done.
    split; [done|]. apply elem_of_union_r, elem_of_dom. eauto.
Qed.

Lemma concluded_inv reply w answer task_failed (t : trust) :
  tu_waiting t !! reply = Some w -> heard t reply answer -> dialogue_inv (tu_dialogue t) ->
  trust_inv t ->
  trust_inv
    (add_ended (mkEnded (wt_self w) (wt_pk w) (wt_disk w) (Some reply) answer (tu_known t) task_failed)
       (set_waiting (delete reply (tu_waiting t)) t)).
Proof.
  intros Hl Hh Hdi [Hd Hf Ho Hw He Hon Hov]. destruct (Hw reply w Hl) as (key & a & Hc & Hop).
  split; cbn; try done.
  - intros r w' [_ Hl']%lookup_delete_Some. by apply Hw.
  - intros e [Hin|Hin]%elem_of_app; [by apply He|]. apply list_elem_of_singleton in Hin as ->.
    exists key, a. split_and!; [done|done|]. intros decision Ha. cbn in Ha. subst answer.
    by apply (tk_decided _ _ _ _ _ _ _ Hdi).
  - unfold reply_list. rewrite omap_app. apply NoDup_app. split_and!; [done| |apply NoDup_singleton].
    intros r Hin Heq. apply list_elem_of_singleton in Heq as ->. destruct (Hov reply Hin). congruence.
  - unfold reply_list. intros r. rewrite omap_app. intros [Hin|Hin]%elem_of_app.
    + destruct (Hov r Hin) as [Hnone Hdom]. split; [|done]. rewrite lookup_delete_None. auto.
    + apply list_elem_of_singleton in Hin as ->. rewrite lookup_delete_eq. split; [done|].
      apply elem_of_dom. eauto.
Qed.

Lemma step_asked t t' :
  trust_step t t' -> dg_asked (tu_dialogue t) `prefix_of` dg_asked (tu_dialogue t').
Proof. intros []; cbn; try done; [by apply prefix_app_r|by eapply move_asked]. Qed.

Lemma trust_step_inv t t' :
  trust_step t t' -> dialogue_inv (tu_dialogue t) -> trust_inv t -> trust_inv t'.
Proof.
  intros Hs Hdi Hi. destruct Hs as [self pk v t Hsend Hc|self pk key approval reply t Hsend Hc Hr
    |prompt reply rest t Hch|d' t Hm Has|t|reply w answer tf t Hl Hh|reply t|known t].
  - destruct Hi as [Hd Hf Ho Hw He Hon Hov]. split; cbn; try done.
    + intros e [Hin|Hin]%elem_of_app; [by apply He|]. apply list_elem_of_singleton in Hin as ->. cbn. eauto.
    + unfold reply_list. rewrite omap_app. cbn. by rewrite app_nil_r.
    + unfold reply_list. intros r. rewrite omap_app. cbn. rewrite app_nil_r. apply Hov.
  - by eapply asked_inv.
  - pose proof (ui_fresh _ Hi) as Hf. apply moved_inv; [|cbn; by rewrite <-app_assoc, Hch|done].
    apply mv_prompt. rewrite Hch, fmap_app in Hf. apply NoDup_app in Hf as (_ & Hdis & _).
    intros Hin. by apply (Hdis reply Hin); left.
  - apply (moved_inv d' (tu_channel t) t (tu_open t)); [done|by rewrite Has|done].
  - destruct Hi as [Hd Hf Ho Hw He Hon Hov]. split; cbn; rewrite ?app_nil_r; try done.
    + rewrite fmap_app in Hf. by apply NoDup_app in Hf as [? _].
    + intros prompt reply Hin. apply Ho. set_solver.
  - by apply concluded_inv.
  - destruct Hi as [Hd Hf Ho Hw He Hon Hov]. split; cbn; try done.
    + intros r w [_ Hl]%lookup_delete_Some. by apply Hw.
    + intros r Hin. destruct (Hov r Hin). split; [|done]. rewrite lookup_delete_None. auto.
  - by destruct Hi.
Qed.

Lemma run_kept t :
  trust_run t -> Z.of_nat (length (dg_asked (tu_dialogue t))) < u64_max -> trust_inv t.
Proof.
  induction 1 as [d known Hd Ha|t t' Ht IH Hs]; intros Hb.
  - split; cbn; try done; rewrite ?Ha; cbn; try apply NoDup_nil_2; set_solver.
  - pose proof (prefix_length _ _ (step_asked _ _ Hs)).
    assert (Hi : trust_inv t) by (apply IH; lia). eapply trust_step_inv; [done| |done].
    eapply dialogue_kept; [by apply ui_dialogue|lia].
Qed.
End Runs.

(** The user was shown the prompt of this verification - this host and port,
    this key's algorithm and fingerprint - and answered it under its number. *)
Definition user_said `{Russh} {K R} (d : Dialogue K R) (e : Ended) (key : public_key)
    (decision : HostKeyDecision.t) : Prop :=
  exists p, p ∈ dg_shown d /\ en_reply e = Some (pk_reply p)
    /\ tells (pk_view p) (fingerprint_prompt (en_self e) key)
    /\ (pv_id (pk_view p), decision) ∈ dg_answers d.

(** What [check_server_key] was told on its reply channel. *)
Definition learns `{Russh} (e : Ended) (key : public_key) : Prop :=
  exists a, hv_approval (en_self e) = Some a
    /\ (learn_known_hosts_path (en_later e) (hv_host (en_self e)) (hv_port (en_self e)) key
          (ap_save_path a)).2 = v_disk (en_verdict e).

Section TrustClaims.
Context `{Russh} `{HT : Toml, HO : Os} `{HK : Keyring K} `{HR : Registry R} `{HG : Glob}.
Context (env : Env) (raw_os_text : Z -> string) (import_files : ImportFiles).
Context (order : gset TunnelId -> list TunnelId).
Notation trust_run := (trust_run (K := K) (R := R) env raw_os_text import_files order).

Lemma decided_said (d : Dialogue K R) channel (opened : gmap Z HostKeyPrompt) e reply key decision :
  (forall prompt r, (prompt, r) ∈ dg_asked d ++ channel -> opened !! r = Some prompt) ->
  en_reply e = Some reply -> opened !! reply = Some (fingerprint_prompt (en_self e) key) ->
  decided_by (dg_asked d) (dg_shown d) (dg_answers d) reply decision ->
  decision <> HostKeyDecision.Cancel -> user_said d e key decision.
Proof.
  intros Ho He Hop [(-> & _)|(p & prompt & Hp & <- & Ha & Ht & Hin)] Hnc; [done|].
  assert (opened !! pk_reply p = Some prompt) as Hop' by (apply Ho; set_solver).
  rewrite Hop in Hop'. injection Hop' as <-. by exists p.
Qed.

Lemma ended_accepts (t : Trust K R) e b :
  trust_inv env raw_os_text import_files order t -> e ∈ tu_ended t -> v_result (en_verdict e) = Ok b ->
  b = true
  /\ (hv_policy (en_self e) = HostKeyPolicy.Bypass
      \/ exists key, en_pk e = PublicKey key
          /\ Forall (unobjectionable (en_self e) key (en_disk e)) (hv_paths (en_self e))
          /\ (Exists (known_at (en_self e) key (en_disk e)) (hv_paths (en_self e))
              \/ user_said (tu_dialogue t) e key HostKeyDecision.TrustOnce
              \/ user_said (tu_dialogue t) e key HostKeyDecision.TrustAndSave)).
Proof.
  intros Hi Hin. pose proof (ui_ended _ _ _ _ _ Hi e Hin) as He. unfold ended_ok in He.
  destruct (en_reply e) as [reply|] eqn:Er.
  - destruct He as (key & a & Hc & Hop & Hdec). unfold en_verdict, check_server_key. rewrite Hc.
    destruct (conclude _ _ _ _ _ _) as [r d'] eqn:Ed. cbn. intros ->.
    apply conclude_ok in Ed as [-> Hwhy]. split; [done|]. right.
    apply consult_asks in Hc as (_ & Hpk & Hs & _). apply scan_ok in Hs as [Hall _].
    exists key. split_and!; [done|done|]. right.
    destruct Hwhy as [[Ha _]|(Ha & _)]; [left|right]; (eapply decided_said; [apply (ui_opened _ _ _ _ _ Hi)|done|exact Hop|by apply Hdec|done]).
  - destruct He as (_ & _ & v & Hc). unfold en_verdict, check_server_key. rewrite Hc. intros Hv.
    destruct (consult_agrees _ _ _ _ _ Hc Hv) as (_ & -> & [?|(key & ? & ? & ?)]); [auto|].
    split; [done|]. right. exists key. auto.
Qed.

Lemma ended_writes (t : Trust K R) e :
  trust_inv env raw_os_text import_files order t -> e ∈ tu_ended t ->
  v_disk (en_verdict e) <> en_later e ->
  exists key, en_pk e = PublicKey key
    /\ user_said (tu_dialogue t) e key HostKeyDecision.TrustAndSave /\ learns e key.
Proof.
  intros Hi Hin. pose proof (ui_ended _ _ _ _ _ Hi e Hin) as He. unfold ended_ok in He.
  destruct (en_reply e) as [reply|] eqn:Er.
  - destruct He as (key & a & Hc & Hop & Hdec). pose proof (consult_asks _ _ _ _ _ Hc) as (_ & Hpk & _ & Ha & _).
    unfold learns, en_verdict, check_server_key. rewrite Hc.
    destruct (conclude _ _ _ _ _ _) as [r d'] eqn:Ed. cbn.
    apply conclude_writes in Ed as [->|(Hans & _ & _ & <-)]; [done|]. intros _. exists key.
    split_and!; [done| |by exists a].
    eapply decided_said; [apply (ui_opened _ _ _ _ _ Hi)|done|exact Hop|by apply Hdec|done].
  - destruct He as (_ & Hl & v & Hc). unfold en_verdict, check_server_key. rewrite Hc, Hl.
    assert (v_disk v = en_disk e); [|done]. revert Hc. unfold consult.
    repeat (case_bool_decide || case_match); naive_solver.
Qed.

(** One number, one verification. *)
Lemma said_once (t : Trust K R) i j e1 e2 p1 p2 :
  trust_inv env raw_os_text import_files order t -> dialogue_inv (tu_dialogue t) ->
  tu_ended t !! i = Some e1 -> tu_ended t !! j = Some e2 ->
  p1 ∈ dg_shown (tu_dialogue t) -> p2 ∈ dg_shown (tu_dialogue t) ->
  pv_id (pk_view p1) = pv_id (pk_view p2) ->
  en_reply e1 = Some (pk_reply p1) -> en_reply e2 = Some (pk_reply p2) -> i = j.
Proof.
  intros Hi Hd He1 He2 Hp1 Hp2 Hid Hr1 Hr2.
  apply list_elem_of_lookup in Hp1 as [k1 Hp1], Hp2 as [k2 Hp2].
  pose proof (tk_ids _ _ _ _ _ _ _ Hd k1 p1 Hp1). pose proof (tk_ids _ _ _ _ _ _ _ Hd k2 p2 Hp2).
  assert (k1 = k2) as -> by lia. assert (p1 = p2) as -> by congruence.
  by eapply (omap_NoDup_inj en_reply (tu_ended t)); [apply (ui_once _ _ _ _ _ Hi)|..].
Qed.

(** C7: A server is trusted only for a reason, and a decision only once. Let any
    number of connections verify server keys against the same known-hosts
    files, through the channel of prompts, the manager and the window. Whenever
    a verification ends with yes, the policy is Bypass, or the server offered a
    plain key no known-hosts file objects to and one of them knows, or the user
    was shown this host and port and this key's algorithm and fingerprint, and
    answered to trust it under the number of that prompt. No two verifications
    end by one number, so trusting once admits one connection. And the program
    changes the known-hosts files only to learn such a key, on the user's
    answer to save it. *)
Theorem trusted_for_a_reason (t : Trust K R) :
  trust_run t -> Z.of_nat (length (dg_asked (tu_dialogue t))) < u64_max ->
  (forall e b, e ∈ tu_ended t -> v_result (en_verdict e) = Ok b ->
     b = true
     /\ (hv_policy (en_self e) = HostKeyPolicy.Bypass
         \/ exists key, en_pk e = PublicKey key
             /\ Forall (unobjectionable (en_self e) key (en_disk e)) (hv_paths (en_self e))
             /\ (Exists (known_at (en_self e) key (en_disk e)) (hv_paths (en_self e))
                 \/ user_said (tu_dialogue t) e key HostKeyDecision.TrustOnce
                 \/ user_said (tu_dialogue t) e key HostKeyDecision.TrustAndSave)))
  /\ (forall i j e1 e2 p1 p2, tu_ended t !! i = Some e1 -> tu_ended t !! j = Some e2 ->
        p1 ∈ dg_shown (tu_dialogue t) -> p2 ∈ dg_shown (tu_dialogue t) ->
        pv_id (pk_view p1) = pv_id (pk_view p2) ->
        en_reply e1 = Some (pk_reply p1) -> en_reply e2 = Some (pk_reply p2) -> i = j)
  /\ (forall e, e ∈ tu_ended t -> v_disk (en_verdict e) <> en_later e ->
        exists key, en_pk e = PublicKey key
          /\ user_said (tu_dialogue t) e key HostKeyDecision.TrustAndSave /\ learns e key).
Proof.
  intros Ht Hb. pose proof (run_kept env raw_os_text import_files order t Ht Hb) as Hi.
  assert (Hd : dialogue_inv (tu_dialogue t)) by (eapply dialogue_kept; [exact (ui_dialogue _ _ _ _ _ Hi)|done]).
  split_and!.
  - intros e b He Hv. by eapply ended_accepts.
  - intros i j e1 e2 p1 p2 He1 He2 Hp1 Hp2 Hid Hr1 Hr2.
    exact (said_once t i j e1 e2 p1 p2 Hi Hd He1 He2 Hp1 Hp2 Hid Hr1 Hr2).
  - intros e He Hw. by eapply ended_writes.
Qed.
End TrustClaims.

(** ** Witness *)
Import ToyToml ToyKeyring ToyGlob.

(** Two connections meet unknown servers; the user has the key of the second
    one saved, and that verification ends. *)
Definition example_asker (host : string) : HostKeyVerifier :=
  mkHostKeyVerifier host 22 ["known_hosts"] HostKeyPolicy.Strict
    (Some (mkHostKeyApproval true "known_hosts")) None.

Definition toy_trust := Trust (H := Toy.russh) (gmap string string) (option (list Z)).

Definition toy_receive (t : toy_trust) : toy_trust :=
  match tu_channel t with
  | [] => t
  | (prompt, reply) :: rest =>
      take_next prompt reply (toy_react (Input.Prompt prompt reply) (dg_manager (tu_dialogue t))) rest t
  end.

Definition asked_twice : toy_trust :=
  toy_receive (toy_receive
    (ask_user (example_asker "two.example") "B" 8
       (ask_user (example_asker "one.example") "A" 7 (mkTrust (H := Toy.russh) silent true [] ∅ ∅ [] [])))).

Definition answered_once : toy_trust :=
  set_dialogue (after_answer 2 HostKeyDecision.TrustAndSave (tu_dialogue asked_twice)) asked_twice.

Definition example_ended : Ended (H := Toy.russh) :=
  mkEnded (H := Toy.russh) (example_asker "two.example") (PublicKey (H := Toy.russh) "B") []
    (Some 8) (Some HostKeyDecision.TrustAndSave) [] None.

Definition example_trust : toy_trust :=
  add_ended example_ended (set_waiting (delete 8 (tu_waiting answered_once)) answered_once).

Notation toy_run := (trust_run (H := Toy.russh) example_env (fun _ => "error") example_import elements).

Lemma received_runs (t : toy_trust) : toy_run t -> toy_run (toy_receive t).
Proof.
  intros Ht. unfold toy_receive. destruct (tu_channel t) as [|[prompt reply] rest] eqn:E; [done|].
  eapply tr_step; [exact Ht|]. by apply ts_receive.
Qed.

Lemma example_trust_runs : toy_run example_trust.
Proof.
  eapply tr_step; [|apply (ts_answered _ _ _ _ 8
    (mkWaiting (H := Toy.russh) (example_asker "two.example") (PublicKey (H := Toy.russh) "B") [])
    (Some HostKeyDecision.TrustAndSave) None answered_once)].
  2: vm_compute; reflexivity.
  2: vm_compute; left.
  eapply tr_step; [|apply (ts_manager _ _ _ _ (after_answer 2 HostKeyDecision.TrustAndSave (tu_dialogue asked_twice)) asked_twice)];
    [|apply mv_command|reflexivity].
  apply received_runs, received_runs.
  eapply tr_step; [eapply tr_step; [|eapply (ts_ask _ _ _ _ (example_asker "one.example") (PublicKey (H := Toy.russh) "A") "A")]|
    eapply (ts_ask _ _ _ _ (example_asker "two.example") (PublicKey (H := Toy.russh) "B") "B")].
  - apply tr_start; [|reflexivity].
    eapply (dg_new _ _ _ _ (dc_hosts example_config) (dc_groups example_config) (dc_tunnels example_config)
      example_world); reflexivity.
  - by intros a [= <-].
  - reflexivity.
  - cbn. set_solver.
  - by intros a [= <-].
  - reflexivity.
  - cbn. set_solver.
Qed.

Theorem trusted_for_a_reason_witness :
  v_disk (en_verdict example_ended) = [("known_hosts", "two.example", 22, "B")]
  /\ user_said (H := Toy.russh) (tu_dialogue example_trust) example_ended "B" HostKeyDecision.TrustAndSave.
Proof.
  split; [reflexivity|].
  destruct (trusted_for_a_reason (H := Toy.russh) example_env (fun _ => "error") example_import elements
    example_trust example_trust_runs ltac:(vm_compute; reflexivity)) as (_ & _ & Hw).
  destruct (Hw example_ended ltac:(left) ltac:(discriminate)) as (key & Hk & Hs & _).
  injection Hk as <-. exact Hs.
Defined.
