(* ===== verification/Engine.v ===== *)
(** * Engine: the manager together with the supervisors it runs
    (crates/tunnel-core/src/manager.rs with supervisor.rs and
    remote_supervisor.rs).

    In Manager a task may publish anything. Here every task runs its
    supervisor: it publishes, one value after the other, what some run of
    [run_until_stopped] or of the Remote [run] publishes, while the manager
    reacts to its inputs. [e_history] keeps what each task has published; the
    theorems say that what the window is shown is what the tunnel's own
    supervisor published. *)
From S2P Require Import Prelude Io Text Net Domain Validation StateMachine LifecycleSpec LifecycleProps Runtime Retry Russh HostKey SshClient Chain LocalForward RemoteForward Supervisor RemoteSupervisor Status Path Schema Fs Store Secrets Persist SshImport Manager ManagerProps.

#[local] Notation delete := base.delete.

(** ** The system *)

Record Engine (K R : Type) := mkEngine {
  e_manager : TunnelManager K R;
  e_history : gmap nat (list SupervisorState.t)
}.
Arguments mkEngine {K R}.
Arguments e_manager {K R}.
Arguments e_history {K R}.

(** A supervisor shows Connecting from the moment it is made. *)
Definition history (hist : gmap nat (list SupervisorState.t)) (n : nat) : list SupervisorState.t :=
  default [SupervisorState.Connecting 1] (hist !! n).

Section Engine.
Context `{SshTransport} `{HT : Toml, HO : Os} `{HK : Keyring K} `{HR : Registry R} `{HG : Glob}.
Context (env : Env) (raw_os_text : Z -> string) (import_files : ImportFiles).
Context (order : gset TunnelId -> list TunnelId).

(** [sts] can be what the spawned supervisor has published so far: what it
    showed before its loop, or the first values of a run of the loop, with any
    connector and any environment. *)
Definition possible (spec : TaskSpec.t) (sts : list SupervisorState.t) : Prop :=
  match spec with
  | TaskSpec.Local supervisor _ _ _ =>
      sts = sv_states supervisor
      \/ exists connect scs w r s' w' clock ended,
        Supervisor.run_until_stopped connect scs (supervisor, w) = (r, (s', w'))
        /\ sts `prefix_of` sv_states (Supervisor.finish clock ended s').2
  | TaskSpec.Remote supervisor _ _ _ =>
      sts = rs_states supervisor
      \/ exists connect scs w again s' w',
        RemoteSupervisor.run connect scs (supervisor, w) = (again, (s', w'))
        /\ sts `prefix_of` rs_states s'
  end.

(** The manager reacts, a supervisor publishes its next value (and may take the
    retry hint), a task ends, and the rest of the world goes on. A task that
    ended is closed: what it published last may stay unseen. *)
Inductive engine_step : Engine K R -> Engine K R -> Prop :=
  | es_launch os cancelled m hist :
      engine_step (mkEngine m hist) (mkEngine (launch os cancelled m) hist)
  | es_react input m hist :
      engine_step (mkEngine m hist)
        (mkEngine (react env raw_os_text import_files order input m) hist)
  | es_publish n t st hint m hist :
      tasks (Manager.world m) !! n = Some t -> t_result t = None ->
      possible (t_spec t) (history hist n ++ [st]) ->
      engine_step (mkEngine m hist)
        (mkEngine (on_tasks <[n := mkTask (t_spec t) st true None (t_cancelled t) hint]> m)
           (<[n := history hist n ++ [st]]> hist))
  | es_end n t changed r m hist :
      tasks (Manager.world m) !! n = Some t -> t_result t = None ->
      (changed = true -> t_changed t = true) ->
      engine_step (mkEngine m hist)
        (mkEngine (on_tasks <[n := mkTask (t_spec t) (t_state t) changed (Some r)
                                     (t_cancelled t) (t_hint t)]> m) hist)
  | es_world w' m hist :
      tasks w' = tasks (Manager.world m) -> next_task w' = next_task (Manager.world m) ->
      engine_step (mkEngine m hist) (mkEngine (Manager.on_world (fun _ => w') m) hist).

(** [TunnelManager::new] and its builders, then any steps. *)
Inductive engine_reachable : Engine K R -> Prop :=
  | er_new hosts groups tunnels w known app m :
      tasks w = ∅ -> Manager.new order hosts groups tunnels w = Ok m ->
      engine_reachable
        (mkEngine (with_app_settings app (with_app_known_hosts known m)) ∅)
  | er_step e e' : engine_reachable e -> engine_step e e' -> engine_reachable e'.

(** The manager of the system is a manager of [ManagerProps]. *)
Lemma engine_manager e :
  engine_reachable e ->
  ManagerProps.reachable env raw_os_text import_files order (e_manager e).
Proof.
  assert (Hpub : forall n t t' (m : TunnelManager K R),
    ManagerProps.reachable env raw_os_text import_files order m ->
    tasks (Manager.world m) !! n = Some t -> t_spec t' = t_spec t ->
    ManagerProps.reachable env raw_os_text import_files order (on_tasks <[n := t']> m)).
  { intros n t t' m Hm Hn Hs.
    destruct (retouch_step n t t' m Hn Hs) as (w' & Hw & ->). by apply reach_world. }
  induction 1 as [hs gs ts w known app m Hw Hn|e e' _ IH Hs]; cbn.
  { apply reach_settings, reach_known_hosts. by eapply reach_new. }
  destruct Hs; cbn in *; [by apply reach_launch|by apply reach_react|by eapply Hpub..|].
  apply reach_world; [done|]. split; [done|]. intros n. congruence.
Qed.
End Engine.

(** ** What the window may believe *)

(** The address a spawned supervisor listens on. *)
Definition spec_address (spec : TaskSpec.t) : option SocketAddr :=
  match spec with
  | TaskSpec.Local supervisor _ _ _ =>
      match Supervisor.local_addr supervisor with Ok a => a | Err _ => None end
  | TaskSpec.Remote _ _ _ _ => None
  end.

(** The supervisor a task is spawned with is new. *)
Definition spec_new `{Russh} (spec : TaskSpec.t) : Prop :=
  match spec with
  | TaskSpec.Local supervisor _ _ _ =>
      exists l mode retry, Supervisor.new l mode retry = Ok supervisor
  | TaskSpec.Remote supervisor _ _ _ =>
      exists target retry, supervisor = RemoteSupervisor.new target retry
  end.

Definition spec_retries (spec : TaskSpec.t) : RetrySchedule :=
  match spec with
  | TaskSpec.Local supervisor _ _ _ => sv_retries supervisor
  | TaskSpec.Remote supervisor _ _ _ => rs_retries supervisor
  end.
Definition spec_remote (spec : TaskSpec.t) : bool :=
  match spec with TaskSpec.Local _ _ _ _ => false | TaskSpec.Remote _ _ _ _ => true end.

(** The view of a running tunnel: a value its supervisor published - the
    latest, when nothing is unseen - and the address it listens on. *)
Record follows (h : list SupervisorState.t) (t : Task) (v : TunnelView) : Prop := {
  fo_published : tv_state v ∈ h;
  fo_latest : t_changed t = false -> t_result t = None -> tv_state v = t_state t;
  fo_address : tv_local_addr v = spec_address (t_spec t)
}.

(** The view of a tunnel without supervisor. *)
Definition idle_view (v : TunnelView) : Prop :=
  tv_local_addr v = None
  /\ (tv_state v = SupervisorState.Stopped \/ exists reason, tv_state v = SupervisorState.Blocked reason).

Section Truthful.
Context `{SshTransport} {K R : Type}.
Notation manager := (TunnelManager K R).
Implicit Types (m : manager) (hist : gmap nat (list SupervisorState.t)).

Record task_ok (h : list SupervisorState.t) (t : Task) : Prop := {
  ta_new : spec_new (t_spec t);
  ta_possible : possible (t_spec t) h;
  ta_latest : last h = Some (t_state t)
}.

Definition view_ok hist m (id : TunnelId) (v : TunnelView) : Prop :=
  match active m !! id with
  | Some a => exists t, tasks (Manager.world m) !! at_task a = Some t
                /\ follows (history hist (at_task a)) t v
  | None => idle_view v
  end.

Record truthful hist m : Prop := {
  tr_known : forall n, is_Some (hist !! n) -> (n < next_task (Manager.world m))%nat;
  tr_tasks : forall n t, tasks (Manager.world m) !! n = Some t -> task_ok (history hist n) t;
  tr_views : forall id v, current m !! id = Some v -> view_ok hist m id v
}.

(** A change of neither the tasks nor the views. *)
Lemma truthful_same hist m m' :
  core_of m' = core_of m -> current m' = current m -> truthful hist m -> truthful hist m'.
Proof.
  unfold core_of, view_ok. intros [= _ _ Ha Hk Hn] Hc [H1 H2 H3].
  split; rewrite ?Hk, ?Hn, ?Hc; [done|done|]. intros id v Hv. unfold view_ok. rewrite Ha, Hk.
  exact (H3 id v Hv).
Qed.

Lemma history_fresh hist n m :
  truthful hist m -> (next_task (Manager.world m) <= n)%nat ->
  history hist n = [SupervisorState.Connecting 1].
Proof.
  intros Ht Hn. unfold history. destruct (hist !! n) as [h|] eqn:E; [|done].
  pose proof (tr_known _ _ Ht n ltac:(by rewrite E)). lia.
Qed.

(** ** Starting *)

Lemma spec_new_ok spec : spec_new spec -> task_ok [SupervisorState.Connecting 1] (spawned spec).
Proof.
  intros Hn. split; [done| |done]. destruct spec as [s address hs known|s hs remote known]; cbn in *; left.
  - destruct Hn as (l & mode & retry & Hn). unfold Supervisor.new in Hn.
    destruct (socket l); [|done]. by injection Hn as <-.
  - by destruct Hn as (target & retry & ->).
Qed.

(** What is spawned is new, and the address shown is the one it listens on. *)
Lemma prepare_new os m t spec a :
  prepare os m t = Ok (spec, a) -> spec_new spec /\ a = spec_address spec.
Proof.
  unfold prepare. destruct (map_err _ _); [|done]. destruct (ok_or _ _) as [chain|]; [|done].
  destruct (tunnel_mode t); [|by intros [= <- <-]; split; [do 2 eexists|]|].
  all: unfold prepare_listener; destruct (parse_socket_addr _) as [address|]; [|done];
    destruct (start_listener _ _ _ _ _) as [bound l]; destruct (map_err _ bound); [|done];
    destruct (ok_or _ _) as [mode|]; [|done];
    destruct (Supervisor.new l mode _) as [s|e] eqn:En; [|done]; intros [= <- <-];
    (split; [by exists l, mode, (tunnel_reconnect t)|]); unfold Supervisor.new in En; destruct (socket l); [|done];
    injection En as <-; cbn; reflexivity.
Qed.

(** A view that changes only for [id]. *)
Lemma truthful_view hist m m' id v :
  core_of m' = core_of m -> current m' = <[id := v]> (current m) -> view_ok hist m id v ->
  truthful hist m -> truthful hist m'.
Proof.
  unfold core_of. intros [= _ _ Ha Hk Hn] Hc Hv [H1 H2 H3]. split; rewrite ?Hk, ?Hn; [done|done|].
  intros id' v'. rewrite Hc. unfold view_ok. rewrite Ha, Hk.
  intros [[<- <-]|[_ Hx]]%lookup_insert_Some; [exact Hv|exact (H3 id' v' Hx)].
Qed.

Lemma set_state_truthful hist id st m :
  idle_view (mkTunnelView st None) -> active m !! id = None ->
  truthful hist m -> truthful hist (set_state id st None m).
Proof.
  intros Hi Ha Ht. pose proof (set_state_core id st None m) as Hc.
  pose proof (set_state_current id st None m) as Hcur. destruct (current m !! id).
  - eapply truthful_view; [done|done| |done]. unfold view_ok. by rewrite Ha.
  - by eapply truthful_same.
Qed.

Lemma start_truthful hist os id m :
  manager_inv m -> truthful hist m -> truthful hist (start os id m).
Proof.
  intros Hi Ht. unfold start. destruct (active m !! id) eqn:Ea; [done|].
  destruct (tunnels m !! id) as [t|] eqn:Et; [|done].
  destruct (prepare os m t) as [[spec addr]|reason] eqn:Ep;
    [|apply set_state_truthful; [by split; [|right; eexists]|done|done]].
  apply prepare_new in Ep as [Hnew ->]. set (n := next_task (Manager.world m)).
  pose proof (set_state_core id (SupervisorState.Connecting 1) (spec_address spec) (spawn spec m)) as Hc.
  pose proof (set_state_current id (SupervisorState.Connecting 1) (spec_address spec) (spawn spec m)) as Hcur.
  set (m1 := set_state id _ _ _) in *. clearbody m1.
  unfold core_of in Hc. injection Hc as _ _ Ha Hk Hn. cbn in Hcur, Ha, Hk, Hn. fold n in Hk, Hn.
  pose proof (history_fresh hist n m Ht (le_n n)) as Hfresh.
  assert (Hother : forall id' v, id' <> id -> current m !! id' = Some v ->
    match active m !! id' with
    | Some a => exists t0, <[n:=spawned spec]> (tasks (Manager.world m)) !! at_task a = Some t0
                  /\ follows (history hist (at_task a)) t0 v
    | None => idle_view v
    end).
  { intros id' v Hne Hv. pose proof (tr_views _ _ Ht id' v Hv) as Hok. unfold view_ok in Hok.
    destruct (active m !! id') as [a|] eqn:Eid; [|done]. destruct Hok as (t0 & Ht0 & Hf).
    exists t0. rewrite lookup_insert_ne; [done|]. intros E.
    pose proof (ti_fresh _ (mi_tasks _ Hi) (at_task a) ltac:(eauto)). lia. }
  split; cbn; rewrite ?Hk, ?Hn, ?Hcur, ?Ha.
  - intros n' Hx. pose proof (tr_known _ _ Ht n' Hx). lia.
  - intros n' t' [[<- <-]|[_ Hx]]%lookup_insert_Some; [|by apply (tr_tasks _ _ Ht)].
    rewrite Hfresh. by apply spec_new_ok.
  - assert (is_Some (current m !! id)) as [v0 Hv0].
    { apply elem_of_dom. rewrite (vo_views _ (mi_views _ Hi)). by eapply elem_of_dom_2. }
    rewrite Hv0. intros id' v. unfold view_ok. cbn. rewrite Ha, Hk.
    intros [[<- <-]|[Hne Hx]]%lookup_insert_Some.
    + rewrite lookup_insert_eq. cbn. exists (spawned spec). rewrite lookup_insert_eq, Hfresh.
      split; [done|]. split; cbn; [left|done|done].
    + rewrite lookup_insert_ne by done. by apply Hother.
Qed.

(** ** Stopping, following, replacing *)

(** The task of [id] is over. Its view is stale until it is set. *)
Definition truthful_but hist m (id : TunnelId) : Prop :=
  (forall n, is_Some (hist !! n) -> (n < next_task (Manager.world m))%nat)
  /\ (forall n t, tasks (Manager.world m) !! n = Some t -> task_ok (history hist n) t)
  /\ active m !! id = None
  /\ forall id' v, id' <> id -> current m !! id' = Some v -> view_ok hist m id' v.

Lemma truthful_but_intro hist m id : active m !! id = None -> truthful hist m -> truthful_but hist m id.
Proof. intros Ha [H1 H2 H3]. split_and!; auto. Qed.

Lemma join_truthful hist id a m :
  tasks_inv m -> active m !! id = Some a -> truthful hist m ->
  truthful_but hist (join_task (at_task a) (on_active (delete id) m)) id.
Proof.
  intros Hi Ha [H1 H2 H3]. split_and!; cbn; [done| |apply lookup_delete_eq|].
  - intros n t [_ Ht]%lookup_delete_Some. by apply H2.
  - intros id' v Hne Hv. specialize (H3 id' v Hv). unfold view_ok in *. cbn.
    rewrite lookup_delete_ne by done. destruct (active m !! id') as [a'|] eqn:Ea'; [|done].
    destruct H3 as (t & Ht & Hf). exists t. rewrite lookup_delete_ne; [done|].
    intros E. apply Hne. by apply (ti_once _ Hi id' id a' a).
Qed.

Lemma truthful_but_view hist m m' id v :
  core_of m' = core_of m -> current m' = <[id := v]> (current m) -> idle_view v ->
  truthful_but hist m id -> truthful hist m'.
Proof.
  unfold core_of. intros [= _ _ Ha Hk Hn] Hc Hv (H1 & H2 & Hid & H3).
  split; rewrite ?Hk, ?Hn; [done|done|]. intros id' v'. rewrite Hc.
  intros [[<- <-]|[Hne Hx]]%lookup_insert_Some; unfold view_ok; rewrite Ha, Hk; [by rewrite Hid|].
  exact (H3 id' v' (not_eq_sym Hne) Hx).
Qed.

Lemma truthful_but_none hist m m' id :
  core_of m' = core_of m -> current m' = current m -> current m !! id = None ->
  truthful_but hist m id -> truthful hist m'.
Proof.
  unfold core_of. intros [= _ _ Ha Hk Hn] Hc Hv (H1 & H2 & Hid & H3).
  split; rewrite ?Hk, ?Hn; [done|done|]. intros id' v'. rewrite Hc. intros Hx.
  unfold view_ok. rewrite Ha, Hk. apply (H3 id' v'); [|done]. intros ->. congruence.
Qed.

Lemma idle_stopped : idle_view (mkTunnelView SupervisorState.Stopped None).
Proof. split; [done|by left]. Qed.
Lemma idle_blocked reason : idle_view (mkTunnelView (SupervisorState.Blocked reason) None).
Proof. split; [done|by right; eexists]. Qed.

Lemma stop_truthful hist id m : tasks_inv m -> truthful hist m -> truthful hist (stop id m).
Proof.
  intros Hi Ht. unfold stop. set (m0 := match active m !! id with Some _ => _ | None => m end).
  assert (Hb : truthful_but hist m0 id).
  { subst m0. destruct (active m !! id) as [a|] eqn:Ea; [by apply join_truthful|].
    by apply truthful_but_intro. }
  pose proof (set_state_core id SupervisorState.Stopped None m0) as Hc.
  pose proof (set_state_current id SupervisorState.Stopped None m0) as Hcur.
  destruct (current m0 !! id) eqn:Ev.
  - by eapply truthful_but_view; [| |apply idle_stopped|].
  - by eapply truthful_but_none.
Qed.

(** [refresh] keeps this while it runs. *)
Definition following hist m : Prop := tasks_inv m /\ truthful hist m.

Lemma poll_one_following hist m tr ch fin id :
  following hist m ->
  let '(m', tr', ch', fin') := poll_one (m, tr, ch, fin) id in following hist m'.
Proof.
  intros [Hi Ht]. unfold poll_one. destruct (active m !! id) as [a|] eqn:Ea; [|done]. simpl.
  destruct (tasks (Manager.world m) !! at_task a) as [task|] eqn:Etask; [|done]. simpl.
  destruct (t_changed task); [|done].
  destruct (retouch_step (at_task a) task (mark_seen task) m Etask eq_refl) as (w' & Hw & Hm').
  assert (Hi1 : tasks_inv (on_tasks <[at_task a := mark_seen task]> m)).
  { rewrite Hm'. by apply tasks_inv_world. }
  pose proof (tr_tasks _ _ Ht _ _ Etask) as [Hnew Hpos Hlast]. clear Hm'.
  assert (Hk : forall n t, tasks (Manager.world (on_tasks <[at_task a := mark_seen task]> m)) !! n = Some t ->
    task_ok (history hist n) t).
  { intros n t Hx. cbn in Hx. apply lookup_insert_Some in Hx as [[<- <-]|[_ Hx]];
      [by split|by apply (tr_tasks _ _ Ht)]. }
  assert (Hother : forall id' v, id' <> id -> current m !! id' = Some v ->
    view_ok hist (on_tasks <[at_task a := mark_seen task]> m) id' v).
  { intros id' v Hne Hv. pose proof (tr_views _ _ Ht id' v Hv) as Hok. unfold view_ok in *. cbn.
    destruct (active m !! id') as [a'|] eqn:Ea'; [|done]. destruct Hok as (t & Htk & Hf). exists t.
    rewrite lookup_insert_ne; [done|]. intros E. apply Hne. by apply (ti_once _ Hi id' id a' a). }
  destruct (current m !! id) as [view|] eqn:Ev; cbn; (split; [by eapply tasks_inv_core, Hi1|split; [apply (tr_known _ _ Ht)|exact Hk|]]);
    intros id' v Hx; cbn in Hx.
  - apply lookup_insert_Some in Hx as [[<- <-]|[Hne Hx]]; [|by apply Hother].
    unfold view_ok. cbn. rewrite Ea. exists (mark_seen task). rewrite lookup_insert_eq.
    split; [done|]. pose proof (tr_views _ _ Ht id view Ev) as Hok. unfold view_ok in Hok.
    rewrite Ea in Hok. destruct Hok as (t0 & Ht0 & Hf). assert (t0 = task) as -> by congruence.
    split; cbn; [|done|by destruct Hf]. by apply last_Some_elem_of.
  - destruct (decide (id' = id)) as [->|Hne]; [congruence|by apply Hother].
Qed.

Lemma reap_one_following hist m tr ch id :
  following hist m ->
  let '(m', tr', ch') := reap_one (m, tr, ch) id in following hist m'.
Proof.
  intros [Hi Ht]. unfold reap_one. destruct (active m !! id) as [a|] eqn:Ea; [|done]. simpl.
  destruct (tasks (Manager.world m) !! at_task a ≫= t_result) as [result|]; [|done]. simpl.
  pose proof (tasks_inv_join id a m Hi Ea) as Hj. pose proof (join_truthful hist id a m Hi Ea Ht) as Hb.
  destruct (current m !! id) as [view|] eqn:Ev; cbn.
  - split; [by eapply tasks_inv_core, Hj|]. by eapply truthful_but_view; [| |apply idle_blocked|exact Hb].
  - split; [done|]. by eapply truthful_but_none, Hb.
Qed.

Lemma poll_following hist ids m tr ch fin :
  following hist m ->
  let '(m', tr', ch', fin') := foldl poll_one (m, tr, ch, fin) ids in following hist m'.
Proof.
  revert m tr ch fin. induction ids as [|id ids IH]; intros m tr ch fin Hl; [done|].
  cbn [foldl]. pose proof (poll_one_following hist m tr ch fin id Hl) as Hone.
  destruct (poll_one (m, tr, ch, fin) id) as [[[m1 tr1] ch1] fin1]. by apply IH.
Qed.

Lemma reap_following hist ids m tr ch :
  following hist m ->
  let '(m', tr', ch') := foldl reap_one (m, tr, ch) ids in following hist m'.
Proof.
  revert m tr ch. induction ids as [|id ids IH]; intros m tr ch Hl; [done|].
  cbn [foldl]. pose proof (reap_one_following hist m tr ch id Hl) as Hone.
  destruct (reap_one (m, tr, ch) id) as [[m1 tr1] ch1]. by apply IH.
Qed.

Lemma log_all_following hist tr m :
  following hist m -> following hist (foldl (fun m '(id, state) => log_state id state m) m tr).
Proof.
  revert m. induction tr as [|[id st] tr IH]; intros m [Hi Ht]; [done|]. cbn [foldl]. apply IH.
  destruct (log_state_frame id st m) as (Hc & Hcur & _).
  split; [by eapply tasks_inv_core|by eapply truthful_same].
Qed.

Lemma refresh_truthful hist order m : tasks_inv m -> truthful hist m -> truthful hist (refresh order m).
Proof.
  intros Hi Ht. unfold refresh.
  set (kept := List.filter _ (pending_host_keys m)).
  set (m0 := if negb _ then publish_host_keys (set_pending kept m) else set_pending kept m).
  assert (Hm0 : following hist m0).
  { subst m0. destruct (negb _); (split; [by apply (tasks_inv_core m)|by apply (truthful_same hist m)]). }
  pose proof (poll_following hist (order (dom (active m0))) m0 [] false [] Hm0) as Hpoll.
  destruct (foldl poll_one _ _) as [[[m1 tr1] ch1] fin1].
  pose proof (reap_following hist fin1 m1 tr1 ch1 Hpoll) as Hreap.
  destruct (foldl reap_one _ _) as [[m2 tr2] ch2].
  destruct (log_all_following hist tr2 m2 Hreap) as [_ Ht3].
  destruct ch2; [|done]. by eapply truthful_same, Ht3.
Qed.

(** A tunnel that keeps its supervisor keeps its view. *)
Lemma swap_truthful hist config m :
  manager_inv m -> truthful hist m -> truthful hist (swap_config config m).
Proof.
  intros Hi [H1 H2 H3]. split; [done|done|]. intros id v. cbn. unfold refit.
  rewrite lookup_union_Some_raw. intros [Hv|[Hnone Hv]].
  - apply map_lookup_filter_Some in Hv as [Hv _]. exact (H3 id v Hv).
  - rewrite lookup_fmap in Hv. destruct (_ !! id) as [t|] eqn:Et in Hv; [|done]. injection Hv as <-.
    unfold view_ok. cbn. destruct (active m !! id) as [a|] eqn:Ea; [|apply idle_stopped]. exfalso.
    destruct (ti_running _ (mi_tasks _ Hi) id a Ea) as (_ & t' & _ & Ht' & _).
    apply elem_of_dom_2 in Ht'. rewrite <-(vo_views _ (mi_views _ Hi)) in Ht'.
    apply elem_of_dom in Ht' as [v Hv].
    rewrite map_lookup_filter_None in Hnone. destruct Hnone as [Hn|Hn]; [congruence|].
    apply (Hn v Hv). by rewrite Et.
Qed.

(** A task moves: what it has published, and its record. *)
Lemma retask_truthful hist hist' n t t' m :
  truthful hist m -> tasks (Manager.world m) !! n = Some t ->
  (forall n', is_Some (hist' !! n') -> n' = n \/ is_Some (hist !! n')) ->
  (n < next_task (Manager.world m))%nat ->
  (forall n', n' <> n -> history hist' n' = history hist n') ->
  task_ok (history hist' n) t' ->
  (forall v, follows (history hist n) t v -> follows (history hist' n) t' v) ->
  truthful hist' (on_tasks <[n := t']> m).
Proof.
  intros [H1 H2 H3] Hn Hdom Hlt Hsame Hok Hf. split; cbn.
  - intros n' Hx. destruct (Hdom n' Hx) as [->|Hx']; [done|by apply H1].
  - intros n' x [[<- <-]|[Hne Hx]]%lookup_insert_Some; [done|].
    rewrite Hsame by done. by apply H2.
  - intros id v Hv. specialize (H3 id v Hv). unfold view_ok in *. cbn.
    destruct (active m !! id) as [a|]; [|done]. destruct H3 as (t0 & Ht0 & Hfo).
    destruct (decide (at_task a = n)) as [E|Hne]; [rewrite E in *|].
    + exists t'. rewrite lookup_insert_eq. split; [done|]. apply Hf.
      by assert (t0 = t) as <- by congruence.
    + exists t0. rewrite lookup_insert_ne by done. by rewrite Hsame.
Qed.

Lemma hint_if_truthful hist p a m :
  manager_inv m -> truthful hist m -> truthful hist (hint_if p a m).
Proof.
  intros Hi Ht. unfold hint_if. destruct (tasks (Manager.world m) !! at_task a) as [t|] eqn:E; [|done].
  destruct (p (t_state t)); [|done]. eapply (retask_truthful hist hist); try done; [auto| | |].
  - apply (ti_fresh _ (mi_tasks _ Hi)). eauto.
  - destruct (tr_tasks _ _ Ht _ _ E). by split.
  - intros v []. by split.
Qed.
End Truthful.

Section Engineering.
Context `{SshTransport} `{HT : Toml, HO : Os} `{HK : Keyring K} `{HR : Registry R} `{HG : Glob}.
Context (env : Env) (raw_os_text : Z -> string) (import_files : ImportFiles).
Context (order : gset TunnelId -> list TunnelId).
Hypothesis order_perm : forall s, order s ≡ₚ elements s.
Notation manager := (TunnelManager K R).
Implicit Types (m : manager).

Definition sound (hist : gmap nat (list SupervisorState.t)) m : Prop :=
  manager_inv m /\ truthful hist m.

Lemma fold_sound {A} hist (f : manager -> A -> manager) l m :
  (forall m a, sound hist m -> sound hist (f m a)) -> sound hist m -> sound hist (foldl f m l).
Proof. intros Hf. revert m. induction l as [|a l IH]; intros m Hm; [done|]. by apply IH, Hf. Qed.

Lemma sound_same hist m m' :
  core_of m' = core_of m -> shown m' = shown m -> sound hist m -> sound hist m'.
Proof.
  intros Hc Hs [Hi Ht]. split; [by eapply inv_same|]. eapply truthful_same; [done| |done].
  unfold shown in Hs. by injection Hs as ->.
Qed.

Lemma start_sound hist os id m : sound hist m -> sound hist (start os id m).
Proof. intros [Hi Ht]. split; [by apply start_inv|by apply start_truthful]. Qed.
Lemma stop_sound hist id m : sound hist m -> sound hist (stop id m).
Proof. intros [Hi Ht]. split; [by apply stop_inv|]. apply stop_truthful; [by destruct Hi|done]. Qed.
Lemma start_all_sound hist os ids m : sound hist m -> sound hist (start_all os ids m).
Proof. intros Hs. apply fold_sound; [|done]. intros. by apply start_sound. Qed.
Lemma stop_all_sound hist ids m : sound hist m -> sound hist (stop_all ids m).
Proof. intros Hs. apply fold_sound; [|done]. intros. by apply stop_sound. Qed.
Lemma hint_if_sound hist p a m : sound hist m -> sound hist (hint_if p a m).
Proof. intros [Hi Ht]. split; [by apply hint_if_inv|by apply hint_if_truthful]. Qed.

Lemma replace_config_sound hist os config m :
  sound hist m -> sound hist (replace_config order os config m).
Proof.
  intros Hs. rewrite replace_config_eq. apply start_all_sound.
  set (m0 := set_config_views config m). assert (Hs0 : sound hist m0) by (by eapply sound_same, Hs).
  split; [apply (swap_config_inv order order_perm); by destruct Hs0|].
  apply swap_truthful; by apply (stop_all_sound hist).
Qed.

Lemma save_config_sound hist os stamp dir config secret reply m :
  sound hist m -> sound hist (save_config env raw_os_text order os stamp dir config secret reply m).
Proof.
  intros Hs. unfold save_config. destruct (persist_config _ _ _ _ _ _ _ _) as [r d].
  assert (Hd : sound hist (set_disk d m)) by (by eapply sound_same, Hs).
  destruct (is_ok r); [|by eapply sound_same, Hd].
  eapply sound_same, (replace_config_sound hist os config), Hd; done.
Qed.

Lemma truthful_view_same hist m m' :
  core_of m' = core_of m -> current m' = current m -> manager_inv m' -> sound hist m -> sound hist m'.
Proof. intros Hc Hv Hi [_ Ht]. split; [done|by eapply truthful_same]. Qed.

Lemma dispatch_sound hist os stamp command m :
  sound hist m -> sound hist (dispatch env raw_os_text import_files order os stamp command m).
Proof.
  intros Hs. pose proof (dispatch_inv env raw_os_text import_files order order_perm os stamp command m
    (proj1 Hs)) as Hi. destruct command; cbn [dispatch] in *.
  - by apply start_all_sound.
  - by apply stop_all_sound.
  - by apply start_all_sound.
  - by apply stop_all_sound.
  - by apply start_sound.
  - by apply stop_sound.
  - by apply start_sound, stop_sound.
  - destruct (active m !! id); [by apply hint_if_sound|by apply start_sound].
  - apply fold_sound; [|done]. intros m1 id Hs1. destruct (active m1 !! id); [by apply hint_if_sound|done].
  - by apply save_config_sound.
  - unfold on_files in *. destruct (on_fs _ _) as [r d]. by eapply (truthful_view_same hist m).
  - destruct (preview_ssh_config _ _ _) as [r|]; [by eapply sound_same, Hs|done].
  - unfold on_files in *. destruct (on_fs _ _) as [r d]. by eapply (truthful_view_same hist m).
  - unfold resolve_host_key in *. destruct (take_prompt id _) as [[p rest]|]; [|done].
    by eapply (truthful_view_same hist m).
Qed.

Lemma react_sound hist input m :
  sound hist m -> sound hist (react env raw_os_text import_files order input m).
Proof.
  intros Hs. pose proof (react_inv env raw_os_text import_files order order_perm input m (proj1 Hs)) as Hi.
  destruct input as [os stamp command|prompt reply|]; cbn [react] in *.
  - by apply dispatch_sound.
  - unfold queue_host_key in *. case_bool_decide; by eapply (truthful_view_same hist m).
  - case_bool_decide; [done|]. split; [done|]. destruct Hs as [[] Ht]. by apply refresh_truthful.
Qed.

Lemma launch_sound hist os cancelled m : sound hist m -> sound hist (launch os cancelled m).
Proof.
  intros Hs. unfold launch. assert (Hc : sound hist (clear_auto_start m)) by (by eapply sound_same, Hs).
  revert Hc. generalize (clear_auto_start m), (auto_start m), O. intros m1 ids. revert m1.
  induction ids as [|id ids IH]; intros m1 i Hc; [done|]. cbn [auto_start_loop].
  destruct (cancelled i); [done|]. by apply IH, start_sound.
Qed.

(** At the start every tunnel is shown stopped. *)
Lemma insert_tunnels_stopped l acc defs cur auto :
  foldl insert_tunnel acc l = Ok (defs, cur, auto) ->
  exists defs0 cur0 auto0, acc = Ok (defs0, cur0, auto0)
    /\ ((forall id v, cur0 !! id = Some v -> idle_view v) -> forall id v, cur !! id = Some v -> idle_view v).
Proof.
  revert acc. induction l as [|t l IH]; intros acc; [by cbn; intros ->; eauto 10|].
  cbn [foldl]. intros (defs1 & cur1 & auto1 & E & Hc)%IH. unfold insert_tunnel in E.
  destruct acc as [[[d0 c0] a0]|]; [|done]. destruct (d0 !! tunnel_id t); [done|].
  injection E as <- <- <-. exists d0, c0, a0. split; [done|]. intros Hidle. apply Hc.
  intros id v [[<- <-]|[_ Hx]]%lookup_insert_Some; [apply idle_stopped|by eapply Hidle].
Qed.

Lemma new_sound hs gs ts w m :
  tasks w = ∅ -> Manager.new order hs gs ts w = Ok m -> sound ∅ m.
Proof.
  intros Hw Hn. split; [by eapply manager_new_inv|]. unfold Manager.new in Hn.
  destruct (bool_decide _); [done|].
  destruct (foldl insert_tunnel _ ts) as [[[defs cur] auto]|] eqn:E; [|done]. injection Hn as <-.
  apply insert_tunnels_stopped in E as (d0 & c0 & a0 & [= <- <- <-] & Hc).
  split; cbn; rewrite ?Hw.
  - intros n [x Hx]. by rewrite lookup_empty in Hx.
  - intros n t Hx. by rewrite lookup_empty in Hx.
  - intros id v Hv. unfold view_ok. cbn. rewrite lookup_empty. eapply Hc; [|done].
    intros ? ? Hx. by rewrite lookup_empty in Hx.
Qed.

Lemma history_insert hist n h : history (<[n := h]> hist) n = h.
Proof. unfold history. by rewrite lookup_insert_eq. Qed.
Lemma history_insert_ne hist n n' h : n' <> n -> history (<[n := h]> hist) n' = history hist n'.
Proof. intros Hne. unfold history. by rewrite lookup_insert_ne. Qed.

Lemma engine_sound e :
  engine_reachable env raw_os_text import_files order e -> sound (e_history e) (e_manager e).
Proof.
  intros Hr. pose proof (engine_manager _ _ _ _ e Hr) as Hm.
  apply (manager_reachable_inv _ _ _ _ order_perm) in Hm.
  induction Hr as [hs gs ts w known app m Hw Hn|e e' Hr IH Hs].
  { cbn. apply new_sound in Hn; [|done]. by eapply sound_same, Hn. }
  pose proof (engine_manager _ _ _ _ e Hr) as Hm0.
  apply (manager_reachable_inv _ _ _ _ order_perm) in Hm0. specialize (IH Hm0).
  assert (Hlt : forall n t, tasks (Manager.world (e_manager e)) !! n = Some t ->
    (n < next_task (Manager.world (e_manager e)))%nat).
  { intros n t Hx. apply (ti_fresh _ (mi_tasks _ Hm0)). eauto. }
  destruct Hs as [os c m hist|input m hist|n t st hint m hist Hn Hres Hpos
    |n t changed r m hist Hn Hres Hch|w' m hist Hw Hnext]; cbn in *.
  - by apply launch_sound.
  - by apply react_sound.
  - split; [done|]. destruct IH as [_ Ht]. pose proof (tr_tasks _ _ Ht n t Hn) as [Hnew _ _].
    eapply retask_truthful; [exact Ht|exact Hn| |by eapply Hlt| | |].
    + intros n' Hx. destruct (decide (n' = n)) as [->|Hne]; [by left|right].
      by rewrite lookup_insert_ne in Hx.
    + intros n' Hne. by apply history_insert_ne.
    + rewrite history_insert. split; cbn; [done|done|apply last_snoc].
    + intros v [Hp _ Ha]. rewrite history_insert. split; cbn; [|done|done].
      apply elem_of_app. by left.
  - split; [done|]. destruct IH as [_ Ht]. pose proof (tr_tasks _ _ Ht n t Hn) as [Hnew Hp Hl].
    eapply (retask_truthful hist hist); [exact Ht|exact Hn|auto|by eapply Hlt|done|by split|].
    intros v [Hpub _ Ha]. by split.
  - split; [done|]. destruct IH as [_ [H1 H2 H3]]. split; cbn; rewrite ?Hw, ?Hnext; [done|done|].
    intros id v Hv. unfold view_ok. cbn. rewrite Hw. exact (H3 id v Hv).
Qed.

(** ** A tick brings the views up to date *)

Lemma poll_one_frame m tr ch fin id m' tr' ch' fin' :
  poll_one (m, tr, ch, fin) id = (m', tr', ch', fin') ->
  active m' = active m
  /\ (forall n t', tasks (Manager.world m') !! n = Some t' -> exists t,
        tasks (Manager.world m) !! n = Some t /\ t_result t' = t_result t
        /\ (t_changed t = false -> t_changed t' = false))
  /\ (forall a t', active m !! id = Some a -> tasks (Manager.world m') !! at_task a = Some t' ->
        t_changed t' = false /\ (t_result t' <> None -> id ∈ fin'))
  /\ (forall i, i ∈ fin -> i ∈ fin').
Proof.
  unfold poll_one. destruct (active m !! id) as [a|] eqn:Ea; simpl.
  2:{ intros [= <- <- <- <-]. split_and!; eauto. done. }
  destruct (tasks (Manager.world m) !! at_task a) as [t|] eqn:Et; simpl.
  2:{ intros [= <- <- <- <-]. split_and!; eauto. intros a0 t' [= <-]. congruence. }
  assert (Hfin : forall i, i ∈ fin -> i ∈ match t_result t with Some _ => fin ++ [id] | None => fin end).
  { intros i Hi. destruct (t_result t); [|done]. apply elem_of_app. by left. }
  assert (Hid : t_result t <> None -> id ∈ match t_result t with Some _ => fin ++ [id] | None => fin end).
  { destruct (t_result t); [|done]. intros _. apply elem_of_app. right. by left. }
  destruct (t_changed t) eqn:Ec.
  - assert (Hk : forall m1, tasks (Manager.world m1) = <[at_task a := mark_seen t]> (tasks (Manager.world m)) ->
      (forall n t', tasks (Manager.world m1) !! n = Some t' -> exists t0,
        tasks (Manager.world m) !! n = Some t0 /\ t_result t' = t_result t0
        /\ (t_changed t0 = false -> t_changed t' = false))
      /\ (forall a0 t', Some a = Some a0 -> tasks (Manager.world m1) !! at_task a0 = Some t' ->
        t_changed t' = false /\ (t_result t' <> None -> id ∈ match t_result t with Some _ => fin ++ [id] | None => fin end))).
    { intros m1 ->. split.
      - intros n t' [[<- <-]|[_ Hx]]%lookup_insert_Some; [by exists t|by exists t'].
      - intros a0 t' [= <-]. rewrite lookup_insert_eq. by intros [= <-]. }
    destruct (current m !! id) as [v|]; intros [= <- <- <- <-];
      (edestruct Hk as [Hk1 Hk2]; [|split_and!; [done|exact Hk1|exact Hk2|exact Hfin]]; done).
  - intros [= <- <- <- <-]. split_and!; [done|eauto| |exact Hfin].
    intros a0 t' [= <-]. rewrite Et. by intros [= <-].
Qed.

(** Every polled task is seen, and the ended ones are collected. *)
Lemma poll_frame ids m tr ch fin m' tr' ch' fin' :
  foldl poll_one (m, tr, ch, fin) ids = (m', tr', ch', fin') ->
  active m' = active m
  /\ (forall n t', tasks (Manager.world m') !! n = Some t' -> exists t,
        tasks (Manager.world m) !! n = Some t /\ t_result t' = t_result t
        /\ (t_changed t = false -> t_changed t' = false))
  /\ (forall id a t', id ∈ ids -> active m !! id = Some a ->
        tasks (Manager.world m') !! at_task a = Some t' ->
        t_changed t' = false /\ (t_result t' <> None -> id ∈ fin'))
  /\ (forall i, i ∈ fin -> i ∈ fin').
Proof.
  revert m tr ch fin. induction ids as [|id ids IH]; intros m tr ch fin.
  { intros [= <- <- <- <-]. split_and!; eauto. by intros ? ? ? ?%elem_of_nil. }
  cbn [foldl]. destruct (poll_one (m, tr, ch, fin) id) as [[[m1 tr1] ch1] fin1] eqn:E.
  apply poll_one_frame in E as (Ha1 & Hk1 & Hid1 & Hf1). intros (Ha & Hk & Hid & Hf)%IH.
  split_and!; [congruence| | |auto].
  - intros n t' (t1 & Ht1 & Hr1 & Hc1)%Hk. apply Hk1 in Ht1 as (t & Ht & Hr & Hc).
    exists t. split_and!; [done|congruence|auto].
  - intros i a t' [->|Hi]%elem_of_cons Hact Ht'; [|rewrite <-Ha1 in Hact; by apply (Hid i a)].
    destruct (Hk _ _ Ht') as (t1 & Ht1 & Hr1 & Hc1). destruct (Hid1 a t1 Hact Ht1) as [Hc Hin].
    split; [by apply Hc1|]. rewrite Hr1. intros Hr. by apply Hf, Hin.
Qed.

(** Reaping removes the ended and leaves the others. *)
Lemma reap_frame ids m tr ch m' tr' ch' :
  foldl reap_one (m, tr, ch) ids = (m', tr', ch') ->
  (forall id a, active m' !! id = Some a -> active m !! id = Some a)
  /\ (forall n t, tasks (Manager.world m') !! n = Some t -> tasks (Manager.world m) !! n = Some t)
  /\ (forall id a t, id ∈ ids -> active m' !! id = Some a ->
        tasks (Manager.world m') !! at_task a = Some t -> t_result t = None).
Proof.
  revert m tr ch. induction ids as [|id ids IH]; intros m tr ch.
  { intros [= <- <- <-]. split_and!; eauto. by intros ? ? ? ?%elem_of_nil. }
  cbn [foldl]. destruct (reap_one (m, tr, ch) id) as [[m1 tr1] ch1] eqn:E.
  intros (Ha & Hk & Hid)%IH.
  assert (K1 : (forall i a, active m1 !! i = Some a -> active m !! i = Some a)
    /\ (forall n t, tasks (Manager.world m1) !! n = Some t -> tasks (Manager.world m) !! n = Some t)
    /\ (forall a t, active m1 !! id = Some a -> tasks (Manager.world m1) !! at_task a = Some t ->
          t_result t = None)).
  { clear IH Ha Hk Hid. unfold reap_one in E. destruct (active m !! id) as [a|] eqn:Ea; simpl in E.
    2:{ injection E as <- <- <-. split_and!; eauto. congruence. }
    destruct (tasks (Manager.world m) !! at_task a) as [t|] eqn:Et; simpl in E.
    2:{ injection E as <- <- <-. split_and!; eauto. congruence. }
    destruct (t_result t) as [r|] eqn:Er; simpl in E.
    2:{ injection E as <- <- <-. split_and!; eauto. congruence. }
    destruct (current m !! id); injection E as <- <- <-; cbn; (split_and!;
      [by intros i b [_ ?]%lookup_delete_Some|by intros n b [_ ?]%lookup_delete_Some|
       intros b b'; by rewrite lookup_delete_eq]). }
  destruct K1 as (Ha1 & Hk1 & Hid1). split_and!; [auto|auto|].
  intros i a t [->|Hi]%elem_of_cons Hact Ht; [|by apply (Hid i a)]. by apply (Hid1 a); auto.
Qed.

Lemma log_all_frame tr m :
  core_of (foldl (fun m '(id, state) => log_state id state m) m tr) = core_of m.
Proof.
  revert m. induction tr as [|[id st] tr IH]; intros m; [done|]. cbn [foldl]. rewrite IH.
  by destruct (log_state_frame id st m) as (-> & _).
Qed.

Lemma refresh_settled m id a t :
  active (refresh order m) !! id = Some a ->
  tasks (Manager.world (refresh order m)) !! at_task a = Some t ->
  t_changed t = false /\ t_result t = None.
Proof.
  unfold refresh. set (kept := List.filter _ (pending_host_keys m)).
  set (m0 := if negb _ then publish_host_keys (set_pending kept m) else set_pending kept m).
  destruct (foldl poll_one _ _) as [[[m1 tr1] ch1] fin1] eqn:E1.
  destruct (foldl reap_one _ _) as [[m2 tr2] ch2] eqn:E2.
  apply poll_frame in E1 as (Ha1 & Hk1 & Hid1 & _). apply reap_frame in E2 as (Ha2 & Hk2 & Hid2).
  set (m3 := foldl _ m2 tr2). assert (Hc : core_of m3 = core_of m2) by apply log_all_frame.
  assert (Hc' : core_of (if ch2 then publish m3 else m3) = core_of m2) by (by destruct ch2).
  unfold core_of in Hc'. injection Hc' as _ _ -> -> _. intros Hact Ht.
  pose proof (Ha2 _ _ Hact) as Hact1. rewrite Ha1 in Hact1. pose proof (Hk2 _ _ Ht) as Ht1.
  destruct (Hid1 id a t) as [Hc1 Hin]; [|done|done|].
  { rewrite order_perm. apply elem_of_elements. by eapply elem_of_dom_2. }
  split; [done|]. destruct (t_result t) eqn:Er; [|done]. rewrite <-Er.
  by apply (Hid2 id a t); [apply Hin|..].
Qed.
End Engineering.

(** ** Properties *)

Section EngineClaims.
Context `{SshTransportLaws} `{HT : Toml, HO : Os} `{HK : Keyring K} `{HR : Registry R} `{HG : Glob}.
Context (env : Env) (raw_os_text : Z -> string) (import_files : ImportFiles).
Context (order : gset TunnelId -> list TunnelId).
Hypothesis order_perm : forall s, order s ≡ₚ elements s.

(** What a new supervisor can have published is a trace of its specification. *)
Lemma possible_trace spec h :
  spec_new spec -> possible spec h -> h <> [] ->
  exists p, status_trace (spec_retries spec) (spec_remote spec) h p.
Proof.
  destruct spec as [s address hs known|s hs remote known]; cbn.
  - intros (l & mode & retry & Hn) Hp Hne.
    assert (Hs : sv_states s = [SupervisorState.Connecting 1] /\ sv_retries s = Retry.new retry).
    { unfold Supervisor.new in Hn. destruct (socket l); [|done]. by injection Hn as <-. }
    destruct Hs as [Hs Hr]. rewrite Hr.
    destruct Hp as [->|(connect & scs & w & r & s' & w' & clock & ended & Hrun & [rest Hrest])].
    { rewrite Hs. eexists. constructor. }
    destruct (local_run_trace l mode retry s connect scs w r s' w' clock ended Hn Hrun) as [_ Ht].
    rewrite Hrest in Ht. by eapply trace_prefix.
  - intros (target & retry & ->) Hp Hne.
    destruct Hp as [->|(connect & scs & w & again & s' & w' & Hrun & [rest Hrest])].
    { eexists. constructor. }
    destruct (remote_run_trace target retry connect scs w again s' w' Hrun) as (p & Ht & _).
    rewrite Hrest in Ht. by eapply trace_prefix.
Qed.

Lemma runs_spec hosts t spec :
  runs hosts t spec ->
  spec_retries spec = Retry.new (tunnel_reconnect t)
  /\ spec_remote spec = bool_decide (tunnel_mode t = TunnelMode.Remote).
Proof.
  destruct spec as [s address hs known|s hs remote known]; cbn.
  - intros (Hm & _ & -> & _). by rewrite bool_decide_eq_false_2.
  - intros (Hm & -> & _). by rewrite bool_decide_eq_true_2.
Qed.

Lemma view_story e id v :
  engine_reachable env raw_os_text import_files order e ->
  snapshots (e_manager e) !! id = Some v ->
  match active (e_manager e) !! id with
  | None => idle_view v
  | Some a => exists t config p,
      let h := history (e_history e) (at_task a) in
      tasks (Manager.world (e_manager e)) !! at_task a = Some t
      /\ tunnels (e_manager e) !! id = Some config
      /\ status_trace (Retry.new (tunnel_reconnect config))
           (bool_decide (tunnel_mode config = TunnelMode.Remote)) h p
      /\ follows h t v /\ last h = Some (t_state t)
  end.
Proof.
  intros Hr Hv. destruct (engine_sound _ _ _ _ order_perm e Hr) as [[Hi _ Hpub] Ht].
  unfold published in Hpub. rewrite Hpub in Hv. pose proof (tr_views _ _ Ht id v Hv) as Hok.
  unfold view_ok in Hok. destruct (active (e_manager e) !! id) as [a|] eqn:Ea; [|done].
  destruct Hok as (t & Htk & Hf).
  destruct (ti_running _ Hi id a Ea) as (t0 & config & Ht0 & Hc & Hruns).
  assert (t0 = t) as -> by congruence. destruct (tr_tasks _ _ Ht _ _ Htk) as [Hnew Hpos Hlast].
  destruct (runs_spec _ _ _ Hruns) as [Hrs Hrem].
  destruct (possible_trace _ _ Hnew Hpos) as [p Htr]; [by intros E; rewrite E in Hlast|].
  rewrite Hrs, Hrem in Htr.
  by exists t, config, p.
Qed.

(** C4: What the window is shown is what the supervisors published. In every
    state of the manager and its supervisors running together - each publishing
    what its own loop publishes, ending or panicking at any time, between any
    two reactions of the manager: a tunnel that has a supervisor is shown a
    value this supervisor published (the latest one, if none is unseen) and
    the address its listener is bound to; what it has published is a trace of
    the specification for the retry policy and mode the tunnel is configured
    with; and a tunnel without supervisor is shown Stopped or Blocked, without
    an address. *)
Theorem views_follow_supervisors e id v :
  engine_reachable env raw_os_text import_files order e ->
  snapshots (e_manager e) !! id = Some v ->
  match active (e_manager e) !! id with
  | None => idle_view v
  | Some a => exists t config p,
      let h := history (e_history e) (at_task a) in
      tasks (Manager.world (e_manager e)) !! at_task a = Some t
      /\ tunnels (e_manager e) !! id = Some config
      /\ status_trace (Retry.new (tunnel_reconnect config))
           (bool_decide (tunnel_mode config = TunnelMode.Remote)) h p
      /\ follows h t v /\ last h = Some (t_state t)
  end.
Proof. apply view_story. Qed.

(** Every tick shows the latest. After the manager has handled a tick, each
    tunnel that still has a supervisor is shown exactly the value that
    supervisor published last, and every tunnel whose supervisor had ended has
    none any more and is shown Blocked or Stopped. *)
Theorem tick_shows_latest m hist id v :
  engine_reachable env raw_os_text import_files order (mkEngine m hist) -> active m <> ∅ ->
  let m' := react env raw_os_text import_files order Input.Tick m in
  snapshots m' !! id = Some v ->
  match active m' !! id with
  | Some a => last (history hist (at_task a)) = Some (tv_state v)
              /\ exists t, tasks (Manager.world m') !! at_task a = Some t /\ t_result t = None
  | None => idle_view v
  end.
Proof.
  intros Hr Hne m' Hv.
  assert (Hr' : engine_reachable env raw_os_text import_files order (mkEngine m' hist)).
  { eapply er_step; [done|apply es_react]. }
  destruct (engine_sound _ _ _ _ order_perm _ Hr') as [[Hi _ Hpub] Ht].
  change (snapshots m' = current m') in Hpub. rewrite Hpub in Hv. pose proof (tr_views _ _ Ht id v Hv) as Hok.
  unfold view_ok in Hok. cbn [e_manager e_history] in *.
  destruct (active m' !! id) as [a|] eqn:Ea; [|done].
  destruct Hok as (t & Htk & [_ Hlatest _]).
  assert (Hm' : m' = refresh order m).
  { subst m'. cbn [react]. by rewrite bool_decide_eq_false_2. }
  assert (Hs : t_changed t = false /\ t_result t = None).
  { eapply (refresh_settled order order_perm m id a t); rewrite <-Hm'; assumption. }
  destruct Hs as [Hc Hn]. split; [|by exists t]. rewrite (Hlatest Hc Hn).
  by apply (tr_tasks _ _ Ht).
Qed.
End EngineClaims.

(** ** Witnesses *)

Import ToyToml ToyKeyring ToyGlob.

(** What a Local supervisor publishes in a run of its loop. *)
Definition run_states `{SshTransport} connect scs (s : Supervisor) w : list SupervisorState.t :=
  sv_states (Supervisor.finish (fun _ => 0) (Ok tt)
    (Supervisor.run_until_stopped connect scs (s, w)).2.1).2.

Lemma run_possible `{SshTransport} connect scs s w address hs known sts :
  sts `prefix_of` run_states connect scs s w -> possible (TaskSpec.Local s address hs known) sts.
Proof.
  intros Hp. right. unfold run_states in Hp.
  destruct (Supervisor.run_until_stopped connect scs (s, w)) as [r [s' w']] eqn:E.
  by exists connect, scs, w, r, s', w', (fun _ => 0), (Ok tt).
Qed.

(** The example tunnel is started, and its supervisor finds no chain. *)
Definition first_manager : toy_manager :=
  with_app_settings (dc_app example_config) (with_app_known_hosts "known" example_manager).
Definition started_manager : toy_manager := launch (H := Toy.russh) toy_os (fun _ => false) first_manager.

Definition example_task : Task :=
  default (spawned (TaskSpec.Remote toy_remote_supervisor [] None None))
    (tasks (Manager.world started_manager) !! 0%nat).

Definition blocked_history : list SupervisorState.t :=
  [SupervisorState.Connecting 1; SupervisorState.Connecting 1;
   SupervisorState.Blocked "jump chain is empty"].

Definition one_published (sts : list SupervisorState.t) (m : toy_manager) : Engine _ _ :=
  mkEngine (on_tasks <[0%nat := mkTask (t_spec example_task)
      (default SupervisorState.Stopped (last sts)) true None false false]> m) {[ 0%nat := sts ]}.

Notation toy_engine := (engine_reachable (H := Toy.russh) (H0 := toy_transport false) example_env
  (fun _ => "error") example_import elements).

Definition example_supervisor : Supervisor :=
  match t_spec example_task with TaskSpec.Local s _ _ _ => s | _ => toy_supervisor end.

Lemma example_local : exists address hs known,
  t_spec example_task = TaskSpec.Local example_supervisor address hs known.
Proof.
  assert (Hl : spec_remote (t_spec example_task) = false) by (vm_compute; reflexivity).
  unfold example_supervisor. destruct (t_spec example_task); [|discriminate Hl]. by do 3 eexists.
Qed.

Lemma example_run :
  run_states (H0 := toy_transport false) no_chain [toy_script] example_supervisor empty_world
  = blocked_history ++ [SupervisorState.Stopped].
Proof. vm_compute. reflexivity. Qed.

Lemma example_possible sts :
  sts `prefix_of` blocked_history ->
  possible (H := Toy.russh) (H0 := toy_transport false) (t_spec example_task) sts.
Proof.
  intros [rest Hrest]. destruct example_local as (address & hs & known & ->). eapply run_possible.
  rewrite example_run, Hrest, <-app_assoc. by eexists.
Qed.

Lemma started_engine : toy_engine (mkEngine started_manager ∅).
Proof.
  eapply er_step; [|apply es_launch].
  eapply (er_new _ _ _ _ (dc_hosts example_config) (dc_groups example_config)
    (dc_tunnels example_config) example_world); reflexivity.
Qed.

(** A value published by the supervisor of the example. *)
Lemma example_publish st t sts m hist :
  toy_engine (mkEngine m hist) -> tasks (Manager.world m) !! 0%nat = Some t ->
  t_spec t = t_spec example_task -> t_result t = None -> t_cancelled t = false ->
  history hist 0 ++ [st] = sts -> sts `prefix_of` blocked_history ->
  toy_engine (mkEngine (on_tasks <[0%nat := mkTask (t_spec example_task) st true None false false]> m)
                (<[0%nat := sts]> hist)).
Proof.
  intros He Ht Hs Hr Hc <- Hp. destruct t as [spec cur ch r c hint]. cbn in Hs, Hr, Hc. subst.
  eapply er_step; [exact He|]. eapply (es_publish _ _ _ _ _ _ st false m hist Ht); [done|].
  by apply example_possible.
Qed.

(** Both values the supervisor publishes, before the manager looks. *)
Lemma published_engine : toy_engine (one_published blocked_history started_manager).
Proof.
  pose proof (example_publish (SupervisorState.Connecting 1) example_task (take 2 blocked_history)
    started_manager ∅ started_engine ltac:(vm_compute; reflexivity) eq_refl
    ltac:(vm_compute; reflexivity) ltac:(vm_compute; reflexivity) eq_refl ltac:(by eexists)) as K1.
  pose proof (example_publish (SupervisorState.Blocked "jump chain is empty") _ blocked_history
    _ _ K1 (lookup_insert_eq _ _ _) eq_refl eq_refl eq_refl eq_refl ltac:(by eexists [])) as K2.
  unfold one_published. rewrite insert_insert_eq in K2.
  unfold on_tasks, Manager.on_world in K2. cbn in K2. rewrite insert_insert_eq in K2. exact K2.
Qed.

(** The manager still shows Connecting, which the supervisor published. *)
Theorem views_follow_supervisors_witness :
  exists v, snapshots started_manager !! mkTunnelId "t" = Some v
    /\ tv_state v ∈ blocked_history
    /\ tv_local_addr v = Some (SAV4 [127; 0; 0; 1] 5432).
Proof.
  assert (Hv : exists v, snapshots (e_manager (one_published blocked_history started_manager))
      !! mkTunnelId "t" = Some v /\ tv_local_addr v = Some (SAV4 [127; 0; 0; 1] 5432))
    by (eexists; split; vm_compute; reflexivity).
  destruct Hv as (v & Hv & Haddr). exists v. split; [exact Hv|]. split; [|exact Haddr].
  pose proof (views_follow_supervisors (H1 := toy_transport_laws false) example_env
    (fun _ => "error") example_import elements (fun s => reflexivity _) _ (mkTunnelId "t") v
    published_engine Hv) as Hf.
  assert (Ha : active (e_manager (one_published blocked_history started_manager)) !! mkTunnelId "t"
    = Some (mkActiveTunnel 0)) by (vm_compute; reflexivity).
  rewrite Ha in Hf. destruct Hf as (t & config & p & _ & _ & _ & [Hin _ _] & _). exact Hin.
Defined.

Theorem tick_shows_latest_witness :
  let m' := react (H := Toy.russh) example_env (fun _ => "error") example_import elements Input.Tick
    (e_manager (one_published blocked_history started_manager)) in
  tv_state <$> snapshots m' !! mkTunnelId "t" = Some (SupervisorState.Blocked "jump chain is empty").
Proof.
  intros m'.
  assert (Hv : exists v a, snapshots m' !! mkTunnelId "t" = Some v /\ active m' !! mkTunnelId "t" = Some a
    /\ at_task a = 0%nat) by (do 2 eexists; split_and!; vm_compute; reflexivity).
  destruct Hv as (v & a & Hv & Ha & Hn).
  pose proof (tick_shows_latest (H0 := toy_transport false) example_env
    (fun _ => "error") example_import elements (fun s => reflexivity _)
    (e_manager (one_published blocked_history started_manager)) {[ 0%nat := blocked_history ]}
    (mkTunnelId "t") v published_engine ltac:(vm_compute; discriminate) Hv) as Hf.
  cbv zeta in Hf. fold m' in Hf. rewrite Ha, Hn in Hf. destruct Hf as [Hlast _].
  rewrite Hv. cbn. rewrite <-Hlast. reflexivity.
Defined.
