(* ===== verification/Editor.v ===== *)
(** * Editor: the forms of crates/app/src/editor.rs, in which a jumper or a
    tunnel is edited, and the buttons of the editor page of
    crates/app/src/workspace.rs that change them.

    An input field is its current text. What a new field shows for a default
    value is gpui-kit's ([InputState]); the random number of a new credential
    is an argument. *)
From S2P Require Import Prelude Text Net Domain Validation Path Schema Fs Store Secrets Persist.

(** gpui-kit's input field. *)
Class InputState := { default_value : string -> string }.

(** A default value of one line is shown as it is. *)
Definition line_break (c : ascii) : bool := bool_decide (c = "010"%char) || bool_decide (c = "013"%char).
Definition single_line (s : string) : Prop :=
  existsb line_break (String.list_ascii_of_string s) = false.
Class InputStateLaws `{InputState} := {
  default_value_line s : single_line s -> default_value s = s
}.

(** ** Jumpers *)

Record HostEditor := mkHostEditor {
  he_id : HostId;
  he_name : string;
  he_hostname : string;
  he_port : string;
  he_username : string;
  he_identity_file : string;
  he_agent_socket : string;
  he_password : string;
  he_passphrase : string;
  he_notes : string;
  he_connect_timeout_ms : string;
  he_keepalive_interval_ms : string;
  he_keepalive_max : string;
  he_auth : AuthConfig.t;
  he_original_auth : AuthConfig.t;
  he_policy : HostKeyPolicy.t
}.

Definition map_or {A B} (d : B) (f : A -> B) (o : option A) : B :=
  match o with Some a => f a | None => d end.

Definition key_path_text (a : AuthConfig.t) : string :=
  match a with AuthConfig.PrivateKey key_path _ => key_path | _ => "" end.
Definition socket_text (a : AuthConfig.t) : string :=
  match a with AuthConfig.Agent (Some socket) => socket | _ => "" end.

Definition default_auth : AuthConfig.t := AuthConfig.Agent None.

Definition HostEditor_new `{InputState} (id : HostId) (existing : option SshHost) : HostEditor := {|
  he_id := id;
  he_name := default_value (map_or "" host_name existing);
  he_hostname := default_value (map_or "" host_hostname existing);
  he_port := default_value (show_dec (map_or 22 host_port existing));
  he_username := default_value (map_or "" host_username existing);
  he_identity_file := default_value (map_or "" (fun h => key_path_text (host_auth h)) existing);
  he_agent_socket := default_value (map_or "" (fun h => socket_text (host_auth h)) existing);
  he_password := default_value "";
  he_passphrase := default_value "";
  he_notes := default_value (map_or "" host_notes existing);
  he_connect_timeout_ms :=
    default_value (show_dec (as_millis (map_or (from_secs 8) host_connect_timeout existing)));
  he_keepalive_interval_ms :=
    default_value (show_dec (as_millis (map_or (from_secs 10) host_keepalive_interval existing)));
  he_keepalive_max := default_value (show_dec (map_or 3 host_keepalive_max existing));
  he_auth := map_or default_auth host_auth existing;
  he_original_auth := map_or default_auth host_auth existing;
  he_policy := map_or HostKeyPolicy.Strict host_host_key_policy existing
|}.

(** [format!("credential-{:032x}", rand::random::<u128>())] *)
Definition new_secret_ref (random : Z) : SecretRef :=
  mkSecretRef ("credential-" +:+ zero_pad 32 (show_hex random)).

(** The [auth] of the collected host, and the secret to store with it. *)
Definition collect_auth (random : Z) (self : HostEditor)
    : result (AuthConfig.t * option SecretUpdate) string :=
  match he_auth self with
  | AuthConfig.Password credential_ref =>
      if str_is_empty (he_password self) && bool_decide (secret_ref_0 credential_ref = "pending")
      then Err "Enter a password before saving"
      else if str_is_empty (he_password self)
      then Ok (AuthConfig.Password credential_ref, None)
      else let reference := new_secret_ref random in
           Ok (AuthConfig.Password reference, Some (mkSecretUpdate reference (he_password self)))
  | AuthConfig.PrivateKey _ passphrase_ref =>
      if trim_is_empty (he_identity_file self) then Err "Choose a private key file"
      else if str_is_empty (he_passphrase self)
      then Ok (AuthConfig.PrivateKey (he_identity_file self) passphrase_ref, None)
      else let reference := new_secret_ref random in
           Ok (AuthConfig.PrivateKey (he_identity_file self) (Some reference),
               Some (mkSecretUpdate reference (he_passphrase self)))
  | AuthConfig.Agent _ =>
      let socket := trim (he_agent_socket self) in
      Ok (AuthConfig.Agent (if str_is_empty socket then None else Some socket), None)
  | AuthConfig.KeyboardInteractive => Ok (AuthConfig.KeyboardInteractive, None)
  end.

Definition collect_host (random : Z) (self : HostEditor)
    : result (SshHost * option SecretUpdate) string :=
  let? port := ok_or (parse_uint u16_max (he_port self)) "SSH port must be between 1 and 65535" in
  let? (auth, secret_update) := collect_auth random self in
  let? connect_timeout_ms := ok_or (parse_uint u64_max (he_connect_timeout_ms self))
                               "Connect timeout must be a number of milliseconds" in
  let? keepalive_interval_ms := ok_or (parse_uint u64_max (he_keepalive_interval_ms self))
                                  "Keepalive interval must be a number of milliseconds" in
  let? keepalive_max := ok_or (parse_uint u32_max (he_keepalive_max self))
                          "Keepalive max must be a number" in
  Ok ({| host_id := he_id self;
         host_name := trim (he_name self);
         host_hostname := trim (he_hostname self);
         host_port := port;
         host_username := trim (he_username self);
         host_auth := auth;
         host_host_key_policy := he_policy self;
         host_connect_timeout := from_millis connect_timeout_ms;
         host_keepalive_interval := from_millis keepalive_interval_ms;
         host_keepalive_max := keepalive_max;
         host_notes := he_notes self |}, secret_update).

(** What the user does on the form: typing into a field, choosing an
    authentication, choosing a host-key policy. *)
Module HostField.
Inductive t :=
  | Name | Hostname | Port | Username | IdentityFile | AgentSocket | Password | Passphrase | Notes
  | ConnectTimeout | KeepaliveInterval | KeepaliveMax.
#[global] Instance t_eq_dec : EqDecision t.
Proof. solve_decision. Defined.
End HostField.

Definition type_host (field : HostField.t) (s : string) (e : HostEditor) : HostEditor :=
  let pick g old := if bool_decide (field = g) then s else old in
  mkHostEditor (he_id e)
    (pick HostField.Name (he_name e))
    (pick HostField.Hostname (he_hostname e))
    (pick HostField.Port (he_port e))
    (pick HostField.Username (he_username e))
    (pick HostField.IdentityFile (he_identity_file e))
    (pick HostField.AgentSocket (he_agent_socket e))
    (pick HostField.Password (he_password e))
    (pick HostField.Passphrase (he_passphrase e))
    (pick HostField.Notes (he_notes e))
    (pick HostField.ConnectTimeout (he_connect_timeout_ms e))
    (pick HostField.KeepaliveInterval (he_keepalive_interval_ms e))
    (pick HostField.KeepaliveMax (he_keepalive_max e))
    (he_auth e) (he_original_auth e) (he_policy e).

(** The four buttons of [render_editor], numbered as there. *)
Definition chosen_auth (kind : nat) (original : AuthConfig.t) : AuthConfig.t :=
  match kind with
  | 0%nat => AuthConfig.Agent None
  | 1%nat =>
      match original with
      | AuthConfig.PrivateKey key_path passphrase_ref => AuthConfig.PrivateKey key_path passphrase_ref
      | _ => AuthConfig.PrivateKey "" None
      end
  | 2%nat =>
      match original with
      | AuthConfig.Password credential_ref => AuthConfig.Password credential_ref
      | _ => AuthConfig.Password (mkSecretRef "pending")
      end
  | _ => AuthConfig.KeyboardInteractive
  end.

Definition set_he_auth (a : AuthConfig.t) (e : HostEditor) : HostEditor :=
  mkHostEditor (he_id e) (he_name e) (he_hostname e) (he_port e) (he_username e)
    (he_identity_file e) (he_agent_socket e) (he_password e) (he_passphrase e) (he_notes e)
    (he_connect_timeout_ms e) (he_keepalive_interval_ms e) (he_keepalive_max e)
    a (he_original_auth e) (he_policy e).
Definition set_he_policy (p : HostKeyPolicy.t) (e : HostEditor) : HostEditor :=
  mkHostEditor (he_id e) (he_name e) (he_hostname e) (he_port e) (he_username e)
    (he_identity_file e) (he_agent_socket e) (he_password e) (he_passphrase e) (he_notes e)
    (he_connect_timeout_ms e) (he_keepalive_interval_ms e) (he_keepalive_max e)
    (he_auth e) (he_original_auth e) p.

Module HostEdit.
Inductive t :=
  | Type_ (field : HostField.t) (text : string)
  | ChooseAuth (kind : nat)
  | ChoosePolicy (policy : HostKeyPolicy.t).
End HostEdit.

Definition edit_form (edit : HostEdit.t) (e : HostEditor) : HostEditor :=
  match edit with
  | HostEdit.Type_ field text => type_host field text e
  | HostEdit.ChooseAuth kind => set_he_auth (chosen_auth kind (he_original_auth e)) e
  | HostEdit.ChoosePolicy policy => set_he_policy policy e
  end.

(** ** Tunnels *)

Record TunnelEditor := mkTunnelEditor {
  te_id : TunnelId;
  te_name : string;
  te_local_host : string;
  te_local_port : string;
  te_remote_host : string;
  te_remote_port : string;
  te_description : string;
  te_mode : TunnelMode.t;
  te_jump_chain : list HostId;
  te_auto_start : bool;
  te_reconnect : RetryPolicy;
  te_group_id : option GroupId
}.

Definition TunnelEditor_new `{InputState} (id : TunnelId) (existing : option TunnelConfig)
    : TunnelEditor :=
  let remote := existing ≫= tunnel_remote in {|
  te_id := id;
  te_name := default_value (map_or "" tunnel_name existing);
  te_local_host := default_value (map_or "127.0.0.1" (fun t => local_host (tunnel_local t)) existing);
  te_local_port := default_value (show_dec (map_or 1080 (fun t => local_port (tunnel_local t)) existing));
  te_remote_host := default_value (map_or "" remote_host remote);
  te_remote_port := default_value (map_or "" (fun r => show_dec (remote_port r)) remote);
  te_description := default_value (map_or "" tunnel_description existing);
  te_mode := map_or TunnelMode.Dynamic tunnel_mode existing;
  te_jump_chain := map_or [] tunnel_jump_chain existing;
  te_auto_start := map_or false tunnel_auto_start existing;
  te_reconnect := map_or RetryPolicy_default tunnel_reconnect existing;
  te_group_id := existing ≫= tunnel_group_id
|}.

Definition collect_remote (self : TunnelEditor) : result (option RemoteEndpoint) string :=
  if bool_decide (te_mode self = TunnelMode.Dynamic) then Ok None
  else
    let? port := ok_or (parse_uint u16_max (te_remote_port self))
                   "Destination port must be between 1 and 65535" in
    Ok (Some (mkRemoteEndpoint (trim (te_remote_host self)) port)).

Definition collect_tunnel (self : TunnelEditor) : result TunnelConfig string :=
  let? local_port := ok_or (parse_uint u16_max (te_local_port self))
                       "Local port must be between 0 and 65535" in
  let? remote := collect_remote self in
  Ok {| tunnel_id := te_id self;
        tunnel_name := trim (te_name self);
        tunnel_group_id := te_group_id self;
        tunnel_mode := te_mode self;
        tunnel_jump_chain := te_jump_chain self;
        tunnel_local := mkLocalEndpoint (trim (te_local_host self)) local_port;
        tunnel_remote := remote;
        tunnel_auto_start := te_auto_start self;
        tunnel_reconnect := te_reconnect self;
        tunnel_description := te_description self |}.

(** The buttons of the tunnel form. A button acts only if its guard still holds
    when it is pressed. *)
Definition swap {A} (i j : nat) (l : list A) : list A :=
  match l !! i, l !! j with
  | Some a, Some b => <[i := b]> (<[j := a]> l)
  | _, _ => l
  end.

Definition hop_up (index : nat) (chain : list HostId) : list HostId :=
  if bool_decide (0 < index)%nat && bool_decide (index < length chain)%nat
  then swap index (index - 1) chain else chain.
Definition hop_down (index : nat) (chain : list HostId) : list HostId :=
  if bool_decide (index + 1 < length chain)%nat then swap index (index + 1) chain else chain.
Definition hop_remove (index : nat) (chain : list HostId) : list HostId :=
  if bool_decide (index < length chain)%nat then base.delete index chain else chain.
Definition hop_add (id : HostId) (chain : list HostId) : list HostId :=
  if bool_decide (length chain < 16)%nat && negb (bool_decide (id ∈ chain))
  then chain ++ [id] else chain.

Module TunnelField.
Inductive t := Name | LocalHost | LocalPort | RemoteHost | RemotePort | Description.
#[global] Instance t_eq_dec : EqDecision t.
Proof. solve_decision. Defined.
End TunnelField.

Module TunnelEdit.
Inductive t :=
  | Type_ (field : TunnelField.t) (text : string)
  | ChooseGroup (group : option GroupId)
  | ChooseMode (mode : TunnelMode.t)
  | HopUp (index : nat)
  | HopDown (index : nat)
  | HopRemove (index : nat)
  | HopAdd (id : HostId)
  | ToggleAutoStart.
End TunnelEdit.

Definition type_tunnel (field : TunnelField.t) (s : string) (e : TunnelEditor) : TunnelEditor :=
  let pick g old := if bool_decide (field = g) then s else old in
  mkTunnelEditor (te_id e)
    (pick TunnelField.Name (te_name e))
    (pick TunnelField.LocalHost (te_local_host e))
    (pick TunnelField.LocalPort (te_local_port e))
    (pick TunnelField.RemoteHost (te_remote_host e))
    (pick TunnelField.RemotePort (te_remote_port e))
    (pick TunnelField.Description (te_description e))
    (te_mode e) (te_jump_chain e) (te_auto_start e) (te_reconnect e) (te_group_id e).

Definition with_chain (f : list HostId -> list HostId) (e : TunnelEditor) : TunnelEditor :=
  mkTunnelEditor (te_id e) (te_name e) (te_local_host e) (te_local_port e) (te_remote_host e)
    (te_remote_port e) (te_description e) (te_mode e) (f (te_jump_chain e)) (te_auto_start e)
    (te_reconnect e) (te_group_id e).
Definition set_te_group (g : option GroupId) (e : TunnelEditor) : TunnelEditor :=
  mkTunnelEditor (te_id e) (te_name e) (te_local_host e) (te_local_port e) (te_remote_host e)
    (te_remote_port e) (te_description e) (te_mode e) (te_jump_chain e) (te_auto_start e)
    (te_reconnect e) g.
Definition set_te_mode (mode : TunnelMode.t) (e : TunnelEditor) : TunnelEditor :=
  mkTunnelEditor (te_id e) (te_name e) (te_local_host e) (te_local_port e) (te_remote_host e)
    (te_remote_port e) (te_description e) mode (te_jump_chain e) (te_auto_start e)
    (te_reconnect e) (te_group_id e).
Definition toggle_auto_start (e : TunnelEditor) : TunnelEditor :=
  mkTunnelEditor (te_id e) (te_name e) (te_local_host e) (te_local_port e) (te_remote_host e)
    (te_remote_port e) (te_description e) (te_mode e) (te_jump_chain e) (negb (te_auto_start e))
    (te_reconnect e) (te_group_id e).

Definition edit_tunnel_form (edit : TunnelEdit.t) (e : TunnelEditor) : TunnelEditor :=
  match edit with
  | TunnelEdit.Type_ field text => type_tunnel field text e
  | TunnelEdit.ChooseGroup group => set_te_group group e
  | TunnelEdit.ChooseMode mode => set_te_mode mode e
  | TunnelEdit.HopUp index => with_chain (hop_up index) e
  | TunnelEdit.HopDown index => with_chain (hop_down index) e
  | TunnelEdit.HopRemove index => with_chain (hop_remove index) e
  | TunnelEdit.HopAdd id => with_chain (hop_add id) e
  | TunnelEdit.ToggleAutoStart => toggle_auto_start e
  end.

(** [Editor] *)
Inductive Editor := EditHost (editor : HostEditor) | EditTunnel (editor : TunnelEditor).

(** ** What a form shows *)

(** Digits are shown as they are. *)
Lemma show_dec_single_line n : 0 <= n -> single_line (show_dec n).
Proof.
  intros Hn. unfold single_line, show_dec. rewrite String.list_ascii_of_string_of_list_ascii.
  destruct (digits_spec 10 n) as (ds & -> & Hds & _); [lia|done|].
  induction Hds as [|d ds Hd _ IH]; [done|]. cbn [fmap list_fmap existsb]. rewrite IH, orb_false_r.
  destruct (line_break (digit_char d)) eqn:E; [|done]. exfalso.
  pose proof (to_digit_char 10 d Hd ltac:(lia)) as Ht. unfold line_break in E.
  apply orb_true_iff in E as [E|E]; apply bool_decide_eq_true in E; by rewrite E in Ht.
Qed.

(** A text the form neither trims nor breaks. *)
Definition tidy (s : string) : Prop := trim s = s /\ single_line s.

Definition auth_shown (a : AuthConfig.t) : Prop :=
  match a with
  | AuthConfig.Password r => secret_ref_0 r <> "pending"
  | AuthConfig.PrivateKey key_path _ => trim_is_empty key_path = false /\ single_line key_path
  | AuthConfig.Agent (Some socket) => tidy socket /\ socket <> ""
  | _ => True
  end.

Record host_shown (h : SshHost) : Prop := {
  hs_name : tidy (host_name h);
  hs_hostname : tidy (host_hostname h);
  hs_username : tidy (host_username h);
  hs_notes : single_line (host_notes h);
  hs_port : u16 (host_port h);
  hs_auth : auth_shown (host_auth h);
  hs_timeout : whole_millis (host_connect_timeout h);
  hs_interval : whole_millis (host_keepalive_interval h);
  hs_max : u32 (host_keepalive_max h)
}.

Record tunnel_shown (t : TunnelConfig) : Prop := {
  ts_name : tidy (tunnel_name t);
  ts_local_host : tidy (local_host (tunnel_local t));
  ts_local_port : u16 (local_port (tunnel_local t));
  ts_remote : match tunnel_remote t with
              | Some r => tunnel_mode t <> TunnelMode.Dynamic /\ tidy (remote_host r) /\ u16 (remote_port r)
              | None => tunnel_mode t = TunnelMode.Dynamic
              end;
  ts_description : single_line (tunnel_description t)
}.

Section Shown.
Context `{InputStateLaws}.

Lemma shown_number max n :
  0 <= n <= max -> parse_uint max (default_value (show_dec n)) = Some n.
Proof.
  intros Hn. rewrite default_value_line by (apply show_dec_single_line; lia). by apply parse_show_dec.
Qed.

Lemma whole_millis_shown d :
  whole_millis d -> exists ms, parse_uint u64_max (default_value (show_dec (as_millis d))) = Some ms
    /\ from_millis ms = d.
Proof.
  intros (ms & Hms & ->). exists ms. rewrite as_millis_from_millis. split; [|done].
  by apply shown_number.
Qed.

Lemma collect_auth_shown random id h :
  auth_shown (host_auth h) -> collect_auth random (HostEditor_new id (Some h)) = Ok (host_auth h, None).
Proof.
  assert (Hempty : default_value "" = "") by by apply default_value_line.
  intros Ha. unfold collect_auth. simpl. rewrite !Hempty.
  destruct (host_auth h) as [r|p pass|[s|]|] eqn:E; simpl in *.
  - by rewrite bool_decide_eq_false_2.
  - destruct Ha as [Hp Hl]. by rewrite default_value_line, Hp.
  - destruct Ha as [[Ht Hl] Hne]. rewrite default_value_line, Ht by done.
    unfold str_is_empty. by rewrite bool_decide_eq_false_2.
  - by rewrite Hempty.
  - done.
Qed.

Lemma reopened_host random h :
  host_shown h -> collect_host random (HostEditor_new (host_id h) (Some h)) = Ok (h, None).
Proof.
  intros [[Hn1 Hn2] [Hh1 Hh2] [Hu1 Hu2] ? Hp Ha Ht Hi Hm]. unfold collect_host. rewrite collect_auth_shown by done.
  apply whole_millis_shown in Ht as (t & Ht & Htd). apply whole_millis_shown in Hi as (i & Hi & Hid).
  simpl. rewrite (shown_number u16_max), (shown_number u32_max), Ht, Hi by (apply Hp || apply Hm).
  simpl. rewrite !default_value_line, Hn1, Hh1, Hu1, Htd, Hid by done. by destruct h.
Qed.

Lemma reopened_tunnel t :
  tunnel_shown t -> collect_tunnel (TunnelEditor_new (tunnel_id t) (Some t)) = Ok t.
Proof.
  intros [[Hn1 Hn2] [Hl1 Hl2] Hp Hr ?]. unfold collect_tunnel, collect_remote. simpl.
  rewrite (shown_number u16_max) by apply Hp. simpl.
  assert (Hrem : forall r, tunnel_remote t = Some r ->
    ok_or (parse_uint u16_max (default_value (show_dec (remote_port r))))
      "Destination port must be between 1 and 65535" = Ok (remote_port r)
    /\ trim (default_value (remote_host r)) = remote_host r).
  { intros r E. rewrite E in Hr. destruct Hr as (_ & [Ht Hs] & Hu).
    rewrite shown_number by apply Hu. rewrite default_value_line by done. done. }
  rewrite (default_value_line (tunnel_name t)), (default_value_line (local_host _)),
    (default_value_line (tunnel_description t)), Hn1, Hl1 by done.
  destruct t as [id name g mode chain local remote auto rec desc]; simpl in *.
  destruct local as [lh lp]; simpl in *. destruct remote as [r|]; simpl in *.
  - destruct Hr as [Hm _]. rewrite bool_decide_eq_false_2 by done.
    destruct (Hrem r eq_refl) as [-> ->]. by destruct r.
  - by rewrite bool_decide_eq_true_2.
Qed.

(** Opening a form and saving it unchanged changes nothing. For a jumper and a
    tunnel whose texts are trimmed single lines, as the forms themselves
    produce them, and whose numbers are in range, collecting the freshly
    opened form returns the very same jumper, without a secret to store, and
    the very same tunnel. *)
Theorem unchanged_form_saves_the_same random h t :
  host_shown h -> tunnel_shown t ->
  collect_host random (HostEditor_new (host_id h) (Some h)) = Ok (h, None)
  /\ collect_tunnel (TunnelEditor_new (tunnel_id t) (Some t)) = Ok t.
Proof. intros Hh Ht. split; [by apply reopened_host|by apply reopened_tunnel]. Qed.
End Shown.

(** ** What a form can change *)

Lemma digits_fuel_length radix fuel n acc k :
  2 <= radix -> 0 <= n < radix ^ Z.of_nat k -> (0 < k)%nat ->
  (length (digits_fuel fuel radix n acc) <= k + length acc)%nat.
Proof.
  intros Hr. revert n acc k. induction fuel as [|fuel IH]; intros n acc k Hn Hk; simpl; [lia|].
  destruct (Z.eqb_spec (n / radix) 0) as [|Hz]; simpl; [lia|].
  destruct k as [|k]; [lia|]. destruct (decide (k = O)) as [->|Hk0].
  { simpl in Hn. rewrite Z.div_small in Hz; lia. }
  eapply Nat.le_trans; [apply (IH _ _ k); [|lia]|simpl; lia].
  split; [apply Z.div_pos; lia|]. apply Z.div_lt_upper_bound; [lia|].
  rewrite <- Z.pow_succ_r by lia. rewrite <- Nat2Z.inj_succ. apply Hn.
Qed.

Lemma digit_byte d : 0 <= d < 16 -> byte_of_ascii (digit_char d) = if d <? 10 then d + 48 else d + 87.
Proof.
  intros Hd. unfold digit_char, byte_of_ascii, ascii_of_byte.
  destruct (d <? 10) eqn:?; rewrite N_ascii_embedding; lia.
Qed.

Lemma bytes_app s1 s2 : bytes (s1 +:+ s2) = bytes s1 ++ bytes s2.
Proof.
  unfold bytes. rewrite <- fmap_app. f_equal. induction s1 as [|a s1 IH]; [done|].
  change (String a s1 +:+ s2) with (String a (s1 +:+ s2)). simpl. by rewrite IH.
Qed.

Lemma bytes_of_list l : bytes (String.string_of_list_ascii l) = byte_of_ascii <$> l.
Proof. unfold bytes. by rewrite String.list_ascii_of_string_of_list_ascii. Qed.

(** The name of a new credential is one the credential store accepts. *)
Lemma new_secret_ref_ok random : 0 <= random <= u128_max -> reference_ok (new_secret_ref random) = true.
Proof.
  intros Hr. unfold reference_ok, new_secret_ref. cbn [secret_ref_0].
  destruct (digits_spec 16 random) as (ds & Hds & Hall & _); [lia..|].
  assert (Hlen : (length ds <= 32)%nat).
  { rewrite <- (length_fmap digit_char), <- Hds. unfold digits.
    pose proof (digits_fuel_length 16 (S (Z.to_nat (Z.log2 random))) random [] 32) as Hl.
    rewrite Nat.add_0_r in Hl. apply Hl; [lia| |lia]. unfold u128_max in Hr. lia. }
  assert (Hb : bytes ("credential-" +:+ zero_pad 32 (show_hex random))
    = bytes "credential-" ++ repeat 48 (32 - length ds) ++ (byte_of_ascii <$> (digit_char <$> ds))).
  { unfold zero_pad, show_hex. rewrite Hds, !bytes_app, !bytes_of_list. do 2 f_equal.
    rewrite <- (length_fmap digit_char ds).
    assert (E : forall l, String.length (String.string_of_list_ascii l) = length l)
      by (induction l; simpl; congruence).
    rewrite E. generalize (32 - length (digit_char <$> ds))%nat. by induction n; simpl; f_equal. }
  assert (Hsl : str_len ("credential-" +:+ zero_pad 32 (show_hex random)) <= 43).
  { rewrite <- length_bytes, Hb, !length_app, repeat_length, !length_fmap. simpl. lia. }
  rewrite bool_decide_eq_false_2 by lia.
  rewrite Hb, !forallb_app. rewrite negb_true_iff. unfold str_is_empty. simpl.
  apply negb_false_iff, andb_true_iff. split.
  - apply forallb_forall. intros b ->%repeat_spec. done.
  - apply forallb_forall. intros b Hin. apply list_elem_of_In, list_elem_of_fmap in Hin as (a & -> & Ha).
    apply list_elem_of_fmap in Ha as (d & -> & Hd). rewrite Forall_forall in Hall.
    apply Hall in Hd. unfold reference_byte_ok, is_ascii_alphanumeric.
    rewrite digit_byte by lia. destruct (d <? 10) eqn:?; lia.
Qed.

(** The stored secrets an authentication refers to. *)
Definition secrets_of (a : AuthConfig.t) : list SecretRef :=
  match a with
  | AuthConfig.Password r => [r]
  | AuthConfig.PrivateKey _ passphrase_ref => option_list passphrase_ref
  | _ => []
  end.

(** *** What the user asked for, told from the edits alone *)

Inductive AuthKind := UsesAgent | UsesKey | UsesPassword | UsesKeyboard.
#[export] Instance AuthKind_eq_dec : EqDecision AuthKind.
Proof. solve_decision. Defined.

Definition kind_of (a : AuthConfig.t) : AuthKind :=
  match a with
  | AuthConfig.Agent _ => UsesAgent
  | AuthConfig.PrivateKey _ _ => UsesKey
  | AuthConfig.Password _ => UsesPassword
  | AuthConfig.KeyboardInteractive => UsesKeyboard
  end.

(** The authentication picked last, and what was last typed into a field. *)
Definition picked (before : AuthKind) (edits : list HostEdit.t) : AuthKind :=
  foldl (fun k edit => match edit with
                       | HostEdit.ChooseAuth n => nth n [UsesAgent; UsesKey; UsesPassword] UsesKeyboard
                       | _ => k
                       end) before edits.
Definition last_typed (f : HostField.t) (before : string) (edits : list HostEdit.t) : string :=
  foldl (fun s edit => match edit with
                       | HostEdit.Type_ g text => if bool_decide (g = f) then text else s
                       | _ => s
                       end) before edits.

(** The secret typed for an authentication; the empty one is none. *)
Definition secret_typed (kind : AuthKind) (password passphrase : string) : string :=
  match kind with UsesPassword => password | UsesKey => passphrase | _ => "" end.

(** What an open form refers to: back at the kind of the opened jumper, that
    one's secrets; at another kind none yet. *)
Definition form_secrets (e : HostEditor) : Prop :=
  if decide (kind_of (he_original_auth e) = kind_of (he_auth e))
  then secrets_of (he_auth e) = secrets_of (he_original_auth e)
  else secrets_of (he_auth e) = [] \/ he_auth e = AuthConfig.Password (mkSecretRef "pending").

Lemma edit_form_keeps edit e :
  he_id (edit_form edit e) = he_id e /\ he_original_auth (edit_form edit e) = he_original_auth e
  /\ (form_secrets e -> form_secrets (edit_form edit e)).
Proof.
  destruct edit as [f s|kind|p]; [done| |done]. split_and!; [done|done|]. intros _.
  unfold form_secrets. cbn [edit_form set_he_auth he_auth he_original_auth].
  destruct kind as [|[|[|kind]]], (he_original_auth e) as [| | |]; cbn;
    case_decide; done || auto.
Qed.

Lemma edits_typed edits e :
  let e' := foldl (fun e edit => edit_form edit e) e edits in
  he_password e' = last_typed HostField.Password (he_password e) edits
  /\ he_passphrase e' = last_typed HostField.Passphrase (he_passphrase e) edits
  /\ kind_of (he_auth e') = picked (kind_of (he_auth e)) edits.
Proof.
  revert e. induction edits as [|edit edits IH]; intros e; [done|]. cbv zeta. cbn [foldl].
  destruct (IH (edit_form edit e)) as (-> & -> & ->). unfold last_typed, picked. cbn [foldl].
  split_and!; f_equal; destruct edit as [f text|kind|p]; try done.
  destruct kind as [|[|[|kind]]]; cbn; try done; [by destruct (he_original_auth e)..|by destruct kind].
Qed.

Lemma edit_form_policy edit e :
  he_policy (edit_form edit e)
  = match edit with HostEdit.ChoosePolicy p => p | _ => he_policy e end.
Proof. by destruct edit. Qed.

Lemma edits_keep edits e :
  let e' := foldl (fun e edit => edit_form edit e) e edits in
  he_id e' = he_id e /\ he_original_auth e' = he_original_auth e
  /\ (form_secrets e -> form_secrets e')
  /\ (he_policy e' = HostKeyPolicy.Bypass ->
        he_policy e = HostKeyPolicy.Bypass \/ HostEdit.ChoosePolicy HostKeyPolicy.Bypass ∈ edits).
Proof.
  revert e. induction edits as [|edit edits IH]; intros e; [split_and!; auto|].
  destruct (IH (edit_form edit e)) as (Hi & Ho & Hf & Hp), (edit_form_keeps edit e) as (Hi' & Ho' & Hf').
  cbn [foldl]. split_and!; [congruence|congruence|auto|]. intros HB. destruct (Hp HB) as [HB'|HB'].
  - rewrite edit_form_policy in HB'. destruct edit as [| |p]; auto. subst p. right. set_solver.
  - right. set_solver.
Qed.

Lemma collect_auth_secrets random e a upd :
  collect_auth random e = Ok (a, upd) ->
  let secret := secret_typed (kind_of (he_auth e)) (he_password e) (he_passphrase e) in
  kind_of a = kind_of (he_auth e)
  /\ match upd with
     | Some u => secret <> "" /\ u = mkSecretUpdate (new_secret_ref random) secret
                 /\ secrets_of a = [new_secret_ref random]
     | None => secret = "" /\ secrets_of a = secrets_of (he_auth e)
               /\ a <> AuthConfig.Password (mkSecretRef "pending")
               /\ he_auth e <> AuthConfig.Password (mkSecretRef "pending")
     end.
Proof.
  unfold collect_auth, str_is_empty. intros Hc.
  destruct (he_auth e) as [[r]|p pass|s|]; split_matches; bools; simplify_eq/=; split_and?; auto.
  all: naive_solver.
Qed.

Lemma collect_host_parts random e h upd :
  collect_host random e = Ok (h, upd) ->
  host_id h = he_id e /\ host_host_key_policy h = he_policy e
  /\ collect_auth random e = Ok (host_auth h, upd).
Proof.
  unfold collect_host, ok_or. intros Hc.
  destruct (parse_uint u16_max _); [|done]. destruct (collect_auth _ _) as [[a u]|]; [|done].
  do 3 (destruct (parse_uint _ _); [|done]). by simplify_eq/=.
Qed.


(** ** The jump chain *)

Definition transpose (i j k : nat) : nat :=
  if decide (k = i) then j else if decide (k = j) then i else k.

Lemma swap_lookup {A} i j k (l : list A) :
  (i < length l)%nat -> (j < length l)%nat -> swap i j l !! k = l !! transpose i j k.
Proof.
  intros Hi Hj. unfold swap, transpose.
  destruct (lookup_lt_is_Some_2 l i Hi) as [a Ha], (lookup_lt_is_Some_2 l j Hj) as [b Hb].
  rewrite Ha, Hb. destruct (decide (k = i)) as [->|].
  - rewrite list_lookup_insert_eq; [done|by rewrite length_insert].
  - rewrite list_lookup_insert_ne by done. destruct (decide (k = j)) as [->|].
    + by rewrite list_lookup_insert_eq.
    + by rewrite list_lookup_insert_ne.
Qed.

Lemma swap_perm {A} i j (l : list A) : swap i j l ≡ₚ l.
Proof.
  destruct (decide (i < length l /\ j < length l)%nat) as [[Hi Hj]|Hn].
  - apply Permutation_inj. split.
    { unfold swap. do 2 (destruct (l !! _); [|done]). by rewrite !length_insert. }
    exists (transpose i j). split; [|intros k; by apply swap_lookup].
    intros a b. unfold transpose. repeat case_decide; lia.
  - unfold swap. destruct (l !! i) eqn:Ei; [|done]. destruct (l !! j) eqn:Ej; [|done].
    apply lookup_lt_Some in Ei, Ej. tauto.
Qed.

Definition chain_ok (chain : list HostId) : Prop := NoDup chain /\ (length chain <= 16)%nat.

Lemma chain_ok_perm c c' : c' ≡ₚ c -> chain_ok c -> chain_ok c'.
Proof. intros Hp [Hn Hl]. split; [by rewrite Hp|by rewrite (Permutation_length Hp)]. Qed.

Lemma edit_tunnel_chain edit e :
  (chain_ok (te_jump_chain e) -> chain_ok (te_jump_chain (edit_tunnel_form edit e)))
  /\ forall h, h ∈ te_jump_chain (edit_tunnel_form edit e) ->
       h ∈ te_jump_chain e \/ edit = TunnelEdit.HopAdd h.
Proof.
  destruct edit as [f s|g|m|i|i|i|id|]; cbn; auto.
  - unfold hop_up. destruct (_ && _); auto. split; [apply chain_ok_perm, swap_perm|].
    intros h. rewrite swap_perm. auto.
  - unfold hop_down. case_bool_decide; auto. split; [apply chain_ok_perm, swap_perm|].
    intros h. rewrite swap_perm. auto.
  - unfold hop_remove. case_bool_decide as Hi; auto.
    destruct (lookup_lt_is_Some_2 _ _ Hi) as [x Hx].
    pose proof (delete_Permutation _ _ _ Hx) as Hp. split.
    + intros Hc. apply (chain_ok_perm _ _ (symmetry Hp)) in Hc as [Hn Hl].
      apply NoDup_cons in Hn as [_ Hn]. simpl in Hl. split; [done|lia].
    + intros h Hh. left. rewrite Hp. by right.
  - unfold hop_add. destruct (_ && _) eqn:E; auto. bools. split.
    + intros [Hn Hl]. split; [|rewrite length_app; simpl; lia].
      apply NoDup_app. split_and!; [done|set_solver|apply NoDup_singleton].
    + intros h. rewrite elem_of_app, list_elem_of_singleton. intros [? | ->]; auto.
Qed.

(** C39: The tunnel form keeps a jump chain valid. Whatever buttons are pressed and
    whatever is typed, from a chain of at most 16 different hops (a stored
    tunnel's or the empty one of a new tunnel) the form collects a tunnel whose
    chain has at most 16 different hops, each one of the opened tunnel's or one
    the user added; the tunnel keeps its identity, its retry policy, and has a
    remote end exactly when its mode needs one. *)
Theorem tunnel_form_chain `{InputState} id existing edits t :
  let e := foldl (fun e edit => edit_tunnel_form edit e) (TunnelEditor_new id existing) edits in
  chain_ok (map_or [] tunnel_jump_chain existing) -> collect_tunnel e = Ok t ->
  chain_ok (tunnel_jump_chain t)
  /\ (forall h, h ∈ tunnel_jump_chain t ->
        h ∈ map_or [] tunnel_jump_chain existing \/ TunnelEdit.HopAdd h ∈ edits)
  /\ tunnel_id t = id
  /\ tunnel_reconnect t = map_or RetryPolicy_default tunnel_reconnect existing
  /\ (tunnel_remote t = None <-> tunnel_mode t = TunnelMode.Dynamic).
Proof.
  intros e Hc Hcol.
  assert (Hkeep : forall e0 : TunnelEditor, let e' := foldl (fun e edit => edit_tunnel_form edit e) e0 edits in
    te_id e' = te_id e0 /\ te_reconnect e' = te_reconnect e0
    /\ (chain_ok (te_jump_chain e0) -> chain_ok (te_jump_chain e'))
    /\ forall h, h ∈ te_jump_chain e' -> h ∈ te_jump_chain e0 \/ TunnelEdit.HopAdd h ∈ edits).
  { clear. induction edits as [|edit edits IH]; intros e0; [split_and!; auto|].
    destruct (IH (edit_tunnel_form edit e0)) as (Hi & Hr & Hc & Hh), (edit_tunnel_chain edit e0) as [Hc' Hh'].
    cbn [foldl]. rewrite Hi, Hr. split_and!; [by destruct edit|by destruct edit|auto|].
    intros h [Hin|Hin]%Hh; [|right; set_solver]. destruct (Hh' h Hin) as [? | ->]; [auto|right; set_solver]. }
  destruct (Hkeep (TunnelEditor_new id existing)) as (Hi & Hr & Hch & Hh). fold e in Hi, Hr, Hch, Hh.
  unfold collect_tunnel, collect_remote in Hcol.
  destruct (ok_or (parse_uint _ (te_local_port e)) _); [|done].
  destruct (bool_decide_reflect (te_mode e = TunnelMode.Dynamic)) as [Hm|Hm].
  - simplify_eq/=. rewrite Hm. split_and!; done || auto.
  - destruct (ok_or (parse_uint _ (te_remote_port e)) _); [|done]. simplify_eq/=. split_and!; try done; auto.
Qed.

(** ** Witnesses *)

Module ToyInput.
#[global] Instance input_state : InputState := {| default_value := fun s => s |}.
#[global] Instance input_state_laws : InputStateLaws.
Proof. done. Qed.
End ToyInput.
Import ToyInput.

Definition example_host : SshHost := {|
  host_id := mkHostId "h"; host_name := "Bastion"; host_hostname := "bastion.example"; host_port := 22;
  host_username := "u"; host_auth := AuthConfig.PrivateKey "/keys/id" (Some (mkSecretRef "pass"));
  host_host_key_policy := HostKeyPolicy.Strict; host_connect_timeout := 8000000000;
  host_keepalive_interval := 10000000000; host_keepalive_max := 3; host_notes := "" |}.
Definition example_tunnel : TunnelConfig :=
  mkTunnelConfig (mkTunnelId "t") "DB" None TunnelMode.Local [mkHostId "h"]
    (mkLocalEndpoint "127.0.0.1" 5432) (Some (mkRemoteEndpoint "db" 5432)) true RetryPolicy_default "".

Theorem unchanged_form_saves_the_same_witness :
  collect_host 0 (HostEditor_new (host_id example_host) (Some example_host)) = Ok (example_host, None).
Proof.
  apply (unchanged_form_saves_the_same 0 example_host example_tunnel).
  - assert (Ht : forall s, trim s = s -> single_line s -> tidy s) by done.
    split; [by apply Ht; vm_compute|by apply Ht; vm_compute|by apply Ht; vm_compute|reflexivity
      |unfold u16, u16_max; cbn; lia|split; vm_compute; reflexivity
      |apply (whole_from_millis 8000); unfold u64, u64_max; lia
      |apply (whole_from_millis 10000); unfold u64, u64_max; lia|unfold u32, u32_max; cbn; lia].
  - assert (Ht : forall s, trim s = s -> single_line s -> tidy s) by done.
    split; [by apply Ht; vm_compute|by apply Ht; vm_compute|unfold u16, u16_max; cbn; lia| |reflexivity].
    split; [discriminate|]. split; [by apply Ht; vm_compute|unfold u16, u16_max; cbn; lia].
Defined.

(** A new password is typed for the jumper, and a passphrase left over from a
    key it was first given. *)
Definition password_edits : list HostEdit.t :=
  [HostEdit.Type_ HostField.Passphrase "left over"; HostEdit.ChooseAuth 2;
   HostEdit.Type_ HostField.Password "secret"].
Definition password_typed : result (SshHost * option SecretUpdate) string :=
  collect_host 7 (foldl (fun e edit => edit_form edit e)
    (HostEditor_new (host_id example_host) (Some example_host)) password_edits).


Theorem tunnel_form_chain_witness :
  exists t, collect_tunnel (foldl (fun e edit => edit_tunnel_form edit e)
      (TunnelEditor_new (mkTunnelId "t") (Some example_tunnel))
      [TunnelEdit.HopAdd (mkHostId "k"); TunnelEdit.HopAdd (mkHostId "h")]) = Ok t
    /\ chain_ok (tunnel_jump_chain t).
Proof.
  destruct (collect_tunnel (foldl (fun e edit => edit_tunnel_form edit e)
      (TunnelEditor_new (mkTunnelId "t") (Some example_tunnel))
      [TunnelEdit.HopAdd (mkHostId "k"); TunnelEdit.HopAdd (mkHostId "h")])) as [t|] eqn:E; [|by vm_compute in E].
  exists t. split; [done|].
  apply (tunnel_form_chain (mkTunnelId "t") (Some example_tunnel)
    [TunnelEdit.HopAdd (mkHostId "k"); TunnelEdit.HopAdd (mkHostId "h")] t); [|exact E].
  split; [apply NoDup_singleton|simpl; lia].
Defined.
