(* ===== verification/Document.v ===== *)
(** * Document: between the text of a configuration file and the document
    (crates/config-store/src/schema.rs, with the data of crates/tunnel-domain).

    The serde attributes of schema.rs say how a table of a TOML file becomes a
    record and back: which keys a table may have, which of them may be absent
    and what they then are, and which are left out. Here they are functions
    between documents and tables. The syntax of TOML - the text of a table - is
    the class [TomlSyntax]; from it, this file makes the class [Toml] that the
    store uses, and proves its laws. *)
From S2P Require Import Prelude Io Text Net Domain Validation Path Schema Fs Store Editor.

(** ** Tables *)

(** Floats and dates stand for themselves: no field has them. *)
Inductive toml_value :=
  | VString (s : string)
  | VInteger (n : Z)
  | VBoolean (b : bool)
  | VFloat (text : string)
  | VDatetime (text : string)
  | VArray (l : list toml_value)
  | VTable (t : list (string * toml_value)).

Notation table := (list (string * toml_value)).

(** The same value up to the order of the keys of its tables. *)
Inductive same_value : toml_value -> toml_value -> Prop :=
  | same_refl v : same_value v v
  | same_array l l' : Forall2 same_value l l' -> same_value (VArray l) (VArray l')
  | same_tables t t0 t' :
      Forall2 (fun a b => a.1 = b.1 /\ same_value a.2 b.2) t t0 -> t0 ≡ₚ t' ->
      same_value (VTable t) (VTable t').

Definition same_table (t t' : table) : Prop := same_value (VTable t) (VTable t').

Module DeError.
(** [serde::de::Error] *)
Inductive t :=
  | InvalidType (unexpected : toml_value) (expected : string)
  | InvalidValue (unexpected : Z) (expected : string)
  | UnknownVariant (variant : string)
  | UnknownField (field : string)
  | MissingField (field : string)
  | DuplicateField (field : string)
  | Custom (text : string).
End DeError.
Import DeError.

(** The toml crate: the syntax, the texts of errors, and what it shows a derived
    visitor of a value that is not simply a string or a table. *)
Class TomlSyntax := {
  parse_table : string -> result table string;
  print_table : table -> result string string;
  error_text : string -> DeError.t -> string;
  struct_entries : toml_value -> result table DeError.t;
  unit_variant : toml_value -> result string DeError.t
}.

(** What is printed is UTF-8 and parses to the same table; a table is shown as
    its entries, a string as the variant of its name. *)
Class TomlSyntaxLaws `{TomlSyntax} : Prop := {
  print_utf8 t text : print_table t = Ok text -> from_utf8_ok (bytes text) = true;
  print_parses t text : print_table t = Ok text ->
    exists t', parse_table text = Ok t' /\ same_table t t';
  table_entries t : struct_entries (VTable t) = Ok t;
  string_variant s : unit_variant (VString s) = Ok s
}.

(** ** Values of fields *)

(** A type with its derived, or the library's, [Serialize] and [Deserialize];
    [fits]: what the Rust type can hold. *)
Class Serde `{TomlSyntax} (A : Type) := {
  to_value : A -> toml_value;
  from_value : toml_value -> result A DeError.t;
  fits : A -> Prop
}.

(** A value is read back from any order of its keys, and what is read fits. *)
Class SerdeLaws `{TomlSyntax} (A : Type) `{!Serde A} : Prop := {
  reads (x : A) v : fits x -> same_value (to_value x) v -> from_value v = Ok x;
  read_fits v (x : A) : from_value v = Ok x -> fits x
}.

Section Scalars.
Context `{TomlSyntax}.

#[export] Instance string_serde : Serde string := {|
  to_value := VString;
  from_value v := match v with VString s => Ok s | v => Err (InvalidType v "a string") end;
  fits _ := True
|}.

#[export] Instance bool_serde : Serde bool := {|
  to_value := VBoolean;
  from_value v := match v with VBoolean b => Ok b | v => Err (InvalidType v "a boolean") end;
  fits _ := True
|}.

(** An unsigned integer type with largest value [max]. *)
Definition uint_serde (max : Z) (name : string) : Serde Z := {|
  to_value := VInteger;
  from_value v :=
    match v with
    | VInteger n => if bool_decide (0 <= n <= max) then Ok n else Err (InvalidValue n name)
    | v => Err (InvalidType v name)
    end;
  fits n := 0 <= n <= max
|}.

Fixpoint read_all {A} (f : toml_value -> result A DeError.t) (l : list toml_value)
    : result (list A) DeError.t :=
  match l with
  | [] => Ok []
  | v :: l =>
      let? x := f v in
      let? xs := read_all f l in
      Ok (x :: xs)
  end.

#[export] Instance list_serde {A} `{!Serde A} : Serde (list A) := {|
  to_value l := VArray (to_value <$> l);
  from_value v := match v with VArray l => read_all from_value l | v => Err (InvalidType v "a sequence") end;
  fits := Forall fits
|}.

(** A fieldless enum under [rename_all = "snake_case"], from the names of its
    variants. *)
Definition variant_serde {A} `{EqDecision A} (names : list (string * A)) : Serde A := {|
  to_value x := VString (from_option fst "" (find (fun p => bool_decide (p.2 = x)) names));
  from_value v :=
    let? s := unit_variant v in
    match find (fun p => bool_decide (p.1 = s)) names with
    | Some (_, x) => Ok x
    | None => Err (UnknownVariant s)
    end;
  fits _ := True
|}.

#[export] Instance theme_serde : Serde ThemePreference.t :=
  variant_serde [("system", ThemePreference.System); ("light", ThemePreference.Light);
                 ("dark", ThemePreference.Dark)].
#[export] Instance auth_type_serde : Serde AuthType.t :=
  variant_serde [("password", AuthType.Password); ("private_key", AuthType.PrivateKey);
                 ("agent", AuthType.Agent); ("keyboard_interactive", AuthType.KeyboardInteractive)].
#[export] Instance host_key_policy_serde : Serde HostKeyPolicy.t :=
  variant_serde [("strict", HostKeyPolicy.Strict); ("bypass", HostKeyPolicy.Bypass)].
#[export] Instance mode_serde : Serde TunnelMode.t :=
  variant_serde [("local", TunnelMode.Local); ("remote", TunnelMode.Remote);
                 ("dynamic", TunnelMode.Dynamic)].

Definition as_u8 := uint_serde u8_max "u8".
Definition as_u16 := uint_serde u16_max "u16".
Definition as_u32 := uint_serde u32_max "u32".
Definition as_u64 := uint_serde u64_max "u64".
End Scalars.

(** ** Structs *)

Fixpoint assoc {A} (key : string) (l : list (string * A)) : option A :=
  match l with
  | [] => None
  | (k, a) :: l => if bool_decide (k = key) then Some a else assoc key l
  end.

Section Structs.
Context `{TomlSyntax}.

(** A key of a struct, with the deserialiser of its value. *)
Definition expects {A} (S : Serde A) (name : string) : string * (toml_value -> result unit DeError.t) :=
  (name, fun v => result_map (fun _ => tt) (from_value v)).

(** The loop over the entries: an unknown key ([deny_unknown_fields]), a key
    that comes twice, and a value its field cannot hold end it. *)
Fixpoint visit_map (known : list (string * (toml_value -> result unit DeError.t)))
    (seen : list string) (t : table) : result unit DeError.t :=
  match t with
  | [] => Ok tt
  | (key, v) :: t =>
      match assoc key known with
      | None => Err (UnknownField key)
      | Some check =>
          if bool_decide (key ∈ seen) then Err (DuplicateField key)
          else
            let? _ := check v in
            visit_map known (key :: seen) t
      end
  end.

(** A field that must be there; one with a default; one that is an [Option]. *)
Definition required {A} (S : Serde A) (t : table) (name : string) : result A DeError.t :=
  match assoc name t with Some v => from_value v | None => Err (MissingField name) end.
Definition default_to {A} (S : Serde A) (d : A) (t : table) (name : string) : result A DeError.t :=
  match assoc name t with Some v => from_value v | None => Ok d end.
Definition optional {A} (S : Serde A) (t : table) (name : string) : result (option A) DeError.t :=
  match assoc name t with Some v => result_map Some (from_value v) | None => Ok None end.

(** The entry of a field; that of a field under [skip_serializing_if]. *)
Definition entry {A} (S : Serde A) (name : string) (x : A) : table := [(name, to_value x)].
Definition entry_if {A} (S : Serde A) (name : string) (o : option A) : table :=
  match o with Some x => entry S name x | None => [] end.

Definition app_fields : list (string * (toml_value -> result unit DeError.t)) :=
  [expects theme_serde "theme"; expects bool_serde "run_at_startup";
   expects bool_serde "minimize_to_tray"; expects bool_serde "traffic_monitor"].

Definition app_table (a : AppSettings) : table :=
  entry theme_serde "theme" (theme a) ++ entry bool_serde "run_at_startup" (run_at_startup a)
  ++ entry bool_serde "minimize_to_tray" (minimize_to_tray a)
  ++ entry bool_serde "traffic_monitor" (traffic_monitor a).

(** [#[serde(default)]]: an absent field is that of the default. *)
Definition app_from (v : toml_value) : result AppSettings DeError.t :=
  let d := AppSettings_default in
  let? t := struct_entries v in
  let? _ := visit_map app_fields [] t in
  let? theme := default_to theme_serde (theme d) t "theme" in
  let? run_at_startup := default_to bool_serde (run_at_startup d) t "run_at_startup" in
  let? minimize_to_tray := default_to bool_serde (minimize_to_tray d) t "minimize_to_tray" in
  let? traffic_monitor := default_to bool_serde (traffic_monitor d) t "traffic_monitor" in
  Ok (mkAppSettings theme run_at_startup minimize_to_tray traffic_monitor).

#[export] Instance app_serde : Serde AppSettings :=
  {| to_value a := VTable (app_table a); from_value := app_from; fits _ := True |}.

Definition default_ssh_port : Z := 22.
Definition default_connect_timeout_ms : Z := 8000.
Definition default_keepalive_interval_ms : Z := 10000.
Definition default_keepalive_max : Z := 3.
Definition default_reconnect_base_ms : Z := 1000.
Definition default_reconnect_max_ms : Z := 30000.
Definition default_reconnect_reset_ms : Z := 60000.
Definition default_reconnect_jitter_percent : Z := 20.

Definition host_fields : list (string * (toml_value -> result unit DeError.t)) :=
  [expects string_serde "id"; expects string_serde "name"; expects string_serde "hostname";
   expects as_u16 "port"; expects string_serde "username"; expects auth_type_serde "auth_type";
   expects string_serde "credential_ref"; expects string_serde "identity_file";
   expects string_serde "passphrase_ref"; expects string_serde "agent_socket";
   expects host_key_policy_serde "host_key_policy"; expects as_u64 "connect_timeout_ms";
   expects as_u64 "keepalive_interval_ms"; expects as_u32 "keepalive_max";
   expects string_serde "notes"].

Definition host_table (r : HostRecord) : table :=
  entry string_serde "id" (hr_id r) ++ entry string_serde "name" (hr_name r)
  ++ entry string_serde "hostname" (hr_hostname r) ++ entry as_u16 "port" (hr_port r)
  ++ entry string_serde "username" (hr_username r)
  ++ entry auth_type_serde "auth_type" (hr_auth_type r)
  ++ entry_if string_serde "credential_ref" (hr_credential_ref r)
  ++ entry_if string_serde "identity_file" (hr_identity_file r)
  ++ entry_if string_serde "passphrase_ref" (hr_passphrase_ref r)
  ++ entry_if string_serde "agent_socket" (hr_agent_socket r)
  ++ entry host_key_policy_serde "host_key_policy" (hr_host_key_policy r)
  ++ entry as_u64 "connect_timeout_ms" (hr_connect_timeout_ms r)
  ++ entry as_u64 "keepalive_interval_ms" (hr_keepalive_interval_ms r)
  ++ entry as_u32 "keepalive_max" (hr_keepalive_max r) ++ entry string_serde "notes" (hr_notes r).

Definition host_from (v : toml_value) : result HostRecord DeError.t :=
  let? t := struct_entries v in
  let? _ := visit_map host_fields [] t in
  let? id := required string_serde t "id" in
  let? name := required string_serde t "name" in
  let? hostname := required string_serde t "hostname" in
  let? port := default_to as_u16 default_ssh_port t "port" in
  let? username := required string_serde t "username" in
  let? auth_type := required auth_type_serde t "auth_type" in
  let? credential_ref := optional string_serde t "credential_ref" in
  let? identity_file := optional string_serde t "identity_file" in
  let? passphrase_ref := optional string_serde t "passphrase_ref" in
  let? agent_socket := optional string_serde t "agent_socket" in
  let? policy := default_to host_key_policy_serde HostKeyPolicy.Strict t "host_key_policy" in
  let? timeout := default_to as_u64 default_connect_timeout_ms t "connect_timeout_ms" in
  let? interval := default_to as_u64 default_keepalive_interval_ms t "keepalive_interval_ms" in
  let? max := default_to as_u32 default_keepalive_max t "keepalive_max" in
  let? notes := default_to string_serde "" t "notes" in
  Ok (mkHostRecord id name hostname port username auth_type credential_ref identity_file
        passphrase_ref agent_socket policy timeout interval max notes).

Definition host_fits (r : HostRecord) : Prop :=
  u16 (hr_port r) /\ u64 (hr_connect_timeout_ms r) /\ u64 (hr_keepalive_interval_ms r)
  /\ u32 (hr_keepalive_max r).

#[export] Instance host_serde : Serde HostRecord :=
  {| to_value r := VTable (host_table r); from_value := host_from; fits := host_fits |}.

Definition group_fields : list (string * (toml_value -> result unit DeError.t)) :=
  [expects string_serde "id"; expects string_serde "name"; expects as_u32 "sort_order"].

Definition group_table (r : GroupRecord) : table :=
  entry string_serde "id" (gr_id r) ++ entry string_serde "name" (gr_name r)
  ++ entry as_u32 "sort_order" (gr_sort_order r).

Definition group_from (v : toml_value) : result GroupRecord DeError.t :=
  let? t := struct_entries v in
  let? _ := visit_map group_fields [] t in
  let? id := required string_serde t "id" in
  let? name := required string_serde t "name" in
  let? sort_order := default_to as_u32 0 t "sort_order" in
  Ok (mkGroupRecord id name sort_order).

#[export] Instance group_serde : Serde GroupRecord :=
  {| to_value r := VTable (group_table r); from_value := group_from; fits r := u32 (gr_sort_order r) |}.

Definition tunnel_fields : list (string * (toml_value -> result unit DeError.t)) :=
  [expects string_serde "id"; expects string_serde "name"; expects string_serde "group_id";
   expects mode_serde "mode"; expects (list_serde (A := string)) "jump_chain"; expects string_serde "local_host";
   expects as_u16 "local_port"; expects string_serde "remote_host"; expects as_u16 "remote_port";
   expects bool_serde "auto_start"; expects as_u64 "reconnect_base_ms";
   expects as_u64 "reconnect_max_ms"; expects as_u64 "reconnect_reset_ms";
   expects as_u8 "reconnect_jitter_percent"; expects string_serde "description"].

Definition tunnel_table (r : TunnelRecord) : table :=
  entry string_serde "id" (tr_id r) ++ entry string_serde "name" (tr_name r)
  ++ entry_if string_serde "group_id" (tr_group_id r) ++ entry mode_serde "mode" (tr_mode r)
  ++ entry list_serde "jump_chain" (tr_jump_chain r)
  ++ entry string_serde "local_host" (tr_local_host r) ++ entry as_u16 "local_port" (tr_local_port r)
  ++ entry_if string_serde "remote_host" (tr_remote_host r)
  ++ entry_if as_u16 "remote_port" (tr_remote_port r)
  ++ entry bool_serde "auto_start" (tr_auto_start r)
  ++ entry as_u64 "reconnect_base_ms" (tr_reconnect_base_ms r)
  ++ entry as_u64 "reconnect_max_ms" (tr_reconnect_max_ms r)
  ++ entry as_u64 "reconnect_reset_ms" (tr_reconnect_reset_ms r)
  ++ entry as_u8 "reconnect_jitter_percent" (tr_reconnect_jitter_percent r)
  ++ entry string_serde "description" (tr_description r).

Definition tunnel_from (v : toml_value) : result TunnelRecord DeError.t :=
  let? t := struct_entries v in
  let? _ := visit_map tunnel_fields [] t in
  let? id := required string_serde t "id" in
  let? name := required string_serde t "name" in
  let? group_id := optional string_serde t "group_id" in
  let? mode := required mode_serde t "mode" in
  let? jump_chain := required list_serde t "jump_chain" in
  let? local_host := required string_serde t "local_host" in
  let? local_port := required as_u16 t "local_port" in
  let? remote_host := optional string_serde t "remote_host" in
  let? remote_port := optional as_u16 t "remote_port" in
  let? auto_start := default_to bool_serde false t "auto_start" in
  let? base := default_to as_u64 default_reconnect_base_ms t "reconnect_base_ms" in
  let? max := default_to as_u64 default_reconnect_max_ms t "reconnect_max_ms" in
  let? reset := default_to as_u64 default_reconnect_reset_ms t "reconnect_reset_ms" in
  let? jitter := default_to as_u8 default_reconnect_jitter_percent t "reconnect_jitter_percent" in
  let? description := default_to string_serde "" t "description" in
  Ok (mkTunnelRecord id name group_id mode jump_chain local_host local_port remote_host remote_port
        auto_start base max reset jitter description).

Definition tunnel_fits (r : TunnelRecord) : Prop :=
  u16 (tr_local_port r) /\ (forall port, tr_remote_port r = Some port -> u16 port)
  /\ u64 (tr_reconnect_base_ms r) /\ u64 (tr_reconnect_max_ms r) /\ u64 (tr_reconnect_reset_ms r)
  /\ u8 (tr_reconnect_jitter_percent r).

#[export] Instance tunnel_serde : Serde TunnelRecord :=
  {| to_value r := VTable (tunnel_table r); from_value := tunnel_from; fits := tunnel_fits |}.

Definition document_fields : list (string * (toml_value -> result unit DeError.t)) :=
  [expects as_u32 "schema_version"; expects app_serde "app";
   expects (list_serde (A := HostRecord)) "hosts"; expects (list_serde (A := GroupRecord)) "groups";
   expects (list_serde (A := TunnelRecord)) "tunnels"].

Definition document_table (d : ConfigDocument) : table :=
  entry as_u32 "schema_version" (schema_version d) ++ entry app_serde "app" (doc_app d)
  ++ entry list_serde "hosts" (doc_hosts d) ++ entry list_serde "groups" (doc_groups d)
  ++ entry list_serde "tunnels" (doc_tunnels d).

Definition document_from (v : toml_value) : result ConfigDocument DeError.t :=
  let? t := struct_entries v in
  let? _ := visit_map document_fields [] t in
  let? schema_version := required as_u32 t "schema_version" in
  let? app := default_to app_serde AppSettings_default t "app" in
  let? hosts := default_to list_serde [] t "hosts" in
  let? groups := default_to list_serde [] t "groups" in
  let? tunnels := default_to list_serde [] t "tunnels" in
  Ok (mkConfigDocument schema_version app hosts groups tunnels).

Definition document_fits (d : ConfigDocument) : Prop :=
  u32 (schema_version d) /\ Forall host_fits (doc_hosts d)
  /\ Forall (fun r => u32 (gr_sort_order r)) (doc_groups d) /\ Forall tunnel_fits (doc_tunnels d).

#[export] Instance document_serde : Serde ConfigDocument :=
  {| to_value d := VTable (document_table d); from_value := document_from; fits := document_fits |}.
End Structs.

(** ** Scalars and lists are read back *)

Section ScalarLaws.
Context `{TomlSyntaxLaws}.

#[export] Instance string_laws : SerdeLaws string (Serde0 := string_serde).
Proof. split; [|done]. intros x v _ Hv. by inversion Hv. Qed.

#[export] Instance bool_laws : SerdeLaws bool (Serde0 := bool_serde).
Proof. split; [|done]. intros x v _ Hv. by inversion Hv. Qed.

Lemma uint_laws max name : SerdeLaws Z (Serde0 := uint_serde max name).
Proof.
  split.
  - intros x v Hx Hv. inversion Hv; subst. cbn in *. by rewrite bool_decide_eq_true_2.
  - intros [] x; cbn; try done. case_bool_decide; [|done]. by intros [= <-].
Qed.

#[export] Instance u8_laws : SerdeLaws Z (Serde0 := as_u8).
Proof. apply uint_laws. Qed.
#[export] Instance u16_laws : SerdeLaws Z (Serde0 := as_u16).
Proof. apply uint_laws. Qed.
#[export] Instance u32_laws : SerdeLaws Z (Serde0 := as_u32).
Proof. apply uint_laws. Qed.
#[export] Instance u64_laws : SerdeLaws Z (Serde0 := as_u64).
Proof. apply uint_laws. Qed.

#[export] Instance list_laws {A} `{!Serde A, !SerdeLaws A} : SerdeLaws (list A) (Serde0 := list_serde).
Proof.
  split.
  - intros l v Hl Hv. assert (exists k, v = VArray k /\ Forall2 same_value (to_value <$> l) k) as (k & -> & Hk).
    { inversion Hv; subst; [|by eauto]. eexists. split; [done|]. clear. induction (to_value <$> l); constructor; [constructor|done]. }
    clear Hv. cbn in *. revert k Hk. induction Hl as [|x l Hx Hl IH]; intros k Hk; cbn in Hk.
    + by inversion Hk.
    + apply Forall2_cons_inv_l in Hk as (v & k' & Hv & Hk & ->). cbn. by rewrite (reads x v Hx Hv), (IH k' Hk).
  - intros [| | | | |k|] l; cbn; try done. revert l. induction k as [|v k IH]; intros l; cbn.
    + intros [= <-]. constructor.
    + destruct (from_value v) as [x|] eqn:Ex; cbn; [|done]. destruct (read_all from_value k) as [xs|]; cbn; [|done].
      intros [= <-]. constructor; [by eapply read_fits|by apply IH].
Qed.

Lemma variant_laws {A} `{EqDecision A} (names : list (string * A)) :
  (forall x, exists s, find (fun p => bool_decide (p.2 = x)) names = Some (s, x)
     /\ find (fun p => bool_decide (p.1 = s)) names = Some (s, x)) ->
  SerdeLaws A (Serde0 := variant_serde names).
Proof.
  intros Hn. split; [|done]. intros x v _ Hv. cbn in *. destruct (Hn x) as (s & Hs & Hx). rewrite Hs in Hv. cbn in Hv.
  inversion Hv; subst. rewrite string_variant. cbn. by rewrite Hx.
Qed.

Ltac by_names := apply variant_laws; intros []; eexists; split; reflexivity.
#[export] Instance theme_laws : SerdeLaws ThemePreference.t (Serde0 := theme_serde).
Proof. by_names. Qed.
#[export] Instance auth_type_laws : SerdeLaws AuthType.t (Serde0 := auth_type_serde).
Proof. by_names. Qed.
#[export] Instance host_key_policy_laws : SerdeLaws HostKeyPolicy.t (Serde0 := host_key_policy_serde).
Proof. by_names. Qed.
#[export] Instance mode_laws : SerdeLaws TunnelMode.t (Serde0 := mode_serde).
Proof. by_names. Qed.
End ScalarLaws.

(** ** Structs are read back *)

Lemma assoc_in {A} key (l : list (string * A)) a : assoc key l = Some a -> (key, a) ∈ l.
Proof.
  induction l as [|[k b] l IH]; cbn; [done|]. case_bool_decide; [intros [= ->]; subst; left|].
  intros Ha. right. by apply IH.
Qed.

Lemma assoc_unique {A} key (l : list (string * A)) a :
  NoDup l.*1 -> (key, a) ∈ l -> assoc key l = Some a.
Proof.
  induction l as [|[k b] l IH]; cbn; [by intros _ ?%elem_of_nil|]. intros [Hk Hnd]%NoDup_cons [Hin|Hin]%elem_of_cons.
  - injection Hin as -> ->. by rewrite bool_decide_eq_true_2.
  - rewrite bool_decide_eq_false_2; [by apply IH|]. intros ->. apply Hk. by apply (list_elem_of_fmap_2 fst) in Hin.
Qed.

Lemma assoc_none {A} key (l : list (string * A)) : assoc key l = None <-> key ∉ l.*1.
Proof.
  induction l as [|[k b] l IH]; cbn; [by split; [intros _ ?%elem_of_nil|]|]. rewrite not_elem_of_cons.
  case_bool_decide; [naive_solver|]. rewrite IH. naive_solver.
Qed.

(** A table in another order. *)
Lemma same_table_keys t t' : same_table t t' -> t.*1 ≡ₚ t'.*1.
Proof.
  intros Hs. inversion Hs as [|?|? t0 ? H2 Hp]; subst; [done|]. rewrite <-Hp.
  clear Hs Hp. induction H2 as [|[] [] ? ? [Hk _] ? IH]; [done|]. cbn in *. by rewrite Hk, IH.
Qed.

Lemma same_table_entry t t' key v' :
  same_table t t' -> (key, v') ∈ t' -> exists v, (key, v) ∈ t /\ same_value v v'.
Proof.
  intros Hs Hin. inversion Hs as [|?|? t0 ? H2 Hp]; subst; [exists v'; split; [done|constructor]|].
  rewrite <-Hp in Hin. apply list_elem_of_lookup in Hin as [i Hi].
  destruct (Forall2_lookup_r _ _ _ _ _ H2 Hi) as ([k v] & Hv & Hk & Hsv). cbn in *. subst.
  exists v. split; [by eapply list_elem_of_lookup_2|done].
Qed.

Lemma same_table_assoc t t' key v :
  NoDup t.*1 -> same_table t t' -> assoc key t = Some v ->
  exists v', assoc key t' = Some v' /\ same_value v v'.
Proof.
  intros Hnd Hs Ha. pose proof (same_table_keys _ _ Hs) as Hk.
  assert (Hin : key ∈ t'.*1) by (rewrite <-Hk; by apply assoc_in, (list_elem_of_fmap_2 fst) in Ha).
  apply list_elem_of_fmap in Hin as ([k v'] & -> & Hin). exists v'. split.
  - apply assoc_unique; [by rewrite <-Hk|done].
  - destruct (same_table_entry _ _ _ _ Hs Hin) as (w & Hw & Hsv). apply assoc_unique in Hw; [|done]. cbn in *. congruence.
Qed.

Section StructLaws.
Context `{TomlSyntaxLaws}.

(** What a field of this key can hold is what it is given. *)
Definition expected (known : list (string * (toml_value -> result unit DeError.t)))
    (e : string * toml_value) : Prop :=
  exists check, assoc e.1 known = Some check /\ forall v', same_value e.2 v' -> check v' = Ok tt.

Lemma visit_expected known seen t t' :
  NoDup t.*1 -> (forall k, k ∈ t.*1 -> k ∉ seen) -> Forall (expected known) t -> same_table t t' ->
  visit_map known seen t' = Ok tt.
Proof.
  intros Hnd Hseen Hex Hs. pose proof (same_table_keys _ _ Hs) as Hk. rewrite Hk in Hnd.
  assert (Hin : forall k v', (k, v') ∈ t' -> exists check, assoc k known = Some check /\ check v' = Ok tt).
  { intros k v' Hin. destruct (same_table_entry _ _ _ _ Hs Hin) as (v & Hv & Hsv).
    rewrite Forall_forall in Hex. destruct (Hex _ Hv) as (check & ? & ?). eauto. }
  assert (Hseen' : forall k, k ∈ t'.*1 -> k ∉ seen) by (intros k; rewrite <-Hk; apply Hseen).
  clear -Hin Hnd Hseen'. revert seen Hseen'. induction t' as [|[k v] t' IH]; intros seen Hseen'; cbn; [done|].
  cbn in Hnd. apply NoDup_cons in Hnd as [Hk Hnd].
  destruct (Hin k v ltac:(left)) as (check & -> & Hc).
  rewrite bool_decide_eq_false_2 by (apply Hseen'; left). rewrite Hc. cbn. apply IH; [done| |].
  - intros k' v' Hin'. apply Hin. by right.
  - intros k' Hk'. apply not_elem_of_cons. split; [by intros ->|]. apply Hseen'. by right.
Qed.

Context {A} (S : Serde A) `{!SerdeLaws A}.

Lemma expects_entry known name x :
  fits x -> assoc name known = Some (expects S name).2 -> expected known (name, to_value x).
Proof.
  intros Hx Hk. eexists. split; [exact Hk|]. intros v' Hs. cbn in *. by rewrite (reads x v' Hx Hs).
Qed.

Lemma present t t' name x :
  NoDup t.*1 -> same_table t t' -> assoc name t = Some (to_value x) -> fits x ->
  exists v, assoc name t' = Some v /\ from_value v = Ok x.
Proof.
  intros Hnd Hs Ha Hx. destruct (same_table_assoc _ _ _ _ Hnd Hs Ha) as (v & Hv & Hsv).
  exists v. split; [done|]. by apply reads.
Qed.

Lemma required_reads t t' name x :
  NoDup t.*1 -> same_table t t' -> assoc name t = Some (to_value x) -> fits x ->
  required S t' name = Ok x.
Proof. intros Hnd Hs Ha Hx. unfold required. by destruct (present _ _ _ _ Hnd Hs Ha Hx) as (v & -> & ?). Qed.

Lemma default_reads d t t' name x :
  NoDup t.*1 -> same_table t t' -> assoc name t = Some (to_value x) -> fits x ->
  default_to S d t' name = Ok x.
Proof. intros Hnd Hs Ha Hx. unfold default_to. by destruct (present _ _ _ _ Hnd Hs Ha Hx) as (v & -> & ?). Qed.

Lemma optional_reads t t' name o :
  NoDup t.*1 -> same_table t t' -> assoc name t = to_value <$> o -> (forall x, o = Some x -> fits x) ->
  optional S t' name = Ok o.
Proof.
  intros Hnd Hs Ha Hx. unfold optional. destruct o as [x|]; cbn in Ha.
  - destruct (present _ _ _ _ Hnd Hs Ha (Hx x eq_refl)) as (v & -> & ->). done.
  - apply assoc_none in Ha. rewrite (same_table_keys _ _ Hs) in Ha. by apply assoc_none in Ha as ->.
Qed.

Lemma required_fits t name x : required S t name = Ok x -> fits x.
Proof. unfold required. destruct (assoc name t); [apply read_fits|done]. Qed.
Lemma default_fits d t name x : fits d -> default_to S d t name = Ok x -> fits x.
Proof. unfold default_to. destruct (assoc name t); [intros _; apply read_fits|by intros ? [= <-]]. Qed.
Lemma optional_fits t name o x : optional S t name = Ok o -> o = Some x -> fits x.
Proof.
  unfold optional. destruct (assoc name t) as [v|]; [|by intros [= <-]].
  destruct (from_value v) eqn:E; cbn; [|done]. intros [= <-] [= <-]. by eapply read_fits.
Qed.
End StructLaws.

(** A struct's table: each key once. *)
Ltac keys_differ := apply (bool_decide_eq_true_1 (NoDup _)); vm_compute; reflexivity.

(** An optional entry is there or not. *)
Ltac by_options :=
  repeat match goal with o : option _ |- _ => destruct o end;
  first [reflexivity|keys_differ].

(** The next field is read from [t'], the table [T] in another order, as [x]. *)
Ltac reads_field T Hnd Hs x :=
  match goal with
  | |- match ?r with Ok _ => _ | Err _ => _ end = _ =>
      let H := fresh in
      assert (H : r = Ok x); [
        first [apply (required_reads _ T)|apply (default_reads _ _ T)|apply (optional_reads _ T)];
        [exact Hnd|exact Hs|clear; by_options|first [done|naive_solver]]
      |rewrite H; clear H; cbv beta iota]
  end.

Ltac expected_entries :=
  lazymatch goal with
  | |- Forall _ (_ ++ _) => apply Forall_app_2; expected_entries
  | |- Forall _ (entry_if ?S ?n (Some ?x)) => change (entry_if S n (Some x)) with (entry S n x); expected_entries
  | |- Forall _ (entry_if _ _ None) => apply Forall_nil; exact I
  | |- Forall _ (entry_if _ _ ?o) => destruct o; expected_entries
  | |- Forall _ (entry _ _ _) => apply Forall_singleton, (expects_entry _); [first [done|naive_solver]|reflexivity]
  | |- _ => apply Forall_nil; exact I
  end.

(** The fields of a record that is given by its parts. *)
Ltac parts :=
  cbn [theme run_at_startup minimize_to_tray traffic_monitor
       hr_id hr_name hr_hostname hr_port hr_username hr_auth_type hr_credential_ref hr_identity_file
       hr_passphrase_ref hr_agent_socket hr_host_key_policy hr_connect_timeout_ms
       hr_keepalive_interval_ms hr_keepalive_max hr_notes gr_id gr_name gr_sort_order
       tr_id tr_name tr_group_id tr_mode tr_jump_chain tr_local_host tr_local_port tr_remote_host
       tr_remote_port tr_auto_start tr_reconnect_base_ms tr_reconnect_max_ms tr_reconnect_reset_ms
       tr_reconnect_jitter_percent tr_description schema_version doc_app doc_hosts doc_groups doc_tunnels].

(** The value [v], the same as the table [T] of a record, is a table of the
    fields it knows. *)
Ltac read_table fields T v Hv t Hnd :=
  let He := fresh in let Hex := fresh in
  assert (exists t, v = VTable t) as [t He] by (inversion Hv; eauto); subst v; rewrite table_entries;
  assert (Hnd : NoDup T.*1) by (clear; by_options);
  assert (Hex : Forall (expected fields) T)
    by (unfold T, app_table, host_table, group_table, tunnel_table, document_table; parts; expected_entries);
  rewrite (visit_expected fields [] T t Hnd (fun k _ => not_elem_of_nil k) Hex Hv).

(** What the fields of a record were read as fits their types. *)
Ltac read_fits_from :=
  match goal with
  | H : required ?S _ _ = Ok ?x |- _ ?x => exact (required_fits S _ _ _ H)
  | H : default_to ?S _ _ _ = Ok ?x |- _ ?x =>
      apply (default_fits S) in H; [exact H|by first [apply Forall_nil|vm_compute]]
  | H : default_to ?S _ _ _ = Ok ?x |- Forall _ ?x =>
      apply (default_fits S) in H; [exact H|by first [apply Forall_nil|vm_compute]]
  | H : optional ?S _ _ = Ok ?o, Ho : ?o = Some ?x |- _ ?x => exact (optional_fits S _ _ _ _ H Ho)
  end.

Section Records.
Context `{TomlSyntaxLaws}.

#[export] Instance app_laws : SerdeLaws AppSettings.
Proof.
  split; [|done]. intros [th login tray traffic] v _ Hv. cbn [to_value app_serde from_value] in *. unfold app_from.
  set (T := app_table _) in *. read_table app_fields T v Hv t' Hnd.
  reads_field T Hnd Hv th; reads_field T Hnd Hv login; reads_field T Hnd Hv tray; reads_field T Hnd Hv traffic.
  done.
Qed.

#[export] Instance group_laws : SerdeLaws GroupRecord.
Proof.
  split.
  - intros [id name order] v Hr Hv. cbn [to_value group_serde from_value fits gr_sort_order] in *. unfold group_from.
    set (T := group_table _) in *. read_table group_fields T v Hv t' Hnd.
    reads_field T Hnd Hv id. reads_field T Hnd Hv name. by reads_field T Hnd Hv order.
  - intros v r. cbn. unfold group_from. intros Hr. split_matches. cbn. by eapply (default_fits as_u32).
Qed.

#[export] Instance host_laws : SerdeLaws HostRecord.
Proof.
  split.
  - intros [id name hostname port user auth cred file pass sock policy timeout interval max notes] v
      (Hp & Ht & Hi & Hm) Hv. cbn [to_value host_serde from_value hr_port hr_connect_timeout_ms
      hr_keepalive_interval_ms hr_keepalive_max] in *. unfold host_from.
    set (T := host_table _) in *. read_table host_fields T v Hv t' Hnd.
    reads_field T Hnd Hv id. reads_field T Hnd Hv name. reads_field T Hnd Hv hostname.
    reads_field T Hnd Hv port. reads_field T Hnd Hv user. reads_field T Hnd Hv auth.
    reads_field T Hnd Hv cred. reads_field T Hnd Hv file. reads_field T Hnd Hv pass.
    reads_field T Hnd Hv sock. reads_field T Hnd Hv policy. reads_field T Hnd Hv timeout.
    reads_field T Hnd Hv interval. reads_field T Hnd Hv max. reads_field T Hnd Hv notes. done.
  - intros v r. cbn. unfold host_from. intros Hr. split_matches. unfold host_fits. cbn.
    split_and!; read_fits_from.
Qed.

#[export] Instance tunnel_laws : SerdeLaws TunnelRecord.
Proof.
  split.
  - intros [id name group mode chain lhost lport rhost rport auto base max reset jitter description] v
      (Hl & Hr & Hb & Hm & Hre & Hj) Hv. cbn [to_value tunnel_serde from_value tr_local_port tr_remote_port
      tr_reconnect_base_ms tr_reconnect_max_ms tr_reconnect_reset_ms tr_reconnect_jitter_percent] in *.
    unfold tunnel_from. assert (Hc : Forall (fits (Serde := string_serde)) chain) by (by apply Forall_true).
    set (T := tunnel_table _) in *. read_table tunnel_fields T v Hv t' Hnd.
    reads_field T Hnd Hv id. reads_field T Hnd Hv name. reads_field T Hnd Hv group.
    reads_field T Hnd Hv mode. reads_field T Hnd Hv chain. reads_field T Hnd Hv lhost.
    reads_field T Hnd Hv lport. reads_field T Hnd Hv rhost. reads_field T Hnd Hv rport.
    reads_field T Hnd Hv auto. reads_field T Hnd Hv base. reads_field T Hnd Hv max.
    reads_field T Hnd Hv reset. reads_field T Hnd Hv jitter. reads_field T Hnd Hv description. done.
  - intros v r. cbn. unfold tunnel_from. intros Hr. split_matches. unfold tunnel_fits. cbn.
    split_and!; try read_fits_from. intros port Hport. read_fits_from.
Qed.

#[export] Instance document_laws : SerdeLaws ConfigDocument.
Proof.
  split.
  - intros [version app hosts groups tunnels] v (Hs & Hh & Hg & Ht) Hv.
    cbn [to_value document_serde from_value schema_version doc_hosts doc_groups doc_tunnels] in *.
    unfold document_from.
    set (T := document_table _) in *. read_table document_fields T v Hv t' Hnd.
    reads_field T Hnd Hv version. reads_field T Hnd Hv app. reads_field T Hnd Hv hosts.
    reads_field T Hnd Hv groups. by reads_field T Hnd Hv tunnels.
  - intros v r. cbn. unfold document_from. intros Hr. split_matches. unfold document_fits. cbn.
    split_and!; read_fits_from.
Qed.
End Records.

(** ** The store's view of the file *)

#[export] Instance document_fits_dec d : Decision (document_fits d).
Proof.
  assert (Hport : forall o, Decision (forall port, o = Some port -> u16 port)).
  { intros [port|]; [destruct (decide (u16 port)); [left|right]|left]; naive_solver. }
  unfold document_fits, host_fits, tunnel_fits. apply _.
Defined.

(** [toml::from_str] and [toml::to_string_pretty] at [ConfigDocument]. A record
    with numbers outside its fields' types is no value of the program. *)
Definition syntax_toml `{TomlSyntax} : Toml := {|
  from_str text :=
    let? t := parse_table text in
    map_err (error_text text) (document_from (VTable t));
  to_string_pretty d :=
    if bool_decide (document_fits d) then print_table (document_table d) else Err "out of range"
|}.

Lemma syntax_toml_laws `{TomlSyntaxLaws} : TomlLaws (H := syntax_toml).
Proof.
  split; intros d text; cbn; case_bool_decide as Hd; try done.
  - apply print_utf8.
  - intros (t & Ht & Hs)%print_parses. rewrite Ht. pose proof (reads d (VTable t) Hd Hs) as Hr. cbn in Hr.
    by rewrite Hr.
Qed.

Lemma fits_typed d : document_fits d -> document_typed d.
Proof.
  intros (_ & Hh & _ & Ht). split.
  - eapply Forall_impl; [exact Hh|]. by intros r (_ & ? & ? & _).
  - eapply Forall_impl; [exact Ht|]. by intros r (_ & _ & ? & ? & ? & _).
Qed.

(** A configuration whose numbers are those of the Rust types. *)
Definition domain_host_fits (h : SshHost) : Prop := u16 (host_port h) /\ u32 (host_keepalive_max h).
Definition domain_tunnel_fits (t : TunnelConfig) : Prop :=
  u16 (local_port (tunnel_local t)) /\ (forall r, tunnel_remote t = Some r -> u16 (remote_port r))
  /\ u8 (jitter_percent (tunnel_reconnect t)).
Definition domain_fits (c : DomainConfig) : Prop :=
  Forall domain_host_fits (dc_hosts c) /\ Forall (fun g => u32 (group_sort_order g)) (dc_groups c)
  /\ Forall domain_tunnel_fits (dc_tunnels c).

Lemma milliseconds_fits d ms : whole_millis d -> milliseconds d = Ok ms -> u64 ms.
Proof. intros (k & Hk & ->). unfold milliseconds. rewrite as_millis_from_millis. case_bool_decide; [|done]. by intros [= <-]. Qed.

Lemma host_record_fits env h r : host_ok env h -> domain_host_fits h -> host_try_from h = Ok r -> host_fits r.
Proof.
  intros Ho [Hp Hm]. unfold host_try_from. destruct (auth_record _) as [[[[ty c] f] p] k]. intros Hr.
  split_matches. unfold host_fits. cbn.
  split_and!; [done| | |done]; (eapply milliseconds_fits; [|eassumption]); apply Ho.
Qed.

Lemma tunnel_record_fits hosts groups t r :
  tunnel_ok hosts groups t -> domain_tunnel_fits t -> tunnel_try_from t = Ok r -> tunnel_fits r.
Proof.
  intros Ho (Hl & Hr & Hj). unfold tunnel_try_from. intros Hok. split_matches. unfold tunnel_fits. cbn.
  split_and!; [done| | | | |done].
  - intros port. destruct (tunnel_remote t) as [x|]; [|done]. intros [= <-]. by apply Hr.
  - eapply milliseconds_fits; [|eassumption]. apply Ho.
  - eapply milliseconds_fits; [|eassumption]. apply Ho.
  - eapply milliseconds_fits; [|eassumption]. apply Ho.
Qed.

Lemma collected_fits {A B E} (P : A -> Prop) (Q : B -> Prop) (f : A -> result B E) l k :
  (forall a b, P a -> f a = Ok b -> Q b) -> Forall P l -> collect_results f l = Ok k -> Forall Q k.
Proof.
  intros Hf Hl Hk%collect_results_ok. eapply Forall2_Forall_r'; [|exact Hl|exact Hk]. cbn. eauto.
Qed.

Lemma document_of_fits env c d :
  storable env c -> domain_fits c -> try_from c = Ok d -> document_fits d.
Proof.
  intros Hst (Hh & Hg & Ht). unfold try_from. intros Hd.
  destruct (collect_results host_try_from (dc_hosts c)) as [hs|] eqn:Eh; [|done].
  destruct (collect_results tunnel_try_from (dc_tunnels c)) as [ts|] eqn:Et; [|done].
  injection Hd as <-. unfold document_fits. cbn. split_and!.
  - by vm_compute.
  - eapply (collected_fits (fun h => host_ok env h /\ domain_host_fits h)); [|apply Forall_and|exact Eh].
    + intros h r [Ho Hf]. by eapply host_record_fits.
    + split; [apply Hst|done].
  - by apply Forall_fmap.
  - eapply (collected_fits (fun t => tunnel_ok (dc_hosts c) (dc_groups c) t /\ domain_tunnel_fits t));
      [|apply Forall_and|exact Et].
    + intros t r [Ho Hf]. by eapply tunnel_record_fits.
    + split; [apply Hst|done].
Qed.

Lemma domain_of_fits env d c : document_fits d -> into_domain env d = Ok c -> domain_fits c.
Proof.
  intros (_ & Hh & Hg & Ht) Hc.
  apply into_domain_cases in Hc as (_ & _ & _ & _ & _ & _ & _ & Fh & Eg & Ft & _). split_and!.
  - eapply Forall2_Forall_r'; [|exact Hh|exact Fh]. intros r h (Hp & _ & _ & Hm). unfold host_into_domain. intros Hr.
    split_matches. by split.
  - rewrite <-Eg. by apply Forall_fmap.
  - eapply Forall2_Forall_r'; [|exact Ht|exact Ft]. intros r t (Hl & Hp & _ & _ & _ & Hj). unfold checked_tunnel.
    intros Hr. destruct (tunnel_into_domain r) as [t'|] eqn:Er; [|done].
    destruct (validate t' _ _) as [[]|]; [|done]. cbn in Hr. injection Hr as ->.
    unfold tunnel_into_domain in Er. case_bool_decide; [done|].
    destruct (remote_into_domain r) as [o|] eqn:Eo; [|done]. injection Er as <-. unfold domain_tunnel_fits. cbn.
    split_and!; [done| |done]. intros x ->. unfold remote_into_domain in Eo.
    destruct (tr_remote_host r), (tr_remote_port r) as [port|] eqn:Ep; try done. injection Eo as <-. cbn. by apply Hp.
Qed.

Lemma substring_length n s :
  (n <= String.length s)%nat -> String.length (String.substring 0 n s) = n.
Proof.
  revert n. induction s as [|a s IH]; intros [|n] Hn; cbn in *; try done; [lia|]. by rewrite IH by lia.
Qed.

Lemma take_all text : str_len text <= MAX_CONFIG_BYTES -> take_bytes (MAX_CONFIG_BYTES + 1) text = text.
Proof. intros Hl. unfold take_bytes. by rewrite bool_decide_eq_true_2 by lia. Qed.

Lemma read_file_cases `{Toml} env path contents c :
  read_file env path contents = Ok c ->
  str_len contents <= MAX_CONFIG_BYTES /\ from_utf8_ok (bytes contents) = true
  /\ exists d, from_str contents = Ok d /\ into_domain env d = Ok c.
Proof.
  unfold read_file, read_to_string. intros Hr.
  destruct (from_utf8_ok _) eqn:Hu; [|done]. cbn in Hr. case_bool_decide as Hl; [done|].
  assert (Hshort : str_len contents <= MAX_CONFIG_BYTES).
  { destruct (decide (str_len contents <= MAX_CONFIG_BYTES + 1)) as [Hle|Hgt].
    - unfold take_bytes in Hl. rewrite bool_decide_eq_true_2 in Hl by done. lia.
    - exfalso. apply Hl. unfold take_bytes. rewrite bool_decide_eq_false_2 by done.
      unfold str_len in *. rewrite substring_length by lia. lia. }
  rewrite take_all in Hu, Hr by done. split_and!; [done..|].
  destruct (from_str contents) as [d|] eqn:Ed; [|done]. cbn in Hr.
  destruct (into_domain env d) as [c'|] eqn:Ec; [|done]. injection Hr as ->. eauto.
Qed.

Lemma read_file_ok `{Toml} env path text d :
  from_utf8_ok (bytes text) = true -> str_len text <= MAX_CONFIG_BYTES -> from_str text = Ok d ->
  read_file env path text = map_err ConfigStoreError.Validation (into_domain env d).
Proof.
  intros Hu Hl Hd. unfold read_file, read_to_string. rewrite take_all, Hu by done. cbn.
  rewrite bool_decide_eq_false_2 by lia. by rewrite Hd.
Qed.

Lemma parsed_fits `{TomlSyntaxLaws} text d :
  from_str (Toml := syntax_toml) text = Ok d -> document_fits d.
Proof.
  cbn. destruct (parse_table text) as [t|]; [|done]. destruct (document_from _) as [d'|] eqn:E; [|done].
  intros [= <-]. exact (read_fits (A := ConfigDocument) (VTable t) d' E).
Qed.

(** C30: Whatever file the program accepts is fit to run. Under any TOML parser
    that shows tables as their entries: a file that loads has at most 4 MiB, all
    of it is UTF-8 and read, and the configuration is the document of its
    tables; every number is one its field can hold, the ids of hosts, groups
    and tunnels are those of the file in its order and distinct, the counts are
    within the limits, every host is complete, and every tunnel passes
    validation against these hosts and groups with at most 16 hops. *)
Theorem loaded_file_is_storable `{TomlSyntaxLaws} env path contents c :
  home_ok env -> read_file (H := syntax_toml) env path contents = Ok c ->
  storable env c /\ domain_fits c
  /\ str_len contents <= 4 * 1024 * 1024 /\ from_utf8_ok (bytes contents) = true
  /\ exists t d, parse_table contents = Ok t /\ from_value (VTable t) = Ok d
       /\ schema_version d = 1
       /\ host_id <$> dc_hosts c = (fun r => mkHostId (hr_id r)) <$> doc_hosts d
       /\ group_id <$> dc_groups c = (fun r => mkGroupId (gr_id r)) <$> doc_groups d
       /\ tunnel_id <$> dc_tunnels c = (fun r => mkTunnelId (tr_id r)) <$> doc_tunnels d.
Proof.
  intros Hh (Hlen & Hutf & d & Hd & Hc)%read_file_cases. pose proof (parsed_fits contents d Hd) as Hf.
  destruct (into_domain_storable env d c Hh (fits_typed d Hf) Hc) as (Hv & Hst & Hhosts & Hgroups & Htunnels).
  split; [done|]. split; [by eapply domain_of_fits|]. split; [exact Hlen|]. split; [done|]. cbn in Hd.
  destruct (parse_table contents) as [t|] eqn:Et; [|done]. exists t, d. split_and!; try done. cbn.
  destruct (document_from (VTable t)); [|done]. by injection Hd as ->.
Qed.

(** C31: Saving loses nothing, down to the text. Every configuration that
    satisfies what a loaded one does has a document, and every text of at most
    4 MiB whose tables are those of the document - as printed, or with the
    keys of any table in another order - loads as that configuration. *)
Theorem saved_file_loads_back `{TomlSyntaxLaws} env path c :
  storable env c -> domain_fits c ->
  exists d, try_from c = Ok d
    /\ (forall text t, parse_table text = Ok t -> same_table (document_table d) t ->
          from_utf8_ok (bytes text) = true -> str_len text <= MAX_CONFIG_BYTES ->
          read_file (H := syntax_toml) env path text = Ok c)
    /\ (forall text, to_string_pretty (Toml := syntax_toml) d = Ok text ->
          str_len text <= MAX_CONFIG_BYTES -> read_file (H := syntax_toml) env path text = Ok c).
Proof.
  intros Hst Hf. destruct (storable_loads_back env c Hst) as (d & Hd & Hc). exists d. split; [done|].
  pose proof (document_of_fits env c d Hst Hf Hd) as Hfit. split.
  - intros text t Ht Hs Hu Hl. rewrite (read_file_ok env path text d Hu Hl); [by rewrite Hc|].
    cbn. rewrite Ht. pose proof (reads d (VTable t) Hfit Hs) as Hr. cbn in Hr. by rewrite Hr.
  - intros text Ht Hl. rewrite (read_file_ok env path text d); [by rewrite Hc| |done|].
    + by eapply (printed_is_utf8 (TomlLaws := syntax_toml_laws)).
    + by apply (printed_parses (TomlLaws := syntax_toml_laws)).
Qed.

(** ** Defaults *)

Lemma default_absent `{TomlSyntax} {A} (S : Serde A) d t name x :
  default_to S d t name = Ok x -> assoc name t = None -> x = d.
Proof. unfold default_to. intros Hx Ha. rewrite Ha in Hx. by injection Hx. Qed.

(** The field whose key is absent has its default. *)
Ltac by_default Ha :=
  repeat match goal with
  | Hd : default_to _ _ _ _ = Ok _ |- _ =>
      first [apply default_absent in Hd; [subst; reflexivity|exact Ha]|clear Hd]
  end.

(** C36: One set of defaults. A host or a tunnel that leaves fields out of the
    file gets for each of them what the form of a new host or a new tunnel
    shows, and a tunnel without retry fields the default policy; and a file
    that only states its version loads as the configuration of a first run. *)
Theorem absent_fields_have_one_default `{InputState} `{TomlSyntaxLaws} t host tunnel env hid tid :
  (from_value (VTable t) = Ok host ->
     let form := HostEditor_new hid None in
     (assoc "port" t = None -> he_port form = default_value (show_dec (hr_port host)))
     /\ (assoc "connect_timeout_ms" t = None ->
          he_connect_timeout_ms form = default_value (show_dec (hr_connect_timeout_ms host)))
     /\ (assoc "keepalive_interval_ms" t = None ->
          he_keepalive_interval_ms form = default_value (show_dec (hr_keepalive_interval_ms host)))
     /\ (assoc "keepalive_max" t = None ->
          he_keepalive_max form = default_value (show_dec (hr_keepalive_max host)))
     /\ (assoc "host_key_policy" t = None -> he_policy form = hr_host_key_policy host)
     /\ (assoc "notes" t = None -> he_notes form = default_value (hr_notes host)))
  /\ (from_value (VTable t) = Ok tunnel ->
     forall c, tunnel_into_domain tunnel = Ok c ->
     let form := TunnelEditor_new tid None in
     (assoc "reconnect_base_ms" t = None -> assoc "reconnect_max_ms" t = None ->
      assoc "reconnect_reset_ms" t = None -> assoc "reconnect_jitter_percent" t = None ->
        te_reconnect form = tunnel_reconnect c /\ tunnel_reconnect c = RetryPolicy_default)
     /\ (assoc "auto_start" t = None -> te_auto_start form = tunnel_auto_start c)
     /\ (assoc "group_id" t = None -> te_group_id form = tunnel_group_id c)
     /\ (assoc "description" t = None -> te_description form = default_value (tunnel_description c)))
  /\ (from_value (VTable [("schema_version", VInteger SCHEMA_VERSION)]) = Ok ConfigDocument_default
     /\ into_domain env ConfigDocument_default = Ok (mkDomainConfig AppSettings_default [] [] [])).
Proof.
  split_and!; [| |cbn; unfold document_from; by rewrite table_entries|done].
  - cbn [from_value host_serde]. unfold host_from. rewrite table_entries. intros Hr. split_matches.
    split_and!; intros Ha; by_default Ha.
  - cbn [from_value tunnel_serde]. unfold tunnel_from, tunnel_into_domain. rewrite table_entries. intros Hr c Hc. split_matches.
    split_and!.
    + intros Hb Hm Hre Hj. repeat match goal with Hd : default_to _ _ _ _ = Ok _ |- _ =>
        first [apply default_absent in Hd; [subst|assumption]|clear Hd] end. done.
    + intros Ha. by_default Ha.
    + intros Ha. match goal with Ho : optional _ _ "group_id" = Ok _ |- _ =>
        unfold optional in Ho; rewrite Ha in Ho; by injection Ho as <- end.
    + intros Ha. by_default Ha.
Qed.

(** ** Witnesses *)

Fixpoint value_eqb (v w : toml_value) : bool :=
  match v, w with
  | VString a, VString b | VFloat a, VFloat b | VDatetime a, VDatetime b => bool_decide (a = b)
  | VInteger a, VInteger b => bool_decide (a = b)
  | VBoolean a, VBoolean b => bool_decide (a = b)
  | VArray l, VArray k =>
      (fix go (l k : list toml_value) : bool :=
         match l, k with
         | [], [] => true
         | v :: l, w :: k => value_eqb v w && go l k
         | _, _ => false
         end) l k
  | VTable t, VTable u =>
      (fix go (t u : table) : bool :=
         match t, u with
         | [], [] => true
         | (a, v) :: t, (b, w) :: u => bool_decide (a = b) && value_eqb v w && go t u
         | _, _ => false
         end) t u
  | _, _ => false
  end.

Lemma value_eqb_eq : forall v w, value_eqb v w = true -> v = w.
Proof.
  fix IH 1. intros [s|n|b|x|x|l|t] [s'|n'|b'|x'|x'|l'|t']; cbn; try done;
    try (intros ?%bool_decide_eq_true_1; by subst).
  - intros Hl. f_equal. revert l' Hl. induction l as [|v l IHl]; intros [|w k]; try done.
    intros [Hv Hk]%andb_prop. f_equal; [by apply IH|by apply IHl].
  - intros Ht. f_equal. revert t' Ht. induction t as [|[a v] t IHt]; intros [|[b w] u]; try done.
    intros [[Ha Hv]%andb_prop Hu]%andb_prop. apply bool_decide_eq_true_1 in Ha as ->.
    f_equal; [f_equal; by apply IH|by apply IHt].
Qed.

Definition saved_document : ConfigDocument :=
  match try_from example_config with Ok d => d | Err _ => ConfigDocument_default end.

(** A syntax of three texts. *)
Module ToySyntax.
Definition entries_of (v : toml_value) : result table DeError.t :=
  match v with VTable t => Ok t | v => Err (InvalidType v "a table") end.
Definition variant_of (v : toml_value) : result string DeError.t :=
  match v with VString s => Ok s | v => Err (InvalidType v "a string") end.
Definition blank : TomlSyntax := {|
  parse_table _ := Err "unknown text"; print_table _ := Err "unknown table";
  error_text _ _ := "invalid"; struct_entries := entries_of; unit_variant := variant_of
|}.
Definition texts : list (string * table) :=
  [("example", document_table (H := blank) example_document);
   ("saved", document_table (H := blank) saved_document)].
Definition parse (text : string) : result table string :=
  if bool_decide (text = "reversed") then Ok (reverse (from_option snd [] (find (fun p => bool_decide (p.1 = "saved")) texts)))
  else match find (fun p => bool_decide (p.1 = text)) texts with
       | Some (_, t) => Ok t
       | None => Err "unknown text"
       end.
Definition print (t : table) : result string string :=
  match find (fun p => value_eqb (VTable p.2) (VTable t)) texts with
  | Some (text, _) => Ok text
  | None => Err "unknown table"
  end.
#[global] Instance syntax : TomlSyntax := {|
  parse_table := parse;
  print_table := print;
  error_text _ _ := "invalid";
  struct_entries := entries_of;
  unit_variant := variant_of
|}.
#[global] Instance syntax_laws : TomlSyntaxLaws.
Proof.
  assert (Hp : forall t text, print t = Ok text -> (text = "example" \/ text = "saved") /\ parse text = Ok t).
  { intros t text. unfold print, find, texts. cbn [snd].
    destruct (value_eqb _ (VTable t)) eqn:E1; [apply value_eqb_eq in E1; injection E1 as <-; intros [= <-]; auto|].
    destruct (value_eqb (VTable _) (VTable t)) eqn:E2 in |- *; [|done].
    apply value_eqb_eq in E2; injection E2 as <-; intros [= <-]; auto. }
  split; try done.
  - by intros t text [[->| ->] _]%Hp.
  - intros t text [_ Ht]%Hp. exists t. split; [exact Ht|constructor].
Qed.
End ToySyntax.

Lemma example_fits : document_fits example_document.
Proof. by apply (bool_decide_eq_true_1 (document_fits example_document)). Qed.

Lemma example_storable : storable example_env example_config.
Proof.
  exact (proj1 (proj2 (into_domain_storable example_env example_document example_config
           example_home_ok example_typed example_loads))).
Qed.

Lemma example_read : read_file (H := syntax_toml) example_env "config.toml" "example" = Ok example_config.
Proof. vm_compute. reflexivity. Qed.

Theorem loaded_file_is_storable_witness : storable example_env example_config.
Proof.
  exact (proj1 (loaded_file_is_storable example_env "config.toml" "example" example_config
           example_home_ok example_read)).
Defined.

Lemma reversed_parses : parse_table "reversed" = Ok (reverse (document_table saved_document)).
Proof. vm_compute. reflexivity. Qed.
Lemma saved_prints : to_string_pretty (Toml := syntax_toml) saved_document = Ok "saved".
Proof. vm_compute. reflexivity. Qed.

Theorem saved_file_loads_back_witness :
  read_file (H := syntax_toml) example_env "config.toml" "saved" = Ok example_config
  /\ read_file (H := syntax_toml) example_env "config.toml" "reversed" = Ok example_config.
Proof.
  destruct (saved_file_loads_back example_env "config.toml" example_config example_storable
    (domain_of_fits example_env example_document example_config example_fits example_loads))
    as (d & Hd & Hany & Hprinted).
  assert (Hs : d = saved_document) by (unfold saved_document; rewrite Hd; reflexivity). subst d. split.
  - exact (Hprinted "saved" saved_prints ltac:(by vm_compute)).
  - refine (Hany "reversed" (reverse (document_table saved_document)) reversed_parses _ eq_refl ltac:(by vm_compute)).
    eapply same_tables; [|symmetry; apply reverse_Permutation].
    apply Forall_Forall2_diag, Forall_true. intros x. exact (conj eq_refl (same_refl _)).
Defined.

Definition short_host : table :=
  [("id", VString "h"); ("hostname", VString "bastion.example"); ("name", VString "Bastion");
   ("auth_type", VString "agent"); ("username", VString "u")].

Import ToyInput.
Theorem absent_fields_have_one_default_witness :
  exists host : HostRecord, from_value (VTable short_host) = Ok host
    /\ he_port (HostEditor_new (mkHostId "new") None) = default_value (show_dec (hr_port host)).
Proof.
  destruct (from_value (A := HostRecord) (VTable short_host)) as [host|e] eqn:E; [|vm_compute in E; discriminate E].
  exists host. split; [reflexivity|].
  destruct (absent_fields_have_one_default short_host host example_tunnel_record example_env
    (mkHostId "new") (mkTunnelId "new")) as (Hh & _). exact (proj1 (Hh E) eq_refl).
Defined.
