(* ===== verification/Credentials.v ===== *)
(** * Credentials: from the form in which a secret is typed to the connection
    that uses it (crates/app/src/runtime_host.rs [SystemCredentials], with
    editor.rs, [persist_config] and [build_hops] of
    crates/tunnel-core/src/manager.rs, secrets.rs). *)
From S2P Require Import Prelude Text Domain Validation Path Schema Fs Store Secrets Persist Russh HostKey SshClient Chain SshImport Manager Editor.

(** [SystemCredentials::load], on the keyring as it is when a hop is built; the
    blocking task does not panic. *)
Definition system_credentials `{Keyring K} (keys : K) : nat -> SecretRef -> result (result string string) string :=
  fun _ reference => Ok (map_err show_secret_store_error (Secrets.load reference keys).1).

(** The credential a form describes, for the authentications that need one. *)
Definition typed_credential (form : HostEditor) : option SshCredential.t :=
  match he_auth form with
  | AuthConfig.Password _ => Some (SshCredential.Password (he_password form))
  | AuthConfig.PrivateKey _ _ => Some (SshCredential.PrivateKey (Some (he_passphrase form)))
  | _ => None
  end.

Section Credentials.
Context `{Russh} `{HT : Toml, HO : Os} `{HK : Keyring K} `{HR : Registry R}.
Context `{!TomlLaws, !KeyringLaws K}.
Context (env : Env) (raw_os_text : Z -> string).

(** A secret is loaded exactly if its entry holds it. *)
Lemma load_ok_iff reference (keys : K) secret :
  (Secrets.load reference keys).1 = Ok secret <->
  entry reference = Ok tt /\ stored (secret_ref_0 reference) keys = Some secret
  /\ str_len secret <= MAX_SECRET_BYTES.
Proof.
  unfold Secrets.load, stored. rewrite lift_bind. destruct (entry reference) as [[]|e]; cbn; [|naive_solver].
  unfold bind, keyring_op. destruct (get_password _ keys) as [[p|e] k']; cbn; [|naive_solver].
  case_bool_decide; cbn; naive_solver lia.
Qed.

Lemma load_secret_ok (keys : K) reference hop secret :
  load_secret (system_credentials keys) reference hop = Ok secret
  <-> (Secrets.load reference keys).1 = Ok secret.
Proof. unfold load_secret, system_credentials. destruct (Secrets.load reference keys).1; cbn; naive_solver. Qed.

(** A hop's credential depends on the entries its host refers to only. *)
Lemma credential_same_entries (keys keys' : K) host hop c :
  (forall r, r ∈ secrets_of (host_auth host) ->
     stored (secret_ref_0 r) keys' = stored (secret_ref_0 r) keys) ->
  hop_credential_for (system_credentials keys') host hop = Ok c
  <-> hop_credential_for (system_credentials keys) host hop = Ok c.
Proof.
  intros Hs. assert (Hload : forall r secret, r ∈ secrets_of (host_auth host) ->
    load_secret (system_credentials keys') r hop = Ok secret
    <-> load_secret (system_credentials keys) r hop = Ok secret).
  { intros r secret Hr. by rewrite !load_secret_ok, !load_ok_iff, (Hs r Hr). }
  unfold hop_credential_for. destruct (host_auth host) as [r|path [r|]|socket|]; try done.
  - specialize (Hload r). destruct (load_secret (system_credentials keys') r hop) as [p'|e'],
      (load_secret (system_credentials keys) r hop) as [p|e]; cbn in *; naive_solver set_solver.
  - specialize (Hload r). destruct (load_secret (system_credentials keys') r hop) as [p'|e'],
      (load_secret (system_credentials keys) r hop) as [p|e]; cbn in *; naive_solver set_solver.
Qed.

(** The stored secret of a collected host is what its form describes. *)
Lemma collected_credential random form a u :
  collect_auth random form = Ok (a, Some u) ->
  (exists path, a = AuthConfig.PrivateKey path (Some (su_reference u))
     /\ typed_credential form = Some (SshCredential.PrivateKey (Some (su_value u))))
  \/ (a = AuthConfig.Password (su_reference u)
      /\ typed_credential form = Some (SshCredential.Password (su_value u))).
Proof.
  unfold collect_auth, typed_credential. intros Hc.
  destruct (he_auth form) as [r|p pass|s|]; split_matches; simplify_eq/=; eauto.
Qed.

(** The hops of an attempt are the chain's hosts in order, each with its own
    credential and the same files to check its key against. *)
Lemma build_hops_from_spec credentials hosts known : forall ix hops,
  build_hops_from credentials ix hosts known = Ok hops ->
  forall i host, hosts !! i = Some host ->
    exists credential, hop_credential_for credentials host (S (ix + i)) = Ok credential
      /\ hops !! i = Some (mkHopSpec host credential known).
Proof.
  induction hosts as [|host hosts IH]; cbn; intros ix hops; [done|].
  destruct (hop_credential_for credentials host (S ix)) as [credential|] eqn:Ec; [|done]. cbn.
  destruct (build_hops_from _ _ _ _) as [hops'|] eqn:E; [|done]. cbn. intros [= <-] [|i] host'; cbn.
  - intros [= <-]. exists credential. by rewrite Nat.add_0_r.
  - intros Hi. destruct (IH _ _ E i host' Hi) as (c & Hc & Hh). exists c.
    by rewrite Nat.add_succ_r.
Qed.

Lemma build_hops_length credentials hosts known hops :
  build_hops env credentials hosts known = Ok hops -> length hops = length hosts.
Proof.
  unfold build_hops. generalize 0%nat, (known_hosts_files env known). intros ix files.
  revert ix hops. induction hosts as [|host hosts IH]; cbn; intros ix hops; [by intros [= <-]|].
  destruct (hop_credential_for credentials host (S ix)); [|done]. cbn.
  destruct (build_hops_from _ _ _ _) as [hops'|] eqn:E; [|done]. cbn. intros [= <-].
  cbn. by erewrite IH.
Qed.

(** C22: From the form to the connection. When a jumper is collected with a new
    secret and the configuration was saved with it, then wherever that jumper
    stands in a chain whose hops can be built, its hop authenticates with
    exactly the password or passphrase typed and checks the host key against
    the user's and the application's files. What is loaded for a jumper that
    does not refer to the new secret is what was loaded before the save, so
    no other connection changes. *)
Theorem typed_secret_is_used random form host u dir config old stamp w w' :
  collect_host random form = Ok (host, Some u) ->
  persist_config env raw_os_text dir config (Some u) old stamp w = (Ok tt, w') ->
  (exists credential, typed_credential form = Some credential
     /\ forall chain known hops i, chain !! i = Some host ->
          build_hops env (system_credentials (disk_keys w')) chain known = Ok hops ->
          hops !! i = Some (mkHopSpec host credential (known_hosts_files env known)))
  /\ forall other hop credential,
       su_reference u ∉ secrets_of (host_auth other) ->
       hop_credential_for (system_credentials (disk_keys w')) other hop = Ok credential
       <-> hop_credential_for (system_credentials (disk_keys w)) other hop = Ok credential.
Proof.
  intros (_ & _ & Ha)%collect_host_parts Hp.
  destruct (persist_config_cases _ _ _ _ _ _ _ _ _ _ Hp) as (_ & Hothers & Hsaved).
  specialize (Hsaved u eq_refl). cbn in Hsaved. split.
  - assert (Hc : exists credential, typed_credential form = Some credential /\ forall hop,
        hop_credential_for (system_credentials (disk_keys w')) host hop = Ok credential).
    { apply collected_credential in Ha as [(path & Ha & Ht)|[Ha Ht]];
        eexists; (split; [exact Ht|]); intros hop; unfold hop_credential_for; rewrite Ha;
        by rewrite (proj2 (load_secret_ok _ _ hop _) Hsaved). }
    destruct Hc as (credential & Ht & Hc). exists credential. split; [done|].
    intros chain known hops i Hi Hb. destruct (build_hops_from_spec _ _ _ _ _ Hb i host Hi) as (c & Hc' & Hh).
    rewrite Hc in Hc'. by injection Hc' as <-.
  - intros other hop credential Hno. apply credential_same_entries. intros [r] Hr. apply Hothers.
    intros u' [= <-] Heq. cbn in Heq. destruct (su_reference u) as [r']. cbn in Heq. by subst.
Qed.
End Credentials.

(** ** Witness *)
Import ToyToml ToyKeyring ToyInput.

Definition typed_form : HostEditor := foldl (fun e edit => edit_form edit e)
  (HostEditor_new (host_id example_host) (Some example_host))
  [HostEdit.ChooseAuth 2; HostEdit.Type_ HostField.Password "secret"].

Definition typed_update : SecretUpdate := mkSecretUpdate (new_secret_ref 7) "secret".
Definition typed_host : SshHost :=
  match collect_host 7 typed_form with Ok (h, _) => h | Err _ => example_host end.
Definition persist_typed :=
  persist_config example_env (fun _ => "error") "/cfg" password_config (Some typed_update) false 6
    (example_disk []).
Definition typed_hops :=
  build_hops (H := Toy.russh) example_env (system_credentials (disk_keys persist_typed.2)) [typed_host] None.

(** The jumper's new password, typed, saved, and given to its server. *)
Theorem typed_secret_is_used_witness :
  exists hops, typed_hops = Ok hops
    /\ hops !! 0%nat
         = Some (mkHopSpec typed_host (SshCredential.Password "secret") (known_hosts_files example_env None)).
Proof.
  assert (E : collect_host 7 typed_form = Ok (typed_host, Some typed_update)) by (vm_compute; reflexivity).
  assert (Ep : persist_typed.1 = Ok tt) by (vm_compute; reflexivity).
  assert (Eb : is_ok typed_hops = true) by (vm_compute; reflexivity).
  destruct typed_hops as [hops|] eqn:Eh; [|discriminate Eb]. exists hops. split; [reflexivity|].
  assert (Erun : persist_typed = (Ok tt, persist_typed.2)) by (rewrite <- Ep; apply surjective_pairing).
  destruct (proj1 (typed_secret_is_used example_env (fun _ => "error") 7 typed_form typed_host typed_update
    "/cfg" password_config false 6 (example_disk []) _ E Erun)) as (credential & Ht & Hh).
  assert (Hc : typed_credential typed_form = Some (SshCredential.Password "secret")) by (vm_compute; reflexivity).
  rewrite Hc in Ht. injection Ht as <-. exact (Hh [typed_host] None hops 0%nat eq_refl Eh).
Defined.
