(* ===== verification/Attempt.v ===== *)
(** * Attempt: one connection attempt of a tunnel the manager runs
    (crates/tunnel-core/src/manager.rs: the closures [start] gives to the
    supervisors), from the configuration to authenticated sessions.

    Manager says what is spawned, Supervisor and RemoteSupervisor when a
    connection is attempted with whatever connector; [spec_connector] is the
    connector. The first part shows that it keeps what the supervisors expect
    of a connector, with any transport; the second follows an attempt through
    Chain down to the client of SshClient and the verifier of HostKey. *)
From S2P Require Import Prelude Io Text Net Domain Validation Path Schema Fs Store Secrets Persist Russh HostKey SshClient Chain SshImport Retry Runtime Supervisor RemoteSupervisor Manager ManagerProps Credentials.

Definition spec_hosts (spec : TaskSpec.t) : list SshHost :=
  match spec with TaskSpec.Local _ _ hosts _ | TaskSpec.Remote _ hosts _ _ => hosts end.
Definition spec_known_hosts (spec : TaskSpec.t) : option PathBuf :=
  match spec with TaskSpec.Local _ _ _ known | TaskSpec.Remote _ _ _ known => known end.
(** What is registered at the last hop: [let remote = None] for the local modes. *)
Definition spec_binding (spec : TaskSpec.t) : option RemoteEndpoint :=
  match spec with TaskSpec.Local _ _ _ _ => None | TaskSpec.Remote _ _ remote _ => remote end.

(** [room]: the manager's queue of host key prompts can take one. *)
Definition spec_approval (room : bool) (spec : TaskSpec.t) : option HostKeyApproval :=
  mkHostKeyApproval room <$> spec_known_hosts spec.

Section Connector.
Context `{SshTransport} (env : Env).
Context (credentials : nat -> SecretRef -> result (result string string) string).

Definition spec_connector (room : bool) (spec : TaskSpec.t)
    : ST Chain.world SshChainError.t (list session) :=
  let! hops := lift (build_hops env credentials (spec_hosts spec) (spec_known_hosts spec)) in
  connect_with_approval hops (spec_binding spec) (spec_approval room spec).
End Connector.

(** ** A connector as the supervisors expect it *)

Section ConnectorLaws.
Context `{SshTransportLaws} (env : Env).
Context (credentials : nat -> SecretRef -> result (result string string) string).

Lemma spec_connector_cases room spec w r w' :
  spec_connector env credentials room spec w = (r, w') ->
  (exists e, build_hops env credentials (spec_hosts spec) (spec_known_hosts spec) = Err e
     /\ r = Err e /\ w' = w)
  \/ exists hops, build_hops env credentials (spec_hosts spec) (spec_known_hosts spec) = Ok hops
     /\ connect_with_approval hops (spec_binding spec) (spec_approval room spec) w = (r, w').
Proof.
  unfold spec_connector, bind, lift. destruct (build_hops _ _ _ _) as [hops|e]; intros Hr.
  - right. by exists hops.
  - left. injection Hr as <- <-. by exists e.
Qed.

Lemma spec_connector_ok room spec : connector_ok (spec_connector env credentials room spec).
Proof.
  intros w r w' [(e & _ & -> & ->)|(hops & _ & Hc)]%spec_connector_cases; [done|].
  exact (chain_connector_ok hops _ _ w r w' Hc).
Qed.

Lemma spec_connector_nonempty room spec :
  connector_nonempty (spec_connector env credentials room spec).
Proof.
  intros w c w' [(e & _ & ? & _)|(hops & _ & Hc)]%spec_connector_cases; [done|].
  exact (chain_connector_nonempty hops _ _ w c w' Hc).
Qed.
End ConnectorLaws.

(** ** Down to the verified server *)

(** What both constructors of a session establish. *)
Record verified_session `{Russh} (env : ConnectEnv) (host : SshHost) (credential : SshCredential.t)
    (paths : list PathBuf) (remote : option RemoteEndpoint) (approval : option HostKeyApproval)
    (s : DirectSshSession) : Prop := {
  vs_valid : validate host credential paths = Ok tt;
  vs_auth : exists key, private_key_for env host credential = Ok key
    /\ authenticate env host credential key = Ok tt;
  vs_handshake : exists verifier deadline,
    hv_host verifier = host_hostname host /\ hv_port verifier = host_port host
    /\ hv_paths verifier = paths /\ hv_policy verifier = host_host_key_policy host
    /\ hv_approval verifier = approval
    /\ env_handshake env (client_config host) verifier deadline = Completed (InTime (Ok tt));
  vs_session : s = mkDirectSshSession true false remote None ((fun _ => 0) <$> remote)
}.

Lemma direct_verified `{Russh} env host cred paths remote approval s :
  connect_authenticated env host cred paths remote approval = Ok s ->
  verified_session env host cred paths remote approval s.
Proof. intros [Hv _ Hh Ha Hs]%connect_authenticated_ok. by split. Qed.

Lemma via_verified `{Russh} env host cred paths remote approval s :
  connect_via_channel env host cred paths remote approval = Ok s ->
  verified_session env host cred paths remote approval s.
Proof.
  unfold connect_via_channel. intros Hc.
  destruct (validate host cred paths) as [[]|] eqn:Ev; [|done].
  destruct (private_key_for env host cred) as [key|] eqn:Ek; [|done]. cbn in Hc.
  apply finish_connection_ok in Hc as (Hh & Ha & Hs). split; [done|by eexists|done|done].
Qed.

Lemma verified_server `{Russh} env kx host cred paths remote approval s :
  handshake_verifies env kx -> host_host_key_policy host = HostKeyPolicy.Strict ->
  verified_session env host cred paths remote approval s -> trusted_server host paths approval kx.
Proof.
  intros Henv Hp [_ _ (v & deadline & Hh & Hpt & Hpa & Hpo & Hap & He) _]. by eapply verified_trusted.
Qed.

Lemma trusted_same `{Russh} host host' paths approval kx :
  connection host = connection host' -> trusted_server host' paths approval kx ->
  trusted_server host paths approval kx.
Proof. unfold trusted_server, connection. intros [= -> -> _ _ _ _ _ _]. done. Qed.

Section ClientChain.
Context `{Russh} (envs : SshHost -> ConnectEnv) (peer : nat -> Peer).
Notation transport := (client_transport envs peer).

(** The [i]-th of [total] hops has its session, which [w] holds. *)
Definition hop_open (remote : option RemoteEndpoint) (approval : option HostKeyApproval)
    (total : nat) (w : ClientWorld) (i : nat) (spec : HopSpec) (s : ClientSession) : Prop :=
  (cs_id s < cw_next w)%nat
  /\ exists inner, cw_sessions w !! cs_id s = Some inner
     /\ verified_session (envs (hop_host spec)) (hop_host spec) (hop_credential spec)
          (hop_known_hosts_paths spec) (if decide (S i = total) then remote else None) approval inner.

(** The sessions open so far are those of the first hops. *)
Definition hops_open remote approval total (hops : list HopSpec) (w : ClientWorld)
    (sessions : list ClientSession) : Prop :=
  forall i spec s, hops !! i = Some spec -> sessions !! i = Some s ->
    hop_open remote approval total w i spec s.

Lemma admitted_open remote approval total w i spec cred_remote r s w' :
  cred_remote = (if decide (S i = total) then remote else None) ->
  (forall inner, r = Ok inner -> verified_session (envs (hop_host spec)) (hop_host spec)
     (hop_credential spec) (hop_known_hosts_paths spec) cred_remote approval inner) ->
  admit_session r cred_remote w = (Ok s, w') ->
  hop_open remote approval total w' i spec s
  /\ forall j spec' s', hop_open remote approval total w j spec' s' ->
       hop_open remote approval total w' j spec' s'.
Proof.
  intros -> Hr. unfold admit_session. destruct r as [inner|[e c]]; [|done].
  intros [= <- <-]. split.
  - split; cbn; [lia|]. exists inner. rewrite lookup_insert_eq. auto.
  - intros j spec' s' [Hlt (inner' & Hl & Hv)]. split; cbn; [lia|]. exists inner'.
    rewrite lookup_insert_ne by lia. done.
Qed.

(** Opening a channel leaves the sessions as they are. *)
Lemma opened_same (sn : ClientSession) host port (o : SocketAddr) timeout w r w' :
  open_channel (SshTransport := transport) sn host port o timeout w = (r, w') ->
  cw_next w' = cw_next w /\ cw_sessions w' = cw_sessions w.
Proof.
  cbn. unfold on_session. destruct (cw_sessions w !! cs_id sn) as [inner|] eqn:El; intros [= <- <-]; cbn;
    [|done]. by rewrite insert_id.
Qed.
Notation dialled := (dialled (H0 := transport)).

Lemma dialled_open hops remote approval w sessions w' :
  dialled hops remote approval w sessions w' ->
  hops_open remote approval (length hops) hops w' sessions.
Proof.
  induction 1 as [spec s w1 Hat Hd|sessions previous spec ch s w1 w2 w3 _ IH _ Hat Ho Hd].
  - apply (admitted_open remote approval (length hops) w 0 spec) in Hd as [Hnew _];
      [|done|by intros inner ?%direct_verified].
    intros i spec' s' Hi [-> <-]%list_lookup_singleton_Some. by simplify_eq.
  - unfold channel_to in Ho. apply opened_same in Ho as [Hn Hs].
    apply (admitted_open remote approval (length hops) w2 (length sessions) spec) in Hd as [Hnew Hkeep];
      [|done|by intros inner ?%via_verified].
    intros i spec' s' Hi [Hsi|[Hge Hsi]]%lookup_app_Some.
    + apply Hkeep. destruct (IH i spec' s' Hi Hsi) as [Hlt Hin]. split; [by rewrite Hn|by rewrite Hs].
    + apply list_lookup_singleton_Some in Hsi as [Hz <-].
      assert (i = length sessions) as -> by (revert Hge Hz; clear; cbn; lia). by simplify_eq.
Qed.

Lemma connect_open hops remote approval w all w' :
  connect_with_approval (H0 := transport) hops remote approval w = (Ok all, w') ->
  length all = length hops /\ hops_open remote approval (length hops) hops w' all.
Proof. intros [[Hd Hl] _]%connect_dialled. split; [done|by eapply dialled_open]. Qed.
End ClientChain.

Section AttemptClaims.
Context `{Russh} `{HT : Toml, HO : Os} `{HK : Keyring K} `{HR : Registry R} `{HG : Glob}.
Context (env : Env) (raw_os_text : Z -> string) (import_files : ImportFiles).
Context (order : gset TunnelId -> list TunnelId) (order_perm : forall s, order s ≡ₚ elements s).
Context (credentials : nat -> SecretRef -> result (result string string) string).
Context (envs : SshHost -> ConnectEnv) (peer : nat -> Peer) (exchange : SshHost -> KeyExchange).
Notation transport := (client_transport envs peer).

Lemma runs_parts hosts config spec :
  runs hosts config spec ->
  runs_chain hosts (tunnel_jump_chain config) (spec_hosts spec)
  /\ spec_binding spec
     = if decide (tunnel_mode config = TunnelMode.Remote) then tunnel_remote config else None.
Proof.
  destruct spec as [s address given known|s given remote known]; cbn.
  - intros (Hm & _ & _ & _ & _ & Hc). by rewrite decide_False.
  - intros (Hm & _ & Hr & Hc). by rewrite decide_True.
Qed.

(** C9: A running tunnel talks to trusted servers only. In every state the
    manager can reach, when the supervisor of a tunnel has built a connection,
    by key exchanges that consult the verifier as russh documents: there is
    one authenticated session per hop of the configured jump chain, in order;
    each was made with the connection data the hop's jumper is configured with
    now, its own credential, and the user's and the application's known-hosts
    files; only the last carries a remote binding, that of a Remote tunnel;
    and where the jumper's policy is Strict, the very key its server offered in
    this exchange is a plain one to which no file objects, and it is known for
    that host and port or this user, shown its fingerprint, chose to trust it. *)
Theorem running_tunnel_reaches_trusted_servers m id a t room w sessions w' :
  ManagerProps.reachable env raw_os_text import_files order m ->
  active m !! id = Some a -> tasks (Manager.world (K := K) (R := R) m) !! at_task a = Some t ->
  (forall host, handshake_verifies (envs host) (exchange host)) ->
  spec_connector (H0 := transport) env credentials room (t_spec t) w = (Ok sessions, w') ->
  let paths := known_hosts_files env (spec_known_hosts (t_spec t)) in
  let approval := spec_approval room (t_spec t) in
  exists config, tunnels m !! id = Some config
    /\ length sessions = length (tunnel_jump_chain config)
    /\ forall i hop s, tunnel_jump_chain config !! i = Some hop -> sessions !! i = Some s ->
       exists jumper given credential inner,
         find_host (hosts m) hop = Some jumper /\ connection given = connection jumper
         /\ hop_credential_for credentials given (S i) = Ok credential
         /\ cw_sessions w' !! cs_id s = Some inner
         /\ verified_session (envs given) given credential paths
              (if decide (S i = length sessions /\ tunnel_mode config = TunnelMode.Remote)
               then tunnel_remote config else None) approval inner
         /\ (host_host_key_policy jumper = HostKeyPolicy.Strict ->
            trusted_server jumper paths approval (exchange given)).
Proof.
  intros Hr Ha Ht Henv Hc paths approval.
  destruct (manager_reachable_inv _ _ _ _ order_perm m Hr) as [Hi _ _].
  destruct (ti_running _ Hi id a Ha) as (t0 & config & Ht0 & Hconf & Hruns).
  assert (t0 = t) as -> by congruence. apply runs_parts in Hruns as [Hchain Hbind].
  unfold spec_connector, bind, lift in Hc.
  destruct (build_hops env credentials _ _) as [hops|] eqn:Eb; [|done].
  apply connect_open in Hc as [Hlen Hopen].
  assert (Hhops : length hops = length (spec_hosts (t_spec t))) by (by eapply build_hops_length).
  pose proof (Forall2_length _ _ _ Hchain) as Hcl. exists config. split; [done|]. split; [congruence|].
  intros i hop s Hhop Hs.
  destruct (Forall2_lookup_l _ _ _ i hop Hchain Hhop) as (given & Hgiven & Hconn).
  apply fmap_Some in Hconn as (jumper & Hjumper & Hconn).
  destruct (build_hops_from_spec _ _ _ _ _ Eb i given Hgiven) as (credential & Hcred & Hat).
  destruct (Hopen i _ s Hat Hs) as [_ (inner & Hin & Hv)]. cbn in Hv.
  exists jumper, given, credential, inner. split_and!; [done..| |].
  - rewrite Hlen. rewrite Hbind in Hv. revert Hv.
    destruct (decide (S i = length hops)), (decide (tunnel_mode config = TunnelMode.Remote));
      case_decide; naive_solver.
  - intros Hp. eapply trusted_same; [symmetry; exact Hconn|].
    eapply verified_server; [by apply Henv| |exact Hv]. unfold connection in Hconn. congruence.
Qed.
End AttemptClaims.

(** ** Witness *)
Import ToyToml ToyKeyring ToyGlob.

(** The tunnel of the example goes through a bastion that asks for the agent;
    it runs, and its attempt connects: the user trusts the key once. *)
Definition agent_jumper : SshHost :=
  mkSshHost (mkHostId "h") "Bastion" "bastion.example" 22 "root" (AuthConfig.Agent None)
    HostKeyPolicy.Strict (from_secs 10) (from_secs 15) 3 "".

Definition agent_manager : TunnelManager (gmap string string) (option (list Z)) :=
  match Manager.new elements [agent_jumper] (dc_groups example_config) (dc_tunnels example_config)
          example_world with
  | Ok m => m
  | Err _ => example_manager
  end.

Definition attempting_manager : TunnelManager (gmap string string) (option (list Z)) :=
  launch (H := Toy.russh) toy_os (fun _ => false) (with_app_known_hosts "known_hosts" agent_manager).

Definition attempting_spec : TaskSpec.t :=
  from_option t_spec (TaskSpec.Remote toy_remote_supervisor [] None None)
    (tasks (Manager.world attempting_manager) !! 0%nat).

Definition toy_attempt :=
  spec_connector (H0 := toy_transport false) example_env (fun _ _ => Ok (Ok "secret")) true
    attempting_spec empty_world.

Lemma attempting_reachable :
  ManagerProps.reachable (H := Toy.russh) example_env (fun _ => "error") example_import elements
    attempting_manager.
Proof.
  apply reach_launch, reach_known_hosts.
  eapply (reach_new _ _ _ _ [agent_jumper] (dc_groups example_config) (dc_tunnels example_config)
    example_world); reflexivity.
Qed.

Theorem running_tunnel_reaches_trusted_servers_witness :
  exists s w', toy_attempt = (Ok [s], w')
    /\ trusted_server (H := Toy.russh) agent_jumper
         (known_hosts_files example_env (Some "known_hosts")) (Some (mkHostKeyApproval true "known_hosts"))
         toy_exchange.
Proof.
  assert (Ha : active attempting_manager !! mkTunnelId "t" = Some (mkActiveTunnel 0))
    by (vm_compute; reflexivity).
  destruct (tasks (Manager.world attempting_manager) !! 0%nat) as [t|] eqn:Et; [|by vm_compute in Et].
  assert (Hspec : attempting_spec = t_spec t) by (unfold attempting_spec; by rewrite Et).
  assert (Hk : spec_known_hosts (t_spec t) = Some "known_hosts")
    by (rewrite <-Hspec; vm_compute; reflexivity).
  assert (Hone : match toy_attempt.1 with Ok [_] => true | _ => false end = true)
    by (vm_compute; reflexivity).
  destruct toy_attempt as [[[|s [|]]|] w'] eqn:E; [discriminate Hone| |discriminate Hone..].
  exists s, w'. split; [reflexivity|]. unfold toy_attempt in E. rewrite Hspec in E.
  destruct (running_tunnel_reaches_trusted_servers (H := Toy.russh) example_env (fun _ => "error")
    example_import elements (fun x => reflexivity _) (fun _ _ => Ok (Ok "secret")) (fun _ => toy_env)
    (fun _ => toy_peer false) (fun _ => toy_exchange) attempting_manager (mkTunnelId "t") (mkActiveTunnel 0) t true
    empty_world [s] w' attempting_reachable Ha Et (fun _ => toy_env_verifies) E)
    as (config & Hc & Hlen & Hhops).
  assert (Hconf : tunnel_jump_chain <$> tunnels attempting_manager !! mkTunnelId "t" = Some [mkHostId "h"])
    by (vm_compute; reflexivity).
  rewrite Hc in Hconf. cbn in Hconf. injection Hconf as Hconf.
  destruct (Hhops 0%nat (mkHostId "h") s) as (jumper & given & cred & inner & Hj & _ & _ & _ & _ & Ht).
  { rewrite Hconf. reflexivity. }
  { reflexivity. }
  assert (Hjumper : jumper = agent_jumper).
  { assert (Hf : find_host (hosts attempting_manager) (mkHostId "h") = Some agent_jumper)
      by (vm_compute; reflexivity). congruence. }
  rewrite Hjumper in Ht. unfold spec_approval in Ht. rewrite Hk in Ht. exact (Ht eq_refl).
Defined.
