(* ===== verification/Workspace.v ===== *)
(** * Workspace: the window of the application, crates/app/src/workspace.rs: its
    state, and what each button, answer and notification does to it.

    The commands go to the manager through [Channel], the queue of
    [ManagerHandle::try_send]. A callback returns the window and the queue; what
    the window draws is View. A task of the window is the answer it waits for; a new
    task in the same field replaces (drops) the old one. *)
From S2P Require Import Prelude Io Text Net Domain Validation Path Schema Fs Store Secrets Persist HostKey Supervisor SshImport Manager Editor.

Definition PAGE_SIZE : nat := 25.

(** ** Sending commands: [ManagerHandle::try_send] of manager.rs *)

Definition COMMAND_CAPACITY : nat := 128.

Record Channel := mkChannel { ch_open : bool; ch_queue : list CoreCommand.t }.

Definition try_send (command : CoreCommand.t) (ch : Channel) : result unit string * Channel :=
  if negb (ch_open ch) then (Err "Tunnel manager has stopped", ch)
  else if bool_decide (COMMAND_CAPACITY <= length (ch_queue ch))%nat
  then (Err "Tunnel manager is busy", ch)
  else (Ok tt, mkChannel true (ch_queue ch ++ [command])).

(** ** State *)

#[export] Instance LogLevel_eq_dec : EqDecision LogLevel.t.
Proof. solve_decision. Defined.
#[export] Instance LogSource_eq_dec : EqDecision LogSource.t.
Proof. solve_decision. Defined.

Module LogFilter.
Inductive t := All | Debug | Info | Warning | Error | Tunnel | Host.

Definition label (self : t) : string :=
  match self with
  | All => "All" | Debug => "Debug" | Info => "Info" | Warning => "Warning" | Error => "Error"
  | Tunnel => "Tunnel" | Host => "Host"
  end.

Definition matches (self : t) (event : LogEvent) : bool :=
  match self with
  | All => true
  | Debug => bool_decide (le_level event = LogLevel.Debug)
  | Info => bool_decide (le_level event = LogLevel.Info)
  | Warning => bool_decide (le_level event = LogLevel.Warning)
  | Error => bool_decide (le_level event = LogLevel.Error)
  | Tunnel => bool_decide (le_source event = LogSource.Tunnel)
  | Host => bool_decide (le_source event = LogSource.Host)
  end.
End LogFilter.

Module Page.
Inductive t := Overview | Jumpers | Tunnels | Groups | Logs | Settings.

Definition title (self : t) : string :=
  match self with
  | Overview => "Overview" | Jumpers => "Jumpers" | Tunnels => "Tunnels" | Groups => "Groups"
  | Logs => "Logs" | Settings => "Settings"
  end.
End Page.

Record GroupEditor := mkGroupEditor { ge_id : GroupId; ge_name : string }.

(** The answer [_save_task] waits for, and what it captured. *)
Record SaveTask := mkSaveTask {
  sv_reply : Z;
  sv_directory : PathBuf;
  sv_config : DomainConfig
}.

(** Where [_file_task] is: at the file picker, or waiting for the manager. *)
Module FileTask.
Inductive t :=
  | PickImport
  | AwaitImport (reply : Z)
  | PickSsh
  | AwaitSsh (reply : Z)
  | PickExport (config : DomainConfig)
  | AwaitExport (reply : Z) (path : FilePath).
End FileTask.

Record Workspace := mkWorkspace {
  ws_page : Page.t;
  ws_page_index : nat;
  ws_startup : result (PathBuf * DomainConfig) string;
  ws_manager : bool;
  ws_snapshot : ManagerSnapshot;
  ws_command_error : option string;
  ws_runtime_error : option string;
  ws_host_key_prompts : list HostKeyPromptView;
  ws_logs : list LogEvent;
  ws_log_filter : LogFilter.t;
  ws_log_search : string;
  ws_editor : option Editor;
  ws_group_editor : option GroupEditor;
  ws_pending_group_delete : option GroupId;
  ws_saving : bool;
  ws_save_task : option SaveTask;
  ws_file_task : option FileTask.t;
  ws_file_busy : bool;
  ws_import_preview : option DomainConfig;
  ws_ssh_preview : option SshImportPreview;
  ws_ssh_selected : list bool;
  ws_file_message : option string
}.

Definition set_page (x : Page.t) (v : Workspace) : Workspace :=
  mkWorkspace x (ws_page_index v) (ws_startup v) (ws_manager v) (ws_snapshot v)
    (ws_command_error v) (ws_runtime_error v) (ws_host_key_prompts v) (ws_logs v)
    (ws_log_filter v) (ws_log_search v) (ws_editor v) (ws_group_editor v)
    (ws_pending_group_delete v) (ws_saving v) (ws_save_task v) (ws_file_task v) (ws_file_busy v)
    (ws_import_preview v) (ws_ssh_preview v) (ws_ssh_selected v) (ws_file_message v).
Definition set_page_index (x : nat) (v : Workspace) : Workspace :=
  mkWorkspace (ws_page v) x (ws_startup v) (ws_manager v) (ws_snapshot v) (ws_command_error v)
    (ws_runtime_error v) (ws_host_key_prompts v) (ws_logs v) (ws_log_filter v) (ws_log_search v)
    (ws_editor v) (ws_group_editor v) (ws_pending_group_delete v) (ws_saving v) (ws_save_task v)
    (ws_file_task v) (ws_file_busy v) (ws_import_preview v) (ws_ssh_preview v) (ws_ssh_selected v)
    (ws_file_message v).
Definition set_startup (x : result (PathBuf * DomainConfig) string) (v : Workspace) : Workspace :=
  mkWorkspace (ws_page v) (ws_page_index v) x (ws_manager v) (ws_snapshot v) (ws_command_error v)
    (ws_runtime_error v) (ws_host_key_prompts v) (ws_logs v) (ws_log_filter v) (ws_log_search v)
    (ws_editor v) (ws_group_editor v) (ws_pending_group_delete v) (ws_saving v) (ws_save_task v)
    (ws_file_task v) (ws_file_busy v) (ws_import_preview v) (ws_ssh_preview v) (ws_ssh_selected v)
    (ws_file_message v).
Definition set_snapshot (x : ManagerSnapshot) (v : Workspace) : Workspace :=
  mkWorkspace (ws_page v) (ws_page_index v) (ws_startup v) (ws_manager v) x (ws_command_error v)
    (ws_runtime_error v) (ws_host_key_prompts v) (ws_logs v) (ws_log_filter v) (ws_log_search v)
    (ws_editor v) (ws_group_editor v) (ws_pending_group_delete v) (ws_saving v) (ws_save_task v)
    (ws_file_task v) (ws_file_busy v) (ws_import_preview v) (ws_ssh_preview v) (ws_ssh_selected v)
    (ws_file_message v).
Definition set_command_error (x : option string) (v : Workspace) : Workspace :=
  mkWorkspace (ws_page v) (ws_page_index v) (ws_startup v) (ws_manager v) (ws_snapshot v) x
    (ws_runtime_error v) (ws_host_key_prompts v) (ws_logs v) (ws_log_filter v) (ws_log_search v)
    (ws_editor v) (ws_group_editor v) (ws_pending_group_delete v) (ws_saving v) (ws_save_task v)
    (ws_file_task v) (ws_file_busy v) (ws_import_preview v) (ws_ssh_preview v) (ws_ssh_selected v)
    (ws_file_message v).
Definition set_host_key_prompts (x : list HostKeyPromptView) (v : Workspace) : Workspace :=
  mkWorkspace (ws_page v) (ws_page_index v) (ws_startup v) (ws_manager v) (ws_snapshot v)
    (ws_command_error v) (ws_runtime_error v) x (ws_logs v) (ws_log_filter v) (ws_log_search v)
    (ws_editor v) (ws_group_editor v) (ws_pending_group_delete v) (ws_saving v) (ws_save_task v)
    (ws_file_task v) (ws_file_busy v) (ws_import_preview v) (ws_ssh_preview v) (ws_ssh_selected v)
    (ws_file_message v).
Definition set_logs (x : list LogEvent) (v : Workspace) : Workspace :=
  mkWorkspace (ws_page v) (ws_page_index v) (ws_startup v) (ws_manager v) (ws_snapshot v)
    (ws_command_error v) (ws_runtime_error v) (ws_host_key_prompts v) x (ws_log_filter v)
    (ws_log_search v) (ws_editor v) (ws_group_editor v) (ws_pending_group_delete v) (ws_saving v)
    (ws_save_task v) (ws_file_task v) (ws_file_busy v) (ws_import_preview v) (ws_ssh_preview v)
    (ws_ssh_selected v) (ws_file_message v).
Definition set_log_filter (x : LogFilter.t) (v : Workspace) : Workspace :=
  mkWorkspace (ws_page v) (ws_page_index v) (ws_startup v) (ws_manager v) (ws_snapshot v)
    (ws_command_error v) (ws_runtime_error v) (ws_host_key_prompts v) (ws_logs v) x
    (ws_log_search v) (ws_editor v) (ws_group_editor v) (ws_pending_group_delete v) (ws_saving v)
    (ws_save_task v) (ws_file_task v) (ws_file_busy v) (ws_import_preview v) (ws_ssh_preview v)
    (ws_ssh_selected v) (ws_file_message v).
Definition set_log_search (x : string) (v : Workspace) : Workspace :=
  mkWorkspace (ws_page v) (ws_page_index v) (ws_startup v) (ws_manager v) (ws_snapshot v)
    (ws_command_error v) (ws_runtime_error v) (ws_host_key_prompts v) (ws_logs v)
    (ws_log_filter v) x (ws_editor v) (ws_group_editor v) (ws_pending_group_delete v)
    (ws_saving v) (ws_save_task v) (ws_file_task v) (ws_file_busy v) (ws_import_preview v)
    (ws_ssh_preview v) (ws_ssh_selected v) (ws_file_message v).
Definition set_editor (x : option Editor) (v : Workspace) : Workspace :=
  mkWorkspace (ws_page v) (ws_page_index v) (ws_startup v) (ws_manager v) (ws_snapshot v)
    (ws_command_error v) (ws_runtime_error v) (ws_host_key_prompts v) (ws_logs v)
    (ws_log_filter v) (ws_log_search v) x (ws_group_editor v) (ws_pending_group_delete v)
    (ws_saving v) (ws_save_task v) (ws_file_task v) (ws_file_busy v) (ws_import_preview v)
    (ws_ssh_preview v) (ws_ssh_selected v) (ws_file_message v).
Definition set_group_editor (x : option GroupEditor) (v : Workspace) : Workspace :=
  mkWorkspace (ws_page v) (ws_page_index v) (ws_startup v) (ws_manager v) (ws_snapshot v)
    (ws_command_error v) (ws_runtime_error v) (ws_host_key_prompts v) (ws_logs v)
    (ws_log_filter v) (ws_log_search v) (ws_editor v) x (ws_pending_group_delete v) (ws_saving v)
    (ws_save_task v) (ws_file_task v) (ws_file_busy v) (ws_import_preview v) (ws_ssh_preview v)
    (ws_ssh_selected v) (ws_file_message v).
Definition set_pending_group_delete (x : option GroupId) (v : Workspace) : Workspace :=
  mkWorkspace (ws_page v) (ws_page_index v) (ws_startup v) (ws_manager v) (ws_snapshot v)
    (ws_command_error v) (ws_runtime_error v) (ws_host_key_prompts v) (ws_logs v)
    (ws_log_filter v) (ws_log_search v) (ws_editor v) (ws_group_editor v) x (ws_saving v)
    (ws_save_task v) (ws_file_task v) (ws_file_busy v) (ws_import_preview v) (ws_ssh_preview v)
    (ws_ssh_selected v) (ws_file_message v).
Definition set_saving (x : bool) (v : Workspace) : Workspace :=
  mkWorkspace (ws_page v) (ws_page_index v) (ws_startup v) (ws_manager v) (ws_snapshot v)
    (ws_command_error v) (ws_runtime_error v) (ws_host_key_prompts v) (ws_logs v)
    (ws_log_filter v) (ws_log_search v) (ws_editor v) (ws_group_editor v)
    (ws_pending_group_delete v) x (ws_save_task v) (ws_file_task v) (ws_file_busy v)
    (ws_import_preview v) (ws_ssh_preview v) (ws_ssh_selected v) (ws_file_message v).
Definition set_save_task (x : option SaveTask) (v : Workspace) : Workspace :=
  mkWorkspace (ws_page v) (ws_page_index v) (ws_startup v) (ws_manager v) (ws_snapshot v)
    (ws_command_error v) (ws_runtime_error v) (ws_host_key_prompts v) (ws_logs v)
    (ws_log_filter v) (ws_log_search v) (ws_editor v) (ws_group_editor v)
    (ws_pending_group_delete v) (ws_saving v) x (ws_file_task v) (ws_file_busy v)
    (ws_import_preview v) (ws_ssh_preview v) (ws_ssh_selected v) (ws_file_message v).
Definition set_file_task (x : option FileTask.t) (v : Workspace) : Workspace :=
  mkWorkspace (ws_page v) (ws_page_index v) (ws_startup v) (ws_manager v) (ws_snapshot v)
    (ws_command_error v) (ws_runtime_error v) (ws_host_key_prompts v) (ws_logs v)
    (ws_log_filter v) (ws_log_search v) (ws_editor v) (ws_group_editor v)
    (ws_pending_group_delete v) (ws_saving v) (ws_save_task v) x (ws_file_busy v)
    (ws_import_preview v) (ws_ssh_preview v) (ws_ssh_selected v) (ws_file_message v).
Definition set_file_busy (x : bool) (v : Workspace) : Workspace :=
  mkWorkspace (ws_page v) (ws_page_index v) (ws_startup v) (ws_manager v) (ws_snapshot v)
    (ws_command_error v) (ws_runtime_error v) (ws_host_key_prompts v) (ws_logs v)
    (ws_log_filter v) (ws_log_search v) (ws_editor v) (ws_group_editor v)
    (ws_pending_group_delete v) (ws_saving v) (ws_save_task v) (ws_file_task v) x
    (ws_import_preview v) (ws_ssh_preview v) (ws_ssh_selected v) (ws_file_message v).
Definition set_import_preview (x : option DomainConfig) (v : Workspace) : Workspace :=
  mkWorkspace (ws_page v) (ws_page_index v) (ws_startup v) (ws_manager v) (ws_snapshot v)
    (ws_command_error v) (ws_runtime_error v) (ws_host_key_prompts v) (ws_logs v)
    (ws_log_filter v) (ws_log_search v) (ws_editor v) (ws_group_editor v)
    (ws_pending_group_delete v) (ws_saving v) (ws_save_task v) (ws_file_task v) (ws_file_busy v) x
    (ws_ssh_preview v) (ws_ssh_selected v) (ws_file_message v).
Definition set_ssh_preview (x : option SshImportPreview) (v : Workspace) : Workspace :=
  mkWorkspace (ws_page v) (ws_page_index v) (ws_startup v) (ws_manager v) (ws_snapshot v)
    (ws_command_error v) (ws_runtime_error v) (ws_host_key_prompts v) (ws_logs v)
    (ws_log_filter v) (ws_log_search v) (ws_editor v) (ws_group_editor v)
    (ws_pending_group_delete v) (ws_saving v) (ws_save_task v) (ws_file_task v) (ws_file_busy v)
    (ws_import_preview v) x (ws_ssh_selected v) (ws_file_message v).
Definition set_ssh_selected (x : list bool) (v : Workspace) : Workspace :=
  mkWorkspace (ws_page v) (ws_page_index v) (ws_startup v) (ws_manager v) (ws_snapshot v)
    (ws_command_error v) (ws_runtime_error v) (ws_host_key_prompts v) (ws_logs v)
    (ws_log_filter v) (ws_log_search v) (ws_editor v) (ws_group_editor v)
    (ws_pending_group_delete v) (ws_saving v) (ws_save_task v) (ws_file_task v) (ws_file_busy v)
    (ws_import_preview v) (ws_ssh_preview v) x (ws_file_message v).
Definition set_file_message (x : option string) (v : Workspace) : Workspace :=
  mkWorkspace (ws_page v) (ws_page_index v) (ws_startup v) (ws_manager v) (ws_snapshot v)
    (ws_command_error v) (ws_runtime_error v) (ws_host_key_prompts v) (ws_logs v)
    (ws_log_filter v) (ws_log_search v) (ws_editor v) (ws_group_editor v)
    (ws_pending_group_delete v) (ws_saving v) (ws_save_task v) (ws_file_task v) (ws_file_busy v)
    (ws_import_preview v) (ws_ssh_preview v) (ws_ssh_selected v) x.

(** [Workspace::new]: what the window shows first. [views] is what the
    subscriptions to the manager hold, when there is one. *)
Record Views := mkViews {
  view_snapshot : ManagerSnapshot;
  view_host_keys : list HostKeyPromptView;
  view_logs : list LogEvent
}.

Definition new `{InputState} (startup : result (PathBuf * DomainConfig) string) (views : option Views)
    (runtime_error : option string) : Workspace :=
  mkWorkspace Page.Overview 0 startup (bool_decide (is_Some views))
    (map_or ∅ view_snapshot views) None runtime_error (map_or [] view_host_keys views)
    (map_or [] view_logs views) LogFilter.All (default_value "") None None None false None None false
    None None [] None.

(** The tasks that follow the manager's published state. *)
Definition snapshot_changed (latest : ManagerSnapshot) : Workspace -> Workspace := set_snapshot latest.
Definition host_keys_changed (latest : list HostKeyPromptView) : Workspace -> Workspace :=
  set_host_key_prompts latest.
Definition logs_changed (latest : list LogEvent) : Workspace -> Workspace := set_logs latest.

(** The subscription to the search field. *)
Definition log_search_changed (text : string) (v : Workspace) : Workspace :=
  set_page_index 0 (set_log_search text v).
Definition choose_log_filter (f : LogFilter.t) (v : Workspace) : Workspace :=
  set_page_index 0 (set_log_filter f v).

Definition config_of (v : Workspace) : option (PathBuf * DomainConfig) :=
  match ws_startup v with Ok c => Some c | Err _ => None end.

(** ** New and edited entries *)

(** The loops of [new_host], [new_tunnel] and [new_group]: the first number
    from [n] whose id is free. *)
Fixpoint fresh_number (fuel : nat) (prefix : string) (taken : list string) (n : nat) : option nat :=
  match fuel with
  | O => None
  | S fuel =>
      if forallb (fun id => negb (bool_decide (id = prefix +:+ show_dec (Z.of_nat n)))) taken
      then Some n
      else fresh_number fuel prefix taken (S n)
  end.

Definition fresh_id (prefix : string) (taken : list string) : option string :=
  (fun n => prefix +:+ show_dec (Z.of_nat n))
  <$> fresh_number (S (length taken)) prefix taken (length taken + 1).

Section Editing.
Context `{InputState}.

Definition new_host (v : Workspace) : Workspace :=
  match config_of v with
  | None => v
  | Some (_, config) =>
      match fresh_id "host-" ((fun h => host_id_0 (host_id h)) <$> dc_hosts config) with
      | Some id => set_editor (Some (EditHost (HostEditor_new (mkHostId id) None))) v
      | None => v
      end
  end.

Definition edit_host (id : HostId) (v : Workspace) : Workspace :=
  match config_of v ≫= fun c => find (fun h => bool_decide (host_id h = id)) (dc_hosts c.2) with
  | Some host => set_editor (Some (EditHost (HostEditor_new id (Some host)))) v
  | None => v
  end.

Definition new_tunnel (v : Workspace) : Workspace :=
  match config_of v with
  | None => v
  | Some (_, config) =>
      match fresh_id "tunnel-" ((fun t => tunnel_id_0 (tunnel_id t)) <$> dc_tunnels config) with
      | Some id => set_editor (Some (EditTunnel (TunnelEditor_new (mkTunnelId id) None))) v
      | None => v
      end
  end.

Definition edit_tunnel (id : TunnelId) (v : Workspace) : Workspace :=
  match config_of v ≫= fun c => find (fun t => bool_decide (tunnel_id t = id)) (dc_tunnels c.2) with
  | Some tunnel => set_editor (Some (EditTunnel (TunnelEditor_new id (Some tunnel)))) v
  | None => v
  end.

Definition new_group (v : Workspace) : Workspace :=
  match config_of v with
  | None => v
  | Some (_, config) =>
      match fresh_id "group-" ((fun g => group_id_0 (group_id g)) <$> dc_groups config) with
      | Some id => set_group_editor (Some (mkGroupEditor (mkGroupId id) (default_value ""))) v
      | None => v
      end
  end.

Definition edit_group (id : GroupId) (v : Workspace) : Workspace :=
  match config_of v ≫= fun c => find (fun g => bool_decide (group_id g = id)) (dc_groups c.2) with
  | Some group =>
      set_group_editor (Some (mkGroupEditor id (default_value (group_name group)))) v
  | None => v
  end.
End Editing.

(** The closures of the open forms; they do nothing when another form is open. *)
Definition edit_open_host (edit : HostEdit.t) (v : Workspace) : Workspace :=
  match ws_editor v with
  | Some (EditHost e) => set_editor (Some (EditHost (edit_form edit e))) v
  | _ => v
  end.
Definition edit_open_tunnel (edit : TunnelEdit.t) (v : Workspace) : Workspace :=
  match ws_editor v with
  | Some (EditTunnel e) => set_editor (Some (EditTunnel (edit_tunnel_form edit e))) v
  | _ => v
  end.
Definition type_group_name (text : string) (v : Workspace) : Workspace :=
  match ws_group_editor v with
  | Some e => set_group_editor (Some (mkGroupEditor (ge_id e) text)) v
  | None => v
  end.
Definition cancel_editor (v : Workspace) : Workspace :=
  set_command_error None (set_editor None v).
Definition cancel_group (v : Workspace) : Workspace := set_group_editor None v.

(** ** Saving *)

Notation callback := (Workspace -> Channel -> Workspace * Channel).

Definition persist_config (directory : PathBuf) (config : DomainConfig)
    (secret : option SecretUpdate) (reply : Z) : callback := fun v ch =>
  if negb (ws_manager v) then (set_command_error (Some "Tunnel runtime is unavailable") v, ch)
  else
    match try_send (CoreCommand.SaveConfig directory config secret reply) ch with
    | (Err error, ch) => (set_command_error (Some error) v, ch)
    | (Ok _, ch) =>
        (set_save_task (Some (mkSaveTask reply directory config))
           (set_command_error None (set_saving true v)), ch)
    end.

(** The rest of the task, when the answer (or its loss) arrives. *)
Definition save_answered (answer : option (result unit string)) (v : Workspace) : Workspace :=
  match ws_save_task v with
  | None => v
  | Some task =>
      let result := default (Err "Configuration manager stopped") answer in
      let v := set_saving false (set_save_task None v) in
      match result with
      | Ok _ =>
          set_command_error None (set_ssh_preview None (set_import_preview None
            (set_pending_group_delete None (set_group_editor None (set_editor None
              (set_startup (Ok (sv_directory task, sv_config task)) v))))))
      | Err error => set_command_error (Some error) v
      end
  end.

(** Replacing the first element that satisfies [p]. *)
Fixpoint update_first {A} (p : A -> bool) (f : A -> A) (l : list A) : option (list A) :=
  match l with
  | [] => None
  | x :: l => if p x then Some (f x :: l) else cons x <$> update_first p f l
  end.

Definition rename_group (name : string) (g : TunnelGroup) : TunnelGroup :=
  mkTunnelGroup (group_id g) name (group_sort_order g).
Definition set_order (order : Z) (g : TunnelGroup) : TunnelGroup :=
  mkTunnelGroup (group_id g) (group_name g) order.
Definition with_groups (groups : list TunnelGroup) (c : DomainConfig) : DomainConfig :=
  mkDomainConfig (dc_app c) (dc_hosts c) groups (dc_tunnels c).

Definition put_group (id : GroupId) (name : string) (groups : list TunnelGroup) : list TunnelGroup :=
  match update_first (fun g => bool_decide (group_id g = id)) (rename_group name) groups with
  | Some groups => groups
  | None =>
      let order := saturating_add u32_max (foldr Z.max 0 (group_sort_order <$> groups)) 1 in
      groups ++ [mkTunnelGroup id name order]
  end.

Definition save_group (reply : Z) : callback := fun v ch =>
  if ws_saving v then (v, ch)
  else
    match ws_group_editor v, config_of v with
    | Some editor, Some (directory, current) =>
        let name := trim (ge_name editor) in
        if str_is_empty name then (set_command_error (Some "Group name is required") v, ch)
        else if existsb (fun g => negb (bool_decide (group_id g = ge_id editor))
                                  && eq_ignore_ascii_case (group_name g) name) (dc_groups current)
        then (set_command_error (Some "A group with this name already exists") v, ch)
        else persist_config directory
               (with_groups (put_group (ge_id editor) name (dc_groups current)) current) None reply v ch
    | _, _ => (v, ch)
    end.

Definition ungroup (id : GroupId) (t : TunnelConfig) : TunnelConfig :=
  if bool_decide (tunnel_group_id t = Some id)
  then mkTunnelConfig (tunnel_id t) (tunnel_name t) None (tunnel_mode t) (tunnel_jump_chain t)
         (tunnel_local t) (tunnel_remote t) (tunnel_auto_start t) (tunnel_reconnect t)
         (tunnel_description t)
  else t.

Definition without_group (id : GroupId) (c : DomainConfig) : DomainConfig :=
  mkDomainConfig (dc_app c) (dc_hosts c)
    (List.filter (fun g => negb (bool_decide (group_id g = id))) (dc_groups c))
    (ungroup id <$> dc_tunnels c).

Definition delete_group (id : GroupId) (reply : Z) : callback := fun v ch =>
  match config_of v with
  | Some (directory, current) => persist_config directory (without_group id current) None reply v ch
  | None => (v, ch)
  end.

(** The button deletes on the second press. *)
Definition press_delete_group (id : GroupId) (reply : Z) : callback := fun v ch =>
  if bool_decide (ws_pending_group_delete v = Some id) then delete_group id reply v ch
  else (set_pending_group_delete (Some id) v, ch).

(** [sort_by_key(|group| group.sort_order)], which is stable. *)
Fixpoint insert_group (g : TunnelGroup) (l : list TunnelGroup) : list TunnelGroup :=
  match l with
  | [] => [g]
  | x :: l' => if group_sort_order g <=? group_sort_order x then g :: l else x :: insert_group g l'
  end.
Definition sort_groups (l : list TunnelGroup) : list TunnelGroup := foldr insert_group [] l.

Fixpoint position {A} (p : A -> bool) (l : list A) : option nat :=
  match l with
  | [] => None
  | x :: l => if p x then Some O else S <$> position p l
  end.

Definition moved_groups (id : GroupId) (direction : Z) (groups : list TunnelGroup)
    : option (list TunnelGroup) :=
  let sorted := sort_groups groups in
  match position (fun g => bool_decide (group_id g = id)) sorted with
  | None => None
  | Some index =>
      let target := Z.of_nat index + direction in
      if bool_decide (target < 0) || bool_decide (Z.of_nat (length sorted) <= target) then None
      else Some (imap (fun order g => set_order (Z.of_nat order) g)
                   (swap index (Z.to_nat target) sorted))
  end.

Definition move_group (id : GroupId) (direction : Z) (reply : Z) : callback := fun v ch =>
  match config_of v with
  | None => (v, ch)
  | Some (directory, current) =>
      match moved_groups id direction (dc_groups current) with
      | None => (v, ch)
      | Some groups => persist_config directory (with_groups groups current) None reply v ch
      end
  end.

(** The two switches of [render_settings]. *)
Definition with_app (f : AppSettings -> AppSettings) (c : DomainConfig) : DomainConfig :=
  mkDomainConfig (f (dc_app c)) (dc_hosts c) (dc_groups c) (dc_tunnels c).
Definition save_app (f : AppSettings -> AppSettings) (reply : Z) : callback := fun v ch =>
  match config_of v with
  | None => (v, ch)
  | Some (directory, current) => persist_config directory (with_app f current) None reply v ch
  end.
Definition flip_run_at_startup (a : AppSettings) : AppSettings :=
  mkAppSettings (theme a) (negb (run_at_startup a)) (minimize_to_tray a) (traffic_monitor a).
Definition flip_minimize_to_tray (a : AppSettings) : AppSettings :=
  mkAppSettings (theme a) (run_at_startup a) (negb (minimize_to_tray a)) (traffic_monitor a).

(** Replacing the entry with the same id, or adding the new one. *)
Definition upsert {A} (same : A -> bool) (x : A) (l : list A) : list A :=
  default (l ++ [x]) (update_first same (fun _ => x) l).

Definition put_host (host : SshHost) (c : DomainConfig) : DomainConfig :=
  mkDomainConfig (dc_app c) (upsert (fun old => bool_decide (host_id old = host_id host)) host (dc_hosts c))
    (dc_groups c) (dc_tunnels c).
Definition put_tunnel (tunnel : TunnelConfig) (c : DomainConfig) : DomainConfig :=
  mkDomainConfig (dc_app c) (dc_hosts c) (dc_groups c)
    (upsert (fun old => bool_decide (tunnel_id old = tunnel_id tunnel)) tunnel (dc_tunnels c)).

(** [ConfigDocument::try_from(config).and_then(ConfigDocument::into_domain)] *)
Definition reload (env : Env) (config : DomainConfig) : result DomainConfig ConfigValidationError.t :=
  let? document := try_from config in into_domain env document.

Definition edited_config (random : Z) (editor : Editor) (current : DomainConfig)
    : result (DomainConfig * option SecretUpdate) string :=
  match editor with
  | EditHost editor =>
      let? (host, update) := collect_host random editor in Ok (put_host host current, update)
  | EditTunnel editor =>
      let? tunnel := collect_tunnel editor in Ok (put_tunnel tunnel current, None)
  end.

(** Saving [config] if it could be loaded again. *)
Definition persist_checked (env : Env) (directory : PathBuf) (config : DomainConfig)
    (secret : option SecretUpdate) (reply : Z) : callback := fun v ch =>
  match reload env config with
  | Err error => (set_command_error (Some (show_config_validation_error error)) v, ch)
  | Ok _ => persist_config directory config secret reply v ch
  end.

Definition save_editor (env : Env) (random reply : Z) : callback := fun v ch =>
  if ws_saving v then (v, ch)
  else
    match ws_editor v, config_of v with
    | Some editor, Some (directory, current) =>
        match edited_config random editor current with
        | Err error => (set_command_error (Some error) v, ch)
        | Ok (config, secret) => persist_checked env directory config secret reply v ch
        end
    | _, _ => (v, ch)
    end.

(** [Workspace::request] *)
Definition request (command : CoreCommand.t) : callback := fun v ch =>
  if ws_manager v then
    match try_send command ch with
    | (Ok _, ch) => (set_command_error None v, ch)
    | (Err error, ch) => (set_command_error (Some error) v, ch)
    end
  else (set_command_error None v, ch).

(** The button of a row of [render_tunnels]; it is disabled without a manager. *)
Definition tunnel_state (v : Workspace) (id : TunnelId) : SupervisorState.t :=
  map_or SupervisorState.Stopped tv_state (ws_snapshot v !! id).
Definition action_command (state : SupervisorState.t) (id : TunnelId) : CoreCommand.t :=
  match state with
  | SupervisorState.Stopped => CoreCommand.StartTunnel id
  | SupervisorState.Blocked _ => CoreCommand.RetryTunnel id
  | _ => CoreCommand.StopTunnel id
  end.

(** ** Files *)

Definition file_done (message : option string) (v : Workspace) : Workspace :=
  let v := set_file_busy false (set_file_task None v) in
  match message with Some m => set_file_message (Some m) v | None => v end.

(** A picker starts: nothing happens while another file task runs. *)
Definition pick (task : FileTask.t) (v : Workspace) : Workspace :=
  set_file_task (Some task) (set_file_busy true v).

Definition choose_import (v : Workspace) : Workspace :=
  if ws_file_busy v then v
  else if negb (ws_manager v) then set_file_message (Some "Tunnel runtime is unavailable") v
  else pick FileTask.PickImport v.
Definition choose_ssh_import (v : Workspace) : Workspace :=
  if ws_file_busy v then v
  else if negb (ws_manager v) then v
  else pick FileTask.PickSsh v.
Definition choose_export (v : Workspace) : Workspace :=
  if ws_file_busy v then v
  else if negb (ws_manager v) then set_file_message (Some "Tunnel runtime is unavailable") v
  else match config_of v with
       | Some (_, config) => pick (FileTask.PickExport config) v
       | None => v
       end.

(** The picker's answer: a path, nothing, or an error; then the command. *)
Definition picked (answer : result (option FilePath) string) (ssh_path : FilePath -> PathBuf) (reply : Z)
    : callback := fun v ch =>
  let ask command task :=
    match try_send command ch with
    | (Ok _, ch) => (set_file_task (Some task) v, ch)
    | (Err error, ch) => (file_done (Some error) v, ch)
    end in
  match ws_file_task v, answer with
  | Some FileTask.PickImport, Ok (Some path) =>
      ask (CoreCommand.ImportConfig path reply) (FileTask.AwaitImport reply)
  | Some FileTask.PickSsh, Ok (Some path) =>
      ask (CoreCommand.PreviewSshConfig (ssh_path path) reply) (FileTask.AwaitSsh reply)
  | Some (FileTask.PickExport config), Ok (Some path) =>
      ask (CoreCommand.ExportConfig path config reply) (FileTask.AwaitExport reply path)
  | Some (FileTask.PickImport | FileTask.PickSsh | FileTask.PickExport _), Ok None =>
      (file_done None v, ch)
  | Some (FileTask.PickImport | FileTask.PickSsh | FileTask.PickExport _), Err error =>
      (file_done (Some error) v, ch)
  | _, _ => (v, ch)
  end.

Definition import_message (config : DomainConfig) : string :=
  "Import preview: " +:+ show_dec (Z.of_nat (length (dc_hosts config))) +:+ " jumpers, "
  +:+ show_dec (Z.of_nat (length (dc_tunnels config)))
  +:+ " tunnels. Existing configuration will be replaced after confirmation.".

Definition import_answered (result : result DomainConfig string) (v : Workspace) : Workspace :=
  match result with
  | Ok config => set_import_preview (Some config) (file_done (Some (import_message config)) v)
  | Err error => file_done (Some error) v
  end.

(** Is the entry's host in the configuration? The preview compares names
    exactly, [confirm_ssh_import] without case. *)
Definition ssh_conflict (hosts : list SshHost) (host : SshHost) : bool :=
  existsb (fun h => bool_decide (host_id h = host_id host) || bool_decide (host_name h = host_name host)) hosts.

Definition ssh_answered (result : result SshImportPreview string) (v : Workspace) : Workspace :=
  match result with
  | Ok preview =>
      let hosts := map_or [] (fun c => dc_hosts c.2) (config_of v) in
      let selected := (fun e => negb (ssh_conflict hosts (ie_host e))
                                && negb (str_is_empty (host_username (ie_host e)))) <$> ip_entries preview in
      set_import_preview None (set_page_index 0 (set_ssh_preview (Some preview) (set_ssh_selected selected
        (file_done (Some "Select jumpers to add, then confirm. Existing jumpers will be preserved.") v))))
  | Err error => file_done (Some error) v
  end.

Definition export_answered (path_text : string) (result : result unit string) (v : Workspace) : Workspace :=
  match result with
  | Ok _ => file_done (Some ("Exported to " +:+ path_text
                             +:+ ". Passwords and passphrases were not included.")) v
  | Err error => file_done (Some error) v
  end.

Definition confirm_import (reply : Z) : callback := fun v ch =>
  if ws_saving v then (v, ch)
  else
    match ws_import_preview v, config_of v with
    | Some config, Some (directory, _) => persist_config directory config None reply v ch
    | _, _ => (v, ch)
    end.
Definition cancel_import (v : Workspace) : Workspace :=
  set_file_message None (set_import_preview None v).
Definition cancel_ssh_import (v : Workspace) : Workspace :=
  set_file_message None (set_ssh_selected [] (set_ssh_preview None v)).
Definition toggle_ssh (index : nat) (v : Workspace) : Workspace :=
  set_ssh_selected (alter negb index (ws_ssh_selected v)) v.

(** ** Adding the selected jumpers *)

Definition taken_host (hosts : list SshHost) (id : HostId) (name : string) : bool :=
  existsb (fun h => bool_decide (host_id h = id) || eq_ignore_ascii_case (host_name h) name) hosts.

Definition renamed (host : SshHost) (suffix : nat) : SshHost :=
  let n := show_dec (Z.of_nat suffix) in
  {| host_id := mkHostId (host_id_0 (host_id host) +:+ "-" +:+ n);
     host_name := host_name host +:+ " (" +:+ n +:+ ")";
     host_hostname := host_hostname host; host_port := host_port host;
     host_username := host_username host; host_auth := host_auth host;
     host_host_key_policy := host_host_key_policy host;
     host_connect_timeout := host_connect_timeout host;
     host_keepalive_interval := host_keepalive_interval host;
     host_keepalive_max := host_keepalive_max host; host_notes := host_notes host |}.

Definition free (hosts : list SshHost) (host : SshHost) : bool :=
  negb (taken_host hosts (host_id host) (host_name host)).

Definition add_entry (hosts : list SshHost) (entry : SshImportEntry) : result (list SshHost) string :=
  let host := ie_host entry in
  if str_is_empty (host_username host) then Err ("Missing user for " +:+ ie_alias entry)
  else if free hosts host then Ok (hosts ++ [host])
  else match find (free hosts) (renamed host <$> seq 2 1023) with
       | Some host => Ok (hosts ++ [host])
       | None => Err ("Could not find a unique name for " +:+ ie_alias entry)
       end.

Fixpoint add_selected (hosts : list SshHost) (entries : list (SshImportEntry * bool))
    : result (list SshHost) string :=
  match entries with
  | [] => Ok hosts
  | (entry, selected) :: rest =>
      if selected then let? hosts := add_entry hosts entry in add_selected hosts rest
      else add_selected hosts rest
  end.

Definition with_hosts (hosts : list SshHost) (c : DomainConfig) : DomainConfig :=
  mkDomainConfig (dc_app c) hosts (dc_groups c) (dc_tunnels c).

Definition confirm_ssh_import (env : Env) (reply : Z) : callback := fun v ch =>
  if ws_saving v then (v, ch)
  else
    match ws_ssh_preview v, config_of v with
    | Some preview, Some (directory, current) =>
        match add_selected (dc_hosts current) (zip (ip_entries preview) (ws_ssh_selected v)) with
        | Err error => (set_command_error (Some error) v, ch)
        | Ok hosts => persist_checked env directory (with_hosts hosts current) None reply v ch
        end
    | _, _ => (v, ch)
    end.

(** ** Pages and lists *)

Definition select_page (page : Page.t) (v : Workspace) : Workspace :=
  set_pending_group_delete None (set_group_editor None (set_editor None
    (set_page_index 0 (set_page page v)))).

Definition page_count (v : Workspace) : nat :=
  match config_of v with
  | None => 0
  | Some (_, config) =>
      match ws_page v with
      | Page.Jumpers => length (dc_hosts config)
      | Page.Tunnels => length (dc_tunnels config)
      | Page.Groups => length (dc_groups config)
      | _ => 0
      end
  end.

Definition previous_page (v : Workspace) : Workspace := set_page_index (ws_page_index v - 1) v.
Definition next_page (v : Workspace) : Workspace := set_page_index (ws_page_index v + 1) v.

(** The rows of page [index], and whether its Next button is enabled. *)
Definition page_rows {A} (index : nat) (l : list A) : list A :=
  take PAGE_SIZE (drop (index * PAGE_SIZE) l).
Definition next_enabled (index total : nat) : bool :=
  bool_decide ((index + 1) * PAGE_SIZE < total)%nat.

(** [render_logs]: the events that match, newest first. *)
Definition log_matches (f : LogFilter.t) (search : string) (event : LogEvent) : bool :=
  let query := to_ascii_lowercase (trim search) in
  LogFilter.matches f event
  && (str_is_empty query
      || str_contains query (to_ascii_lowercase (le_subject event))
      || str_contains query (to_ascii_lowercase (le_stage event))
      || str_contains query (to_ascii_lowercase (le_message event))).

Definition log_total (v : Workspace) : nat :=
  length (List.filter (log_matches (ws_log_filter v) (ws_log_search v)) (ws_logs v)).
Definition log_rows (v : Workspace) : list LogEvent :=
  page_rows (ws_page_index v)
    (List.filter (log_matches (ws_log_filter v) (ws_log_search v)) (rev (ws_logs v))).
