(* ===== verification/WorkspaceProps.v ===== *)
(** * WorkspaceProps: what the callbacks of the window promise: new ids, the
    edits of the configuration, the import of jumpers, and the pages. *)
From Stdlib Require Import Sorted.
From S2P Require Import Prelude Io Text Net Domain Validation Path Schema Fs Store Secrets Persist HostKey Supervisor SshImport Manager Editor Workspace.

(** ** Looking for a new id ends *)

Lemma show_dec_inj a b : 0 <= a -> 0 <= b -> show_dec a = show_dec b -> a = b.
Proof.
  intros Ha Hb E. pose proof (parse_show_dec (Z.max a b) a ltac:(lia)) as Pa.
  rewrite E, parse_show_dec in Pa by lia. by simplify_eq.
Qed.

Definition numbered (prefix : string) (n : nat) : string := prefix +:+ show_dec (Z.of_nat n).

Lemma numbered_inj prefix a b : numbered prefix a = numbered prefix b -> a = b.
Proof. unfold numbered. intros E%(inj (String.append prefix))%show_dec_inj; lia. Qed.

Lemma free_number_spec prefix taken n :
  forallb (fun id => negb (bool_decide (id = prefix +:+ show_dec (Z.of_nat n)))) taken = true
  <-> numbered prefix n ∉ taken.
Proof.
  rewrite forallb_forall. unfold numbered. setoid_rewrite <- list_elem_of_In. split.
  - intros Hall Hin. specialize (Hall _ Hin). by rewrite bool_decide_eq_true_2 in Hall.
  - intros Hn id Hin. rewrite bool_decide_eq_false_2; [done|]. by intros ->.
Qed.

Lemma fresh_number_spec fuel prefix taken n :
  match fresh_number fuel prefix taken n with
  | Some m => (n <= m < n + fuel)%nat /\ numbered prefix m ∉ taken
              /\ forall k, (n <= k < m)%nat -> numbered prefix k ∈ taken
  | None => forall k, (n <= k < n + fuel)%nat -> numbered prefix k ∈ taken
  end.
Proof.
  revert n. induction fuel as [|fuel IH]; intros n; cbn [fresh_number]; [lia|].
  destruct (forallb _ _) eqn:E.
  - apply free_number_spec in E. split_and!; [lia|lia|done|lia].
  - assert (Hn : numbered prefix n ∈ taken).
    { destruct (decide (numbered prefix n ∈ taken)) as [|Hni]; [done|].
      apply free_number_spec in Hni. congruence. }
    specialize (IH (S n)). destruct (fresh_number _ _ _ _) as [m|].
    + destruct IH as ((? & ?) & ? & Hk). split_and!; [lia|lia|done|].
      intros k ?. destruct (decide (k = n)) as [->|]; [done|]. apply Hk. lia.
    + intros k ?. destruct (decide (k = n)) as [->|]; [done|]. apply IH. lia.
Qed.

(** More candidates than ids in use: one of them is free. *)
Lemma fresh_number_ends prefix taken n : fresh_number (S (length taken)) prefix taken n <> None.
Proof.
  intros Hnone. pose proof (fresh_number_spec (S (length taken)) prefix taken n) as H.
  rewrite Hnone in H.
  assert (Hlen : (length (numbered prefix <$> seq n (S (length taken))) <= length taken)%nat).
  { apply submseteq_length, NoDup_submseteq.
    - apply NoDup_fmap_2_strong; [|apply NoDup_seq]. intros a b _ _. apply numbered_inj.
    - intros s (k & -> & Hk)%list_elem_of_fmap. apply H. apply elem_of_seq in Hk. lia. }
  rewrite length_fmap, length_seq in Hlen. lia.
Qed.

(** What a loop of [new_host], [new_tunnel] or [new_group] finds. *)
Definition fresh_for (prefix : string) (taken : list string) (id : string) : Prop :=
  exists n, id = numbered prefix n /\ (length taken < n <= 2 * length taken + 1)%nat /\ id ∉ taken
    /\ forall k, (length taken < k < n)%nat -> numbered prefix k ∈ taken.

Lemma fresh_id_spec prefix taken :
  exists id, fresh_id prefix taken = Some id /\ fresh_for prefix taken id.
Proof.
  pose proof (fresh_number_spec (S (length taken)) prefix taken (length taken + 1)) as H.
  pose proof (fresh_number_ends prefix taken (length taken + 1)) as Hn.
  unfold fresh_id. destruct (fresh_number _ _ _ _) as [m|]; [|done].
  destruct H as ((? & ?) & ? & Hk). exists (numbered prefix m). split; [done|].
  exists m. split_and!; [done|lia|lia|done|]. intros k ?. apply Hk. lia.
Qed.

(** The New buttons always come back, with an id of their own. Whatever ids the
    configuration has, the search for a free one ends after at most one more
    try than there are entries, and the form that opens carries the first free
    number above the number of entries. *)
Theorem new_entries_are_fresh `{InputState} v dir config :
  ws_startup v = Ok (dir, config) ->
  (exists id, fresh_for "host-" ((fun h => host_id_0 (host_id h)) <$> dc_hosts config) id
     /\ new_host v = set_editor (Some (EditHost (HostEditor_new (mkHostId id) None))) v)
  /\ (exists id, fresh_for "tunnel-" ((fun t => tunnel_id_0 (tunnel_id t)) <$> dc_tunnels config) id
     /\ new_tunnel v = set_editor (Some (EditTunnel (TunnelEditor_new (mkTunnelId id) None))) v)
  /\ (exists id, fresh_for "group-" ((fun g => group_id_0 (group_id g)) <$> dc_groups config) id
     /\ new_group v = set_group_editor (Some (mkGroupEditor (mkGroupId id) (default_value ""))) v).
Proof.
  intros Hv. unfold new_host, new_tunnel, new_group, config_of. rewrite Hv.
  destruct (fresh_id_spec "host-" ((fun h => host_id_0 (host_id h)) <$> dc_hosts config)) as (h & -> & ?).
  destruct (fresh_id_spec "tunnel-" ((fun t => tunnel_id_0 (tunnel_id t)) <$> dc_tunnels config)) as (t & -> & ?).
  destruct (fresh_id_spec "group-" ((fun g => group_id_0 (group_id g)) <$> dc_groups config)) as (g & -> & ?).
  eauto 10.
Qed.

(** ** Pages *)

Lemma page_rows_all {A} (l : list A) n :
  flat_map (fun i => page_rows i l) (seq 0 n) = take (n * PAGE_SIZE) l.
Proof.
  induction n as [|n IH]; [done|]. rewrite seq_S, flat_map_app, IH. cbn [flat_map Nat.add].
  rewrite app_nil_r. unfold page_rows. rewrite take_take_drop. f_equal. unfold PAGE_SIZE. lia.
Qed.

(** Every row is on exactly one page, and Next leads to a row. Going through
    the pages of a list shows each of its rows once, in order; the button Next
    is enabled exactly when the next page has a row, so that pressing it while
    enabled never shows an empty page. *)
Theorem pages_show_every_row v :
  let rows := List.filter (log_matches (ws_log_filter v) (ws_log_search v)) (rev (ws_logs v)) in
  log_total v = length rows
  /\ flat_map (fun i => log_rows (set_page_index i v)) (seq 0 (S (length rows / PAGE_SIZE))) = rows
  /\ forall i, next_enabled i (log_total v) = true
               <-> log_rows (next_page (set_page_index i v)) <> [].
Proof.
  intros rows.
  assert (Ht : log_total v = length rows).
  { unfold log_total, rows. generalize (ws_logs v). intros l.
    assert (E : forall p : LogEvent -> bool, length (List.filter p (rev l)) = length (List.filter p l)).
    { intros p. induction l as [|x l IH]; [done|]. simpl.
      rewrite List.filter_app, length_app, IH. simpl. destruct (p x); simpl; lia. }
    by rewrite E. }
  split_and!; [done| |].
  - change (flat_map (fun i => page_rows i rows) (seq 0 (S (length rows / PAGE_SIZE))) = rows).
    rewrite page_rows_all. apply take_ge.
    pose proof (Nat.mul_succ_div_gt (length rows) PAGE_SIZE ltac:(done)). lia.
  - intros i. rewrite Ht. unfold next_enabled. rewrite bool_decide_eq_true.
    change (log_rows (next_page (set_page_index i v))) with (page_rows (i + 1) rows).
    unfold page_rows. split.
    + intros Hlt E%(f_equal length). rewrite length_take, length_drop in E.
      unfold PAGE_SIZE in *. cbn [length] in E. lia.
    + intros Hne. destruct (decide ((i + 1) * PAGE_SIZE < length rows)%nat); [done|].
      rewrite drop_ge in Hne by lia. done.
Qed.

(** ** Editing the groups *)

Lemma filter_sublist {A} (p : A -> bool) l : List.filter p l `sublist_of` l.
Proof. induction l as [|x l IH]; [done|]. simpl. destruct (p x); by constructor. Qed.

Lemma fmap_sublist {A B} (f : A -> B) l k : l `sublist_of` k -> f <$> l `sublist_of` f <$> k.
Proof. induction 1; by constructor. Qed.

Lemma filter_unique {A K} `{EqDecision K} (f : A -> K) (k : K) l :
  NoDup (f <$> l) ->
  (exists x, List.filter (fun x => bool_decide (f x = k)) l = [x]) <-> k ∈ f <$> l.
Proof.
  intros Hnd.
  assert (Hno : forall l, k ∉ f <$> l -> List.filter (fun x => bool_decide (f x = k)) l = []).
  { clear. induction l as [|x l IH]; [done|]. cbn [fmap list_fmap List.filter].
    intros [Hx Hl]%not_elem_of_cons. rewrite bool_decide_eq_false_2 by done. auto. }
  induction l as [|x l IH]; cbn [fmap list_fmap List.filter] in *.
  { split; [by intros [? ?]|by intros ?%not_elem_of_nil]. }
  apply NoDup_cons in Hnd as [Hx Hnd]. rewrite elem_of_cons. case_bool_decide as Hk.
  - subst k. rewrite Hno by done. split; [auto|eauto].
  - rewrite IH by done. naive_solver.
Qed.

Lemma group_resolves_iff groups id :
  NoDup (group_id <$> groups) -> group_resolves groups id <-> id ∈ group_id <$> groups.
Proof. apply filter_unique. Qed.

Lemma group_resolves_in groups id : group_resolves groups id -> id ∈ group_id <$> groups.
Proof.
  intros [g Hg]. assert (Hin : In g (List.filter (fun g => bool_decide (group_id g = id)) groups))
    by (rewrite Hg; by left).
  apply filter_In in Hin as [Hin E]. bools. subst id. by apply list_elem_of_fmap_2, list_elem_of_In.
Qed.

(** A tunnel stays valid when its group is taken away, and when the groups it
    may name are still there. *)
Lemma tunnel_ok_groups hosts groups groups' t :
  tunnel_ok hosts groups t ->
  (forall id, tunnel_group_id t = Some id -> group_resolves groups' id) -> tunnel_ok hosts groups' t.
Proof. intros [[] ? ? ? ?] Hg. constructor; [constructor|..]; done. Qed.

Lemma ungroup_ok hosts groups groups' id t :
  tunnel_ok hosts groups t ->
  (forall id', id' <> id -> group_resolves groups id' -> group_resolves groups' id') ->
  tunnel_ok hosts groups' (ungroup id t) /\ tunnel_group_id (ungroup id t) <> Some id
  /\ tunnel_id (ungroup id t) = tunnel_id t.
Proof.
  intros Ht Hg. unfold ungroup. case_bool_decide as Hid.
  - split; [|done]. destruct Ht as [[] ? ? ? ?]. constructor; [constructor|..]; done.
  - split; [|done]. eapply tunnel_ok_groups; [done|]. intros id' E. apply Hg; [congruence|].
    destruct Ht as [[] ? ? ? ?]. auto.
Qed.

(** The configuration with other groups. *)
Lemma storable_groups env c groups :
  storable env c -> (length groups <= MAX_GROUPS)%nat -> NoDup (group_id <$> groups) ->
  (forall id, id ∈ group_id <$> dc_groups c -> id ∈ group_id <$> groups) ->
  storable env (with_groups groups c).
Proof.
  intros [] Hl Hnd Hin. constructor; try done. simpl.
  eapply Forall_impl; [done|]. intros t Ht. eapply tunnel_ok_groups; [done|]. intros id Hid.
  apply group_resolves_iff; [done|]. apply Hin, group_resolves_in.
  destruct Ht as [[] ? ? ? ?]. auto.
Qed.

Lemma storable_without_group env c id :
  storable env c -> storable env (without_group id c)
  /\ Forall (fun t => tunnel_group_id t <> Some id) (dc_tunnels (without_group id c)).
Proof.
  intros []. set (groups := List.filter (fun g => negb (bool_decide (group_id g = id))) (dc_groups c)).
  assert (Hsub : sublist groups (dc_groups c)) by apply filter_sublist.
  assert (Hnd : NoDup (group_id <$> groups)) by (eapply sublist_NoDup; [done|by apply fmap_sublist]).
  assert (Hres : forall id', id' <> id -> group_resolves (dc_groups c) id' -> group_resolves groups id').
  { intros id' Hne Hr%group_resolves_in. apply group_resolves_iff; [done|].
    apply list_elem_of_fmap in Hr as (g & -> & Hg). apply list_elem_of_fmap_2, list_elem_of_In, filter_In.
    split; [by apply list_elem_of_In|]. by rewrite bool_decide_eq_false_2. }
  assert (Hok : forall t, tunnel_ok (dc_hosts c) (dc_groups c) t -> _)
    by (intros t Ht; exact (ungroup_ok _ _ groups id t Ht Hres)).
  split; [constructor; simpl; try done|simpl].
  - pose proof (sublist_length _ _ Hsub). fold groups. lia.
  - by rewrite length_fmap.
  - rewrite <- list_fmap_compose. erewrite list_fmap_ext; [done|].
    intros i t _. unfold compose, ungroup. by case_bool_decide.
  - apply Forall_fmap. eapply Forall_impl; [done|]. intros t Ht. by apply Hok.
  - apply Forall_fmap. eapply Forall_impl; [done|]. intros t Ht. by apply Hok.
Qed.

Lemma update_first_spec {A} (p : A -> bool) f l :
  match update_first p f l with
  | Some l' => exists l1 x l2, l = l1 ++ x :: l2 /\ l' = l1 ++ f x :: l2 /\ p x = true
                 /\ Forall (fun y => p y = false) l1
  | None => Forall (fun y => p y = false) l
  end.
Proof.
  induction l as [|x l IH]; [by constructor|]. cbn [update_first]. destruct (p x) eqn:E.
  - exists [], x, l. by split_and!.
  - destruct (update_first p f l) as [l'|]; simpl.
    + destruct IH as (l1 & y & l2 & -> & -> & ? & ?). exists (x :: l1), y, l2.
      split_and!; [done|done|done|by constructor].
    + by constructor.
Qed.

(** A group form either renames its group or adds it after the others. *)
Lemma put_group_spec id name groups :
  NoDup (group_id <$> groups) ->
  let groups' := put_group id name groups in
  NoDup (group_id <$> groups')
  /\ (forall i, i ∈ group_id <$> groups' <-> i = id \/ i ∈ group_id <$> groups)
  /\ (length groups' = if bool_decide (id ∈ group_id <$> groups) then length groups else S (length groups))
  /\ exists g, g ∈ groups' /\ group_id g = id /\ group_name g = name.
Proof.
  intros Hnd groups'. unfold groups', put_group.
  pose proof (update_first_spec (fun g => bool_decide (group_id g = id)) (rename_group name) groups) as H.
  destruct (update_first _ _ groups) as [l|].
  - destruct H as (l1 & x & l2 & -> & -> & Hx & _). bools. subst id.
    assert (E : group_id <$> (l1 ++ rename_group name x :: l2) = group_id <$> (l1 ++ x :: l2))
      by (by rewrite !fmap_app).
    rewrite E. split_and!; [done|set_solver| |].
    + rewrite bool_decide_eq_true_2 by (rewrite fmap_app; set_solver). by rewrite !length_app.
    + exists (rename_group name x). split_and!; [set_solver|done|done].
  - assert (Hni : id ∉ group_id <$> groups).
    { intros (g & -> & Hg)%list_elem_of_fmap. rewrite Forall_forall in H. specialize (H g Hg). by bools. }
    rewrite fmap_app. split_and!.
    + apply NoDup_app. split_and!; [done|set_solver|apply NoDup_singleton].
    + set_solver.
    + rewrite bool_decide_eq_false_2, length_app by done. simpl. lia.
    + eexists. split; [apply elem_of_app; right; by left|done].
Qed.

(** ** Moving a group *)

Definition by_order (a b : TunnelGroup) : Prop := group_sort_order a <= group_sort_order b.

Lemma insert_group_perm g l : insert_group g l ≡ₚ g :: l.
Proof.
  induction l as [|x l IH]; [done|]. simpl. destruct (_ <=? _); [done|].
  rewrite IH. apply Permutation_swap.
Qed.

Lemma sort_groups_perm l : sort_groups l ≡ₚ l.
Proof.
  unfold sort_groups. induction l as [|g l IH]; [done|]. simpl. by rewrite insert_group_perm, IH.
Qed.

Lemma sort_groups_id l : StronglySorted by_order l -> sort_groups l = l.
Proof.
  unfold sort_groups. induction 1 as [|g l Hs IH Hg]; [done|]. simpl. rewrite IH.
  destruct l as [|x l]; [done|]. simpl. inv Hg.
  by rewrite (proj2 (Z.leb_le _ _)).
Qed.

Definition renumber (l : list TunnelGroup) : list TunnelGroup :=
  imap (fun order g => set_order (Z.of_nat order) g) l.

Lemma renumber_from_sorted k l :
  StronglySorted by_order (imap (fun order g => set_order (Z.of_nat (k + order)) g) l).
Proof.
  revert k. induction l as [|g l IH]; intros k; simpl; [constructor|]. constructor.
  - specialize (IH (S k)). erewrite imap_ext; [exact IH|]. intros i x _. simpl. f_equal. lia.
  - apply Forall_forall. intros x Hx. unfold compose in Hx.
    apply elem_of_lookup_imap in Hx as (i & y & -> & _). unfold by_order. simpl. lia.
Qed.

Lemma renumber_ids l : group_id <$> renumber l = group_id <$> l.
Proof.
  unfold renumber. rewrite fmap_imap. unfold compose. cbn.
  rewrite <- (imap_const group_id l). by apply imap_ext.
Qed.

Lemma swap_fmap {A B} (f : A -> B) i j l : f <$> swap i j l = swap i j (f <$> l).
Proof.
  unfold swap. rewrite !list_lookup_fmap.
  destruct (l !! i); [|done]. destruct (l !! j); [|done]. simpl. by rewrite !list_fmap_insert.
Qed.

Lemma position_spec {A} (p : A -> bool) l :
  match position p l with
  | Some i => exists x, l !! i = Some x /\ p x = true
  | None => Forall (fun x => p x = false) l
  end.
Proof.
  induction l as [|x l IH]; [by constructor|]. simpl. destruct (p x) eqn:E; [by exists x|].
  destruct (position p l); simpl; [done|]. by constructor.
Qed.

(** Groups that differ in nothing but their position number. *)
Definition same_group (a b : TunnelGroup) : Prop := group_id a = group_id b /\ group_name a = group_name b.

(** Up and Down swap neighbours of the list the user sees. A group is moved
    exactly when it exists and has a neighbour on that side; then the list
    shown is the old one with the two swapped, every group keeps its id and
    name, and the positions are numbered from zero without gaps. *)
Theorem moved_groups_spec id direction groups :
  let shown := sort_groups groups in
  match moved_groups id direction groups with
  | Some moved =>
      exists i g, shown !! i = Some g /\ group_id g = id
        /\ (0 <= Z.of_nat i + direction < Z.of_nat (length shown))
        /\ sort_groups moved = moved
        /\ moved = renumber (swap i (Z.to_nat (Z.of_nat i + direction)) shown)
        /\ group_id <$> moved ≡ₚ group_id <$> groups
        /\ group_sort_order <$> moved = Z.of_nat <$> seq 0 (length groups)
  | None =>
      forall i g, position (fun g => bool_decide (group_id g = id)) shown = Some i -> shown !! i = Some g ->
        ~ (0 <= Z.of_nat i + direction < Z.of_nat (length shown))
  end.
Proof.
  intros shown. unfold moved_groups. fold shown.
  pose proof (position_spec (fun g => bool_decide (group_id g = id)) shown) as Hp.
  destruct (position _ shown) as [i|] eqn:Ep; [|by intros].
  destruct Hp as (g & Hg & Hid). apply bool_decide_eq_true in Hid.
  destruct (_ || _) eqn:E; bools.
  - intros ? ? [= <-] _. destruct E as [E|E]; apply bool_decide_eq_true in E; lia.
  - set (s := swap i _ shown). exists i, g. split_and!; try done; try lia.
    + apply sort_groups_id, (renumber_from_sorted 0).
    + change (group_id <$> renumber s ≡ₚ group_id <$> groups). rewrite renumber_ids. unfold s.
      apply fmap_Permutation. rewrite swap_perm. apply sort_groups_perm.
    + rewrite fmap_imap. unfold compose. cbn.
      assert (Hl : length s = length groups).
      { unfold s. rewrite (Permutation_length (swap_perm _ _ _)). apply Permutation_length, sort_groups_perm. }
      rewrite <- Hl. generalize s. clear. intros s.
      assert (H : forall k, imap (fun n (_ : TunnelGroup) => Z.of_nat (k + n)) s = Z.of_nat <$> seq k (length s)).
      { induction s as [|x s IH]; intros k; [done|]. simpl. rewrite Nat.add_0_r. f_equal.
        etransitivity; [|apply (IH (S k))]. apply imap_ext. intros. unfold compose. lia. }
      apply (H O).
Qed.

Lemma moved_groups_perm id direction groups moved :
  moved_groups id direction groups = Some moved -> group_id <$> moved ≡ₚ group_id <$> groups.
Proof.
  unfold moved_groups. destruct (position _ _); [|done]. destruct (_ || _); [done|]. intros [= <-].
  change (group_id <$> renumber (swap n (Z.to_nat (Z.of_nat n + direction)) (sort_groups groups))
          ≡ₚ group_id <$> groups).
  rewrite renumber_ids. apply fmap_Permutation. rewrite swap_perm. apply sort_groups_perm.
Qed.

(** ** The window's own edits are accepted *)

Lemma storable_reload env c : storable env c -> reload env c = Ok c.
Proof. intros (d & Hd & Hl)%storable_loads_back. unfold reload. by rewrite Hd. Qed.

Lemma storable_app env f c : storable env c -> storable env (with_app f c).
Proof. by intros []; constructor. Qed.

(** The list pages never produce a configuration the store refuses or changes.
    From a configuration as it is stored: deleting a group, renaming one or
    adding one below the limit of 128, moving one, and the two switches of the
    settings give a configuration that is written and read back unchanged.
    After a deletion no tunnel refers to the group, and a saved group form is
    found under its id with its name. *)
Theorem window_edits_load_back env c :
  storable env c ->
  (forall id, reload env (without_group id c) = Ok (without_group id c)
     /\ id ∉ group_id <$> dc_groups (without_group id c)
     /\ Forall (fun t => tunnel_group_id t <> Some id) (dc_tunnels (without_group id c)))
  /\ (forall id name, id ∈ group_id <$> dc_groups c \/ (length (dc_groups c) < MAX_GROUPS)%nat ->
        let c' := with_groups (put_group id name (dc_groups c)) c in
        reload env c' = Ok c'
        /\ exists g, g ∈ dc_groups c' /\ group_id g = id /\ group_name g = name)
  /\ (forall id direction moved, moved_groups id direction (dc_groups c) = Some moved ->
        reload env (with_groups moved c) = Ok (with_groups moved c))
  /\ (forall f, reload env (with_app f c) = Ok (with_app f c)).
Proof.
  intros Hc. pose proof (st_groups_nodup _ _ Hc) as Hnd. pose proof (st_groups_len _ _ Hc) as Hl.
  split_and!.
  - intros id. destruct (storable_without_group env c id Hc) as [Hs Ht].
    split_and!; [by apply storable_reload| |done]. simpl.
    intros (g & -> & Hg)%list_elem_of_fmap. apply list_elem_of_In, filter_In in Hg as [_ Hg]. by bools.
  - intros id name Hid c'.
    destruct (put_group_spec id name (dc_groups c) Hnd) as (Hnd' & Hin & Hlen & Hg). split; [|done].
    apply storable_reload, storable_groups; [done| |done|intros i Hi; apply Hin; by right].
    rewrite Hlen. case_bool_decide; [done|]. destruct Hid; [done|lia].
  - intros id direction moved Hm%moved_groups_perm. apply storable_reload, storable_groups; [done| | |].
    + by rewrite <- (length_fmap group_id), (Permutation_length Hm), length_fmap.
    + by rewrite Hm.
    + intros i. by rewrite Hm.
  - intros f. by apply storable_reload, storable_app.
Qed.

(** ** Adding jumpers from OpenSSH *)

(** The host an entry becomes: as imported, or under the first free numbered
    name. *)
Definition added_from (entry : SshImportEntry) (host : SshHost) : Prop :=
  host_username (ie_host entry) <> ""
  /\ (host = ie_host entry
      \/ exists n, (2 <= n <= 1024)%nat /\ host = renamed (ie_host entry) n).

Lemma add_entry_spec hosts entry :
  match add_entry hosts entry with
  | Ok hosts' => exists h, hosts' = hosts ++ [h] /\ added_from entry h /\ free hosts h = true
  | Err m => (host_username (ie_host entry) = "" /\ m = "Missing user for " +:+ ie_alias entry)
             \/ (free hosts (ie_host entry) = false
                 /\ forall n, (2 <= n <= 1024)%nat -> free hosts (renamed (ie_host entry) n) = false)
  end.
Proof.
  unfold add_entry, str_is_empty, added_from. case_bool_decide as Hu; [by left|].
  destruct (free hosts (ie_host entry)) eqn:Hf; [by eauto 6|].
  destruct (find _ _) as [h|] eqn:E.
  - apply find_some in E as [Hin Hfree]. apply list_elem_of_In, list_elem_of_fmap in Hin as (n & -> & Hn).
    apply elem_of_seq in Hn. exists (renamed (ie_host entry) n). split_and!; [done|done| |done].
    right. exists n. split; [lia|done].
  - right. split; [done|]. intros n Hn. apply (find_none _ _ E), list_elem_of_In, list_elem_of_fmap_2.
    apply elem_of_seq. lia.
Qed.

Definition selected_entries (entries : list (SshImportEntry * bool)) : list SshImportEntry :=
  fst <$> List.filter snd entries.

Lemma free_spec hosts h :
  free hosts h = true <->
  Forall (fun x => host_id x <> host_id h
                   /\ eq_ignore_ascii_case (host_name x) (host_name h) = false) hosts.
Proof.
  unfold free, taken_host. rewrite negb_true_iff. induction hosts as [|x hosts IH]; simpl.
  { split; [by constructor|done]. }
  rewrite orb_false_iff, orb_false_iff, IH, Forall_cons, bool_decide_eq_false. tauto.
Qed.

(** Importing jumpers only adds. If the selected entries can be added, the old
    jumpers stay as they are and in their place, each selected entry that has a
    user adds one jumper in order, itself or under a numbered name, and every
    new jumper differs in id, and in name without regard to case, from all
    before it; so ids stay distinct. Otherwise an entry is reported that has no
    user, or all of whose 1023 alternative names are taken. *)
Theorem ssh_import_only_adds hosts entries :
  match add_selected hosts entries with
  | Ok hosts' =>
      exists added, hosts' = hosts ++ added
        /\ Forall2 added_from (selected_entries entries) added
        /\ (forall l1 h l2, added = l1 ++ h :: l2 -> free (hosts ++ l1) h = true)
        /\ (NoDup (host_id <$> hosts) -> NoDup (host_id <$> hosts'))
  | Err m =>
      exists entry hosts', entry ∈ selected_entries entries
        /\ ((host_username (ie_host entry) = "" /\ m = "Missing user for " +:+ ie_alias entry)
            \/ forall n, (2 <= n <= 1024)%nat -> free (hosts ++ hosts') (renamed (ie_host entry) n) = false)
  end.
Proof.
  revert hosts. induction entries as [|[entry []] entries IH]; intros hosts; cbn [add_selected].
  - exists []. split_and!; [by rewrite app_nil_r|constructor| |done]. intros [|? ?] ? ? [=].
  - pose proof (add_entry_spec hosts entry) as He. destruct (add_entry hosts entry) as [hosts1|m].
    2: { exists entry, []. split; [by left|]. rewrite app_nil_r. naive_solver. }
    destruct He as (h & -> & Ha & Hf). specialize (IH (hosts ++ [h])).
    destruct (add_selected _ _) as [hosts'|m].
    + destruct IH as (added & -> & Hadd & Hord & Hnd). exists (h :: added).
      split_and!; [by rewrite <- app_assoc|by constructor| |].
      * intros [|x l1] h' l2 [= -> E]; [by rewrite app_nil_r|].
        specialize (Hord l1 h' l2 E). by rewrite <- app_assoc in Hord.
      * intros H0. apply Hnd. rewrite fmap_app. apply NoDup_app. split_and!; [done| |apply NoDup_singleton].
        intros x Hx Hx'. apply list_elem_of_singleton in Hx'. subst x.
        apply list_elem_of_fmap in Hx as (y & Hy & Hin). apply free_spec in Hf.
        rewrite Forall_forall in Hf. by destruct (Hf y Hin).
    + destruct IH as (e & hosts' & Hin & Hm). exists e, (h :: hosts'). split; [by right|].
      rewrite <- app_assoc in Hm. exact Hm.
  - exact (IH hosts).
Qed.

(** ** Witnesses *)

Import ToyInput.

Definition fresh_window : Workspace := Workspace.new (Ok ("/cfg", example_config)) None None.

Theorem new_entries_are_fresh_witness :
  exists id, fresh_for "host-" ["h"] id
    /\ new_host fresh_window = set_editor (Some (EditHost (HostEditor_new (mkHostId id) None))) fresh_window.
Proof. exact (proj1 (new_entries_are_fresh fresh_window "/cfg" example_config eq_refl)). Defined.

Theorem window_edits_load_back_witness :
  reload example_env (with_app flip_minimize_to_tray example_config)
  = Ok (with_app flip_minimize_to_tray example_config).
Proof.
  apply (window_edits_load_back example_env example_config).
  exact (proj1 (proj2 (into_domain_storable example_env example_document example_config
    example_home_ok example_typed example_loads))).
Defined.
