(* ===== verification/Desktop.v ===== *)
(** * Desktop: the window, the queue and the manager together
    (crates/app/src/workspace.rs, main.rs, and the run loop of
    crates/tunnel-core/src/manager.rs).

    [perform] is the callback behind each button, [enabled] the condition under
    which gpui-kit calls it, [step] one event of the whole: a press, a command
    taken from the queue, an answer that reaches the window, the window being
    closed or opened. The answers of the manager are kept in its world; a
    [oneshot] channel is a number of its own. *)
From S2P Require Import Prelude Io Text Net Domain Validation StateMachine Runtime Retry Russh HostKey SshClient Chain LocalForward Supervisor RemoteSupervisor Path Schema Fs Store Secrets Persist SshImport Manager Frames ManagerProps Editor Workspace WorkspaceProps.

#[local] Notation delete := base.delete.

(** ** The buttons *)

Module Action.
Inductive t :=
  | NewHost | EditHost (id : HostId) | NewTunnel | EditTunnel (id : TunnelId)
  | NewGroup | EditGroup (id : GroupId)
  | HostForm (edit : HostEdit.t) | TunnelForm (edit : TunnelEdit.t) | GroupName (text : string)
  | CancelEditor | CancelGroup
  | SaveEditor | SaveGroup | DeleteGroup (id : GroupId) | MoveGroup (id : GroupId) (direction : Z)
  | FlipRunAtStartup | FlipMinimizeToTray
  | TunnelAction (id : TunnelId) | StartGroup (id : GroupId) | StopGroup (id : GroupId)
  | ResolveHostKey (id : Z) (decision : HostKeyDecision.t)
  | ChooseImport | ChooseSshImport | ChooseExport
  | Picked (answer : result (option FilePath) string)
  | ConfirmImport | CancelImport | ToggleSsh (index : nat) | ConfirmSshImport | CancelSshImport
  | SelectPage (page : Page.t) | PreviousPage | NextPage
  | ChooseLogFilter (filter : LogFilter.t) | SearchLogs (text : string)
  | Snapshot (latest : ManagerSnapshot) | HostKeys (latest : list HostKeyPromptView)
  | Logs (latest : list LogEvent).
End Action.

(** Next is offered in the lists, the log, and the preview of an OpenSSH import. *)
Definition more_pages (v : Workspace) : bool :=
  next_enabled (ws_page_index v)
    (match ws_page v with
     | Page.Logs => log_total v
     | Page.Settings => map_or 0%nat (fun p => length (ip_entries p)) (ws_ssh_preview v)
     | _ => page_count v
     end).

(** An entry of that preview can be selected only if it has a user. *)
Definition selectable (index : nat) (v : Workspace) : bool :=
  match ws_ssh_preview v ≫= (fun p => ip_entries p !! index) with
  | Some entry => bool_decide (host_username (ie_host entry) <> "")
  | None => false
  end.

(** The [disabled(..)] of the buttons. *)
Definition enabled (action : Action.t) (v : Workspace) : bool :=
  match action with
  | Action.CancelEditor | Action.CancelGroup | Action.SaveEditor | Action.SaveGroup
  | Action.DeleteGroup _ | Action.MoveGroup _ _ | Action.FlipRunAtStartup
  | Action.FlipMinimizeToTray | Action.ConfirmImport | Action.CancelImport
  | Action.CancelSshImport => negb (ws_saving v)
  | Action.ToggleSsh index => negb (ws_saving v) && selectable index v
  | Action.PreviousPage => negb (bool_decide (ws_page_index v = 0%nat))
  | Action.NextPage => more_pages v
  | Action.ConfirmSshImport => negb (ws_saving v) && existsb id (ws_ssh_selected v)
  | Action.ChooseImport | Action.ChooseSshImport | Action.ChooseExport =>
      negb (ws_file_busy v || ws_saving v)
  | Action.TunnelAction _ => ws_manager v
  | _ => true
  end.

Section Perform.
Context `{InputState} (env : Env) (path_text : FilePath -> PathBuf).

Definition perform (random reply : Z) (action : Action.t) : Workspace -> Channel -> Workspace * Channel :=
  fun v ch =>
  match action with
  | Action.NewHost => (new_host v, ch)
  | Action.EditHost id => (edit_host id v, ch)
  | Action.NewTunnel => (new_tunnel v, ch)
  | Action.EditTunnel id => (edit_tunnel id v, ch)
  | Action.NewGroup => (new_group v, ch)
  | Action.EditGroup id => (edit_group id v, ch)
  | Action.HostForm edit => (edit_open_host edit v, ch)
  | Action.TunnelForm edit => (edit_open_tunnel edit v, ch)
  | Action.GroupName text => (type_group_name text v, ch)
  | Action.CancelEditor => (cancel_editor v, ch)
  | Action.CancelGroup => (cancel_group v, ch)
  | Action.SaveEditor => save_editor env random reply v ch
  | Action.SaveGroup => save_group reply v ch
  | Action.DeleteGroup id => press_delete_group id reply v ch
  | Action.MoveGroup id direction => move_group id direction reply v ch
  | Action.FlipRunAtStartup => save_app flip_run_at_startup reply v ch
  | Action.FlipMinimizeToTray => save_app flip_minimize_to_tray reply v ch
  | Action.TunnelAction id => request (action_command (tunnel_state v id) id) v ch
  | Action.StartGroup id => request (CoreCommand.StartGroup id) v ch
  | Action.StopGroup id => request (CoreCommand.StopGroup id) v ch
  | Action.ResolveHostKey id decision => request (CoreCommand.ResolveHostKey id decision) v ch
  | Action.ChooseImport => (choose_import v, ch)
  | Action.ChooseSshImport => (choose_ssh_import v, ch)
  | Action.ChooseExport => (choose_export v, ch)
  | Action.Picked answer => picked answer path_text reply v ch
  | Action.ConfirmImport => confirm_import reply v ch
  | Action.CancelImport => (cancel_import v, ch)
  | Action.ToggleSsh index => (toggle_ssh index v, ch)
  | Action.ConfirmSshImport => confirm_ssh_import env reply v ch
  | Action.CancelSshImport => (cancel_ssh_import v, ch)
  | Action.SelectPage page => (select_page page v, ch)
  | Action.PreviousPage => (previous_page v, ch)
  | Action.NextPage => (next_page v, ch)
  | Action.ChooseLogFilter f => (choose_log_filter f v, ch)
  | Action.SearchLogs text => (log_search_changed text v, ch)
  | Action.Snapshot latest => (snapshot_changed latest v, ch)
  | Action.HostKeys latest => (host_keys_changed latest v, ch)
  | Action.Logs latest => (logs_changed latest v, ch)
  end.

(** The saves waiting in the queue. *)
Definition save_of (c : CoreCommand.t) : option (PathBuf * DomainConfig * Z) :=
  match c with
  | CoreCommand.SaveConfig directory config _ reply => Some (directory, config, reply)
  | _ => None
  end.
Definition saves (ch : Channel) : list (PathBuf * DomainConfig * Z) := omap save_of (ch_queue ch).

(** The answers the queued commands owe. *)
Definition reply_of (c : CoreCommand.t) : option Z :=
  match c with
  | CoreCommand.SaveConfig _ _ _ reply | CoreCommand.ImportConfig _ reply
  | CoreCommand.PreviewSshConfig _ reply | CoreCommand.ExportConfig _ _ reply => Some reply
  | _ => None
  end.
Definition owed (ch : Channel) : list Z := omap reply_of (ch_queue ch).

(** What a callback may do to a save: nothing, or start one. *)
Definition same_save (v v' : Workspace) : Prop :=
  ws_startup v' = ws_startup v /\ ws_saving v' = ws_saving v /\ ws_save_task v' = ws_save_task v
  /\ ws_manager v' = ws_manager v.

Definition save_started (reply : Z) (v : Workspace) (ch : Channel) (v' : Workspace) (ch' : Channel) : Prop :=
  ws_startup v' = ws_startup v /\ ws_saving v' = true /\ ws_manager v' = ws_manager v
  /\ exists directory config current, ws_startup v = Ok (directory, current)
       /\ ws_save_task v' = Some (mkSaveTask reply directory config)
       /\ saves ch' = saves ch ++ [(directory, config, reply)] /\ owed ch' = owed ch ++ [reply].

Definition quiet (reply : Z) (v : Workspace) (ch : Channel) (out : Workspace * Channel) : Prop :=
  same_save v out.1 /\ saves out.2 = saves ch
  /\ (owed out.2 = owed ch \/ owed out.2 = owed ch ++ [reply]).

Definition save_effect (reply : Z) (v : Workspace) (ch : Channel) (out : Workspace * Channel) : Prop :=
  quiet reply v ch out \/ save_started reply v ch out.1 out.2.

(** The buttons that save; they are disabled while a save is in flight. *)
Definition may_save (action : Action.t) : bool :=
  match action with
  | Action.SaveEditor | Action.SaveGroup | Action.DeleteGroup _ | Action.MoveGroup _ _
  | Action.FlipRunAtStartup | Action.FlipMinimizeToTray | Action.ConfirmImport
  | Action.ConfirmSshImport => true
  | _ => false
  end.

Lemma may_save_enabled action v :
  may_save action = true -> enabled action v = true -> ws_saving v = false.
Proof. destruct action; simpl; try done; intros _; by destruct (ws_saving v). Qed.

Lemma try_send_saves c ch r ch' :
  try_send c ch = (r, ch') ->
  saves ch' = saves ch ++ match r with Ok _ => option_list (save_of c) | Err _ => [] end
  /\ owed ch' = owed ch ++ match r with Ok _ => option_list (reply_of c) | Err _ => [] end.
Proof.
  unfold try_send. destruct (negb _); [intros [= <- <-]; by rewrite !app_nil_r|].
  case_bool_decide; intros [= <- <-]; [by rewrite !app_nil_r|].
  unfold saves, owed. cbn [ch_queue]. rewrite !omap_app. simpl.
  by destruct (save_of c), (reply_of c).
Qed.

Lemma quiet_same reply v ch v' ch' :
  same_save v v' -> saves ch' = saves ch -> owed ch' = owed ch \/ owed ch' = owed ch ++ [reply] ->
  quiet reply v ch (v', ch').
Proof. done. Qed.

Lemma persist_effect dir config secret reply v ch current :
  ws_startup v = Ok (dir, current) -> save_effect reply v ch (persist_config dir config secret reply v ch).
Proof.
  intros Hv. unfold persist_config. destruct (ws_manager v) eqn:Em; [|left; apply quiet_same; [done|done|by left]].
  destruct (try_send _ ch) as [[[]|e] ch'] eqn:E; apply try_send_saves in E as [Es Eo]; simpl in Es, Eo.
  - right. split_and!; [done|done|done|]. by exists dir, config, current.
  - rewrite app_nil_r in Es, Eo. left. apply quiet_same; [done|done|by left].
Qed.

Lemma config_of_ok v c : config_of v = Some c -> ws_startup v = Ok c.
Proof. unfold config_of. destruct (ws_startup v); by intros [= ->]. Qed.

Lemma request_effect c reply v ch : reply_of c = None -> quiet reply v ch (request c v ch).
Proof.
  intros Hc. assert (Hs : save_of c = None) by (by destruct c).
  unfold request. destruct (ws_manager v); [|apply quiet_same; [done|done|by left]].
  destruct (try_send c ch) as [r ch'] eqn:E. apply try_send_saves in E as [Es Eo]. rewrite Hs in Es.
  rewrite Hc in Eo.
  destruct r; simpl in Es, Eo; rewrite app_nil_r in Es, Eo; (apply quiet_same; [done|done|by left]).
Qed.

Lemma picked_effect reply v ch answer : quiet reply v ch (picked answer path_text reply v ch).
Proof.
  assert (Hnone : forall v', same_save v v' -> quiet reply v ch (v', ch))
    by (intros; apply quiet_same; auto).
  assert (Hask : forall c task, reply_of c = Some reply -> save_of c = None ->
    quiet reply v ch
      match try_send c ch with
      | (Ok _, ch) => (set_file_task (Some task) v, ch)
      | (Err error, ch) => (file_done (Some error) v, ch)
      end).
  { intros c task Hr Hs. destruct (try_send c ch) as [r ch'] eqn:E.
    apply try_send_saves in E as [Es Eo]. rewrite Hs in Es. rewrite Hr in Eo.
    destruct r; simpl in Es, Eo; rewrite ?app_nil_r in Es; rewrite ?app_nil_r in Eo; (apply quiet_same; [done|done|auto]). }
  unfold picked. destruct (ws_file_task v) as [[|?| |?|?|? ?]|], answer as [[fp|]|err];
    try (by apply Hnone); by apply Hask.
Qed.

(** A button that does not save leaves the saves alone; one that does starts at
    most one. *)
Lemma perform_quiet random reply action v ch :
  may_save action = false -> quiet reply v ch (perform random reply action v ch).
Proof.
  intros Hs.
  assert (Hnone : forall v', same_save v v' -> quiet reply v ch (v', ch))
    by (intros; apply quiet_same; auto).
  destruct action; try done; cbn [perform]; try (apply Hnone; done); try (by apply request_effect);
    try (by apply picked_effect).
  all: try (apply Hnone; unfold new_host, edit_host, new_tunnel, edit_tunnel, new_group, edit_group,
    edit_open_host, edit_open_tunnel, type_group_name, choose_import, choose_ssh_import, choose_export;
    by repeat case_match).
  unfold action_command. by repeat case_match; apply request_effect.
Qed.

Lemma perform_effect random reply action v ch :
  may_save action = true -> save_effect reply v ch (perform random reply action v ch).
Proof.
  intros Hs. assert (Hnone : forall v', same_save v v' -> save_effect reply v ch (v', ch))
    by (intros; left; apply quiet_same; auto).
  destruct action; try done; cbn [perform].
  all: unfold save_editor, save_group, press_delete_group, delete_group, move_group, save_app,
    confirm_import, confirm_ssh_import, persist_checked.
  all: repeat match goal with
    | |- context [match config_of ?w with _ => _ end] =>
        let E := fresh "E" in destruct (config_of w) as [[? ?]|] eqn:E; [apply config_of_ok in E|by apply Hnone]
    | |- save_effect _ _ _ (persist_config _ _ _ _ _ _) => by eapply persist_effect
    | |- context [match ?x with _ => _ end] => destruct x; try by apply Hnone
    end.
Qed.
End Perform.

(** ** What a reaction of the manager does to the shown configuration *)

Section Front.
Context `{Russh} {K R : Type}.
Notation manager := (TunnelManager K R).

(** The published configuration, and the answers given so far. *)
Definition front (m : manager) : DomainConfig * list (Z * Reply.t) := (config_views m, replies (world m)).

#[export] Instance front_framed : Framed front.
Proof. by split. Qed.

Lemma queue_host_key_front prompt reply (m : manager) : front (queue_host_key prompt reply m) = front m.
Proof. unfold queue_host_key. by case_bool_decide. Qed.

Lemma resolve_host_key_front id decision (m : manager) : front (resolve_host_key id decision m) = front m.
Proof. unfold resolve_host_key. by destruct (take_prompt _ _) as [[? ?]|]. Qed.

Lemma refresh_front order (m : manager) : front (refresh order m) = front m.
Proof. rewrite (refresh_framed front). unfold pruned. by destruct (negb _). Qed.

Lemma replace_config_front order os config (m : manager) :
  front (replace_config order os config m) = (config, replies (world m)).
Proof.
  unfold replace_config. rewrite (foldl_framed front) by (intros; apply (start_framed front)).
  match goal with |- front (publish (on_current _ (set_config _ _ _ ?x))) = _ =>
    change (front x = (config, replies (world m))) end.
  rewrite (foldl_framed front) by (intros; apply (stop_framed front)). done.
Qed.

End Front.

Section React.
Context `{Russh} `{HT : Toml, HO : Os} `{HK : Keyring K} `{HR : Registry R} `{HG : Glob}.
Context (env : Env) (raw_os_text : Z -> string) (import_files : ImportFiles).
Context (order : gset TunnelId -> list TunnelId).
Notation manager := (TunnelManager K R).
Notation dispatch := (dispatch env raw_os_text import_files order).

(** A save that succeeds was of a configuration that loads. *)
Lemma persist_ok_reloads dir config secret old stamp (d : Disk K R) d' :
  Persist.persist_config env raw_os_text dir config secret old stamp d = (Ok tt, d') ->
  is_ok (reload env config) = true.
Proof.
  unfold Persist.persist_config, reload. intros Hrun.
  apply bind_ok in Hrun as (document & d1 & E & Hrun). unfold lift in E.
  destruct (try_from config) as [doc|]; simplify_eq/=.
  apply bind_ok in Hrun as ([] & d2 & _ & Hrun).
  match type of Hrun with (let (_, _) := ?x in _) = _ => destruct x as [[[]|] d3] end; [|done].
  unfold on_fs in Hrun. destruct (Store.save _ _ _ _ _) as [[[]|e] s] eqn:Es; simplify_eq/=.
  - unfold Store.save in Es. apply bind_ok in Es as (text & s1 & _ & Es).
    apply bind_ok in Es as (c & s2 & E & _). unfold lift in E.
    by destruct (into_domain env document).
  - destruct (negb _); [|done]. by destruct (on_login _ _) as [[]].
Qed.

(** Answers are added; the published configuration changes with a successful
    save only, and is then the saved one. *)
Lemma dispatch_front os stamp command (m : manager) :
  let m' : manager := dispatch os stamp command m in
  match command with
  | CoreCommand.SaveConfig dir config _ reply =>
      exists r, replies (world m') = replies (world m) ++ [(reply, Reply.Saved r)]
        /\ config_views m' = (if is_ok r then config else config_views m)
        /\ (is_ok r = true -> is_ok (reload env config) = true)
  | _ => config_views m' = config_views m
         /\ exists new, replies (world m') = replies (world m) ++ new
              /\ (fst <$> new) `sublist_of` option_list (reply_of command)
  end.
Proof.
  assert (Hsame : forall (m' : manager) c, front m' = front m ->
    config_views m' = config_views m
    /\ exists new, replies (world m') = replies (world m) ++ new /\ (fst <$> new) `sublist_of` option_list (reply_of c)).
  { unfold front. intros m' c [= -> ->]. split; [done|]. exists []. rewrite app_nil_r.
    split; [done|]. apply sublist_nil_l. }
  destruct command as [| | | | | | | | |dir config secret reply|path reply|path reply|path config reply|];
    cbn [Manager.dispatch]; cbv zeta.
  1-5, 14: apply Hsame; unfold start_all, stop_all;
    first [apply (foldl_framed front); intros; first [apply (start_framed front)|apply (stop_framed front)]
          |apply (start_framed front)|apply resolve_host_key_front].
  - by apply Hsame, (stop_framed front).
  - apply Hsame. by rewrite (start_framed front), (stop_framed front).
  - apply Hsame. destruct (active m !! id); [apply (hint_if_framed front)|apply (start_framed front)].
  - apply Hsame, (foldl_framed front). intros m0 id. destruct (active m0 !! id); [apply (hint_if_framed front)|done].
  - unfold save_config. destruct (Persist.persist_config _ _ _ _ _ _ _ _) as [r d] eqn:E.
    exists r. destruct r as [[]|e]; simpl; [|done].
    pose proof (replace_config_front order os config (set_disk d m)) as Hf. unfold front in Hf.
    injection Hf as Hc Hr. rewrite Hc, Hr. split_and!; [done|done|]. intros _. by eapply persist_ok_reloads.
  - unfold on_files. destruct (on_fs _ _) as [r d]. split; [done|]. by eexists [_].
  - destruct (preview_ssh_config _ _ _); [|by apply Hsame]. split; [done|]. by eexists [_].
  - unfold on_files. destruct (on_fs _ _) as [r d]. split; [done|]. by eexists [_].
Qed.
End React.

(** ** The whole *)

(** [dk_next] numbers the [oneshot] channels. *)
Record Desktop (K R : Type) := mkDesktop {
  dk_window : option Workspace;
  dk_channel : Channel;
  dk_manager : TunnelManager K R;
  dk_next : Z
}.
Arguments mkDesktop {K R}.
Arguments dk_window {K R}.
Arguments dk_channel {K R}.
Arguments dk_manager {K R}.
Arguments dk_next {K R}.

Section Desktop.
Context `{InputState} `{Russh} `{HT : Toml, HO : Os} `{HK : Keyring K} `{HR : Registry R} `{HG : Glob}.
Context (env : Env) (raw_os_text : Z -> string) (import_files : ImportFiles).
Context (order : gset TunnelId -> list TunnelId) (path_text : FilePath -> PathBuf).
(** The configuration directory of this run. *)
Context (dir : PathBuf).
Notation desktop := (Desktop K R).
Notation dispatch := (dispatch env raw_os_text import_files order).

Definition answered (d : desktop) (reply : Z) (r : Reply.t) : Prop :=
  (reply, r) ∈ replies (world (dk_manager d)).

Definition with_window (w : option Workspace) (d : desktop) : desktop :=
  mkDesktop w (dk_channel d) (dk_manager d) (dk_next d).

(** One event. Closing the window drops it with the answers it waits for, while
    the manager and its queue go on; a window opened later starts from the
    configuration the manager has published. The events of a [careful] run
    are those in which no window is opened while a save waits in the queue. *)
Inductive step (careful : bool) : desktop -> desktop -> Prop :=
  | step_press action random v v' ch' d :
      dk_window d = Some v -> enabled action v = true ->
      perform env path_text random (dk_next d) action v (dk_channel d) = (v', ch') ->
      step careful d (mkDesktop (Some v') ch' (dk_manager d) (dk_next d + 1))
  | step_command os stamp command rest d :
      ch_queue (dk_channel d) = command :: rest ->
      step careful d (mkDesktop (dk_window d) (mkChannel (ch_open (dk_channel d)) rest)
                        (dispatch os stamp command (dk_manager d)) (dk_next d))
  | step_prompt prompt reply d :
      step careful d (mkDesktop (dk_window d) (dk_channel d)
        (react env raw_os_text import_files order (Input.Prompt prompt reply) (dk_manager d)) (dk_next d))
  | step_tick d :
      step careful d (mkDesktop (dk_window d) (dk_channel d)
        (react env raw_os_text import_files order Input.Tick (dk_manager d)) (dk_next d))
  | step_tasks w d :
      world_step (world (dk_manager d)) w -> replies w = replies (world (dk_manager d)) ->
      step careful d (mkDesktop (dk_window d) (dk_channel d) (on_world (fun _ => w) (dk_manager d)) (dk_next d))
  | step_tray command r ch' d :
      save_of command = None -> reply_of command = None ->
      try_send command (dk_channel d) = (r, ch') ->
      step careful d (mkDesktop (dk_window d) ch' (dk_manager d) (dk_next d))
  | step_saved v task r d :
      dk_window d = Some v -> ws_save_task v = Some task ->
      answered d (sv_reply task) (Reply.Saved r) ->
      step careful d (with_window (Some (save_answered (Some r) v)) d)
  | step_imported v reply r d :
      dk_window d = Some v -> ws_file_task v = Some (FileTask.AwaitImport reply) ->
      answered d reply (Reply.Config r) ->
      step careful d (with_window (Some (import_answered r v)) d)
  | step_ssh_previewed v reply r d :
      dk_window d = Some v -> ws_file_task v = Some (FileTask.AwaitSsh reply) ->
      answered d reply (Reply.Preview r) ->
      step careful d (with_window (Some (ssh_answered r v)) d)
  | step_exported v reply path r d :
      dk_window d = Some v -> ws_file_task v = Some (FileTask.AwaitExport reply path) ->
      answered d reply (Reply.Saved r) ->
      step careful d (with_window (Some (export_answered (path_text path) r v)) d)
  | step_close d : step careful d (with_window None d)
  | step_open views d :
      dk_window d = None -> (careful = true -> saves (dk_channel d) = []) ->
      step careful d
        (with_window (Some (new (Ok (dir, config_views (dk_manager d))) (Some views) None)) d).

(** The start: an empty queue, a loaded configuration, and no window yet or the
    one that main.rs opens, which shows the configuration as it was loaded.
    The manager keeps it in a map and may have published its tunnels in
    another order. *)
Definition started (m : TunnelManager K R) (shown : option (DomainConfig * Views)) : Prop :=
  replies (world m) = [] /\ is_ok (reload env (config_views m)) = true
  /\ forall loaded views, shown = Some (loaded, views) -> loaded ≡ config_views m.
Definition initial (m : TunnelManager K R) (shown : option (DomainConfig * Views)) : desktop :=
  mkDesktop ((fun '(loaded, views) => new (Ok (dir, loaded)) (Some views) None) <$> shown)
    (mkChannel true []) m 0.

(** ** The invariant of careful runs *)

(** Every answer is owed or given once. *)
Definition ids (d : desktop) : list Z :=
  owed (dk_channel d) ++ (fst <$> replies (world (dk_manager d))).

(** A save in flight is still queued, with the old configuration running; or it
    is done, and the running configuration is its own or, if it failed, the
    old one. *)
Definition in_flight (d : desktop) (task : SaveTask) (current : DomainConfig) : Prop :=
  let running := config_views (dk_manager d) in
  (saves (dk_channel d) = [(sv_directory task, sv_config task, sv_reply task)] /\ current ≡ running)
  \/ (saves (dk_channel d) = [] /\ exists r, answered d (sv_reply task) (Reply.Saved r)
        /\ if is_ok r then running = sv_config task else current ≡ running).

Definition window_inv (d : desktop) (v : Workspace) : Prop :=
  ws_manager v = true
  /\ match ws_save_task v with
     | Some task => ws_saving v = true /\ sv_directory task = dir
                    /\ exists current, ws_startup v = Ok (dir, current) /\ in_flight d task current
     | None => ws_saving v = false /\ saves (dk_channel d) = []
               /\ exists shown, ws_startup v = Ok (dir, shown)
                    /\ shown ≡ config_views (dk_manager d)
     end.

(** [careful]: the window is only known to be right in a careful run. *)
Record desktop_inv (careful : bool) (d : desktop) : Prop := {
  di_once : NoDup (ids d);
  di_fresh : Forall (fun id => id < dk_next d) (ids d);
  di_loads : is_ok (reload env (config_views (dk_manager d))) = true;
  di_window : careful = true -> forall v, dk_window d = Some v -> window_inv d v
}.

Lemma saves_owed ch directory config reply : (directory, config, reply) ∈ saves ch -> reply ∈ owed ch.
Proof.
  unfold saves, owed. rewrite !list_elem_of_omap. intros (c & Hc & Hs). exists c. split; [done|].
  destruct c; by simplify_eq/=.
Qed.

Lemma answered_once (d : desktop) reply r r' :
  NoDup (ids d) -> answered d reply r -> answered d reply r' -> r = r'.
Proof.
  intros Hnd. unfold answered. apply NoDup_app in Hnd as (_ & _ & Hnd).
  revert Hnd. induction (replies (world (dk_manager d))) as [|[i x] l IH]; [by intros _ ?%not_elem_of_nil|].
  cbn [fmap list_fmap fst]. intros [Hni Hnd]%NoDup_cons [E|Hr]%elem_of_cons [E'|Hr']%elem_of_cons;
    simplify_eq; [done|exfalso|exfalso|by apply IH].
  - apply Hni. by apply (list_elem_of_fmap_2 fst _ (i, r')).
  - apply Hni. by apply (list_elem_of_fmap_2 fst _ (i, r)).
Qed.

Lemma owed_not_answered (d : desktop) reply r : NoDup (ids d) -> reply ∈ owed (dk_channel d) -> ~ answered d reply r.
Proof.
  intros (_ & Hd & _)%NoDup_app Ho Ha. apply (Hd reply Ho). by apply (list_elem_of_fmap_2 fst _ (reply, r)).
Qed.
(** ** It is kept *)

Lemma inv_front careful (d : desktop) m :
  front m = front (dk_manager d) -> desktop_inv careful d ->
  desktop_inv careful (mkDesktop (dk_window d) (dk_channel d) m (dk_next d)).
Proof.
  unfold front. intros [= Hc Hr] [Hn Hf Hl Hw]. constructor; unfold ids; cbn; rewrite ?Hc, ?Hr; try done.
  intros Hcare v Hv. specialize (Hw Hcare v Hv). unfold window_inv, in_flight, answered in *. cbn. by rewrite Hc, Hr.
Qed.

(** A window whose save fields are the same. *)
Lemma inv_window careful (d : desktop) v v' :
  dk_window d = Some v -> same_save v v' -> desktop_inv careful d -> desktop_inv careful (with_window (Some v') d).
Proof.
  intros Hv (Hs & Hg & Ht & Hm) [Hn Hf Hl Hw]. constructor; try done. cbn. intros Hcare ? [= <-].
  specialize (Hw Hcare v Hv). unfold window_inv in *. by rewrite Hs, Hg, Ht, Hm.
Qed.

Lemma ids_sent careful (d : desktop) w ch' :
  desktop_inv careful d ->
  owed ch' = owed (dk_channel d) \/ owed ch' = owed (dk_channel d) ++ [dk_next d] ->
  let d' := mkDesktop w ch' (dk_manager d) (dk_next d + 1) in
  NoDup (ids d') /\ Forall (fun id => id < dk_next d') (ids d').
Proof.
  intros [Hn Hf _ _] Ho. unfold ids in *. cbn.
  assert (Hf' : Forall (fun id => id < dk_next d + 1)
      (owed (dk_channel d) ++ (fst <$> replies (world (dk_manager d)))))
    by (eapply Forall_impl; [exact Hf|]; intros x Hx; cbv beta in *; lia).
  destruct Ho as [-> | ->]; [done|]. rewrite <- app_assoc.
  rewrite (Permutation_app_comm _ (_ ++ _)), <- app_assoc. cbn [app].
  rewrite (Permutation_app_comm (fst <$> _)).
  assert (Hni : dk_next d ∉ owed (dk_channel d) ++ (fst <$> replies (world (dk_manager d)))).
  { intros Hin. rewrite Forall_forall in Hf. specialize (Hf _ Hin). lia. }
  split; [by apply NoDup_cons|]. constructor; [lia|done].
Qed.

Lemma press_inv careful action random (d : desktop) v v' ch' :
  desktop_inv careful d -> dk_window d = Some v -> enabled action v = true ->
  perform env path_text random (dk_next d) action v (dk_channel d) = (v', ch') ->
  desktop_inv careful (mkDesktop (Some v') ch' (dk_manager d) (dk_next d + 1)).
Proof.
  intros Hi Hv He Hp. pose proof Hi as [_ _ Hl Hw].
  assert (Hw' : careful = true -> window_inv d v) by auto. clear Hw.
  assert (Hq : quiet (dk_next d) v (dk_channel d) (v', ch') ->
               desktop_inv careful (mkDesktop (Some v') ch' (dk_manager d) (dk_next d + 1))).
  { intros ((Hs & Hg & Ht & Hm) & Hsv & Ho). cbn in *.
    destruct (ids_sent careful d (Some v') ch' Hi Ho) as [? ?]. constructor; try done.
    intros Hcare ? [= <-]. specialize (Hw' Hcare).
    unfold window_inv, in_flight, answered in *. cbn. by rewrite Hs, Hg, Ht, Hm, Hsv. }
  destruct (may_save action) eqn:Ems.
  - pose proof (perform_effect env path_text random (dk_next d) action v (dk_channel d) Ems) as Hef.
    rewrite Hp in Hef. destruct Hef as [Hef|Hef]; [by apply Hq|]. cbn in Hef.
    destruct Hef as (Hs & Hg & Hm & directory & config & current & Hst & Ht & Hsv & Ho).
    destruct (ids_sent careful d (Some v') ch' Hi (or_intror Ho)) as [? ?]. constructor; try done.
    intros Hcare ? [= <-]. pose proof (may_save_enabled _ _ Ems He) as Hns.
    destruct (Hw' Hcare) as [Hwm Hw]. destruct (ws_save_task v); [by destruct Hw; congruence|].
    destruct Hw as (_ & Hs0 & shown & Hst0 & Heq). split; [congruence|]. rewrite Ht. split; [done|].
    rewrite Hst0 in Hst. simplify_eq. split; [done|]. eexists. split; [by rewrite Hs|].
    left. cbn. rewrite Hsv, Hs0. done.
  - apply Hq. rewrite <- Hp. by apply perform_quiet.
Qed.

Lemma moved_ids (P : Z -> Prop) (paid queued given new : list Z) :
  NoDup ((paid ++ queued) ++ given) -> Forall P ((paid ++ queued) ++ given) -> new `sublist_of` paid ->
  NoDup (queued ++ given ++ new) /\ Forall P (queued ++ given ++ new).
Proof.
  intros Hn Hf Hsub.
  assert (He : (paid ++ queued) ++ given ≡ₚ queued ++ given ++ paid)
    by (rewrite <- !app_assoc, (Permutation_app_comm paid); by rewrite <- app_assoc).
  rewrite He in Hn, Hf.
  assert (Hp : queued ++ given ++ new `sublist_of` queued ++ given ++ paid)
    by (apply sublist_app; [reflexivity|]; apply sublist_app; [reflexivity|done]).
  split; [by eapply sublist_NoDup|]. rewrite Forall_forall in *. intros x Hx.
  apply Hf. eapply elem_of_submseteq; [exact Hx|]. by apply sublist_submseteq.
Qed.

Lemma command_inv careful os stamp command rest (d : desktop) :
  desktop_inv careful d -> ch_queue (dk_channel d) = command :: rest ->
  desktop_inv careful (mkDesktop (dk_window d) (mkChannel (ch_open (dk_channel d)) rest)
                 (dispatch os stamp command (dk_manager d)) (dk_next d)).
Proof.
  intros [Hn Hf Hl Hw] Hq. pose proof (dispatch_front env raw_os_text import_files order os stamp command (dk_manager d)) as Hd.
  cbv zeta in Hd. set (m' := dispatch os stamp command (dk_manager d)) in *. clearbody m'.
  assert (Howed : owed (dk_channel d) = option_list (reply_of command) ++ owed (mkChannel (ch_open (dk_channel d)) rest))
    by (unfold owed; rewrite Hq; simpl; by destruct (reply_of command)).
  assert (Hsaves : saves (dk_channel d) = option_list (save_of command) ++ saves (mkChannel (ch_open (dk_channel d)) rest))
    by (unfold saves; rewrite Hq; simpl; by destruct (save_of command)).
  assert (Hids : forall new, replies (world m') = replies (world (dk_manager d)) ++ new ->
    (fst <$> new) `sublist_of` option_list (reply_of command) ->
    NoDup (ids (mkDesktop (dk_window d) (mkChannel (ch_open (dk_channel d)) rest) m' (dk_next d)))
    /\ Forall (fun id => id < dk_next d)
         (ids (mkDesktop (dk_window d) (mkChannel (ch_open (dk_channel d)) rest) m' (dk_next d)))).
  { intros new Hr Hsub. unfold ids in *. cbn. rewrite Hr, fmap_app. rewrite Howed in Hn, Hf.
    by eapply moved_ids. }
  assert (Hother : save_of command = None -> config_views m' = config_views (dk_manager d) ->
    (exists new, replies (world m') = replies (world (dk_manager d)) ++ new
       /\ (fst <$> new) `sublist_of` option_list (reply_of command)) ->
    desktop_inv careful (mkDesktop (dk_window d) (mkChannel (ch_open (dk_channel d)) rest) m' (dk_next d))).
  { intros Hs Hc (new & Hr & Hsub). destruct (Hids new Hr Hsub) as [? ?].
    constructor; try done; [cbn; by rewrite Hc|]. intros Hcare v Hv. specialize (Hw Hcare v Hv).
    rewrite Hs in Hsaves. unfold window_inv, in_flight, answered in *. cbn in *. rewrite <- Hsaves, Hc, Hr.
    destruct Hw as [Hm Hw]. split; [done|]. destruct (ws_save_task v) as [task|]; [|done].
    destruct Hw as (? & ? & current & ? & [|[? (r & ? & ?)]]); split_and!; eauto 10.
    exists current. split; [done|]. right. split; [done|]. exists r. split; [set_solver|done]. }
  destruct command as [| | | | | | | | |directory config secret reply| | | |];
    try (destruct Hd as [Hc Hr]; by apply Hother).
  destruct Hd as (r & Hr & Hc & Hok). destruct (Hids [(reply, Reply.Saved r)] Hr) as [? ?]; [done|].
  constructor; try done.
  - cbn. rewrite Hc. destruct (is_ok r); auto.
  - intros Hcare v Hv. specialize (Hw Hcare v Hv). cbn in Hv. simpl in Hsaves. unfold window_inv in *. cbn in *.
    destruct Hw as [Hm Hw]. split; [done|].
    destruct (ws_save_task v) as [task|]; [|by destruct Hw as (_ & Hnil & _); rewrite Hnil in Hsaves].
    destruct Hw as (Hsav & Hdir & current & Hst & [[Hs Hrun]|[Hs _]]); [|by rewrite Hs in Hsaves].
    split_and!; [done|done|]. exists current. split; [done|]. right. cbn.
    rewrite Hs in Hsaves. injection Hsaves as Hd1 Hc1 Hr1 Hrest. split; [done|].
    exists r. unfold answered. cbn. rewrite Hr, Hc, <- Hr1, <- Hc1. split; [set_solver|]. by destruct (is_ok r).
Qed.

Lemma saved_inv careful (d : desktop) v task r :
  desktop_inv careful d -> dk_window d = Some v -> ws_save_task v = Some task ->
  answered d (sv_reply task) (Reply.Saved r) ->
  desktop_inv careful (with_window (Some (save_answered (Some r) v)) d).
Proof.
  intros [Hn Hf Hl Hw] Hv Ht Ha. constructor; try done. cbn. intros Hcare ? [= <-].
  specialize (Hw Hcare v Hv). unfold window_inv in *. rewrite Ht in Hw.
  destruct Hw as (Hm & Hsav & Hdir & current & Hst & [[Hs _]|[Hs (r' & Ha' & Hrun)]]).
  - exfalso. eapply owed_not_answered; [done| |exact Ha]. eapply saves_owed. rewrite Hs. by left.
  - assert (Hrr : Reply.Saved r = Reply.Saved r') by (by eapply answered_once). simplify_eq.
    unfold save_answered. rewrite Ht. cbn [dk_manager with_window dk_channel].
    destruct r' as [[]|e]; cbn in *; split_and!; try done; [|by exists current].
    exists (sv_config task). by rewrite Hrun.
Qed.

Lemma step_inv careful (d d' : desktop) : desktop_inv careful d -> step careful d d' -> desktop_inv careful d'.
Proof.
  intros Hi Hs. destruct Hs as [action random v v' ch' d Hv He Hp|os stamp command rest d Hq
    |prompt reply d|d|w d Hw Hr|command r ch' d Hsv Ho Ht|v task r d Hv Ht Ha|v reply r d Hv Ht Ha
    |v reply r d Hv Ht Ha|v reply path r d Hv Ht Ha|d|views d Hv Hc].
  - by eapply press_inv.
  - by apply command_inv.
  - apply inv_front; [|done]. apply queue_host_key_front.
  - apply inv_front; [|done]. cbn [react]. case_bool_decide; [done|apply refresh_front].
  - apply inv_front; [|done]. unfold front. cbn. by rewrite Hr.
  - apply try_send_saves in Ht as [Hs' Ho']. rewrite Hsv in Hs'. rewrite Ho in Ho'.
    assert (Es : saves ch' = saves (dk_channel d)) by (rewrite Hs'; destruct r; by rewrite app_nil_r).
    assert (Eo : owed ch' = owed (dk_channel d)) by (rewrite Ho'; destruct r; by rewrite app_nil_r).
    destruct Hi as [Hn Hf Hl Hw]. constructor; unfold ids in *; cbn; rewrite ?Eo; try done.
    intros Hcare v Hv. specialize (Hw Hcare v Hv). unfold window_inv, in_flight, answered in *. cbn. by rewrite Es.
  - by eapply saved_inv.
  - eapply inv_window; [done| |done]. by destruct r.
  - eapply inv_window; [done| |done]. by destruct r.
  - eapply inv_window; [done| |done]. by destruct r.
  - destruct Hi. by constructor.
  - destruct Hi as [Hn Hf Hl Hw]. constructor; try done. cbn. intros Hcare ? [= <-].
    split; [done|]. cbn. split_and!; [done|by apply Hc|]. by exists (config_views (dk_manager d)).
Qed.

Lemma initial_inv careful m shown : started m shown -> desktop_inv careful (initial m shown).
Proof.
  intros (Hr & Hl & Hshown).
  constructor; unfold ids; cbn; rewrite ?Hr; try (done || by apply NoDup_nil_2 || by apply Forall_nil_2).
  destruct shown as [[loaded views]|]; [|done]. intros _ v0 [= <-]. split; [done|]. cbn. eauto 10.
Qed.

Lemma steps_inv careful (d d' : desktop) :
  desktop_inv careful d -> rtc (step careful) d d' -> desktop_inv careful d'.
Proof. intros Hi Hs. revert Hi. induction Hs; eauto using step_inv. Qed.

(** After any run, a desktop without a window is as good as a fresh one. *)
Lemma closed_inv careful (d : desktop) : desktop_inv false d -> dk_window d = None -> desktop_inv careful d.
Proof. intros [Hn Hf Hl _] Hw. constructor; [done..|]. intros _ v Hv. congruence. Qed.

(** Where a careful part of a run may begin: at the start, or after any run
    whatever, once the window is closed. *)
Inductive clean (m : TunnelManager K R) (shown : option (DomainConfig * Views)) : desktop -> Prop :=
  | clean_start : clean m shown (initial m shown)
  | clean_closed d : rtc (step false) (initial m shown) d -> dk_window d = None -> clean m shown d.

(** C17: The window shows what runs, unless it was opened in the middle of a
    save. After any run at all, the configuration the manager runs and
    published can be loaded again. And from the start, or from any later moment
    without a window, as long as no window is opened while a save of an earlier
    one is still queued: while no save is in flight the configuration the window
    shows is, up to the order of its tunnels, the one the manager runs; while
    one is in flight the window shows the last one that was in force, at most
    this one save is queued, and its answer will decide. (Without that
    condition it fails: [reopened_window_loses_a_save].) *)
Theorem window_shows_what_runs m shown d0 d :
  started m shown ->
  (rtc (step false) (initial m shown) d -> is_ok (reload env (config_views (dk_manager d))) = true)
  /\ (clean m shown d0 -> rtc (step true) d0 d ->
      is_ok (reload env (config_views (dk_manager d))) = true
      /\ forall v, dk_window d = Some v ->
         (length (saves (dk_channel d)) <= 1)%nat
         /\ (ws_saving v = false -> exists config, ws_startup v = Ok (dir, config)
               /\ config ≡ config_views (dk_manager d))
         /\ (ws_saving v = true -> exists task current, ws_save_task v = Some task
               /\ ws_startup v = Ok (dir, current) /\ in_flight d task current)).
Proof.
  intros Hstd. split; [intros Hrun; apply (steps_inv false _ _ (initial_inv false m shown Hstd) Hrun)|].
  intros Hclean Hrun.
  assert (Hi : desktop_inv true d).
  { eapply steps_inv; [|exact Hrun]. destruct Hclean as [|d1 Hd Hw]; [by apply initial_inv|].
    apply closed_inv; [|done]. by apply (steps_inv false _ _ (initial_inv false m shown Hstd)). }
  destruct Hi as [_ _ Hok Hw]. split; [done|]. intros v Hv. specialize (Hw eq_refl v Hv). destruct Hw as [_ Hw].
  destruct (ws_save_task v) as [task|].
  - destruct Hw as (Hsav & _ & current & Hst & Hfl). split_and!; [|by rewrite Hsav|eauto].
    destruct Hfl as [[-> _]|[-> _]]; simpl; lia.
  - destruct Hw as (Hsav & -> & Hst). split_and!; [simpl; lia|done|by rewrite Hsav].
Qed.

(** ** Running a list of events *)

Inductive event :=
  | Press (action : Action.t) (random : Z)
  | TakeCommand (os : TunnelId -> StartEnv) (stamp : Z)
  | SaveAnswer
  | Close
  | Open (views : Views).

(** An event that cannot happen is skipped. *)
Definition exec (careful : bool) (d : desktop) (e : event) : desktop :=
  match e, dk_window d with
  | Press action random, Some v =>
      if enabled action v
      then let '(v', ch') := perform env path_text random (dk_next d) action v (dk_channel d) in
           mkDesktop (Some v') ch' (dk_manager d) (dk_next d + 1)
      else d
  | TakeCommand os stamp, w =>
      match ch_queue (dk_channel d) with
      | command :: rest =>
          mkDesktop w (mkChannel (ch_open (dk_channel d)) rest)
            (dispatch os stamp command (dk_manager d)) (dk_next d)
      | [] => d
      end
  | SaveAnswer, Some v =>
      match ws_save_task v with
      | Some task =>
          match find (fun x => bool_decide (x.1 = sv_reply task)) (replies (world (dk_manager d))) with
          | Some (_, Reply.Saved r) => with_window (Some (save_answered (Some r) v)) d
          | _ => d
          end
      | None => d
      end
  | Close, _ => with_window None d
  | Open views, None =>
      if careful && negb (bool_decide (saves (dk_channel d) = [])) then d
      else with_window (Some (new (Ok (dir, config_views (dk_manager d))) (Some views) None)) d
  | _, _ => d
  end.

Lemma exec_steps careful events (d : desktop) :
  rtc (step careful) d (foldl (exec careful) d events).
Proof.
  revert d. induction events as [|e events IH]; intros d; [done|]. cbn [foldl].
  etransitivity; [|apply IH]. clear. unfold exec.
  destruct e as [action random|os stamp| | |views], (dk_window d) as [v|] eqn:Hv; try done.
  - destruct (enabled action v) eqn:He; [|done].
    destruct (perform _ _ _ _ _ _ _) as [v' ch'] eqn:Hp. by eapply rtc_once, step_press.
  - destruct (ch_queue _) as [|c rest] eqn:Hq; [done|]. rewrite <- Hv. by apply rtc_once, step_command.
  - destruct (ch_queue _) as [|c rest] eqn:Hq; [done|]. rewrite <- Hv. by apply rtc_once, step_command.
  - destruct (ws_save_task v) as [task|] eqn:Ht; [|done].
    destruct (find _ _) as [[reply []]|] eqn:Hf; try done. apply find_some in Hf as [Hin Hr]. simpl in Hr.
    apply bool_decide_eq_true in Hr. subst reply. eapply rtc_once, step_saved; [done|done|].
    by apply list_elem_of_In.
  - apply rtc_once, step_close.
  - apply rtc_once, step_close.
  - destruct (_ && _) eqn:E; [done|]. apply rtc_once, step_open; [done|]. intros ->. simpl in E.
    apply negb_false_iff in E. by bools.
Qed.
End Desktop.

(** ** Witnesses and counterexamples *)

Module ToyGroups.
Definition group (id name : string) (order : Z) : TunnelGroup := mkTunnelGroup (mkGroupId id) name order.
Definition grouped (gs : list TunnelGroup) : DomainConfig :=
  mkDomainConfig AppSettings_default [] gs [].
Definition document (gs : list TunnelGroup) : ConfigDocument :=
  mkConfigDocument SCHEMA_VERSION AppSettings_default [] (group_record <$> gs) [].

(** What saving a new jumper with a key in the home directory writes. *)
Definition key_host : HostRecord := {|
  hr_id := "host-1"; hr_name := "Bastion"; hr_hostname := "bastion.example"; hr_port := 22;
  hr_username := "u"; hr_auth_type := AuthType.PrivateKey; hr_credential_ref := None;
  hr_identity_file := Some "~/.ssh/id"; hr_passphrase_ref := None; hr_agent_socket := None;
  hr_host_key_policy := HostKeyPolicy.Strict; hr_connect_timeout_ms := 8000;
  hr_keepalive_interval_ms := 10000; hr_keepalive_max := 3; hr_notes := "" |}.
Definition key_document : ConfigDocument :=
  mkConfigDocument SCHEMA_VERSION AppSettings_default [key_host] [] [].

Definition table : list (string * ConfigDocument) :=
  [("none", document []); ("A", document [group "group-1" "A" 1]);
   ("B", document [group "group-1" "B" 1]); ("key", key_document)].
Definition print (d : ConfigDocument) : result string string :=
  match find (fun '(_, d') => bool_decide (d' = d)) table with
  | Some (text, _) => Ok text
  | None => Err "unknown document"
  end.
Definition parse (text : string) : result ConfigDocument string :=
  match find (fun '(t, _) => bool_decide (t = text)) table with
  | Some (_, d) => Ok d
  | None => Err "unknown text"
  end.
#[global] Instance toml : Toml := {| from_str := parse; to_string_pretty := print |}.
#[global] Instance os : Os := {| read_dir_order := id; read_dir_order_perm := fun l => reflexivity l |}.
End ToyGroups.
Import ToyGroups ToyKeyring ToyGlob ToyInput.

Definition group_world : World (gmap string string) (option (list Z)) :=
  mkWorld ∅ 0 1700000000 ∅ [] [] (mkDisk (mkFs {[("/cfg", "config.toml") := "none"]} {["/cfg"]} []) ∅ None).

Definition group_manager : TunnelManager (gmap string string) (option (list Z)) :=
  mkTunnelManager [] [] ∅ ∅ ∅ [] [] ∅ [] [] (grouped []) [] 1 None group_world.

Definition no_views : Views := mkViews ∅ [] [].

Definition run_from (careful : bool) (d : Desktop (gmap string string) (option (list Z)))
    (events : list event) : Desktop (gmap string string) (option (list Z)) :=
  foldl (exec (H0 := Toy.russh) example_env (fun _ => "error") example_import elements
           (fun p => p.1) "/cfg" careful) d events.
Definition run (careful : bool) (events : list event) := run_from careful (initial "/cfg" group_manager None) events.

(** The user adds a group and saves it. *)
Definition add_group (name : string) : list event :=
  [Press Action.NewGroup 0; Press (Action.GroupName name) 0; Press Action.SaveGroup 0].
Definition take_next : event := TakeCommand toy_os 5.

Definition add_key_host : list event :=
  (fun a => Press a 0) <$>
    [Action.NewHost; Action.HostForm (HostEdit.Type_ HostField.Name "Bastion");
     Action.HostForm (HostEdit.Type_ HostField.Hostname "bastion.example");
     Action.HostForm (HostEdit.Type_ HostField.Username "u");
     Action.HostForm (HostEdit.ChooseAuth 1);
     Action.HostForm (HostEdit.Type_ HostField.IdentityFile "~/.ssh/id"); Action.SaveEditor].

Definition group_names (d : Desktop (gmap string string) (option (list Z))) : list string :=
  group_name <$> dc_groups (config_views (dk_manager d)).

Example saved_group_is_shown :
  let d := run true ([Open no_views] ++ add_group "A" ++ [take_next; SaveAnswer]) in
  group_names d = ["A"]
  /\ (ws_startup <$> dk_window d) = Some (Ok ("/cfg", grouped [group "group-1" "A" 1])).
Proof. vm_compute. done. Qed.

(** A window is closed in the middle of its save; once the save is answered, a
    new window shows what was saved. *)
Definition reopened : list event := [Open no_views] ++ add_group "A" ++ [Close; take_next].

Theorem window_shows_what_runs_witness :
  let d := run_from true (run false reopened) [Open no_views] in
  exists v config, dk_window d = Some v /\ ws_startup v = Ok ("/cfg", config)
    /\ config ≡ config_views (dk_manager d) /\ group_names d = ["A"].
Proof.
  cbv zeta. destruct (dk_window (run_from true (run false reopened) [Open no_views])) as [v|] eqn:Hv;
    [|by vm_compute in Hv].
  destruct (window_shows_what_runs (H0 := Toy.russh) example_env (fun _ => "error") example_import elements
    (fun p => p.1) "/cfg" group_manager None (run false reopened) (run_from true (run false reopened) [Open no_views])
    ltac:(split_and!; [vm_compute; reflexivity..|done])) as [_ Hclean].
  destruct Hclean as [_ Hw].
  - apply clean_closed; [apply exec_steps|vm_compute; reflexivity].
  - apply exec_steps.
  - destruct (Hw v Hv) as (_ & Hshown & _).
    assert (Hs : ws_saving v = false).
    { assert (Hs : (ws_saving <$> dk_window (run_from true (run false reopened) [Open no_views])) = Some false)
        by (vm_compute; reflexivity). rewrite Hv in Hs. by injection Hs. }
    destruct (Hshown Hs) as (config & Hc & Heq). exists v, config. split; [reflexivity|]. split; [exact Hc|].
    split; [exact Heq|vm_compute; reflexivity].
Defined.

(** A save can be lost. If the window is closed and opened again while its save
    waits in the queue, the new window starts from the configuration of before
    that save; the next save from it replaces the first one, although both
    were answered with success: the group that was saved is gone, and nobody
    deleted it. *)
Theorem reopened_window_loses_a_save :
  let steps := rtc (step (H0 := Toy.russh) example_env (fun _ => "error") example_import elements
                      (fun p => p.1) "/cfg" false) in
  exists d1 d2, steps (initial "/cfg" group_manager None) d1 /\ steps d1 d2
    /\ answered d1 2 (Reply.Saved (Ok tt)) /\ group_names d1 = ["A"]
    /\ (ws_startup <$> dk_window d1) = Some (Ok ("/cfg", grouped []))
    /\ answered d2 5 (Reply.Saved (Ok tt)) /\ group_names d2 = ["B"].
Proof.
  exists (run false ([Open no_views] ++ add_group "A" ++ [Close; Open no_views; take_next])).
  exists (run_from false (run false ([Open no_views] ++ add_group "A" ++ [Close; Open no_views; take_next]))
            (add_group "B" ++ [take_next])).
  split_and!; [apply exec_steps|apply exec_steps|..].
  1,4: apply list_elem_of_In; vm_compute; tauto.
  all: vm_compute; reflexivity.
Qed.

(** A key in the home directory is used under another name after a restart.
    The form saves and the manager runs the path as it was typed, while loading
    the file it was saved to replaces the tilde by the home directory. *)
Theorem home_relative_key_changes_at_restart :
  let d := run true ([Open no_views] ++ add_key_host ++ [take_next; SaveAnswer]) in
  host_auth <$> hosts (dk_manager d) = [AuthConfig.PrivateKey "~/.ssh/id" None]
  /\ exists c s, Store.load example_env (Store.new "/cfg") (disk_fs (disk (world (dk_manager d)))) = (Ok c, s)
       /\ host_auth <$> dc_hosts c = [AuthConfig.PrivateKey "/home/u/.ssh/id" None].
Proof.
  split; [vm_compute; reflexivity|]. eexists _, _. split; [vm_compute; reflexivity|reflexivity].
Qed.
