(* ===== verification/View.v ===== *)
(** * View: what the window shows, the render functions of
    crates/app/src/workspace.rs.

    A page is the list of its elements in the order they are drawn: texts,
    buttons with the action a press performs, input fields. Layout, colours and
    fonts are left out. The theorems connect the buttons that are drawn with
    the actions of Desktop, and what is written with the state. *)
From S2P Require Import Prelude Io Text Float Net Domain Validation Path Schema Fs Store Secrets Persist Russh HostKey SshClient Chain Retry LocalForward Supervisor RemoteSupervisor Status SshImport Manager ManagerProps Engine Editor Workspace WorkspaceProps Desktop.

#[export] Instance Page_eq_dec : EqDecision Page.t.
Proof. solve_decision. Defined.
#[export] Instance LogFilter_eq_dec : EqDecision LogFilter.t.
Proof. solve_decision. Defined.

(** ** Elements *)

Record button := mkButton {
  bt_id : string;
  bt_label : string;
  bt_selected : bool;
  bt_disabled : bool;
  bt_action : Action.t
}.

Inductive element :=
  | Text (text : string)
  | Named (id aria_label text : string)
  | Button (b : button)
  | Field (id : string) (password : bool) (value : string).

Definition nat_text (n : nat) : string := show_dec (Z.of_nat n).

(** A button that is neither selected nor disabled. *)
Definition plain (id label : string) (action : Action.t) : element :=
  Button (mkButton id label false false action).
Definition disabled_if (disabled : bool) (id label : string) (action : Action.t) : element :=
  Button (mkButton id label false disabled action).
Definition selected_if (selected : bool) (id label : string) (action : Action.t) : element :=
  Button (mkButton id label selected false action).

Definition input_row (label value : string) : list element := [Text label; Field label false value].
Definition password_row (label value : string) : list element := [Text label; Field label true value].

(** [.when(..)] and [if let]: an element or none. *)
Definition when (b : bool) (e : list element) : list element := if b then e else [].

(** ** Status texts *)

Definition state_label (state : SupervisorState.t) : string :=
  match state with
  | SupervisorState.Connecting _ => "Connecting"
  | SupervisorState.Reconnecting _ _ _ => "Reconnecting"
  | SupervisorState.Healthy _ _ => "Healthy"
  | SupervisorState.Degraded _ _ => "Degraded"
  | SupervisorState.Blocked _ => "Blocked"
  | SupervisorState.Stopped => "Stopped"
  end.

Definition status_details (state : SupervisorState.t) (listener_reserved : bool) : option string :=
  match state with
  | SupervisorState.Healthy rtts remote_port =>
      let latency := (fun rtt => show_dec (as_millis rtt) +:+ " ms") <$> last rtts in
      match latency, remote_port with
      | Some latency, Some port => Some (latency +:+ " · Remote port " +:+ show_dec port)
      | Some latency, None => Some latency
      | None, Some port => Some ("Remote port " +:+ show_dec port)
      | None, None => None
      end
  | SupervisorState.Degraded failed_pings reason =>
      Some ("Ping failure " +:+ show_dec failed_pings +:+ "/3 · " +:+ reason)
  | SupervisorState.Reconnecting attempt delay reason =>
      let listener := if listener_reserved then " · Local listener remains reserved" else "" in
      Some ("Retry " +:+ show_dec attempt +:+ " after " +:+ show_f32 (as_secs_f32 delay) +:+ "s · "
            +:+ reason +:+ listener)
  | SupervisorState.Blocked reason => Some reason
  | SupervisorState.Connecting attempt => Some ("SSH attempt " +:+ show_dec attempt)
  | SupervisorState.Stopped => None
  end.

(** ** The frame *)

Definition page_button (v : Workspace) (page : Page.t) : element :=
  selected_if (bool_decide (ws_page v = page)) (Page.title page) (Page.title page)
    (Action.SelectPage page).

Definition render_sidebar (v : Workspace) : list element :=
  Text "TunnelWarden"
  :: (page_button v <$> [Page.Overview; Page.Jumpers; Page.Tunnels; Page.Groups; Page.Logs])
  ++ [page_button v Page.Settings].

Definition render_host_key_prompt (v : Workspace) (prompt : HostKeyPromptView) : list element :=
  let id := show_dec (pv_id prompt) in
  [ Text "The authenticity of this SSH host cannot be established";
    Text (pv_host prompt +:+ ":" +:+ show_dec (pv_port prompt) +:+ " · " +:+ pv_algorithm prompt
          +:+ " · " +:+ pv_fingerprint prompt);
    Text (nat_text (length (ws_host_key_prompts v)) +:+ " pending host key confirmation(s)");
    plain ("trust-once-" +:+ id) "Trust Once"
      (Action.ResolveHostKey (pv_id prompt) HostKeyDecision.TrustOnce);
    plain ("trust-save-" +:+ id) "Trust & Save"
      (Action.ResolveHostKey (pv_id prompt) HostKeyDecision.TrustAndSave);
    plain ("trust-cancel-" +:+ id) "Cancel"
      (Action.ResolveHostKey (pv_id prompt) HostKeyDecision.Cancel) ].

(** ** Lists *)

(** ["{}–{} of {}"] *)
Definition range_text (first last total : nat) : string :=
  nat_text first +:+ "–" +:+ nat_text last +:+ " of " +:+ nat_text total.

Definition render_pager (v : Workspace) : list element :=
  let total := page_count v in
  let page := ws_page_index v in
  [ Text (range_text (if bool_decide (total = 0%nat) then 0 else page * PAGE_SIZE + 1)
                     (min ((page + 1) * PAGE_SIZE) total) total);
    disabled_if (bool_decide (page = 0%nat)) "previous-page" "Previous" Action.PreviousPage;
    disabled_if (bool_decide (total <= (page + 1) * PAGE_SIZE)%nat) "next-page" "Next" Action.NextPage ].

Definition host_row (host : SshHost) : list element :=
  [ Text (host_name host);
    Text (host_username host +:+ "@" +:+ host_hostname host +:+ ":" +:+ show_dec (host_port host));
    plain ("edit-host-" +:+ host_id_0 (host_id host)) "Edit" (Action.EditHost (host_id host)) ].

Definition render_hosts (v : Workspace) (config : DomainConfig) : list element :=
  [ Text (if bool_decide (dc_hosts config = []) then "No jumpers configured" else "Saved jumpers");
    plain "new-host" "New Jumper" Action.NewHost ]
  ++ concat (host_row <$> page_rows (ws_page_index v) (dc_hosts config))
  ++ render_pager v.

Definition mode_label (mode : TunnelMode.t) : string :=
  match mode with
  | TunnelMode.Local => "Local" | TunnelMode.Remote => "Remote" | TunnelMode.Dynamic => "SOCKS5"
  end.

Definition action_label (state : SupervisorState.t) : string :=
  match state with
  | SupervisorState.Stopped => "Start"
  | SupervisorState.Blocked _ => "Retry"
  | _ => "Stop"
  end.

(** The press of the action button sends [action_command] of the state it was
    drawn for. *)
Definition tunnel_row (v : Workspace) (tunnel : TunnelConfig) : list element :=
  let id := tunnel_id_0 (tunnel_id tunnel) in
  let state := tunnel_state v (tunnel_id tunnel) in
  let label := state_label state in
  let reserved := bool_decide (is_Some (ws_snapshot v !! tunnel_id tunnel ≫= tv_local_addr)) in
  [ Text (tunnel_name tunnel);
    Named ("tunnel-status-" +:+ id) (tunnel_name tunnel +:+ " " +:+ label)
      (mode_label (tunnel_mode tunnel) +:+ " · " +:+ local_host (tunnel_local tunnel) +:+ ":"
       +:+ show_dec (local_port (tunnel_local tunnel)) +:+ " · " +:+ label) ]
  ++ match status_details state reserved with
     | Some details => [Named ("tunnel-details-" +:+ id) details details]
     | None => []
     end
  ++ [ plain ("edit-tunnel-" +:+ id) "Edit" (Action.EditTunnel (tunnel_id tunnel));
       disabled_if (negb (ws_manager v)) (id +:+ "-action") (action_label state)
         (Action.TunnelAction (tunnel_id tunnel)) ].

Definition render_tunnels (v : Workspace) (config : DomainConfig) : list element :=
  [ Text (if bool_decide (dc_tunnels config = []) then "No tunnels configured" else "Saved tunnels");
    plain "new-tunnel" "New Tunnel" Action.NewTunnel ]
  ++ concat (tunnel_row v <$> page_rows (ws_page_index v) (dc_tunnels config))
  ++ render_pager v.

Definition group_row (v : Workspace) (config : DomainConfig) (group : TunnelGroup) : list element :=
  let gid := group_id group in
  let id := group_id_0 gid in
  let tunnel_count :=
    length (List.filter (fun t => bool_decide (tunnel_group_id t = Some gid)) (dc_tunnels config)) in
  let pending := bool_decide (ws_pending_group_delete v = Some gid) in
  [ Text (group_name group +:+ " · " +:+ nat_text tunnel_count +:+ " tunnels");
    plain ("group-edit-" +:+ id) "Rename" (Action.EditGroup gid);
    plain ("group-start-" +:+ id) "Start All" (Action.StartGroup gid);
    plain ("group-stop-" +:+ id) "Stop All" (Action.StopGroup gid);
    disabled_if (ws_saving v) ("group-up-" +:+ id) "Up" (Action.MoveGroup gid (-1));
    disabled_if (ws_saving v) ("group-down-" +:+ id) "Down" (Action.MoveGroup gid 1);
    disabled_if (ws_saving v) ("group-delete-" +:+ id) (if pending then "Confirm delete" else "Delete")
      (Action.DeleteGroup gid) ]
  ++ when pending [Text "Deleting this group moves its tunnels to Ungrouped."].

Definition render_groups (v : Workspace) (config : DomainConfig) : list element :=
  [ Text (if bool_decide (dc_groups config = []) then "No groups configured" else "Tunnel groups");
    plain "new-group" "New Group" Action.NewGroup ]
  ++ concat (group_row v config <$> page_rows (ws_page_index v) (sort_groups (dc_groups config)))
  ++ render_pager v.

(** ** The log *)

Definition level_text (level : LogLevel.t) : string :=
  match level with
  | LogLevel.Debug => "DEBUG" | LogLevel.Info => "INFO" | LogLevel.Warning => "WARN"
  | LogLevel.Error => "ERROR"
  end.

Definition two_digits (n : Z) : string := zero_pad 2 (show_dec n).

Definition log_row (number : nat) (event : LogEvent) : element :=
  let time := le_timestamp_unix event mod 86400 in
  let level := level_text (le_level event) in
  Named ("log-row-" +:+ nat_text number)
    (level +:+ " " +:+ le_subject event +:+ " " +:+ le_stage event +:+ " " +:+ le_message event)
    (two_digits (time / 3600) +:+ ":" +:+ two_digits ((time / 60) mod 60) +:+ ":"
     +:+ two_digits (time mod 60) +:+ " UTC  " +:+ level +:+ "  " +:+ le_subject event +:+ "  "
     +:+ le_stage event +:+ "  " +:+ le_message event).

Definition filter_button (v : Workspace) (f : LogFilter.t) : element :=
  selected_if (bool_decide (ws_log_filter v = f)) ("log-filter-" +:+ LogFilter.label f)
    (LogFilter.label f) (Action.ChooseLogFilter f).

Definition render_logs (v : Workspace) : list element :=
  let total := log_total v in
  let start := (ws_page_index v * PAGE_SIZE)%nat in
  (filter_button v <$> [LogFilter.All; LogFilter.Debug; LogFilter.Info; LogFilter.Warning;
                        LogFilter.Error; LogFilter.Tunnel; LogFilter.Host])
  ++ [ Text "Search events"; Field "log-search" false (ws_log_search v);
       Text (if bool_decide (total = 0%nat) then "No matching runtime events"
             else "Recent runtime events (newest first)") ]
  ++ imap (fun index event => log_row (start + index) event) (log_rows v)
  ++ [ Text (range_text (if bool_decide (total = 0%nat) then 0 else start + 1)
                        (min (start + PAGE_SIZE) total) total);
       disabled_if (bool_decide (start = 0%nat)) "logs-previous" "Previous" Action.PreviousPage;
       disabled_if (bool_decide (total <= start + PAGE_SIZE)%nat) "logs-next" "Next"
         Action.NextPage ].

(** ** Settings *)

Definition render_import_preview (v : Workspace) (preview : DomainConfig) : list element :=
  Text "Import preview"
  :: ((fun host => Text (host_name host +:+ " · " +:+ host_username host +:+ "@" +:+ host_hostname host
                         +:+ ":" +:+ show_dec (host_port host)))
      <$> take PAGE_SIZE (dc_hosts preview))
  ++ when (bool_decide (PAGE_SIZE < length (dc_hosts preview))%nat)
       [Text ("… " +:+ nat_text (length (dc_hosts preview) - PAGE_SIZE) +:+ " more jumpers")]
  ++ [ Text (nat_text (length (dc_tunnels preview)) +:+ " tunnels will be imported");
       disabled_if (ws_saving v) "confirm-import" "Replace configuration" Action.ConfirmImport;
       disabled_if (ws_saving v) "cancel-import" "Cancel import" Action.CancelImport ].

Definition ssh_row (v : Workspace) (config : DomainConfig) (index : nat) (entry : SshImportEntry)
    : list element :=
  let host := ie_host entry in
  let conflict := ssh_conflict (dc_hosts config) host in
  let selected := default false (ws_ssh_selected v !! index) in
  let no_user := str_is_empty (host_username host) in
  let status :=
    if conflict then "Duplicate · rename on import"
    else if no_user then "Needs user"
    else if negb (bool_decide (ie_warnings entry = [])) then "Warnings"
    else "Ready" in
  [ Button (mkButton ("ssh-import-" +:+ nat_text index)
              (if selected then "✓ Import" else if conflict then "Rename & add" else "Skip")
              selected (no_user || ws_saving v) (Action.ToggleSsh index));
    Text (ie_alias entry +:+ " → " +:+ host_username host +:+ "@" +:+ host_hostname host +:+ ":"
          +:+ show_dec (host_port host) +:+ " · " +:+ default "direct" (ie_proxy_jump entry)
          +:+ " · " +:+ status) ]
  ++ (Text <$> take 3 (ie_warnings entry)).

(** [usize::div_ceil] *)
Definition div_ceil (a b : nat) : nat :=
  if bool_decide (a mod b = 0)%nat then (a / b)%nat else S (a / b).

Definition render_ssh_preview (v : Workspace) (config : DomainConfig) (preview : SshImportPreview)
    : list element :=
  let page := ws_page_index v in
  let entries := ip_entries preview in
  let pages := div_ceil (length entries) PAGE_SIZE in
  Text "OpenSSH import preview"
  :: (Text <$> take 8 (ip_warnings preview))
  ++ concat (imap (fun i entry => ssh_row v config (page * PAGE_SIZE + i) entry)
               (page_rows page entries))
  ++ when (bool_decide (PAGE_SIZE < length entries)%nat)
       [ disabled_if (bool_decide (page = 0%nat)) "ssh-prev" "Previous" Action.PreviousPage;
         Text ("Page " +:+ nat_text (page + 1) +:+ " of " +:+ nat_text pages);
         disabled_if (bool_decide (pages <= page + 1)%nat) "ssh-next" "Next" Action.NextPage ]
  ++ [ disabled_if (ws_saving v || negb (existsb id (ws_ssh_selected v))) "confirm-ssh-import"
         "Add selected jumpers" Action.ConfirmSshImport;
       disabled_if (ws_saving v) "cancel-ssh-import" "Cancel import" Action.CancelSshImport ].

Definition render_settings (v : Workspace) (directory : PathBuf) (config : DomainConfig)
    : list element :=
  let app := dc_app config in
  let busy := ws_file_busy v || ws_saving v in
  [ Text "Configuration folder";
    Text directory;
    disabled_if (ws_saving v) "run-at-login"
      (if run_at_startup app then "Launch at Windows login: on" else "Launch at Windows login: off")
      Action.FlipRunAtStartup;
    disabled_if (ws_saving v) "close-mode"
      (if minimize_to_tray app then "Close window: keep tunnels in tray"
       else "Close window: quit application") Action.FlipMinimizeToTray;
    disabled_if busy "import-config" "Import TunnelWarden config…" Action.ChooseImport;
    disabled_if busy "export-config" "Export config…" Action.ChooseExport;
    disabled_if busy "import-ssh-config" "Import OpenSSH config…" Action.ChooseSshImport ]
  ++ map_or [] (fun message => [Text message]) (ws_file_message v)
  ++ when (negb (minimize_to_tray app))
       [Text "Closing the window will stop all tunnels and quit TunnelWarden."]
  ++ map_or [] (render_import_preview v) (ws_import_preview v)
  ++ map_or [] (render_ssh_preview v config) (ws_ssh_preview v).

(** ** Forms *)

Definition auth_kind (auth : AuthConfig.t) : nat :=
  match auth with
  | AuthConfig.Agent _ => 0
  | AuthConfig.PrivateKey _ _ => 1
  | AuthConfig.Password _ => 2
  | AuthConfig.KeyboardInteractive => 3
  end.

Definition auth_button (editor : HostEditor) (kind : nat) (label : string) : element :=
  selected_if (bool_decide (auth_kind (he_auth editor) = kind)) ("auth-" +:+ nat_text kind) label
    (Action.HostForm (HostEdit.ChooseAuth kind)).

Definition policy_button (editor : HostEditor) (policy : HostKeyPolicy.t) (label : string) : element :=
  selected_if (bool_decide (he_policy editor = policy)) ("policy-" +:+ label) label
    (Action.HostForm (HostEdit.ChoosePolicy policy)).

Definition render_host_form (editor : HostEditor) : list element :=
  [Text "Jumper connection"]
  ++ input_row "Name" (he_name editor)
  ++ input_row "Host" (he_hostname editor)
  ++ input_row "Port" (he_port editor)
  ++ input_row "User" (he_username editor)
  ++ [ Text "Authentication"; auth_button editor 0 "SSH Agent"; auth_button editor 1 "Private Key";
       auth_button editor 2 "Password"; auth_button editor 3 "Keyboard Interactive" ]
  ++ match he_auth editor with
     | AuthConfig.PrivateKey _ _ =>
         input_row "Identity file" (he_identity_file editor)
         ++ password_row "Key passphrase (leave blank to keep saved value)" (he_passphrase editor)
     | AuthConfig.Password _ =>
         password_row "Password (leave blank to keep saved value)" (he_password editor)
     | AuthConfig.Agent _ => input_row "Agent socket (optional)" (he_agent_socket editor)
     | AuthConfig.KeyboardInteractive => []
     end
  ++ [ Text "Security"; policy_button editor HostKeyPolicy.Strict "Strict host key";
       policy_button editor HostKeyPolicy.Bypass "Bypass verification (unsafe)" ]
  ++ when (bool_decide (he_policy editor = HostKeyPolicy.Bypass))
       [Text "SSH host identity will not be verified for this jumper."]
  ++ [Text "Reliability"]
  ++ input_row "Connect timeout (ms)" (he_connect_timeout_ms editor)
  ++ input_row "Keepalive interval (ms)" (he_keepalive_interval_ms editor)
  ++ input_row "Keepalive max failures" (he_keepalive_max editor)
  ++ [Text "Notes"]
  ++ input_row "Notes" (he_notes editor).

Definition tunnel_edit (edit : TunnelEdit.t) : Action.t := Action.TunnelForm edit.

Definition group_option (editor : TunnelEditor) (group : TunnelGroup) : element :=
  selected_if (bool_decide (te_group_id editor = Some (group_id group)))
    ("group-option-" +:+ group_id_0 (group_id group)) (group_name group)
    (tunnel_edit (TunnelEdit.ChooseGroup (Some (group_id group)))).

Definition mode_button (editor : TunnelEditor) (mode : TunnelMode.t) (label : string) : element :=
  selected_if (bool_decide (te_mode editor = mode)) ("mode-" +:+ label) label
    (tunnel_edit (TunnelEdit.ChooseMode mode)).

Definition hop_row (config : DomainConfig) (editor : TunnelEditor) (index : nat) (hop : HostId)
    : list element :=
  let name := map_or (host_id_0 hop) host_name (find_host (dc_hosts config) hop) in
  let i := nat_text index in
  [ Text (nat_text (index + 1) +:+ ". " +:+ name);
    disabled_if (bool_decide (index = 0%nat)) ("hop-up-" +:+ i) "↑" (tunnel_edit (TunnelEdit.HopUp index));
    disabled_if (bool_decide ((index + 1)%nat = length (te_jump_chain editor))) ("hop-down-" +:+ i) "↓"
      (tunnel_edit (TunnelEdit.HopDown index));
    plain ("hop-remove-" +:+ i) "Remove" (tunnel_edit (TunnelEdit.HopRemove index)) ].

Definition hop_option (editor : TunnelEditor) (host : SshHost) : list element :=
  if bool_decide (host_id host ∈ te_jump_chain editor) then []
  else [ disabled_if (bool_decide (16 <= length (te_jump_chain editor))%nat)
           ("hop-add-" +:+ host_id_0 (host_id host)) ("Add " +:+ host_name host)
           (tunnel_edit (TunnelEdit.HopAdd (host_id host))) ].

Definition render_tunnel_form (config : DomainConfig) (editor : TunnelEditor) : list element :=
  let mode := te_mode editor in
  let remote := bool_decide (mode = TunnelMode.Remote) in
  [Text "Tunnel editor"]
  ++ input_row "Name" (te_name editor)
  ++ input_row "Description" (te_description editor)
  ++ [ Text "Group";
       selected_if (bool_decide (te_group_id editor = None)) "group-ungrouped" "Ungrouped"
         (tunnel_edit (TunnelEdit.ChooseGroup None)) ]
  ++ (group_option editor <$> sort_groups (dc_groups config))
  ++ [ Text "Mode"; mode_button editor TunnelMode.Local "Local";
       mode_button editor TunnelMode.Remote "Remote";
       mode_button editor TunnelMode.Dynamic "Dynamic SOCKS5" ]
  ++ input_row (if remote then "Local destination host" else "Listen host") (te_local_host editor)
  ++ input_row (if remote then "Local destination port" else "Listen port") (te_local_port editor)
  ++ when (negb (bool_decide (mode = TunnelMode.Dynamic)))
       (input_row (if remote then "Remote listen host" else "Destination host") (te_remote_host editor)
        ++ input_row (if remote then "Remote listen port" else "Destination port") (te_remote_port editor))
  ++ when (bool_decide (mode = TunnelMode.Dynamic) && bool_decide (te_local_host editor = "0.0.0.0"))
       [Text "This exposes the proxy to other devices on the network."]
  ++ [Text "Jump chain (first hop to final host)"]
  ++ concat (imap (hop_row config editor) (te_jump_chain editor))
  ++ concat (hop_option editor <$> dc_hosts config)
  ++ [ plain "auto-start" (if te_auto_start editor then "Auto start: On" else "Auto start: Off")
         (tunnel_edit TunnelEdit.ToggleAutoStart) ].

Definition render_editor (v : Workspace) (config : DomainConfig) : list element :=
  match ws_editor v with
  | Some (EditHost editor) => render_host_form editor
  | Some (EditTunnel editor) => render_tunnel_form config editor
  | None => []
  end
  ++ [ disabled_if (ws_saving v) "save-editor" "Save" Action.SaveEditor;
       disabled_if (ws_saving v) "cancel-editor" "Cancel" Action.CancelEditor ].

Definition render_group_editor (v : Workspace) : list element :=
  match ws_group_editor v with
  | None => []
  | Some editor =>
      [Text "Tunnel group"]
      ++ input_row "Name" (ge_name editor)
      ++ [ disabled_if (ws_saving v) "save-group" "Save Group" Action.SaveGroup;
           disabled_if (ws_saving v) "cancel-group" "Cancel" Action.CancelGroup ]
  end.

(** ** Pages *)

Definition count_views (p : SupervisorState.t -> bool) (v : Workspace) : nat :=
  size (filter (fun '(_, view) => p (tv_state view) = true) (ws_snapshot v)).

Definition render_overview (v : Workspace) (config : DomainConfig) : list element :=
  let healthy := count_views (fun s => match s with SupervisorState.Healthy _ _ => true | _ => false end) v in
  let reconnecting :=
    count_views (fun s => match s with SupervisorState.Reconnecting _ _ _ => true | _ => false end) v in
  let degraded := count_views (fun s => match s with SupervisorState.Degraded _ _ => true | _ => false end) v in
  let blocked := count_views (fun s => match s with SupervisorState.Blocked _ => true | _ => false end) v in
  [ Text (nat_text healthy +:+ " Healthy  ·  " +:+ nat_text degraded +:+ " Degraded  ·  "
          +:+ nat_text reconnecting +:+ " Reconnecting  ·  " +:+ nat_text blocked +:+ " Blocked");
    Text (nat_text (length (dc_tunnels config)) +:+ " saved tunnels · "
          +:+ nat_text (length (dc_hosts config)) +:+ " jumpers");
    Text "Open Tunnels to start or inspect a connection." ].

Definition render_page (v : Workspace) (directory : PathBuf) (config : DomainConfig) : list element :=
  match ws_page v with
  | Page.Overview => render_overview v config
  | Page.Jumpers => render_hosts v config
  | Page.Tunnels => render_tunnels v config
  | Page.Groups => render_groups v config
  | Page.Logs => render_logs v
  | Page.Settings => render_settings v directory config
  end.

Definition render_body (v : Workspace) : list element :=
  match ws_startup v with
  | Ok (directory, config) =>
      if bool_decide (is_Some (ws_editor v)) then render_editor v config
      else if bool_decide (is_Some (ws_group_editor v)) then render_group_editor v
      else render_page v directory config
  | Err error => [Text ("Could not load configuration: " +:+ error)]
  end.

Definition render_content (v : Workspace) : list element :=
  [Text (Page.title (ws_page v))]
  ++ map_or [] (render_host_key_prompt v) (head (ws_host_key_prompts v))
  ++ render_body v
  ++ match ws_command_error v, ws_runtime_error v with
     | Some error, _ => [Text error]
     | None, Some error => [Text ("Could not start tunnel runtime: " +:+ error)]
     | None, None => []
     end.

(** [Render::render] *)
Definition render (v : Workspace) : list element := render_sidebar v ++ render_content v.

(** ** The buttons that are drawn *)

(** A disabled button is one whose action is not enabled, or would do nothing. *)
Definition idle_edit (v : Workspace) (action : Action.t) : Prop :=
  exists edit, action = Action.TunnelForm edit /\ edit_open_tunnel edit v = v.

Definition offered (v : Workspace) (e : element) : Prop :=
  match e with
  | Button b =>
      bt_disabled b = negb (enabled (bt_action b) v)
      \/ (bt_disabled b = true /\ idle_edit v (bt_action b))
  | _ => True
  end.

Lemma offered_plain v id label action : enabled action v = true -> offered v (plain id label action).
Proof. intros He. left. cbn. by rewrite He. Qed.
Lemma offered_selected v s id label action :
  enabled action v = true -> offered v (selected_if s id label action).
Proof. intros He. left. cbn. by rewrite He. Qed.
Lemma offered_disabled v d id label action :
  d = negb (enabled action v) -> offered v (disabled_if d id label action).
Proof. intros He. by left. Qed.

(** A property of every element of a page. *)
Section Elements.
Context (P : element -> Prop).

Lemma all_when b l : Forall P l -> Forall P (when b l).
Proof. by destruct b; [|constructor]. Qed.
Lemma all_map_or {A} (f : A -> list element) o :
  (forall a, o = Some a -> Forall P (f a)) -> Forall P (map_or [] f o).
Proof. destruct o; cbn; [auto|constructor]. Qed.
Lemma all_concat {A} (f : A -> list element) l :
  (forall a, a ∈ l -> Forall P (f a)) -> Forall P (concat (f <$> l)).
Proof.
  intros Hf. induction l as [|x l IH]; cbn; [constructor|].
  apply Forall_app_2; [apply Hf; left|]. apply IH. intros a Ha. apply Hf. by right.
Qed.
Lemma all_fmap {A} (f : A -> element) l : (forall a, P (f a)) -> Forall P (f <$> l).
Proof. intros Hf. induction l; cbn; by constructor. Qed.
Lemma all_imap {A} (f : nat -> A -> element) l : (forall i a, P (f i a)) -> Forall P (imap f l).
Proof.
  revert f. induction l as [|x l IH]; intros f Hf; cbn; [constructor|].
  constructor; [done|]. apply IH. intros i a. apply Hf.
Qed.
Lemma all_concat_imap {A} (f : nat -> A -> list element) l :
  (forall i a, l !! i = Some a -> Forall P (f i a)) -> Forall P (concat (imap f l)).
Proof.
  revert f. induction l as [|x l IH]; intros f Hf; cbn; [constructor|].
  apply Forall_app_2; [by apply (Hf 0%nat)|]. apply IH. intros i a Hi. by apply (Hf (S i)).
Qed.
End Elements.

(** Break a page into its elements. *)
Ltac elements := repeat match goal with
  | |- Forall _ [] => constructor
  | |- Forall _ (_ :: _) => apply Forall_cons_2
  | |- Forall _ (_ ++ _) => apply Forall_app_2
  | |- Forall _ (when _ _) => apply all_when
  | |- Forall _ (map_or [] _ _) => apply all_map_or; intros ? ?
  | |- Forall _ (concat (_ <$> _)) => apply all_concat; intros ? ?
  | |- Forall _ (concat (imap _ _)) => apply all_concat_imap; intros ? ? ?
  | |- Forall _ (_ <$> _) => apply all_fmap; intros ?
  | |- Forall _ (imap _ _) => apply all_imap; intros ? ?
  | |- Forall _ (input_row _ _) => unfold input_row
  | |- Forall _ (password_row _ _) => unfold password_row
  end.

Ltac offers := elements; repeat match goal with
  | |- offered _ (Text _) => exact I
  | |- offered _ (Named _ _ _) => exact I
  | |- offered _ (log_row _ _) => exact I
  | |- offered _ (Field _ _ _) => exact I
  | |- offered _ (plain _ _ _) => apply offered_plain; reflexivity
  | |- offered _ (selected_if _ _ _ _) => apply offered_selected; reflexivity
  | |- offered _ (disabled_if _ _ _ _) =>
      apply offered_disabled; cbn [enabled]; rewrite ?negb_involutive; reflexivity
  end.

Lemma more_pages_list v :
  match ws_page v with Page.Jumpers | Page.Tunnels | Page.Groups => True | _ => False end ->
  bool_decide (page_count v <= (ws_page_index v + 1) * PAGE_SIZE)%nat = negb (more_pages v).
Proof.
  intros Hp. unfold more_pages, next_enabled.
  destruct (ws_page v); try done; rewrite <-bool_decide_not; apply bool_decide_ext; lia.
Qed.

Lemma offered_pager v :
  match ws_page v with Page.Jumpers | Page.Tunnels | Page.Groups => True | _ => False end ->
  Forall (offered v) (render_pager v).
Proof. intros Hp. unfold render_pager. offers. apply offered_disabled. by apply more_pages_list. Qed.

Lemma offered_hosts v config : ws_page v = Page.Jumpers -> Forall (offered v) (render_hosts v config).
Proof. intros Hp. unfold render_hosts, host_row. offers. apply offered_pager. by rewrite Hp. Qed.

Lemma offered_tunnels v config : ws_page v = Page.Tunnels -> Forall (offered v) (render_tunnels v config).
Proof.
  intros Hp. unfold render_tunnels, tunnel_row. offers; [destruct (status_details _ _); offers|].
  apply offered_pager. by rewrite Hp.
Qed.

Lemma offered_groups v config : ws_page v = Page.Groups -> Forall (offered v) (render_groups v config).
Proof. intros Hp. unfold render_groups, group_row. offers. apply offered_pager. by rewrite Hp. Qed.

Lemma offered_logs v : ws_page v = Page.Logs -> Forall (offered v) (render_logs v).
Proof.
  intros Hp. unfold render_logs, filter_button. offers.
  - apply offered_disabled. cbn [enabled]. rewrite negb_involutive. apply bool_decide_ext.
    unfold PAGE_SIZE. lia.
  - apply offered_disabled. cbn [enabled]. unfold more_pages, next_enabled. rewrite Hp, <-bool_decide_not.
    apply bool_decide_ext. unfold PAGE_SIZE. lia.
Qed.

(** ** Settings *)

Lemma page_rows_lookup {A} page i (l : list A) x :
  page_rows page l !! i = Some x -> l !! (page * PAGE_SIZE + i)%nat = Some x.
Proof. unfold page_rows. intros [Hx _]%lookup_take_Some. by rewrite lookup_drop in Hx. Qed.

Lemma div_ceil_le a b page : (0 < b)%nat -> (div_ceil a b <= page + 1 <-> a <= (page + 1) * b)%nat.
Proof.
  intros Hb. unfold div_ceil. pose proof (Nat.div_mod_eq a b) as Hd.
  pose proof (Nat.mod_upper_bound a b ltac:(lia)) as Hm.
  case_bool_decide as He; split; nia.
Qed.

Lemma offered_ssh_row v config preview index entry :
  ws_ssh_preview v = Some preview -> ip_entries preview !! index = Some entry ->
  Forall (offered v) (ssh_row v config index entry).
Proof.
  intros Hp He. unfold ssh_row. offers. left. cbn. unfold selectable. rewrite Hp. cbn. rewrite He.
  unfold str_is_empty. destruct (ws_saving v); [by rewrite orb_true_r|]. rewrite orb_false_r. cbn.
  by case_bool_decide; destruct (host_username (ie_host entry)).
Qed.

Lemma offered_ssh_preview v config preview :
  ws_page v = Page.Settings -> ws_ssh_preview v = Some preview ->
  Forall (offered v) (render_ssh_preview v config preview).
Proof.
  intros Hpage Hp. unfold render_ssh_preview. offers.
  - eapply offered_ssh_row; [done|]. by apply page_rows_lookup.
  - apply offered_disabled. cbn [enabled]. unfold more_pages, next_enabled. rewrite Hpage, Hp. cbn [map_or].
    rewrite <-bool_decide_not. apply bool_decide_ext. rewrite div_ceil_le by (unfold PAGE_SIZE; lia). lia.
  - apply offered_disabled. cbn [enabled]. by rewrite negb_andb, negb_involutive.
Qed.

Lemma offered_settings v directory config :
  ws_page v = Page.Settings -> Forall (offered v) (render_settings v directory config).
Proof.
  intros Hpage. unfold render_settings. offers.
  - unfold render_import_preview. offers.
  - by apply offered_ssh_preview.
Qed.

(** ** Forms *)

Lemma offered_host_form v editor : Forall (offered v) (render_host_form editor).
Proof. unfold render_host_form, auth_button, policy_button. offers. destruct (he_auth editor); offers. Qed.

Lemma with_chain_same f e : f (te_jump_chain e) = te_jump_chain e -> with_chain f e = e.
Proof. intros He. unfold with_chain. rewrite He. by destruct e. Qed.

(** A hop button at its limit would not change the form. *)
Lemma offered_hop v e d id label edit f :
  ws_editor v = Some (EditTunnel e) -> (forall e', edit_tunnel_form edit e' = with_chain f e') ->
  (d = true -> f (te_jump_chain e) = te_jump_chain e) ->
  offered v (disabled_if d id label (tunnel_edit edit)).
Proof.
  intros He Hedit Hf. destruct d; [right|by left]. split; [done|]. exists edit. split; [done|].
  unfold edit_open_tunnel. rewrite He, Hedit, with_chain_same by auto. unfold set_editor.
  rewrite <-He. by destruct v.
Qed.

Lemma offered_tunnel_form v config e :
  ws_editor v = Some (EditTunnel e) -> Forall (offered v) (render_tunnel_form config e).
Proof.
  intros He. unfold render_tunnel_form, mode_button, group_option. offers.
  - unfold hop_row. offers.
    + eapply (offered_hop v e _ _ _ _ (hop_up _) He); [done|]. intros ->%bool_decide_eq_true. done.
    + eapply (offered_hop v e _ _ _ _ (hop_down _) He); [done|]. intros Hl%bool_decide_eq_true.
      unfold hop_down. rewrite bool_decide_eq_false_2 by lia. done.
  - unfold hop_option. case_bool_decide; offers.
    eapply (offered_hop v e _ _ _ _ (hop_add _) He); [done|]. intros Hl%bool_decide_eq_true.
    unfold hop_add. rewrite bool_decide_eq_false_2 by lia. done.
Qed.

Lemma offered_editor v config : Forall (offered v) (render_editor v config).
Proof.
  unfold render_editor. offers. destruct (ws_editor v) as [[e|e]|] eqn:He;
    [apply offered_host_form|by apply offered_tunnel_form|offers].
Qed.

Lemma offered_group_editor v : Forall (offered v) (render_group_editor v).
Proof. unfold render_group_editor. destruct (ws_group_editor v); offers. Qed.

Lemma offered_page v directory config : Forall (offered v) (render_page v directory config).
Proof.
  unfold render_page. destruct (ws_page v) eqn:Hp;
    [unfold render_overview; offers|by apply offered_hosts|by apply offered_tunnels|by apply offered_groups
    |by apply offered_logs|by apply offered_settings].
Qed.

Lemma offered_render v : Forall (offered v) (render v).
Proof.
  unfold render, render_sidebar, render_content, page_button. offers.
  - unfold render_host_key_prompt. offers.
  - unfold render_body. destruct (ws_startup v) as [[directory config]|error]; [|offers].
    repeat case_bool_decide; [apply offered_editor|apply offered_group_editor|apply offered_page].
  - destruct (ws_command_error v), (ws_runtime_error v); offers.
Qed.

(** ** The action button of a tunnel *)

(** Only the rows of the Tunnels page have one, for a tunnel of the
    configuration, labelled with the state that is shown. *)
Definition labelled (v : Workspace) (e : element) : Prop :=
  match e with
  | Button b => forall id, bt_action b = Action.TunnelAction id ->
      bt_label b = action_label (tunnel_state v id) /\ bt_disabled b = negb (ws_manager v)
      /\ exists config, ws_startup v = Ok config /\ id ∈ tunnel_id <$> dc_tunnels config.2
  | _ => True
  end.

Ltac others := elements; try (exact I); try (by intros ? [=]).

Lemma labelled_tunnels v directory config :
  ws_startup v = Ok (directory, config) -> Forall (labelled v) (render_tunnels v config).
Proof.
  intros Hc. unfold render_tunnels, tunnel_row, render_pager. others.
  - destruct (status_details _ _); others.
  - intros id [= <-]. split_and!; [done|done|]. exists (directory, config). split; [done|].
    apply list_elem_of_fmap_2. match goal with Hx : _ ∈ page_rows _ _ |- _ => rename Hx into Hr end.
    unfold page_rows in Hr. apply (elem_of_sublist _ _ _ Hr).
    etrans; [apply sublist_take|apply sublist_drop].
Qed.

Lemma labelled_render v : Forall (labelled v) (render v).
Proof.
  unfold render, render_sidebar, render_content, page_button. others.
  - unfold render_host_key_prompt. others.
  - unfold render_body. destruct (ws_startup v) as [[directory config]|error] eqn:Hc; [|others].
    repeat case_bool_decide.
    + unfold render_editor, render_host_form, render_tunnel_form, auth_button, policy_button,
        mode_button, group_option, hop_row, hop_option.
      destruct (ws_editor v) as [[e|e]|]; others; [destruct (he_auth e); others|].
      case_bool_decide; others.
    + unfold render_group_editor. destruct (ws_group_editor v); others.
    + unfold render_page. destruct (ws_page v).
      * unfold render_overview. others.
      * unfold render_hosts, host_row, render_pager. others.
      * by eapply labelled_tunnels.
      * unfold render_groups, group_row, render_pager. others.
      * unfold render_logs, filter_button. others.
      * unfold render_settings, render_import_preview, render_ssh_preview, ssh_row. others.
  - destruct (ws_command_error v), (ws_runtime_error v); others.
Qed.

(** ** Properties *)

Section DrawnButtons.
Context `{InputState} `{Russh} `{HT : Toml, HO : Os} `{HK : Keyring K} `{HR : Registry R} `{HG : Glob}.
Context (env : Env) (raw_os_text : Z -> string) (import_files : ImportFiles).
Context (order : gset TunnelId -> list TunnelId) (path_text : FilePath -> PathBuf) (dir : PathBuf).

(** C19: What the window draws is what it can do. For every state of the window
    and every button on it: if it is enabled, pressing it is a step of the
    system of Desktop, so that the properties of its runs hold of what a user
    can do; if it is disabled, its action is one that is not enabled, or would
    change nothing (a hop at the end of its chain); and while a save is in
    flight no enabled button touches the saves. *)
Theorem drawn_buttons_are_steps careful (d : Desktop K R) v b :
  dk_window d = Some v -> Button b ∈ render v ->
  (bt_disabled b = false -> forall random v' ch',
     perform env path_text random (dk_next d) (bt_action b) v (dk_channel d) = (v', ch') ->
     step env raw_os_text import_files order path_text dir careful d
       (mkDesktop (Some v') ch' (dk_manager d) (dk_next d + 1)))
  /\ (bt_disabled b = true ->
      enabled (bt_action b) v = false
      \/ forall random reply ch, perform env path_text random reply (bt_action b) v ch = (v, ch))
  /\ (ws_saving v = true -> bt_disabled b = false -> forall random reply ch,
      quiet reply v ch (perform env path_text random reply (bt_action b) v ch)).
Proof.
  intros Hv Hb. pose proof (offered_render v) as Ho. rewrite Forall_forall in Ho.
  specialize (Ho _ Hb). cbn in Ho.
  assert (Hen : bt_disabled b = false -> enabled (bt_action b) v = true).
  { intros Hd. destruct Ho as [Hn|[Hn _]]; rewrite Hd in Hn; [|done].
    by destruct (enabled (bt_action b) v). }
  split_and!.
  - intros Hd random v' ch' Hp. eapply step_press; [exact Hv|by apply Hen|exact Hp].
  - intros Hd. destruct Ho as [Hn|[_ (edit & -> & Hs)]].
    + left. rewrite Hd in Hn. by destruct (enabled (bt_action b) v).
    + right. intros random reply ch. cbn. by rewrite Hs.
  - intros Hsav Hd random reply ch. apply perform_quiet.
    destruct (may_save (bt_action b)) eqn:Em; [|done].
    by rewrite (may_save_enabled _ _ Em (Hen Hd)) in Hsav.
Qed.
End DrawnButtons.

Section ActionButton.
Context `{InputState} `{SshTransport} `{HT : Toml, HO : Os} `{HK : Keyring K} `{HR : Registry R} `{HG : Glob}.
Context (env : Env) (raw_os_text : Z -> string) (import_files : ImportFiles).
Context (order : gset TunnelId -> list TunnelId) (path_text : FilePath -> PathBuf).
Hypothesis order_perm : forall s, order s ≡ₚ elements s.

Lemma hint_if_active p a (m : TunnelManager K R) : active (hint_if p a m) = active m.
Proof. unfold hint_if. destruct (tasks _ !! _); [|done]. by destruct (p _). Qed.

(** The button of a tunnel does what it says. The manager and its
    supervisors in any state they can reach, the window showing their latest
    snapshot: pressing the enabled action button of a tunnel's row puts one
    command at the end of the queue (if there is room), and when the manager
    takes it, then after Stop - which is offered only while a supervisor runs -
    the tunnel has no supervisor and is shown stopped, and after Start or Retry
    it has one, or is shown blocked with the reason. *)
Theorem action_button_does_what_it_says e v ch b id os stamp random reply :
  engine_reachable env raw_os_text import_files order e ->
  let m := e_manager e in
  ws_snapshot v = snapshots m -> is_Some (tunnels m !! id) ->
  Button b ∈ render v -> bt_action b = Action.TunnelAction id -> bt_disabled b = false ->
  ch_open ch = true -> (length (ch_queue ch) < COMMAND_CAPACITY)%nat ->
  exists command,
    (perform env path_text random reply (bt_action b) v ch).2
      = mkChannel true (ch_queue ch ++ [command])
    /\ let m' := dispatch env raw_os_text import_files order os stamp command m in
       if bool_decide (bt_label b = "Stop") then
         is_Some (active m !! id) /\ active m' !! id = None /\ current m' !! id = Some stopped_view
       else attempted m' id.
Proof.
  intros Hr m Hsnap Ht Hb Ha Hd Hopen Hroom.
  destruct (engine_sound _ _ _ _ order_perm e Hr) as [Hi Htr]. fold m in Hi, Htr.
  pose proof (labelled_render v) as Hl. rewrite Forall_forall in Hl.
  destruct (Hl _ Hb id Ha) as (Hlab & Hdis & _). rewrite Hd in Hdis.
  assert (Hm : ws_manager v = true) by (by destruct (ws_manager v)).
  assert (Hst : is_Some (current m !! id)).
  { apply elem_of_dom. rewrite (vo_views _ (mi_views _ Hi)). by apply elem_of_dom. }
  destruct Hst as [view Hview].
  assert (Hstate : tunnel_state v id = tv_state view).
  { unfold tunnel_state. rewrite Hsnap. change (snapshots m) with (snapshots (e_manager e)).
    pose proof (mi_published _ Hi) as Hpub. unfold published in Hpub. fold m. by rewrite Hpub, Hview. }
  pose proof (tr_views _ _ Htr id view Hview) as Hok. unfold view_ok in Hok.
  exists (action_command (tunnel_state v id) id). split.
  { rewrite Ha. cbn. unfold request. rewrite Hm. unfold try_send. rewrite Hopen. cbn.
    rewrite bool_decide_eq_false_2 by (unfold COMMAND_CAPACITY in *; lia). done. }
  rewrite Hlab, Hstate. cbv zeta.
  assert (Hstop : is_Some (active m !! id) ->
    let m' := stop id m in
    is_Some (active m !! id) /\ active m' !! id = None /\ current m' !! id = Some stopped_view).
  { intros Hact. destruct (stop_outcome id m Hi) as (? & _ & Hc & _). split_and!; auto. }
  assert (Hidle : active m !! id = None ->
    tv_state view = SupervisorState.Stopped \/ exists r, tv_state view = SupervisorState.Blocked r).
  { intros E. rewrite E in Hok. by destruct Hok. }
  assert (Hrun : forall st, tv_state view = st -> action_label st = "Stop" -> is_Some (active m !! id)).
  { intros st <- Hstp. destruct (active m !! id); [done|].
    destruct (Hidle eq_refl) as [E|[r E]]; by rewrite E in Hstp. }
  destruct (tv_state view) eqn:Ev; cbn [action_label action_command];
    try (rewrite bool_decide_eq_true_2 by done; cbn [dispatch]; apply Hstop; exact (Hrun _ eq_refl eq_refl)).
  - rewrite bool_decide_eq_false_2 by done. cbn [dispatch]. destruct (active m !! id) as [a|] eqn:Ea.
    + left. by rewrite hint_if_active, Ea.
    + by apply start_attempted; [destruct Hi|].
  - rewrite bool_decide_eq_false_2 by done. cbn [dispatch].
    by apply start_attempted; [destruct Hi|].
Qed.
End ActionButton.

(** ** Witnesses *)

Definition settings_button : button :=
  mkButton "Settings" "Settings" false false (Action.SelectPage Page.Settings).

Definition open_desktop : Desktop (gmap string string) (option (list Z)) := run true [Open no_views].

(** A freshly opened window offers its Settings page. *)
Theorem drawn_buttons_are_steps_witness :
  exists v, dk_window open_desktop = Some v /\ Button settings_button ∈ render v
    /\ step (H0 := Toy.russh) example_env (fun _ => "error") example_import elements (fun p => p.1)
         "/cfg" true open_desktop
         (mkDesktop (Some (select_page Page.Settings v)) (dk_channel open_desktop)
            (dk_manager open_desktop) (dk_next open_desktop + 1)).
Proof.
  destruct (dk_window open_desktop) as [v|] eqn:Hv; [|by vm_compute in Hv].
  assert (Hb : Button settings_button ∈ render v).
  { injection Hv as <-. apply list_elem_of_In. vm_compute. tauto. }
  exists v. split; [reflexivity|]. split; [exact Hb|].
  exact (proj1 (drawn_buttons_are_steps (H0 := Toy.russh) example_env (fun _ => "error") example_import
    elements (fun p => p.1) "/cfg" true open_desktop v settings_button Hv Hb) eq_refl 0 _ _ eq_refl).
Defined.

(** The window while the example tunnel connects. *)
Definition connecting_window : Workspace :=
  select_page Page.Tunnels
    (new (Ok ("/cfg", example_config)) (Some (mkViews (snapshots started_manager) [] [])) None).

Definition stop_button : button :=
  mkButton "t-action" "Stop" false false (Action.TunnelAction (mkTunnelId "t")).

Theorem action_button_does_what_it_says_witness :
  Button stop_button ∈ render connecting_window
  /\ exists command,
    (perform example_env (fun p => p.1) 0 1 (Action.TunnelAction (mkTunnelId "t")) connecting_window
       (mkChannel true [])).2 = mkChannel true [command]
    /\ current (dispatch (H := Toy.russh) (HT := ToyToml.toml) (HO := ToyToml.os) example_env (fun _ => "error") example_import elements toy_os 7
         command started_manager) !! mkTunnelId "t" = Some stopped_view.
Proof.
  assert (Hb : Button stop_button ∈ render connecting_window)
    by (apply list_elem_of_In; vm_compute; tauto).
  split; [exact Hb|].
  destruct (action_button_does_what_it_says (H1 := toy_transport false) (HT := ToyToml.toml)
    (HO := ToyToml.os) example_env (fun _ => "error")
    example_import elements (fun p => p.1) (fun s => reflexivity _) (mkEngine started_manager ∅)
    connecting_window (mkChannel true []) stop_button (mkTunnelId "t") toy_os 7 0 1 started_engine
    eq_refl ltac:(vm_compute; eexists; reflexivity) Hb eq_refl eq_refl eq_refl
    ltac:(vm_compute; lia)) as (command & Hp & _ & _ & Hc).
  exists command. split; [exact Hp|exact Hc].
Defined.

(** The list can be left on a page that is gone. When the only group of the
    last page is deleted the page number stays: the 25 remaining groups are
    there, no row is drawn, and the range reads "26–25 of 25". *)
Definition numbered_group (n : nat) : TunnelGroup :=
  mkTunnelGroup (mkGroupId ("g" +:+ nat_text n)) ("Group " +:+ nat_text n) (Z.of_nat n).
Definition many_groups : DomainConfig :=
  mkDomainConfig AppSettings_default [] (numbered_group <$> seq 1 26) [].

Definition after_delete : Workspace :=
  let v := next_page (select_page Page.Groups (new (Ok ("/cfg", many_groups)) (Some no_views) None)) in
  let id := mkGroupId "g26" in
  let '(v, ch) := press_delete_group id 1 v (mkChannel true []) in
  let '(v, ch) := press_delete_group id 1 v ch in
  save_answered (Some (Ok tt)) v.

Theorem deleting_leaves_an_empty_page :
  (length ∘ dc_groups ∘ snd <$> config_of after_delete) = Some 25%nat
  /\ page_rows (ws_page_index after_delete) (seq 1 25) = []
  /\ Text "26–25 of 25" ∈ render after_delete
  /\ forall id, ~ (exists b, Button b ∈ render after_delete /\ bt_action b = Action.EditGroup id).
Proof.
  split_and!; [vm_compute; reflexivity..| |].
  - apply list_elem_of_In. vm_compute. tauto.
  - intros id (b & Hb & Ha).
    assert (Hall : Forall (fun e => match e with
      | Button b => match bt_action b with Action.EditGroup _ => False | _ => True end
      | _ => True end) (render after_delete)) by (vm_compute; repeat constructor).
    rewrite Forall_forall in Hall. specialize (Hall _ Hb). cbn in Hall. by rewrite Ha in Hall.
Qed.
