(* ===== verification/Application.v ===== *)
(** * Application: the whole running program - the window and the queue of
    Desktop, the manager, and the supervisors of Engine - as one transition
    system.

    In Desktop the window may be told anything by its subscriptions, and in
    Engine nobody listens to the manager. Here the subscriptions of
    [Workspace::new] (crates/app/src/workspace.rs) deliver what the manager has
    published, the manager takes its commands from the queue, and each task it
    spawned runs its supervisor. The theorem follows a row of the Tunnels page
    back to the supervisor of its tunnel. *)
From S2P Require Import Prelude Io Text Net Domain Validation Path Schema Fs Store Secrets Persist Russh HostKey SshClient Chain Retry Runtime LocalForward Supervisor RemoteSupervisor Status SshImport Manager ManagerProps Engine Editor Workspace WorkspaceProps Desktop View.

(** ** What the callbacks leave to the subscriptions *)

Definition views_of (v : Workspace) : ManagerSnapshot * list HostKeyPromptView * list LogEvent :=
  (ws_snapshot v, ws_host_key_prompts v, ws_logs v).

(** A value a subscription delivers is what the manager has published. *)
Definition delivers {K R} (m : TunnelManager K R) (action : Action.t) : Prop :=
  match action with
  | Action.Snapshot latest => latest = snapshots m
  | Action.HostKeys latest => latest = host_key_views m
  | Action.Logs latest => latest = log_views m
  | _ => True
  end.

Section Callbacks.
Context `{InputState} (env : Env) (path_text : FilePath -> PathBuf).

Lemma persist_config_views dir config secret reply v ch :
  views_of (persist_config dir config secret reply v ch).1 = views_of v.
Proof. unfold persist_config. destruct (ws_manager v); [|done]. by destruct (try_send _ ch) as [[[]|] ?]. Qed.

Lemma request_views c v ch : views_of (request c v ch).1 = views_of v.
Proof. unfold request. destruct (ws_manager v); [|done]. by destruct (try_send _ ch) as [[[]|] ?]. Qed.

Lemma picked_views reply v ch answer : views_of (picked answer path_text reply v ch).1 = views_of v.
Proof.
  unfold picked. destruct (ws_file_task v) as [[|?| |?|?|? ?]|], answer as [[fp|]|err]; try done;
    by destruct (try_send _ ch) as [[[]|] ?].
Qed.

Lemma perform_views random reply action v ch :
  match action with
  | Action.Snapshot latest => ws_snapshot (perform env path_text random reply action v ch).1 = latest
  | _ => ws_snapshot (perform env path_text random reply action v ch).1 = ws_snapshot v
  end.
Proof.
  assert (Hviews : forall v', views_of v' = views_of v -> ws_snapshot v' = ws_snapshot v)
    by (intros ? [= -> _ _]; done).
  destruct action; cbn [perform]; try done; apply Hviews; try done;
    try apply request_views; try apply picked_views.
  all: unfold new_host, edit_host, new_tunnel, edit_tunnel, new_group, edit_group,
    edit_open_host, edit_open_tunnel, type_group_name, choose_import, choose_ssh_import, choose_export,
    save_editor, save_group, press_delete_group, delete_group, move_group, save_app,
    confirm_import, confirm_ssh_import, persist_checked.
  all: repeat case_match; try done; by rewrite ?persist_config_views.
Qed.
End Callbacks.

(** ** The system *)

Record App (K R : Type) := mkApp {
  ap_desktop : Desktop K R;
  ap_history : gmap nat (list SupervisorState.t)
}.
Arguments mkApp {K R}.
Arguments ap_desktop {K R}.
Arguments ap_history {K R}.

Section Application.
Context `{InputState} `{SshTransport} `{HT : Toml, HO : Os} `{HK : Keyring K} `{HR : Registry R} `{HG : Glob}.
Context (env : Env) (raw_os_text : Z -> string) (import_files : ImportFiles).
Context (order : gset TunnelId -> list TunnelId) (path_text : FilePath -> PathBuf) (dir : PathBuf).
Notation app := (App K R).
Notation desktop := (Desktop K R).

Definition app_manager (a : app) : TunnelManager K R := dk_manager (ap_desktop a).

Definition with_manager (m : TunnelManager K R) (d : desktop) : desktop :=
  mkDesktop (dk_window d) (dk_channel d) m (dk_next d).

(** What a window opened now is given. *)
Definition published_views (m : TunnelManager K R) : Views :=
  mkViews (snapshots m) (host_key_views m) (log_views m).

(** A press or a delivery; the other events of the window and its queue (those
    of Desktop that leave the manager alone); the manager taking a command, a
    host key prompt or a tick; its supervisors; and a window being opened. *)
Inductive app_step (careful : bool) : app -> app -> Prop :=
  | as_press action random v v' ch' d hist :
      dk_window d = Some v -> enabled action v = true -> delivers (dk_manager d) action ->
      perform env path_text random (dk_next d) action v (dk_channel d) = (v', ch') ->
      app_step careful (mkApp d hist) (mkApp (mkDesktop (Some v') ch' (dk_manager d) (dk_next d + 1)) hist)
  | as_command os stamp command rest d hist :
      ch_queue (dk_channel d) = command :: rest ->
      app_step careful (mkApp d hist)
        (mkApp (mkDesktop (dk_window d) (mkChannel (ch_open (dk_channel d)) rest)
           (react env raw_os_text import_files order (Input.Command os stamp command) (dk_manager d))
           (dk_next d)) hist)
  | as_prompt prompt reply d hist :
      app_step careful (mkApp d hist)
        (mkApp (with_manager (react env raw_os_text import_files order (Input.Prompt prompt reply)
                                (dk_manager d)) d) hist)
  | as_tick d hist :
      app_step careful (mkApp d hist)
        (mkApp (with_manager (react env raw_os_text import_files order Input.Tick (dk_manager d)) d) hist)
  | as_supervisors m' d hist hist' :
      engine_step env raw_os_text import_files order (mkEngine (dk_manager d) hist) (mkEngine m' hist') ->
      front m' = front (dk_manager d) ->
      app_step careful (mkApp d hist) (mkApp (with_manager m' d) hist')
  | as_tray command r ch' d hist :
      save_of command = None -> reply_of command = None ->
      try_send command (dk_channel d) = (r, ch') ->
      app_step careful (mkApp d hist) (mkApp (mkDesktop (dk_window d) ch' (dk_manager d) (dk_next d)) hist)
  | as_saved v task r d hist :
      dk_window d = Some v -> ws_save_task v = Some task ->
      answered d (sv_reply task) (Reply.Saved r) ->
      app_step careful (mkApp d hist) (mkApp (with_window (Some (save_answered (Some r) v)) d) hist)
  | as_imported v reply r d hist :
      dk_window d = Some v -> ws_file_task v = Some (FileTask.AwaitImport reply) ->
      answered d reply (Reply.Config r) ->
      app_step careful (mkApp d hist) (mkApp (with_window (Some (import_answered r v)) d) hist)
  | as_ssh_previewed v reply r d hist :
      dk_window d = Some v -> ws_file_task v = Some (FileTask.AwaitSsh reply) ->
      answered d reply (Reply.Preview r) ->
      app_step careful (mkApp d hist) (mkApp (with_window (Some (ssh_answered r v)) d) hist)
  | as_exported v reply path r d hist :
      dk_window d = Some v -> ws_file_task v = Some (FileTask.AwaitExport reply path) ->
      answered d reply (Reply.Saved r) ->
      app_step careful (mkApp d hist)
        (mkApp (with_window (Some (export_answered (path_text path) r v)) d) hist)
  | as_close d hist : app_step careful (mkApp d hist) (mkApp (with_window None d) hist)
  | as_open d hist :
      dk_window d = None -> (careful = true -> saves (dk_channel d) = []) ->
      app_step careful (mkApp d hist)
        (mkApp (with_window (Some (new (Ok (dir, config_views (dk_manager d)))
           (Some (published_views (dk_manager d))) None)) d) hist).

(** The start: the engine as main.rs leaves it, and the first window, if any,
    with what is published by then. *)
Inductive app_reachable (careful : bool) : app -> Prop :=
  | ar_start m hist shown :
      engine_reachable env raw_os_text import_files order (mkEngine m hist) -> started env m shown ->
      (forall loaded views, shown = Some (loaded, views) -> view_snapshot views = snapshots m) ->
      app_reachable careful (mkApp (initial dir m shown) hist)
  | ar_step a a' : app_reachable careful a -> app_step careful a a' -> app_reachable careful a'.

(** ** What is kept *)

Definition engine_of (a : app) : Engine K R := mkEngine (app_manager a) (ap_history a).

(** Each step is one of the engine, or leaves it alone. *)
Lemma app_engine_step careful a a' :
  app_step careful a a' ->
  engine_of a' = engine_of a \/ engine_step env raw_os_text import_files order (engine_of a) (engine_of a').
Proof. destruct 1; try (by left); right; try apply es_react. done. Qed.

Lemma app_engine careful a :
  app_reachable careful a -> engine_reachable env raw_os_text import_files order (engine_of a).
Proof.
  induction 1 as [m hist shown Hr _ _|a a' _ IH Hs]; [exact Hr|].
  apply app_engine_step in Hs as [->|Hs]; [done|by eapply er_step].
Qed.

(** A step of the whole that is one of Desktop keeps the invariant of careful
    runs; the supervisors do not touch what it speaks of. *)
Lemma app_desktop_inv a : app_reachable true a -> desktop_inv env dir true (ap_desktop a).
Proof.
  induction 1 as [m hist shown _ Hst _|a a' _ IH Hs]; [by apply initial_inv|].
  destruct Hs; cbn [ap_desktop] in *;
    try (by apply inv_front; [done|]);
    (eapply (step_inv env raw_os_text import_files order path_text dir); [exact IH|]).
  - by eapply step_press.
  - by apply step_command.
  - apply step_prompt.
  - apply step_tick.
  - by eapply step_tray.
  - by eapply step_saved.
  - by eapply step_imported.
  - by eapply step_ssh_previewed.
  - by eapply step_exported.
  - apply step_close.
  - by apply step_open.
Qed.

(** The snapshot a window shows is one the manager has published. *)
Lemma app_snapshot careful a v :
  app_reachable careful a -> dk_window (ap_desktop a) = Some v ->
  exists a1, app_reachable careful a1 /\ rtc (app_step careful) a1 a
    /\ snapshots (app_manager a1) = ws_snapshot v.
Proof.
  intros Hr. revert v. induction Hr as [m hist shown He Hst Hsh|a a' Hr IH Hs]; intros v Hv.
  { exists (mkApp (initial dir m shown) hist). split_and!; [by constructor|done|]. cbn in *.
    destruct shown as [[loaded views]|]; [|done]. injection Hv as <-. cbn. symmetry. by eapply Hsh. }
  assert (Hold : forall v0, dk_window (ap_desktop a) = Some v0 -> ws_snapshot v = ws_snapshot v0 ->
    exists a1, app_reachable careful a1 /\ rtc (app_step careful) a1 a'
      /\ snapshots (app_manager a1) = ws_snapshot v).
  { intros v0 Hv0 ->. destruct (IH v0 Hv0) as (a1 & ? & ? & ?). exists a1. split_and!; [done| |done].
    by eapply rtc_r. }
  assert (Hnow : ws_snapshot v = snapshots (app_manager a) ->
    exists a1, app_reachable careful a1 /\ rtc (app_step careful) a1 a'
      /\ snapshots (app_manager a1) = ws_snapshot v).
  { intros ->. exists a. split_and!; [done|by apply rtc_once|done]. }
  destruct Hs; cbn [ap_desktop dk_window with_window with_manager] in *.
  1:{ pose proof (perform_views env path_text random (dk_next d) action v0 (dk_channel d)) as Hp.
      match goal with Hx : perform _ _ _ _ _ _ _ = _ |- _ => rewrite Hx in Hp end. injection Hv as <-.
      destruct action; try (by eapply Hold). apply Hnow. unfold app_manager. cbn in *. congruence. }
  all: try (by eapply Hold); try done; injection Hv as <-; try (by apply Hnow).
  all: eapply Hold; [eassumption|];
    unfold save_answered, import_answered, ssh_answered, export_answered; by repeat case_match.
Qed.
End Application.

(** ** What the Tunnels page says *)

(** The status line of a tunnel's row, and its action button. *)
Definition status_line (tunnel : TunnelConfig) (st : SupervisorState.t) : element :=
  Named ("tunnel-status-" +:+ tunnel_id_0 (tunnel_id tunnel))
    (tunnel_name tunnel +:+ " " +:+ state_label st)
    (mode_label (tunnel_mode tunnel) +:+ " · " +:+ local_host (tunnel_local tunnel) +:+ ":"
     +:+ show_dec (local_port (tunnel_local tunnel)) +:+ " · " +:+ state_label st).

Definition action_button (v : Workspace) (tunnel : TunnelConfig) (st : SupervisorState.t) : element :=
  disabled_if (negb (ws_manager v)) (tunnel_id_0 (tunnel_id tunnel) +:+ "-action") (action_label st)
    (Action.TunnelAction (tunnel_id tunnel)).

Lemma row_says v tunnel :
  let st := tunnel_state v (tunnel_id tunnel) in
  status_line tunnel st ∈ tunnel_row v tunnel /\ action_button v tunnel st ∈ tunnel_row v tunnel.
Proof.
  unfold tunnel_row. split; apply elem_of_app; [left; right; left|right].
  apply elem_of_app. right. right. left.
Qed.

(** The state [st] of a tunnel is what its supervisor published; or it has none. *)
Definition backed {K R} (a : App K R) (id : TunnelId) (st : SupervisorState.t) : Prop :=
  match active (app_manager a) !! id with
  | None => st = SupervisorState.Stopped \/ exists reason, st = SupervisorState.Blocked reason
  | Some running => exists t config p,
      let published := history (ap_history a) (at_task running) in
      tasks (Manager.world (app_manager a)) !! at_task running = Some t
      /\ tunnels (app_manager a) !! id = Some config
      /\ status_trace (Retry.new (tunnel_reconnect config))
           (bool_decide (tunnel_mode config = TunnelMode.Remote)) published p
      /\ st ∈ published
      /\ (t_changed t = false -> t_result t = None -> last published = Some st)
  end.

Section ApplicationClaims.
Context `{InputState} `{SshTransportLaws} `{HT : Toml, HO : Os} `{HK : Keyring K} `{HR : Registry R} `{HG : Glob}.
Context (env : Env) (raw_os_text : Z -> string) (import_files : ImportFiles).
Context (order : gset TunnelId -> list TunnelId) (order_perm : forall s, order s ≡ₚ elements s).
Context (path_text : FilePath -> PathBuf) (dir : PathBuf).
Notation app_reachable := (app_reachable env raw_os_text import_files order path_text dir (K := K) (R := R)).
Notation app_step := (app_step env raw_os_text import_files order path_text dir (K := K) (R := R)).

Lemma snapshot_backed careful a id :
  app_reachable careful a ->
  backed a id (map_or SupervisorState.Stopped tv_state (snapshots (app_manager a) !! id)).
Proof.
  intros He%app_engine. unfold backed.
  destruct (snapshots (app_manager a) !! id) as [view|] eqn:Es; cbn [map_or].
  - pose proof (view_story _ _ _ _ order_perm _ _ _ He Es) as Hstory.
    cbn [e_manager engine_of e_history] in Hstory.
    destruct (active (app_manager a) !! id) as [running|]; [|by destruct Hstory].
    destruct Hstory as (t & config & p & Ht & Hc & Htr & [Hp Hl _] & Hlast).
    exists t, config, p. split_and!; try done. intros Hch Hres. rewrite (Hl Hch Hres). exact Hlast.
  - destruct (active (app_manager a) !! id) as [running|] eqn:Ea; [|by left]. exfalso.
    destruct (manager_reachable_inv _ _ _ _ order_perm _ (engine_manager _ _ _ _ _ He)) as [Hi Hvo Hpub].
    destruct (ti_running _ Hi id running Ea) as (t & config & _ & Hc & _).
    apply elem_of_dom_2 in Hc. rewrite <-(vo_views _ Hvo) in Hc. unfold published in Hpub.
    cbn [e_manager engine_of] in *. rewrite Hpub in Es. by apply not_elem_of_dom in Es.
Qed.

(** C5: A row of the Tunnels page tells the truth. Whatever has happened to the
    window, the queue, the manager and the supervisors, there was a moment of
    this run at which the state the row now shows was so: if the tunnel had a
    supervisor then, the state is a value this supervisor had published, in a
    history the status specification allows for the tunnel's configuration,
    and the last one unless some was still unseen; if it had none, the row
    says Stopped or Blocked. That moment is now, once the window was given
    what the manager has published. The row writes this state, and labels its
    button after it. *)
Theorem row_tells_what_the_supervisor_published careful a v tunnel :
  app_reachable careful a -> dk_window (ap_desktop a) = Some v ->
  let st := tunnel_state v (tunnel_id tunnel) in
  (exists a1, app_reachable careful a1 /\ rtc (app_step careful) a1 a /\ backed a1 (tunnel_id tunnel) st)
  /\ (ws_snapshot v = snapshots (app_manager a) -> backed a (tunnel_id tunnel) st)
  /\ status_line tunnel st ∈ tunnel_row v tunnel /\ action_button v tunnel st ∈ tunnel_row v tunnel.
Proof.
  intros Hr Hv st. split_and!; [| |apply row_says..].
  - destruct (app_snapshot _ _ _ _ _ _ careful a v Hr Hv) as (a1 & Hr1 & Hs & Hsnap).
    exists a1. split_and!; [done..|]. subst st. unfold tunnel_state. rewrite <-Hsnap.
    by eapply snapshot_backed.
  - intros Hsnap. subst st. unfold tunnel_state. rewrite Hsnap. by eapply snapshot_backed.
Qed.
End ApplicationClaims.

(** ** Witness *)
Import ToyToml ToyKeyring ToyGlob ToyInput.

(** The example tunnel's supervisor found no chain; the manager handles a tick,
    and the window is given the snapshot. *)
Definition blocked_manager : toy_manager := e_manager (one_published blocked_history started_manager).
Definition ticked_manager : toy_manager :=
  react (H := Toy.russh) (HT := ToyToml.toml) (HO := ToyToml.os) example_env (fun _ => "error")
    example_import elements Input.Tick blocked_manager.
Definition first_window : Workspace :=
  new (Ok ("/cfg", config_views blocked_manager)) (Some (published_views blocked_manager)) None.
Definition told_window : Workspace := snapshot_changed (snapshots ticked_manager) first_window.
Definition told_app : App (gmap string string) (option (list Z)) :=
  mkApp (mkDesktop (Some told_window) (mkChannel true []) ticked_manager (0 + 1))
    {[ 0%nat := blocked_history ]}.

Notation toy_app := (app_reachable (H1 := toy_transport false) (HT := ToyToml.toml) (HO := ToyToml.os)
  example_env (fun _ => "error") example_import elements (fun p : FilePath => "") "/cfg").

Lemma told_reachable : toy_app true told_app.
Proof.
  eapply ar_step; [eapply ar_step; [eapply (ar_start _ _ _ _ _ _ _ blocked_manager
    {[ 0%nat := blocked_history ]} (Some (config_views blocked_manager, published_views blocked_manager)))|apply as_tick]|].
  - exact published_engine.
  - split_and!; [vm_compute; reflexivity..|]. by intros ? ? [= <- <-].
  - by intros ? ? [= <- <-].
  - apply (as_press _ _ _ _ _ _ _ (Action.Snapshot (snapshots ticked_manager)) 0 first_window); reflexivity.
Qed.

Definition shown_tunnel : TunnelConfig :=
  default example_tunnel (tunnels ticked_manager !! mkTunnelId "t").

Theorem row_tells_what_the_supervisor_published_witness :
  status_line shown_tunnel (SupervisorState.Blocked "jump chain is empty") ∈ tunnel_row told_window shown_tunnel
  /\ backed told_app (mkTunnelId "t") (SupervisorState.Blocked "jump chain is empty").
Proof.
  assert (Hid : tunnel_id shown_tunnel = mkTunnelId "t") by (vm_compute; reflexivity).
  assert (Hst : tunnel_state told_window (mkTunnelId "t") = SupervisorState.Blocked "jump chain is empty")
    by (vm_compute; reflexivity).
  destruct (row_tells_what_the_supervisor_published (H2 := toy_transport_laws false) example_env
    (fun _ => "error") example_import elements (fun s => reflexivity _) (fun p : FilePath => "") "/cfg"
    true told_app told_window shown_tunnel told_reachable eq_refl) as (_ & Hnow & Hline & _).
  rewrite Hid, Hst in Hnow, Hline. exact (conj Hline (Hnow eq_refl)).
Defined.
