(* ===== verification/Tray.v ===== *)
(** * Tray: the notification-area icon (crates/app/src/tray.rs) and the decisions
    of crates/app/src/main.rs that connect it, the window and the manager; Shell
    has the loops that take them.

    tray-icon's menu and icon are what was last given to them; every call of the
    library can fail, and the answers are arguments. *)
From S2P Require Import Prelude Io Text Net Domain Validation StateMachine Runtime Retry Russh HostKey SshClient Chain LocalForward Supervisor RemoteSupervisor Path Schema Fs Store Secrets Persist SshImport Manager ManagerProps Editor Workspace Desktop.

#[local] Notation delete := base.delete.

Module TrayAction.
Inductive t := Open | StartAll | StopAll | Toggle (id : TunnelId) | Quit.
End TrayAction.

Definition tunnels_shown : nat := 25.

Record TrayPresentation := mkTrayPresentation {
  tp_tunnels : list (TunnelId * string * bool);
  tp_remaining : Z;
  tp_healthy : Z;
  tp_reconnecting : Z
}.
#[export] Instance TrayPresentation_eq_dec : EqDecision TrayPresentation.
Proof. solve_decision. Defined.

(** [!matches!(state, Stopped | Blocked { .. })] of the tunnel's view. *)
Definition is_active (snapshot : ManagerSnapshot) (id : TunnelId) : bool :=
  match snapshot !! id with
  | Some view =>
      match tv_state view with
      | SupervisorState.Stopped | SupervisorState.Blocked _ => false
      | _ => true
      end
  | None => false
  end.

Definition is_healthy (s : SupervisorState.t) : bool :=
  match s with SupervisorState.Healthy _ _ => true | _ => false end.

Definition count_states (p : SupervisorState.t -> bool) (snapshot : ManagerSnapshot) : Z :=
  Z.of_nat (length (List.filter (fun v => p (tv_state v)) (snd <$> map_to_list snapshot))).

Definition present (config : DomainConfig) (snapshot : ManagerSnapshot) : TrayPresentation := {|
  tp_tunnels := (fun t => (tunnel_id t, tunnel_name t, is_active snapshot (tunnel_id t)))
                <$> take tunnels_shown (dc_tunnels config);
  tp_remaining := saturating_sub (Z.of_nat (length (dc_tunnels config))) (Z.of_nat tunnels_shown);
  tp_healthy := count_states is_healthy snapshot;
  tp_reconnecting := count_states is_reconnecting snapshot
|}.

(** ** The menu *)

(** An item has an id only if it was given one. *)
Module MenuEntry.
Inductive t :=
  | Item (id : option string) (text : string) (is_enabled : bool)
  | Separator.
End MenuEntry.

Definition tunnel_item (t : TunnelId * string * bool) : MenuEntry.t :=
  let '(id, name, active) := t in
  MenuEntry.Item (Some ("tunnel:" +:+ tunnel_id_0 id))
    (name +:+ "   " +:+ (if active then "●" else "○")) true.

Definition menu_of (p : TrayPresentation) : list MenuEntry.t :=
  [MenuEntry.Item (Some "open") "Open TunnelWarden" true; MenuEntry.Separator]
  ++ (tunnel_item <$> tp_tunnels p)
  ++ (if bool_decide (0 < tp_remaining p)
      then [MenuEntry.Item None (show_dec (tp_remaining p) +:+ " more tunnels in the app") false]
      else [])
  ++ [MenuEntry.Separator; MenuEntry.Item (Some "start-all") "Start All" true;
      MenuEntry.Item (Some "stop-all") "Stop All" true; MenuEntry.Separator;
      MenuEntry.Item (Some "quit") "Quit" true].

Definition tooltip_of (p : TrayPresentation) : string :=
  "TunnelWarden" +:+ String "010"%char (show_dec (tp_healthy p) +:+ " connected · "
  +:+ show_dec (tp_reconnecting p) +:+ " reconnecting").

Record TrayController := mkTrayController {
  tc_menu : list MenuEntry.t;
  tc_tooltip : string;
  tc_presentation : option TrayPresentation
}.

(** [append] answers the n-th [menu.append]; [tooltip] answers [set_tooltip]. *)
Fixpoint append_all (append : nat -> result unit string) (n : nat) (entries : list MenuEntry.t)
    : result unit string :=
  match entries with
  | [] => Ok tt
  | _ :: entries => let? _ := append n in append_all append (S n) entries
  end.

Definition update (append : nat -> result unit string) (tooltip : result unit string)
    (config : DomainConfig) (snapshot : ManagerSnapshot) (self : TrayController)
    : result unit string * TrayController :=
  let presentation := present config snapshot in
  if bool_decide (tc_presentation self = Some presentation) then (Ok tt, self)
  else
    match append_all append 0 (menu_of presentation) with
    | Err error => (Err error, self)
    | Ok _ =>
        let self := mkTrayController (menu_of presentation) (tc_tooltip self) (tc_presentation self) in
        match tooltip with
        | Err error => (Err error, self)
        | Ok _ =>
            (Ok tt, mkTrayController (tc_menu self) (tooltip_of presentation) (Some presentation))
        end
    end.

(** [new]: a fresh icon, then the first update. *)
Definition new_tray (append : nat -> result unit string) (tooltip : result unit string)
    (config : DomainConfig) (snapshot : ManagerSnapshot) : result TrayController string :=
  let '(r, self) := update append tooltip config snapshot (mkTrayController [] "TunnelWarden" None) in
  let? _ := r in Ok self.

(** The handler of menu events. *)
Definition menu_action (id : string) : option TrayAction.t :=
  if bool_decide (id = "open") then Some TrayAction.Open
  else if bool_decide (id = "start-all") then Some TrayAction.StartAll
  else if bool_decide (id = "stop-all") then Some TrayAction.StopAll
  else if bool_decide (id = "quit") then Some TrayAction.Quit
  else (fun rest => TrayAction.Toggle (mkTunnelId rest)) <$> strip_prefix "tunnel:" id.

(** [make_icon]: the bytes of a 32 by 32 RGBA image. *)
Definition icon_inside (x y : Z) : bool :=
  (3 <=? y) && (y <=? 27) && (Z.abs (x - 16) <=? Z.max (13 - y / 5) 5).
Definition icon_pixels : list (Z * Z) :=
  y ← seqZ 0 32; x ← seqZ 0 32; if icon_inside x y then [(x, y)] else [].
Fixpoint copy_from (offset : nat) (src rgba : list Z) : list Z :=
  match src with
  | [] => rgba
  | b :: src => <[offset := b]> (copy_from (S offset) src rgba)
  end.
Definition make_icon : list Z :=
  foldl (fun rgba '(x, y) => copy_from (Z.to_nat ((y * 32 + x) * 4)) [35; 142; 190; 255] rgba)
    (replicate (32 * 32 * 4) 0) icon_pixels.

(** ** The action loop of main.rs *)

(** What an action makes of the application: a command, the window, the end. *)
Module AppEffect.
Inductive t := Command (command : CoreCommand.t) | ShowWindow | QuitApp | Nothing.
End AppEffect.

Definition toggle_command (snapshot : ManagerSnapshot) (id : TunnelId) : CoreCommand.t :=
  if is_active snapshot id then CoreCommand.StopTunnel id else CoreCommand.StartTunnel id.

(** [manager] is the latest published snapshot, when there is a manager. *)
Definition tray_effect (manager : option ManagerSnapshot) (action : TrayAction.t) : AppEffect.t :=
  match action, manager with
  | TrayAction.Open, _ => AppEffect.ShowWindow
  | TrayAction.Quit, _ => AppEffect.QuitApp
  | TrayAction.StartAll, Some _ => AppEffect.Command CoreCommand.StartAll
  | TrayAction.StopAll, Some _ => AppEffect.Command CoreCommand.StopAll
  | TrayAction.Toggle id, Some snapshot => AppEffect.Command (toggle_command snapshot id)
  | _, None => AppEffect.Nothing
  end.

(** The loop that watches the prompts: the id it last opened a window for, and
    whether it opens one now. *)
Definition first_prompt (prompts : list HostKeyPromptView) : option Z := pv_id <$> head prompts.
Definition watch_prompts (opened : option Z) (prompts : list HostKeyPromptView) : option Z * bool :=
  let pending := first_prompt prompts in
  (pending, bool_decide (pending <> None) && bool_decide (pending <> opened)).

Definition watch_initial (prompts : list HostKeyPromptView) : option Z * bool :=
  (first_prompt prompts, bool_decide (first_prompt prompts <> None)).

(** Is a window opened at the start? *)
Definition initial_window (background tray_available : bool) : bool :=
  negb background || negb tray_available.

(** [on_window_should_close]: may the window close while the application goes
    on? Otherwise the application quits. *)
Definition keep_running (config : option DomainConfig) : bool :=
  match config with Some c => minimize_to_tray (dc_app c) | None => false end.

(** What a new window starts from: the manager's configuration, if there is
    a manager. *)
Definition window_startup (startup : result (PathBuf * DomainConfig) string)
    (manager : option DomainConfig) : result (PathBuf * DomainConfig) string :=
  match startup, manager with
  | Ok (directory, _), Some config => Ok (directory, config)
  | other, _ => other
  end.

(** ** Properties *)

(** What is shown is what the last accepted presentation says. *)
Definition tray_inv (self : TrayController) : Prop :=
  forall p, tc_presentation self = Some p -> tc_menu self = menu_of p /\ tc_tooltip self = tooltip_of p.

Lemma append_all_err append n entries e :
  append_all append n entries = Err e -> exists i, (n <= i < n + length entries)%nat /\ append i = Err e.
Proof.
  revert n. induction entries as [|x entries IH]; intros n; cbn [append_all length]; [done|].
  destruct (append n) as [[]|err] eqn:E; [|intros [= ->]; exists n; split; [lia|done]].
  intros (i & Hi & Ha)%IH. exists i. split; [lia|done].
Qed.

(** An icon shows a presentation. *)
Definition tray_shows (p : TrayPresentation) (self : TrayController) : Prop :=
  tc_menu self = menu_of p /\ tc_tooltip self = tooltip_of p.

Lemma update_drawn append tooltip config snapshot self r self' :
  let p := present config snapshot in
  tc_presentation self <> Some p -> update append tooltip config snapshot self = (r, self') ->
  match r with
  | Ok _ => tray_shows p self' /\ tc_presentation self' = Some p
  | Err e =>
      (self' = self /\ exists i, (i < length (menu_of p))%nat /\ append i = Err e)
      \/ tooltip = Err e /\ tc_menu self' = menu_of p
         /\ tc_tooltip self' = tc_tooltip self /\ tc_presentation self' = tc_presentation self
  end.
Proof.
  intros p Hp. unfold update. fold p. rewrite bool_decide_eq_false_2 by done.
  destruct (append_all append 0 _) as [[]|e] eqn:E; [destruct tooltip as [[]|e]|]; intros [= <- <-].
  - done.
  - by right.
  - left. split; [done|]. apply append_all_err in E as (i & Hlt & Ha). exists i. split; [lia|done].
Qed.

Lemma new_tray_outcome append tooltip config snapshot :
  let p := present config snapshot in
  match new_tray append tooltip config snapshot with
  | Ok tray => tray_shows p tray
  | Err e => (exists i, (i < length (menu_of p))%nat /\ append i = Err e) \/ tooltip = Err e
  end.
Proof.
  unfold new_tray. destruct (update _ _ _ _ _) as [r self] eqn:E.
  apply update_drawn in E; [|done]. destruct r; cbn; naive_solver.
Qed.


(** When setting the tooltip fails, the new menu stays with the old cached
    presentation: as soon as the old state returns, the update is skipped and
    the icon goes on showing the state in between. *)
Definition two_tunnels (active : bool) : ManagerSnapshot :=
  {[mkTunnelId "t" := mkTunnelView (if active then SupervisorState.Healthy [] None else SupervisorState.Stopped) None]}.

Theorem tray_shows_a_stale_state :
  let ok := fun _ : nat => Ok (E := string) tt in
  let tray0 := (update ok (Ok tt) example_config (two_tunnels true) (mkTrayController [] "" None)).2 in
  let tray1 := (update ok (Err "tooltip") example_config (two_tunnels false) tray0).2 in
  let '(r, tray2) := update ok (Ok tt) example_config (two_tunnels true) tray1 in
  r = Ok tt /\ tc_menu tray2 = menu_of (present example_config (two_tunnels false))
  /\ tc_menu tray2 <> menu_of (present example_config (two_tunnels true)).
Proof. vm_compute. split_and!; [done|done|]. by intros [=]. Qed.

Lemma menu_action_tunnel id : menu_action ("tunnel:" +:+ id) = Some (TrayAction.Toggle (mkTunnelId id)).
Proof.
  unfold menu_action. rewrite !bool_decide_eq_false_2 by done. unfold strip_prefix.
  assert (Hp : forall p, String.prefix p (p +:+ id) = true).
  { induction p as [|c p IH]; [by destruct id|]. simpl. destruct (ascii_dec c c); [exact IH|done]. }
  assert (Hs : forall p, String.substring (String.length p) (String.length (p +:+ id) - String.length p) (p +:+ id) = id).
  { induction p as [|c p IH]; [|exact IH]. change (String.substring 0 (String.length id - 0) id = id).
    rewrite Nat.sub_0_r. clear. induction id as [|c id IH]; [done|]. simpl. by rewrite IH. }
  by rewrite Hp, Hs.
Qed.

(** Every entry of the menu does what it says: each one that can be chosen maps
    back to an action, the entry of a tunnel to the toggling of that very
    tunnel, whatever its id; and all tunnels are accounted for, the first 25 by
    an entry and the rest by the count. *)
Theorem menu_entries_act config snapshot :
  let p := present config snapshot in
  Forall (fun e => match e with
                   | MenuEntry.Item (Some id) _ true => is_Some (menu_action id)
                   | MenuEntry.Item None _ on => on = false
                   | _ => True
                   end) (menu_of p)
  /\ (forall t, t ∈ take tunnels_shown (dc_tunnels config) ->
        exists text, MenuEntry.Item (Some ("tunnel:" +:+ tunnel_id_0 (tunnel_id t))) text true ∈ menu_of p
          /\ menu_action ("tunnel:" +:+ tunnel_id_0 (tunnel_id t)) = Some (TrayAction.Toggle (tunnel_id t)))
  /\ Z.of_nat (length (tp_tunnels p)) + tp_remaining p = Z.of_nat (length (dc_tunnels config)).
Proof.
  intros p. split_and!.
  - unfold menu_of. rewrite !Forall_app. split_and!.
    + repeat constructor; try done.
    + apply Forall_fmap, Forall_true. intros [[[id] name] on]. cbn. rewrite menu_action_tunnel. by eexists.
    + case_bool_decide; [by repeat constructor|constructor].
    + repeat constructor; by eexists.
  - intros t Ht. rewrite menu_action_tunnel. eexists. split; [|by destruct (tunnel_id t)].
    unfold menu_of. rewrite !elem_of_app. right. left.
    apply list_elem_of_fmap. eexists (tunnel_id t, _, _). split; [reflexivity|].
    apply list_elem_of_fmap. by exists t.
  - unfold p, present. cbn. rewrite length_fmap, length_take. unfold saturating_sub, tunnels_shown. lia.
Qed.

Section Toggle.
Context `{Russh} `{HT : Toml, HO : Os} `{HK : Keyring K} `{HR : Registry R} `{HG : Glob}.
Context (env : Env) (raw_os_text : Z -> string) (import_files : ImportFiles).
Context (order : gset TunnelId -> list TunnelId).

#[local] Notation dispatch := (Manager.dispatch env raw_os_text import_files order).

(** Choosing a tunnel in the tray menu. One that is shown as active has its
    supervisor ended and its view stopped; one that is configured and has no
    supervisor is attempted. But one that is shown as blocked while its
    supervisor waits to be hinted is left exactly as it is - the tray sends
    Start, which does nothing for a tunnel that has a supervisor -, where the
    button of the window gives the hint that makes it try again. *)
Theorem tray_toggle os stamp id (m : TunnelManager K R) :
  (forall s, order s ≡ₚ elements s) ->
  reachable env raw_os_text import_files order m ->
  let m' := dispatch os stamp (toggle_command (snapshots m) id) m in
  (is_active (snapshots m) id = true ->
     active m' !! id = None /\ snapshots m' !! id = Some stopped_view
     /\ forall a, active m !! id = Some a -> tasks (world m') !! at_task a = None)
  /\ (is_active (snapshots m) id = false -> active m !! id = None -> is_Some (tunnels m !! id) ->
        attempted m' id)
  /\ (forall reason addr a task, snapshots m !! id = Some (mkTunnelView (SupervisorState.Blocked reason) addr) ->
        active m !! id = Some a -> tasks (world m) !! at_task a = Some task ->
        m' = m
        /\ (is_blocked_or_reconnecting (t_state task) = true ->
            t_hint <$> tasks (world (dispatch os stamp
                                (action_command (SupervisorState.Blocked reason) id) m)) !! at_task a
            = Some true)).
Proof.
  intros Ho Hr m'. pose proof (manager_reachable_inv env raw_os_text import_files order Ho m Hr) as Hi.
  assert (Hi' : manager_inv m') by (apply (manager_reachable_inv env raw_os_text import_files order); [done|]; by apply (reach_react _ _ _ _ (Input.Command os stamp _) m)).
  assert (Hdom : dom (snapshots m) = dom (tunnels m)) by (rewrite (mi_published m Hi); apply (mi_views m Hi)).
  split_and!.
  - intros Hact. rewrite (mi_published m' Hi'). unfold m', toggle_command. rewrite Hact. cbn [Manager.dispatch].
    destruct (stop_outcome id m Hi) as (Ha & Ht & Hv & _). split_and!; [done| |done]. apply Hv.
    apply elem_of_dom. rewrite <- Hdom. unfold is_active in Hact. apply elem_of_dom. by destruct (snapshots m !! id).
  - intros Hact _ Hc. unfold m', toggle_command. rewrite Hact. apply start_attempted; [apply Hi|done].
  - intros reason addr a task Hs Ha Ht. unfold m', toggle_command, is_active. rewrite Hs.
    cbn [tv_state Manager.dispatch action_command]. split; [unfold start; by rewrite Ha|].
    intros Hb. rewrite Ha. unfold hint_if. rewrite Ht, Hb. cbn. by rewrite lookup_insert_eq.
Qed.
End Toggle.

(** ** Witnesses *)

Import ToyToml ToyKeyring ToyGlob.


Theorem tray_toggle_witness :
  let m' := Manager.dispatch (H := Toy.russh) (HT := ToyToml.toml) (HO := ToyToml.os) example_env (fun _ => "error") example_import elements toy_os 0
    (toggle_command (snapshots running_manager) (mkTunnelId "t")) running_manager in
  active m' !! mkTunnelId "t" = None.
Proof.
  assert (Hact : is_active (snapshots running_manager) (mkTunnelId "t") = true) by (vm_compute; reflexivity).
  exact (proj1 (proj1 (tray_toggle (H := Toy.russh) (HT := ToyToml.toml) (HO := ToyToml.os) example_env (fun _ => "error") example_import elements
    toy_os 0 (mkTunnelId "t") running_manager (fun s => reflexivity _) running_reachable) Hact)).
Defined.
