(* ===== verification/Shell.v ===== *)
(** * Shell: the application around the window (crates/app/src/main.rs: [main],
    [open_main_window], [show_main_window], [DesktopShell]; the click handler of
    tray.rs).

    gpui-kit opens, activates and closes windows and ends the application; its
    answers are arguments, and when closing a window ends the application is
    the class [Gpui]. What the manager has published when an event is handled
    comes with the event. *)
From S2P Require Import Prelude Io Text Net Domain Validation Path Schema Fs Store Secrets Persist HostKey Retry Supervisor SshImport Manager ManagerProps Editor Workspace Desktop Tray.

Module QuitMode.
Inductive t := Explicit | LastWindowClosed.
End QuitMode.

(** [quits mode left]: does the application end when a window was closed and
    [left] windows remain? *)
Class Gpui := { quits : QuitMode.t -> nat -> bool }.
Class GpuiLaws `{Gpui} : Prop := {
  quits_explicit left : quits QuitMode.Explicit left = false;
  quits_last left : quits QuitMode.LastWindowClosed left = bool_decide (left = 0%nat)
}.

(** ** tray.rs: the handler of icon events *)

Module MouseButton.
Inductive t := Left | Right | Middle.
End MouseButton.
Module TrayIconEvent.
Inductive t :=
  | Click (button : MouseButton.t) (up : bool)
  | DoubleClick (button : MouseButton.t)
  | Moved.
End TrayIconEvent.

Definition click_action (event : TrayIconEvent.t) : option TrayAction.t :=
  match event with
  | TrayIconEvent.Click MouseButton.Left true | TrayIconEvent.DoubleClick MouseButton.Left =>
      Some TrayAction.Open
  | _ => None
  end.

(** ** State *)

Notation Startup := (result (PathBuf * DomainConfig) string).

(** What [open_main_window] is given for a window, and gives to [Workspace::new]:
    the handle of the manager is there or not. *)
Record Opening := mkOpening {
  op_startup : Startup;
  op_manager : bool;
  op_error : option string
}.

(** [sh_error]: the error of the runtime. [sh_windows]: the windows of gpui-kit,
    with what each was opened with; [sh_window] is the handle [DesktopShell] keeps. [sh_updates]: the prompt the
    loop that follows the manager has opened a window for, once it runs. *)
Record Shell := mkShell {
  sh_startup : Startup;
  sh_manager : bool;
  sh_error : option string;
  sh_tray : option TrayController;
  sh_quit_mode : QuitMode.t;
  sh_window : option nat;
  sh_windows : list (nat * Opening);
  sh_opened : nat;
  sh_actions : bool;
  sh_updates : option (option Z);
  sh_running : bool
}.

Definition set_tray (x : option TrayController) (s : Shell) : Shell :=
  mkShell (sh_startup s) (sh_manager s) (sh_error s) x (sh_quit_mode s) (sh_window s) (sh_windows s)
    (sh_opened s) (sh_actions s) (sh_updates s) (sh_running s).
Definition set_window (w : option nat) (l : list (nat * Opening)) (n : nat) (s : Shell) : Shell :=
  mkShell (sh_startup s) (sh_manager s) (sh_error s) (sh_tray s) (sh_quit_mode s) w l n (sh_actions s)
    (sh_updates s) (sh_running s).
Definition set_actions (x : bool) (s : Shell) : Shell :=
  mkShell (sh_startup s) (sh_manager s) (sh_error s) (sh_tray s) (sh_quit_mode s) (sh_window s) (sh_windows s)
    (sh_opened s) x (sh_updates s) (sh_running s).
Definition set_updates (x : option (option Z)) (s : Shell) : Shell :=
  mkShell (sh_startup s) (sh_manager s) (sh_error s) (sh_tray s) (sh_quit_mode s) (sh_window s) (sh_windows s)
    (sh_opened s) (sh_actions s) x (sh_running s).
(** [app.quit()] *)
Definition quit (s : Shell) : Shell :=
  mkShell (sh_startup s) (sh_manager s) (sh_error s) (sh_tray s) (sh_quit_mode s) (sh_window s) (sh_windows s)
    (sh_opened s) (sh_actions s) (sh_updates s) false.

(** ** Windows *)

(** [open_main_window], and the handle kept on success; a failure is printed. *)
Definition open_window (opening : Opening) (opened : result unit string) (s : Shell) : Shell :=
  match opened with
  | Ok _ =>
      set_window (Some (sh_opened s)) (sh_windows s ++ [(sh_opened s, opening)]) (S (sh_opened s)) s
  | Err _ => s
  end.

(** The view the window is built with: [views] is what the manager has published then. *)
Definition window_view `{InputState} (opening : Opening) (views : Views) : Workspace :=
  Workspace.new (op_startup opening) (if op_manager opening then Some views else None) (op_error opening).

Definition window_alive (n : nat) (s : Shell) : bool := bool_decide (n ∈ (sh_windows s).*1).

(** [config]: what the manager has published; it is read only when there is a
    manager. *)
Definition published (config : DomainConfig) (s : Shell) : option DomainConfig :=
  if sh_manager s then Some config else None.

(** The window that is still there is activated. *)
Definition show_main_window (config : DomainConfig) (opened : result unit string) (s : Shell) : Shell :=
  if map_or false (fun n => window_alive n s) (sh_window s) then s
  else open_window (mkOpening (window_startup (sh_startup s) (published config s)) (sh_manager s)
                      (sh_error s)) opened s.

(** [on_window_should_close] of window [n], which gpui-kit asks when the user
    closes it, and what follows. *)
Definition close_window `{Gpui} (n : nat) (config : DomainConfig) (s : Shell) : Shell :=
  if window_alive n s then
    if keep_running (published config s) then
      let windows := List.filter (fun w => negb (bool_decide (w.1 = n))) (sh_windows s) in
      let s := set_window (sh_window s) windows (sh_opened s) s in
      if quits (sh_quit_mode s) (length windows) then quit s else s
    else quit s
  else s.

(** ** [main] *)

(** The configuration the tray starts with. *)
Definition tray_config (env : Env) (startup : Startup) (manager : option DomainConfig)
    : option DomainConfig :=
  match manager, startup with
  | Some config, _ => Some config
  | None, Ok (_, config) => Some config
  | None, Err _ =>
      match into_domain env ConfigDocument_default with Ok config => Some config | Err _ => None end
  end.

(** The closure given to [run]: [manager] is what a new manager has published,
    [runtime_error] the error of the runtime when there is none for it,
    [append] and [tooltip] are tray-icon's answers, [icon] that of building the
    icon, [opened] that of opening the first window. *)
Definition new (env : Env) (background : bool) (startup : Startup)
    (manager : option (DomainConfig * ManagerSnapshot)) (runtime_error : option string) (icon : result unit string)
    (append : nat -> result unit string) (tooltip : result unit string) (opened : result unit string)
    : Shell :=
  let snapshot := map_or ∅ snd manager in
  let tray :=
    match tray_config env startup (fst <$> manager) with
    | None => None
    | Some config =>
        match (let? _ := icon in new_tray append tooltip config snapshot) with
        | Ok tray => Some tray
        | Err _ => None
        end
    end in
  let s := mkShell startup (bool_decide (is_Some manager)) runtime_error tray
             (match tray with Some _ => QuitMode.Explicit | None => QuitMode.LastWindowClosed end)
             None [] 0 true None true in
  if initial_window background (bool_decide (is_Some tray)) then open_window (mkOpening startup (bool_decide (is_Some manager)) runtime_error) opened s
  else s.

Inductive event :=
  | Chosen (action : TrayAction.t) (config : DomainConfig) (snapshot : ManagerSnapshot)
      (opened : result unit string)              (* the action loop takes one *)
  | ActionsClosed                                (* one of its channels is closed *)
  | UpdatesStart (prompts : list HostKeyPromptView) (config : DomainConfig)
      (opened : result unit string)
  | Changed (config : DomainConfig) (snapshot : ManagerSnapshot)
      (prompts : list HostKeyPromptView) (append : nat -> result unit string)
      (tooltip opened : result unit string)
  | UpdatesClosed                                (* the manager is gone *)
  | CloseWindow (n : nat) (config : DomainConfig).

Section Run.
Context `{Gpui}.

(** The state after an event, and the command it sends. *)
Definition handle (e : event) (s : Shell) : Shell * option CoreCommand.t :=
  match e with
  | Chosen action config snapshot opened =>
      if sh_actions s then
        match tray_effect (if sh_manager s then Some snapshot else None) action with
        | AppEffect.Command c => (s, Some c)
        | AppEffect.ShowWindow => (show_main_window config opened s, None)
        | AppEffect.QuitApp => (set_actions false (quit s), None)
        | AppEffect.Nothing => (s, None)
        end
      else (s, None)
  | ActionsClosed => (set_actions false s, None)
  | UpdatesStart prompts config opened =>
      match sh_updates s with
      | Some _ => (s, None)
      | None =>
          if sh_manager s then
            let '(prompt, show) := watch_initial prompts in
            let s := set_updates (Some prompt) s in
            (if show then show_main_window config opened s else s, None)
          else (s, None)
      end
  | Changed config snapshot prompts append tooltip opened =>
      match sh_updates s with
      | None => (s, None)
      | Some opened_prompt =>
          let '(prompt, show) := watch_prompts opened_prompt prompts in
          let s := set_updates (Some prompt) s in
          let s :=
            match sh_tray s with
            | Some tray => set_tray (Some (update append tooltip config snapshot tray).2) s
            | None => s
            end in
          (if show then show_main_window config opened s else s, None)
      end
  | UpdatesClosed => (set_updates None s, None)
  | CloseWindow n config => (close_window n config s, None)
  end.

(** One event of the running application. *)
Definition step (s : Shell) (e : event) : Shell := if sh_running s then (handle e s).1 else s.
Definition run (s : Shell) (events : list event) : Shell := foldl step s events.
End Run.

(** ** Properties *)

(** At most one window, which is the one the handle names; the tray decides the
    quit mode; and without tray and window the application ends, unless no
    window was ever opened. *)
Record shell_inv (s : Shell) : Prop := {
  sv_one : sh_windows s = [] \/ exists n st, sh_windows s = [(n, st)] /\ sh_window s = Some n;
  sv_mode : sh_quit_mode s = match sh_tray s with
                             | Some _ => QuitMode.Explicit | None => QuitMode.LastWindowClosed end;
  sv_ends : sh_running s = true -> sh_windows s = [] -> sh_opened s <> 0%nat -> sh_tray s <> None
}.

Section ShellProps.
Context `{GpuiLaws}.

Lemma open_window_inv opening opened s :
  sh_windows s = [] -> shell_inv s -> shell_inv (open_window opening opened s).
Proof.
  intros Hw Hi. destruct opened as [[]|e]; [|done]. destruct Hi as [_ Hm _].
  split; cbn; rewrite ?Hw; [right; by do 2 eexists|done|done].
Qed.

Lemma show_main_window_inv config opened s :
  shell_inv s -> shell_inv (show_main_window config opened s).
Proof.
  intros Hi. unfold show_main_window. destruct (sv_one s Hi) as [Hw|(n & st & Hw & Hh)].
  - destruct (map_or _ _ _); [done|]. by apply open_window_inv.
  - rewrite Hh. cbn. unfold window_alive. by rewrite bool_decide_eq_true_2 by (rewrite Hw; left).
Qed.

Lemma quit_inv s : shell_inv s -> shell_inv (quit s).
Proof. intros [H1 H2 H3]. by split. Qed.

Lemma close_window_inv n config s : shell_inv s -> shell_inv (close_window n config s).
Proof.
  intros Hi. unfold close_window. destruct (window_alive n s) eqn:Ha; [|done].
  destruct (keep_running _); [|by apply quit_inv].
  set (windows := List.filter _ _). assert (Hnil : windows = []).
  { apply bool_decide_eq_true in Ha. destruct (sv_one s Hi) as [Hw|(n' & st & Hw & Hh)].
    - rewrite Hw in Ha. by apply elem_of_nil in Ha.
    - rewrite Hw in Ha. apply list_elem_of_singleton in Ha as ->. subst windows. rewrite Hw. cbn.
      by rewrite bool_decide_eq_true_2. }
  cbv zeta. rewrite Hnil. destruct Hi as [_ Hm _].
  change (sh_quit_mode (set_window _ _ _ s)) with (sh_quit_mode s). rewrite Hm.
  destruct (sh_tray s) eqn:Et; rewrite ?quits_explicit, ?quits_last;
    cbn [length]; rewrite ?bool_decide_eq_true_2 by done; cbn;
    (split; cbn; [by left|by rewrite Hm, Et|by rewrite ?Et]).
Qed.

(** After [show_main_window] there is a window, if one can be opened. *)
Lemma shown_window config s : shell_inv s ->
  sh_windows (show_main_window config (Ok tt) s) <> []
  /\ (sh_windows s = [] -> sh_windows (show_main_window config (Ok tt) s)
        = [(sh_opened s, mkOpening (window_startup (sh_startup s) (published config s)) (sh_manager s)
              (sh_error s))]).
Proof.
  intros Hi. unfold show_main_window. destruct (sv_one s Hi) as [Hw|(n & st & Hw & Hh)].
  - assert (Ha : map_or false (fun n => window_alive n s) (sh_window s) = false).
    { destruct (sh_window s); [|done]. cbn. unfold window_alive. rewrite Hw.
      apply bool_decide_eq_false_2, not_elem_of_nil. }
    rewrite Ha. cbn. by rewrite Hw.
  - rewrite Hh. cbn. unfold window_alive. rewrite bool_decide_eq_true_2 by (rewrite Hw; left).
    by rewrite Hw.
Qed.

Lemma set_tray_inv t' t s : sh_tray s = Some t -> shell_inv s -> shell_inv (set_tray (Some t') s).
Proof. intros Ht [H1 H2 H3]. rewrite Ht in H2. by split. Qed.

Lemma handle_inv e s : shell_inv s -> shell_inv (handle e s).1.
Proof.
  intros Hi. destruct e; cbn [handle].
  - destruct (sh_actions s); [|done]. destruct (tray_effect _ _); cbn; [done|by apply show_main_window_inv| |done].
    by destruct Hi; split.
  - by destruct Hi; split.
  - destruct (sh_updates s); [done|]. destruct (sh_manager s); [|done]. cbn.
    assert (Hi' : forall x, shell_inv (set_updates x s)) by (intros; by destruct Hi; split).
    destruct (bool_decide _); cbn; [by apply show_main_window_inv|done].
  - destruct (sh_updates s) as [opened_prompt|]; [|done]. cbn.
    match goal with |- shell_inv (if ?b then show_main_window _ _ ?s1 else ?s1) =>
      assert (Hi1 : shell_inv s1) end.
    { assert (Hi' : forall x, shell_inv (set_updates x s)) by (intros; by destruct Hi; split).
      destruct (sh_tray s) eqn:Et; [by eapply set_tray_inv|done]. }
    destruct (_ && _); [by apply show_main_window_inv|done].
  - by destruct Hi; split.
  - by apply close_window_inv.
Qed.

Lemma shell_new_inv env background startup manager error icon append tooltip opened :
  shell_inv (new env background startup manager error icon append tooltip opened).
Proof.
  unfold new. set (s := mkShell _ _ _ _ _ _ _ _ _ _ _).
  assert (Hi : shell_inv s) by (split; cbn; [by left|done|done]).
  destruct (initial_window _ _); [by apply open_window_inv|done].
Qed.

Lemma run_inv s events : shell_inv s -> shell_inv (run s events).
Proof.
  revert s. induction events as [|e events IH]; intros s Hi; [done|]. cbn. apply IH.
  unfold step. destruct (sh_running s); [by apply handle_inv|done].
Qed.
End ShellProps.

(** What the application was started with stays, and every window gets it. *)
Definition given_window (startup : Startup) (manager : bool) (error : option string) (o : Opening) : Prop :=
  op_manager o = manager /\ op_error o = error
  /\ exists config, op_startup o = window_startup startup config /\ (manager = false -> config = None).
Record shell_given (startup : Startup) (manager : bool) (error : option string) (s : Shell) : Prop := {
  sg_startup : sh_startup s = startup;
  sg_manager : sh_manager s = manager;
  sg_error : sh_error s = error;
  sg_windows : Forall (fun w => given_window startup manager error w.2) (sh_windows s)
}.

Section ShellGiven.
Context `{Gpui} (startup : Startup) (manager : bool) (error : option string).
Notation given := (shell_given startup manager error).

Lemma show_main_window_given config opened s : given s -> given (show_main_window config opened s).
Proof.
  intros Hg. unfold show_main_window. destruct (map_or _ _ _); [done|]. destruct Hg as [H1 H2 H3 H4].
  destruct opened as [[]|]; [|by split]. split; cbn; [done..|]. apply Forall_app. split; [done|]. constructor; [|done].
  split; [done|]. split; [done|]. rewrite H1. eexists. split; [reflexivity|].
  unfold published. rewrite H2. by intros ->.
Qed.

Lemma handle_given e s : given s -> given (handle e s).1.
Proof.
  intros Hg.
  assert (Hk : forall s', sh_startup s' = sh_startup s -> sh_manager s' = sh_manager s ->
    sh_error s' = sh_error s -> sh_windows s' ⊆ sh_windows s -> given s').
  { destruct Hg as [K1 K2 K3 Hw]. intros s' E1 E2 E3 Hsub. split; [congruence..|].
    rewrite Forall_forall in *. auto. }
  destruct e; cbn [handle].
  - destruct (sh_actions s); [|done].
    destruct (tray_effect _ _); cbn; [done|by apply show_main_window_given|by apply Hk|done].
  - by apply Hk.
  - destruct (sh_updates s); [done|]. destruct (sh_manager s) eqn:Em; [|done]. cbn.
    destruct (bool_decide _); cbn; [apply show_main_window_given|]; by apply Hk; cbn.
  - destruct (sh_updates s) as [opened_prompt|]; [|done]. cbn.
    destruct (_ && _); [apply show_main_window_given|]; destruct (sh_tray s); by apply Hk.
  - by apply Hk.
  - cbn. unfold close_window. destruct (window_alive _ _); [|done].
    assert (Hsub : forall n, List.filter (fun w => negb (bool_decide (w.1 = n))) (sh_windows s) ⊆ sh_windows s).
    { intros m w Hw. apply list_elem_of_In, filter_In in Hw as [Hw _]. by apply list_elem_of_In. }
    destruct (keep_running _); [cbv zeta; destruct (quits _ _)|]; apply Hk; try done; apply Hsub.
Qed.

Lemma run_given s events : given s -> given (run s events).
Proof.
  revert s. induction events as [|e events IH]; intros s Hg; [done|]. cbn. apply IH.
  unfold step. destruct (sh_running s); [by apply handle_given|done].
Qed.
End ShellGiven.

Lemma shell_new_given env background startup m error icon append tooltip opened :
  shell_given startup (bool_decide (is_Some m)) error
    (new env background startup m error icon append tooltip opened).
Proof.
  unfold new. destruct (initial_window _ _); [|by split].
  destruct opened as [[]|]; split; cbn; try done. constructor; [|done]. split; [done|]. split; [done|].
  exists None. split; [|done]. by destruct startup as [[]|].
Qed.

Section ShellClaims.
Context `{GpuiLaws}.


(** Nothing left to see. When neither the tray icon nor the first window can be
    made, the application goes on all the same - with [LastWindowClosed] it ends
    when its last window is closed, and there is none: it runs its tunnels and
    keeps other starts away, and no window or icon to end it with exists. *)
Theorem application_without_face env startup manager runtime_error append tooltip config n error :
  let s := new env false startup manager runtime_error (Err error) append tooltip (Err error) in
  sh_running s = true /\ sh_windows s = [] /\ sh_tray s = None
  /\ step s (CloseWindow n config) = s.
Proof.
  unfold new. destruct (tray_config _ _ _); cbn; (split_and!; [done..|]); unfold step; cbn;
    unfold close_window, window_alive; cbn; by rewrite bool_decide_eq_false_2 by apply not_elem_of_nil.
Qed.
End ShellClaims.

(** ** Witness *)

#[export] Instance toy_gpui : Gpui := {|
  quits mode left := match mode with QuitMode.Explicit => false
                     | QuitMode.LastWindowClosed => bool_decide (left = 0%nat) end
|}.
#[export] Instance toy_gpui_laws : GpuiLaws.
Proof. split; reflexivity. Qed.

(** In the background, with a tray: opened from it, closed to it, opened again. *)
Example background_run :
  let ok := Ok (E := string) tt in
  let open := Chosen TrayAction.Open example_config ∅ ok in
  let s := run (new example_env true (Ok ("/cfg", example_config)) (Some (example_config, ∅)) None ok
                  (fun _ => ok) ok ok) [open; CloseWindow 0 example_config; open] in
  sh_running s = true /\ (sh_windows s).*1 = [1%nat] /\ sh_window s = Some 1%nat.
Proof. vm_compute. done. Qed.

Definition example_events : list event :=
  let ok := Ok (E := string) tt in
  [Chosen TrayAction.Open example_config ∅ ok; CloseWindow 0 example_config].

