(* ===== verification/Host.v ===== *)
(** * Host: the runtime host and the start of the application
    (crates/app/src/runtime_host.rs, network.rs and the startup of main.rs).

    The Tokio runtime, the threads and the Windows notification are answered by
    arguments. *)
From S2P Require Import Prelude Io Text Net Domain Validation StateMachine Runtime Retry Russh HostKey SshClient Chain LocalForward Supervisor RemoteSupervisor Path Schema Fs Store Secrets Persist SshImport Manager ManagerProps Editor Workspace WorkspaceProps Desktop.

#[local] Notation delete := base.delete.

(** ** network.rs *)

Module NetworkEvent.
Inductive t := Offline | Online | InterfaceChanged.
End NetworkEvent.

(** [MIB_NOTIFICATION_TYPE] is an integer; these are its names. *)
Definition MibParameterNotification : Z := 0.
Definition MibAddInstance : Z := 1.
Definition MibDeleteInstance : Z := 2.
Definition MibInitialNotification : Z := 3.

Definition network_event (kind : Z) (connected : bool) : NetworkEvent.t :=
  if bool_decide (kind = MibDeleteInstance) || negb connected then NetworkEvent.Offline
  else if bool_decide (kind = MibAddInstance) then NetworkEvent.Online
  else NetworkEvent.InterfaceChanged.

(** The callback; [context] and [row] are the pointers, the row with its
    [Connected]. *)
Definition on_change (context : bool) (row : option bool) (kind : Z) (ch : Channel) : Channel :=
  match row with
  | None => ch
  | Some connected =>
      if negb context || bool_decide (kind = MibInitialNotification) then ch
      else
        match network_event kind connected with
        | NetworkEvent.Online | NetworkEvent.InterfaceChanged =>
            (try_send CoreCommand.NetworkRecovered ch).2
        | NetworkEvent.Offline => ch
        end
  end.

(** The watcher owns the context the callback borrows. *)
Record NetworkWatcher := mkNetworkWatcher { nw_registered : bool; nw_context : bool }.

Definition watcher_new (status : Z) : result NetworkWatcher string * NetworkWatcher :=
  if bool_decide (status <> 0)
  then (Err ("Windows IP interface notification failed: " +:+ show_dec status), mkNetworkWatcher false false)
  else (Ok (mkNetworkWatcher true true), mkNetworkWatcher true true).

Definition watcher_drop (status : Z) (self : NetworkWatcher) : NetworkWatcher :=
  if bool_decide (status = 0) then mkNetworkWatcher false false
  else self.

(** ** runtime_host.rs *)

Section Host.
Context `{Russh} {K R : Type} `{HR : Registry R} (env : Env) (raw_os_text : Z -> string).
Context (order : gset TunnelId -> list TunnelId).
Notation manager := (TunnelManager K R).

(** What outlives [RuntimeHost::new]: the manager its thread will run, whether
    the thread refreshes the login entry first, and the watcher. *)
Record RuntimeHost := mkRuntimeHost {
  rh_manager : manager;
  rh_refresh_login : bool;
  rh_network : option NetworkWatcher
}.

(** [runtime] and [thread]: building the runtime, spawning the thread; [status]:
    what registering the notification returns. *)
Definition host_new (runtime thread : result unit string) (status : Z) (config : DomainConfig)
    (directory : PathBuf) (w : World K R) : result RuntimeHost string :=
  let refresh_login := run_at_startup (dc_app config) in
  let? manager := map_err show_manager_error
                    (Manager.new order (dc_hosts config) (dc_groups config) (dc_tunnels config) w) in
  let manager := with_app_known_hosts (path_join (platform env) directory "known_hosts")
                   (with_app_settings (dc_app config) manager) in
  let? _ := runtime in
  let? _ := thread in
  let network := match (watcher_new status).1 with Ok network => Some network | Err _ => None end in
  Ok (mkRuntimeHost manager refresh_login network).

(** The thread: the login entry, then [run], here up to its loop. A failure to
    refresh the entry is printed. *)
Definition host_thread (os : TunnelId -> StartEnv) (cancelled : nat -> bool) (self : RuntimeHost) : manager :=
  let m := rh_manager self in
  let m := if rh_refresh_login self
           then set_disk (on_login raw_os_text (set_run_at_login env true) (disk (world m))).2 m
           else m in
  launch os cancelled m.

(** [Drop]: the watcher first, then the shutdown, then the thread's end. *)
Definition host_drop (status : Z) (self : RuntimeHost) (m : manager) : option NetworkWatcher * manager :=
  (watcher_drop status <$> rh_network self, shut_down order m).
End Host.
Arguments mkRuntimeHost {K R}.
Arguments rh_manager {K R}.
Arguments rh_refresh_login {K R}.
Arguments rh_network {K R}.

(** [startup] of [main]. *)
Definition startup `{Toml} (env : Env) (s : Fs) : result (PathBuf * DomainConfig) string :=
  map_err show_config_store_error
    (let? store := default_windows env in
     let? config := (Store.load env store s).1 in
     Ok (directory store, config)).

(** ** Properties of the watcher *)

(** The retry hint of a supervisor that waits to reconnect. *)
Definition hinted (t : Task) : Task :=
  if is_reconnecting (t_state t)
  then mkTask (t_spec t) (t_state t) (t_changed t) (t_result t) (t_cancelled t) true else t.

Section Network.
Context `{Russh} `{HT : Toml, HO : Os} `{HK : Keyring K} `{HR : Registry R} `{HG : Glob}.
Context (env : Env) (raw_os_text : Z -> string) (import_files : ImportFiles).
Context (order : gset TunnelId -> list TunnelId).
Notation manager := (TunnelManager K R).
Notation dispatch := (Manager.dispatch env raw_os_text import_files order).

Definition hint_one (m : manager) (id : TunnelId) : manager :=
  match active m !! id with Some a => hint_if is_reconnecting a m | None => m end.

Lemma hint_one_core (m : manager) id :
  hosts (hint_one m id) = hosts m /\ tunnels (hint_one m id) = tunnels m
  /\ active (hint_one m id) = active m /\ current (hint_one m id) = current m
  /\ snapshots (hint_one m id) = snapshots m /\ config_views (hint_one m id) = config_views m.
Proof. unfold hint_one, hint_if. destruct (active m !! id) as [a|]; [|done].
  destruct (tasks (world m) !! at_task a) as [t|]; [|done]. by destruct (is_reconnecting _). Qed.

Lemma hinted_idem t : hinted (hinted t) = hinted t.
Proof. unfold hinted. by destruct (is_reconnecting (t_state t)) eqn:E; simpl; rewrite ?E. Qed.

Lemma hint_one_tasks (m : manager) id n :
  tasks (world (hint_one m id)) !! n
  = (if bool_decide (at_task <$> active m !! id = Some n) then hinted else (fun t => t)) <$> tasks (world m) !! n.
Proof.
  unfold hint_one, hint_if, hinted. destruct (active m !! id) as [a|]; simpl.
  - case_bool_decide as E.
    + injection E as <-. destruct (tasks (world m) !! at_task a) as [t|] eqn:Et; simpl; [|by rewrite Et].
      destruct (is_reconnecting (t_state t)); cbn; [by rewrite lookup_insert_eq|done].
    + assert (at_task a <> n) by congruence. rewrite option_fmap_id.
      destruct (tasks (world m) !! at_task a) as [t|]; [|done].
      destruct (is_reconnecting (t_state t)); cbn; [by rewrite lookup_insert_ne|done].
  - by rewrite option_fmap_id.
Qed.

Lemma hint_all ids (m : manager) :
  let m' := foldl hint_one m ids in
  hosts m' = hosts m /\ tunnels m' = tunnels m /\ active m' = active m /\ current m' = current m
  /\ snapshots m' = snapshots m /\ config_views m' = config_views m
  /\ forall n, tasks (world m') !! n
       = (if bool_decide (n ∈ omap (fun id => at_task <$> active m !! id) ids)
          then hinted else (fun t => t)) <$> tasks (world m) !! n.
Proof.
  revert m. induction ids as [|id ids IH]; intros m; cbn [foldl].
  - split_and!; try done. intros n. rewrite bool_decide_eq_false_2 by apply not_elem_of_nil.
    by rewrite option_fmap_id.
  - destruct (hint_one_core m id) as (Hh & Ht & Ha & Hc & Hs & Hv).
    destruct (IH (hint_one m id)) as (Hh' & Ht' & Ha' & Hc' & Hs' & Hv' & Hk).
    split_and!; try congruence. intros n. rewrite Hk, hint_one_tasks, Ha. cbn [omap list_omap].
    set (rest := omap _ ids). clearbody rest.
    destruct (active m !! id) as [a|]; simpl; [|by rewrite option_fmap_id].
    destruct (tasks (world m) !! n) as [t|]; [|done]. simpl. f_equal.
    repeat case_bool_decide; rewrite ?hinted_idem; try done; set_solver.
Qed.

(** A recovered network only hints. What the callback sends is decided by the
    notification alone - nothing for the initial one, nor for a removed or a
    disconnected interface -, and the manager's answer to it changes no
    configuration, no view and no task but for the retry hint of exactly those
    supervisors that are waiting to reconnect. *)
Theorem network_recovery_only_hints context row kind ch os stamp (m : manager) :
  (forall s, order s ≡ₚ elements s) -> reachable env raw_os_text import_files order m ->
  on_change context row kind ch
  = (if context && bool_decide (row = Some true)
        && negb (bool_decide (kind = MibInitialNotification)) && negb (bool_decide (kind = MibDeleteInstance))
     then (try_send CoreCommand.NetworkRecovered ch).2 else ch)
  /\ let m' := dispatch os stamp CoreCommand.NetworkRecovered m in
     hosts m' = hosts m /\ tunnels m' = tunnels m /\ config_views m' = config_views m
     /\ active m' = active m /\ snapshots m' = snapshots m
     /\ tasks (world m') = hinted <$> tasks (world m).
Proof.
  intros Ho Hr. split.
  - unfold on_change, network_event. destruct row as [[]|], context; simpl; rewrite ?orb_true_r; try done;
      repeat case_bool_decide; try done.
  - cbn [Manager.dispatch]. cbv zeta.
    destruct (hint_all (order (dom (active m))) m) as (Hh & Ht & Ha & _ & Hs & Hv & Hk).
    unfold hint_one in *. split_and!; try done. apply map_eq. intros n. rewrite Hk, lookup_fmap.
    destruct (tasks (world m) !! n) as [t|] eqn:Et; [|done]. simpl. f_equal.
    rewrite bool_decide_eq_true_2; [done|].
    pose proof (manager_reachable_inv env raw_os_text import_files order Ho m Hr) as Hi.
    destruct (ti_owned _ (mi_tasks _ Hi) n) as (id & a & Ha' & <-); [by eexists|].
    apply list_elem_of_omap. exists id. rewrite Ho, elem_of_elements. split; [by eapply elem_of_dom_2|].
    by rewrite Ha'.
Qed.
End Network.

(** ** The start *)

Definition tunnel_map (l : list TunnelConfig) : gmap TunnelId TunnelConfig :=
  list_to_map ((fun t => (tunnel_id t, t)) <$> l).

Lemma tunnel_map_keys (l : list TunnelConfig) : ((fun t => (tunnel_id t, t)) <$> l).*1 = tunnel_id <$> l.
Proof. by rewrite <- list_fmap_compose. Qed.

Lemma insert_all l :
  NoDup (tunnel_id <$> l) ->
  exists current, foldl insert_tunnel (Ok (∅, ∅, [])) l
    = Ok (tunnel_map l, current, tunnel_id <$> List.filter tunnel_auto_start l).
Proof.
  induction l as [|t l IH] using rev_ind; [by exists ∅|].
  rewrite fmap_app. intros (Hl & Hd & _)%NoDup_app. destruct (IH Hl) as [current E].
  assert (Hni : tunnel_id t ∉ ((fun t => (tunnel_id t, t)) <$> l).*1)
    by (rewrite tunnel_map_keys; intros Hin; apply (Hd _ Hin); by left).
  rewrite foldl_app, E. cbn. unfold tunnel_map at 1. rewrite not_elem_of_list_to_map_1 by done.
  eexists. f_equal. rewrite List.filter_app, !fmap_app. unfold tunnel_map. rewrite fmap_app. cbn.
  rewrite list_to_map_snoc by done. destruct (tunnel_auto_start t); [done|]. by rewrite app_nil_r.
Qed.

Lemma omap_lookup (m : gmap TunnelId TunnelConfig) l :
  (forall i x, (i, x) ∈ l -> m !! i = Some x) -> omap (fun i => m !! i) l.*1 = l.*2.
Proof.
  induction l as [|[i x] l IH]; intros Hl; [done|]. cbn. rewrite (Hl i x) by by left.
  f_equal. apply IH. intros j y Hj. apply Hl. by right.
Qed.

(** What the manager publishes of the tunnels it was given: all of them, in the
    order in which its map gives them back. *)
Lemma published_tunnels (order : gset TunnelId -> list TunnelId) l :
  (forall s, order s ≡ₚ elements s) -> NoDup (tunnel_id <$> l) ->
  omap (fun id => tunnel_map l !! id) (order (dom (tunnel_map l))) ≡ₚ l.
Proof.
  intros Ho Hl. rewrite Ho.
  assert (He : elements (dom (tunnel_map l)) ≡ₚ (map_to_list (tunnel_map l)).*1).
  { apply NoDup_Permutation; [apply NoDup_elements|apply NoDup_fst_map_to_list|]. intros id.
    rewrite elem_of_elements, elem_of_dom, list_elem_of_fmap. split.
    - intros [t Ht]. exists (id, t). split; [done|]. by apply elem_of_map_to_list.
    - intros ([i t] & -> & Ht%elem_of_map_to_list). by eexists. }
  rewrite He, omap_lookup by (by intros i x ?%elem_of_map_to_list).
  unfold tunnel_map. rewrite map_to_list_to_map by (by rewrite tunnel_map_keys).
  rewrite <- list_fmap_compose. by rewrite list_fmap_id.
Qed.

Section Start.
Context `{Russh} `{HT : Toml, HO : Os} `{HK : Keyring K} `{HR : Registry R} `{HG : Glob}.
Context (env : Env) (raw_os_text : Z -> string) (import_files : ImportFiles).
Context (order : gset TunnelId -> list TunnelId).
Hypothesis order_perm : forall s, order s ≡ₚ elements s.
Notation manager := (TunnelManager K R).

(** The integers of a parsed document are those of its Rust types. *)
Hypothesis parsed_typed : forall text d, from_str text = Ok d -> document_typed d.

Lemma startup_storable s directory config :
  home_ok env -> startup env s = Ok (directory, config) -> storable env config.
Proof.
  intros Hh. unfold startup. destruct (default_windows env) as [store|]; [|done]. cbn.
  unfold Store.load. destruct (open_read (config_path store) s) as [[file|source] s'].
  - cbn. unfold read_file. destruct (read_to_string _ file) as [text|]; [|done]. cbn.
    case_bool_decide; [done|]. destruct (from_str text) as [d|] eqn:Ed; [|done]. cbn.
    destruct (into_domain env d) as [c|] eqn:Ec; [|done]. intros [= <- <-].
    by apply (into_domain_storable env d c Hh (parsed_typed _ _ Ed)).
  - case_bool_decide; [|done]. cbn. destruct (into_domain env ConfigDocument_default) as [c|] eqn:Ec; [|done].
    intros [= <- <-]. apply (into_domain_storable env _ c Hh) in Ec; [by apply Ec|].
    split; constructor.
Qed.

(** If the configuration loads at the start, the manager accepts it - whatever
    fails then is the runtime or the thread -, runs exactly its tunnels, will
    start exactly those marked for it in the order of the file, publishes the
    configuration up to the order of the tunnels, and meets what the window's
    guarantees ask of a started manager; the watcher is there exactly if Windows
    registered it. *)
Lemma startup_runs s directory config runtime thread status (w : World K R) :
  home_ok env -> tasks w = ∅ -> replies w = [] -> startup env s = Ok (directory, config) ->
  storable env config
  /\ match host_new env order runtime thread status config directory w with
     | Err e => runtime = Err e \/ runtime = Ok tt /\ thread = Err e
     | Ok host =>
         let m : manager := rh_manager host in
         reachable env raw_os_text import_files order m
         /\ tunnels m = tunnel_map (dc_tunnels config) /\ hosts m = dc_hosts config
         /\ auto_start m = tunnel_id <$> List.filter tunnel_auto_start (dc_tunnels config)
         /\ config_views m ≡ config
         /\ (forall views, started env m (Some (config, views)))
         /\ (is_Some (rh_network host) <-> status = 0)
     end.
Proof.
  intros Hh Ht Hrep Hs. pose proof (startup_storable _ _ _ Hh Hs) as Hst. split; [done|].
  unfold host_new. destruct (insert_all (dc_tunnels config) (st_tunnels_nodup _ _ Hst)) as [current E].
  destruct (Manager.new order (dc_hosts config) (dc_groups config) (dc_tunnels config) w) as [m0|e] eqn:En;
    pose proof En as Enew; unfold Manager.new in En;
    rewrite bool_decide_eq_false_2 in En by (apply Nat.nlt_ge; exact (st_tunnels_len _ _ Hst));
    rewrite E in En; [|done]. cbn [map_err].
  destruct runtime as [[]|e]; [|by left]. destruct thread as [[]|e]; [|by right]. cbn.
  injection En as <-. cbn.
  assert (Heq : mkDomainConfig (dc_app config) (dc_hosts config) (dc_groups config)
    (omap (fun id => tunnel_map (dc_tunnels config) !! id) (order (dom (tunnel_map (dc_tunnels config))))) ≡ config).
  { split_and!; try done. cbn. apply published_tunnels; [done|]. apply Hst. }
  split_and!; try done.
  - apply reach_known_hosts, reach_settings. by eapply reach_new.
  - intros views. split_and!; [done| |].
    + cbn. rewrite storable_reload; [done|]. by rewrite Heq.
    + by intros ? ? [= <- <-].
  - unfold watcher_new. case_bool_decide; simpl; [split; [by intros []|done]|]. split; [lia|by eexists].
Qed.
End Start.

(** ** Two tunnels, and the order the user gave them *)

Module ToyOrder.
Definition env : Env := mkEnv Unix (fun v =>
  if bool_decide (v = "HOME") then Some "/home/u"
  else if bool_decide (v = "APPDATA") then Some "/app" else None).
Definition second : TunnelRecord := {|
  tr_id := "s"; tr_name := "Web"; tr_group_id := None; tr_mode := TunnelMode.Local;
  tr_jump_chain := ["h"]; tr_local_host := "127.0.0.1"; tr_local_port := 8080;
  tr_remote_host := Some "web"; tr_remote_port := Some 80; tr_auto_start := false;
  tr_reconnect_base_ms := 1000; tr_reconnect_max_ms := 30000; tr_reconnect_reset_ms := 60000;
  tr_reconnect_jitter_percent := 20; tr_description := "" |}.
Definition bastion : HostRecord := {|
  hr_id := "h"; hr_name := "Bastion"; hr_hostname := "bastion.example"; hr_port := 22;
  hr_username := "u"; hr_auth_type := AuthType.Agent; hr_credential_ref := None;
  hr_identity_file := None; hr_passphrase_ref := None; hr_agent_socket := None;
  hr_host_key_policy := HostKeyPolicy.Strict; hr_connect_timeout_ms := 8000;
  hr_keepalive_interval_ms := 10000; hr_keepalive_max := 3; hr_notes := "" |}.
Definition document (app : AppSettings) (tunnels : list TunnelRecord) : ConfigDocument :=
  mkConfigDocument 1 app [bastion] [] tunnels.
Definition flipped : AppSettings := flip_minimize_to_tray AppSettings_default.
Definition table : list (string * ConfigDocument) :=
  [("DB Web", document AppSettings_default [example_tunnel_record; second]);
   ("DB Web tray", document flipped [example_tunnel_record; second]);
   ("Web DB tray", document flipped [second; example_tunnel_record])].
#[global] Instance toml : Toml := {|
  from_str text := match find (fun '(t, _) => bool_decide (t = text)) table with
                   | Some (_, d) => Ok d
                   | None => Err "unknown text"
                   end;
  to_string_pretty d := match find (fun '(_, d') => bool_decide (d' = d)) table with
                        | Some (text, _) => Ok text
                        | None => Err "unknown document"
                        end |}.

Lemma typed text d : from_str text = Ok d -> document_typed d.
Proof.
  cbn. repeat case_bool_decide; intros [= <-]; repeat constructor; vm_compute; discriminate.
Qed.

Definition files : Fs :=
  mkFs {[("/app/TunnelWarden", "config.toml") := "DB Web"]} {["/app/TunnelWarden"]} [].
Definition world : World (gmap string string) (option (list Z)) :=
  mkWorld ∅ 0 1700000000 ∅ [] [] (mkDisk files ∅ None).
(** A map may give its keys back in any order, this one for instance. *)
Definition order (s : gset TunnelId) : list TunnelId := elements s.

Definition loaded : DomainConfig :=
  match startup env files with Ok (_, c) => c | Err _ => mkDomainConfig AppSettings_default [] [] [] end.
Definition host : RuntimeHost :=
  match host_new env order (Ok tt) (Ok tt) 0 loaded "/app/TunnelWarden" world with
  | Ok host => host
  | Err _ => mkRuntimeHost group_manager false None
  end.
(** In the background, then the window, one setting and its save. *)
Definition after_flip : Desktop (gmap string string) (option (list Z)) :=
  foldl (exec (H0 := Toy.russh) env (fun _ => "error") example_import order (fun p => p.1)
           "/app/TunnelWarden" true)
    (initial "/app/TunnelWarden" (rh_manager host) None)
    [Open no_views; Press Action.FlipMinimizeToTray 0; take_next].
End ToyOrder.

(** The order of the tunnels is not kept. The configuration file lists ["DB"]
    before ["Web"], and so does the window that opens with the application. A
    window opened later - here the first, after a start in the background -
    shows the manager's order instead, and saving any setting from it writes
    that order to the file. *)
Theorem reopened_window_reorders_tunnels :
  startup ToyOrder.env ToyOrder.files = Ok ("/app/TunnelWarden", ToyOrder.loaded)
  /\ host_new ToyOrder.env ToyOrder.order (Ok tt) (Ok tt) 0 ToyOrder.loaded "/app/TunnelWarden" ToyOrder.world
     = Ok ToyOrder.host
  /\ tunnel_name <$> dc_tunnels ToyOrder.loaded = ["DB"; "Web"]
  /\ files (disk_fs (disk (world (dk_manager ToyOrder.after_flip)))) !! ("/app/TunnelWarden", "config.toml")
     = Some "Web DB tray".
Proof. vm_compute. done. Qed.

Theorem network_recovery_only_hints_witness :
  active (Manager.dispatch (H := Toy.russh) (HT := ToyToml.toml) (HO := ToyToml.os) example_env
    (fun _ => "error") example_import elements toy_os 0 CoreCommand.NetworkRecovered running_manager)
  = active running_manager.
Proof.
  exact (proj1 (proj2 (proj2 (proj2 (proj2 (network_recovery_only_hints (H := Toy.russh)
    (HT := ToyToml.toml) (HO := ToyToml.os) example_env (fun _ => "error") example_import elements
    true None 0 (mkChannel true []) toy_os 0 running_manager (fun s => reflexivity _) running_reachable)))))).
Defined.
