(* ===== verification/Instance.v ===== *)
(** * Instance: one application per user (crates/app/src/instance.rs)

    Several processes run [InstanceGuard::acquire] and the guard's [Drop]
    against the named mutex and the named event of one user. Their code is a
    program of Win32 calls, one constructor a call, so that the processes
    interleave between any two calls; the kernel objects are what Windows
    documents: a named object lives as long as a handle to it is open, an
    auto-reset event is reset by the wait it releases, and a wait for several
    objects takes the first that is signalled. *)
From S2P Require Import Prelude Io.

(** ** The code *)

Module Handle.
Inductive t := Mutex | Wake | Shutdown.
End Handle.
#[export] Instance Handle_eq_dec : EqDecision Handle.t.
Proof. solve_decision. Defined.
#[export] Instance Handle_countable : Countable Handle.t.
Proof.
  refine (inj_countable'
    (fun h => match h with Handle.Mutex => 0%nat | Handle.Wake => 1%nat | Handle.Shutdown => 2%nat end)
    (fun n => match n with 0%nat => Handle.Mutex | 1%nat => Handle.Wake | _ => Handle.Shutdown end) _).
  by intros [].
Defined.

(** What [acquire] returned, and the end of [drop]. *)
Module InstanceStart.
Inductive t := Primary | Existing | Failed (error : string) | Dropped.
End InstanceStart.

(** A process between two calls. A call that can fail is answered by a null
    handle, that is an error text; [CreateMutexW] also tells whether the object
    existed ([GetLastError] right after it). *)
Inductive prog :=
  | Ret (start : InstanceStart.t)
  | CreateMutexW (k : result bool string -> prog)
  | CreateEventW (event : Handle.t) (k : result unit string -> prog)
  | SetEvent (event : Handle.t) (k : prog)
  | CloseHandle (handle : Handle.t) (k : prog)
  | SpawnThread (k : result unit string -> prog)
  | JoinThread (k : prog).

Definition acquire : prog :=
  CreateMutexW (fun mutex =>
    match mutex with
    | Err error => Ret (InstanceStart.Failed error)
    | Ok already_exists =>
        CreateEventW Handle.Wake (fun wake =>
          match wake with
          | Err error => CloseHandle Handle.Mutex (Ret (InstanceStart.Failed error))
          | Ok _ =>
              if already_exists : bool then
                SetEvent Handle.Wake
                  (CloseHandle Handle.Wake
                    (CloseHandle Handle.Mutex (Ret InstanceStart.Existing)))
              else
                CreateEventW Handle.Shutdown (fun shutdown =>
                  match shutdown with
                  | Err error =>
                      CloseHandle Handle.Wake
                        (CloseHandle Handle.Mutex (Ret (InstanceStart.Failed error)))
                  | Ok _ =>
                      SpawnThread (fun thread =>
                        match thread with
                        | Err error =>
                            CloseHandle Handle.Shutdown
                              (CloseHandle Handle.Wake
                                (CloseHandle Handle.Mutex (Ret (InstanceStart.Failed error))))
                        | Ok _ => Ret InstanceStart.Primary
                        end)
                  end)
          end)
    end).

(** [Drop for InstanceGuard]. *)
Definition drop_guard : prog :=
  SetEvent Handle.Shutdown
    (JoinThread
      (CloseHandle Handle.Shutdown
        (CloseHandle Handle.Wake (CloseHandle Handle.Mutex (Ret InstanceStart.Dropped))))).

(** ** The processes *)

(** [Broken]: the loop was left because a wait failed; [Ended]: because of the
    shutdown event. *)
Inductive thread := NotStarted | Waiting | Ended | Broken.
#[export] Instance thread_eq_dec : EqDecision thread.
Proof. solve_decision. Defined.

(** [open_queue]: messages in the channel that asks for the window. *)
Record Process := mkProcess {
  pc : prog;
  handles : gset Handle.t;
  guard_thread : thread;
  shutdown_set : bool;
  open_queue : nat
}.

Definition OPEN_CAPACITY : nat := 8.

(** [wake_set]: the named event, which all the processes share. *)
Record System := mkSystem { processes : gmap nat Process; wake_set : bool }.

Definition holds (h : Handle.t) (s : System) : bool :=
  existsb (fun p => bool_decide (h ∈ handles p)) ((map_to_list (processes s)).*2).

Definition put (pid : nat) (p : Process) (s : System) : System :=
  mkSystem (<[pid := p]> (processes s)) (wake_set s).
(** A named object ends with its last handle; the event is created unset. *)
Definition settle (s : System) : System :=
  mkSystem (processes s) (wake_set s && holds Handle.Wake s).
Definition with_pc (k : prog) (p : Process) : Process :=
  mkProcess k (handles p) (guard_thread p) (shutdown_set p) (open_queue p).
Definition with_handles (hs : gset Handle.t) (p : Process) : Process :=
  mkProcess (pc p) hs (guard_thread p) (shutdown_set p) (open_queue p).
Definition with_thread (t : thread) (p : Process) : Process :=
  mkProcess (pc p) (handles p) t (shutdown_set p) (open_queue p).
Definition with_shutdown (b : bool) (p : Process) : Process :=
  mkProcess (pc p) (handles p) (guard_thread p) b (open_queue p).
Definition with_queue (n : nat) (p : Process) : Process :=
  mkProcess (pc p) (handles p) (guard_thread p) (shutdown_set p) n.

(** The next call of a process; [answer]: does a call that may fail succeed? *)
Definition call (answer : result unit string) (pid : nat) (p : Process) (s : System) : option System :=
  match pc p with
  | Ret _ => None
  | CreateMutexW k =>
      match answer with
      | Err error => Some (put pid (with_pc (k (Err error)) p) s)
      | Ok _ => Some (put pid (with_pc (k (Ok (holds Handle.Mutex s)))
                                 (with_handles ({[Handle.Mutex]} ∪ handles p) p)) s)
      end
  | CreateEventW event k =>
      match answer with
      | Err error => Some (put pid (with_pc (k (Err error)) p) s)
      | Ok _ =>
          let p := with_pc (k (Ok tt)) (with_handles ({[event]} ∪ handles p) p) in
          Some (put pid (if bool_decide (event = Handle.Shutdown) then with_shutdown false p else p) s)
      end
  | SetEvent Handle.Wake k => Some (mkSystem (<[pid := with_pc k p]> (processes s)) true)
  | SetEvent _ k => Some (put pid (with_pc k (with_shutdown true p)) s)
  | CloseHandle h k => Some (settle (put pid (with_pc k (with_handles (handles p ∖ {[h]}) p)) s))
  | SpawnThread k =>
      match answer with
      | Err error => Some (put pid (with_pc (k (Err error)) p) s)
      | Ok _ => Some (put pid (with_pc (k (Ok tt)) (with_thread Waiting p)) s)
      end
  | JoinThread k =>
      if bool_decide (guard_thread p = Waiting) then None else Some (put pid (with_pc k p) s)
  end.

(** The guard's thread: [WaitForMultipleObjects] on the wake and the shutdown
    event, in this order. [failed]: the wait itself fails. *)
Definition wait (failed : bool) (pid : nat) (p : Process) (s : System) : option System :=
  if bool_decide (guard_thread p <> Waiting) then None
  else if failed then Some (put pid (with_thread Broken p) s)
  else if wake_set s then
    Some (mkSystem (<[pid := with_queue (Nat.min OPEN_CAPACITY (S (open_queue p))) p]> (processes s)) false)
  else if shutdown_set p then Some (put pid (with_thread Ended p) s)
  else None.

Definition new_process : Process := mkProcess acquire ∅ NotStarted false 0.

(** A process is started, makes its next call, quits (the guard is dropped),
    takes an open request, or is killed, which closes its handles; or its
    guard's thread goes on. *)
Inductive step : System -> System -> Prop :=
  | step_launch pid s : processes s !! pid = None -> step s (put pid new_process s)
  | step_call answer pid p s s' :
      processes s !! pid = Some p -> call answer pid p s = Some s' -> step s s'
  | step_quit pid p s :
      processes s !! pid = Some p -> pc p = Ret InstanceStart.Primary ->
      step s (put pid (with_pc drop_guard p) s)
  | step_wait failed pid p s s' :
      processes s !! pid = Some p -> wait failed pid p s = Some s' -> step s s'
  | step_open pid p n s :
      processes s !! pid = Some p -> open_queue p = S n -> step s (put pid (with_queue n p) s)
  | step_killed pid p s :
      processes s !! pid = Some p ->
      step s (settle (mkSystem (delete pid (processes s)) (wake_set s))).

Definition no_process : System := mkSystem ∅ false.
#[local] Notation reachable := (rtc step no_process).

(** ** A logic for the code

    [safe mine hs alive told p]: from here on the program uses its handles
    correctly. [mine]: it created the mutex and has not closed it; [hs]: its
    open handles; [alive]: the thread may be running; [told]: the shutdown event
    is set. A handle is opened once, used and closed only while it is open,
    and the events of the thread are not closed under it; the application runs
    with the mutex of its own, all handles and a thread, and everything else
    ends with nothing open. *)
Fixpoint safe (mine : bool) (hs : gset Handle.t) (alive told : bool) (p : prog) : Prop :=
  match p with
  | Ret InstanceStart.Primary =>
      mine = true /\ hs = {[Handle.Mutex; Handle.Wake; Handle.Shutdown]} /\ alive = true /\ told = false
  | Ret _ => mine = false /\ hs = ∅ /\ alive = false
  | CreateMutexW k =>
      Handle.Mutex ∉ hs /\ mine = false /\ alive = false
      /\ (forall error, safe false hs alive told (k (Err error)))
      /\ (forall already_exists,
            safe (negb already_exists) ({[Handle.Mutex]} ∪ hs) alive told (k (Ok already_exists)))
  | CreateEventW event k =>
      event ∉ hs /\ event <> Handle.Mutex /\ alive = false /\ told = false
      /\ (forall error, safe mine hs alive told (k (Err error)))
      /\ safe mine ({[event]} ∪ hs) alive told (k (Ok tt))
  | SetEvent event k =>
      event ∈ hs /\ event <> Handle.Mutex
      /\ safe mine hs alive (told || bool_decide (event = Handle.Shutdown)) k
  | CloseHandle h k =>
      h ∈ hs /\ alive = false
      /\ safe (mine && bool_decide (h <> Handle.Mutex)) (hs ∖ {[h]}) alive told k
  | SpawnThread k =>
      alive = false /\ mine = true /\ Handle.Wake ∈ hs /\ Handle.Shutdown ∈ hs
      /\ (forall error, safe mine hs alive told (k (Err error)))
      /\ safe mine hs true told (k (Ok tt))
  | JoinThread k => alive = true /\ told = true /\ safe mine hs false told k
  end.

(** One process, given whether it owns the mutex. *)
Definition process_ok (mine : bool) (p : Process) : Prop :=
  exists alive told, safe mine (handles p) alive told (pc p)
    /\ (alive = true -> mine = true)
    /\ (alive = false -> guard_thread p <> Waiting)
    /\ (alive = true -> guard_thread p <> NotStarted)
    /\ (shutdown_set p = told /\ (guard_thread p = Ended -> told = true))
    /\ (guard_thread p = Waiting -> Handle.Wake ∈ handles p)
    /\ (open_queue p <= OPEN_CAPACITY)%nat.

(** At most one process owns the mutex, and it has it open. *)
Definition owned_by (owner : option nat) (ps : gmap nat Process) : Prop :=
  forall pid p, ps !! pid = Some p ->
    process_ok (bool_decide (owner = Some pid)) p /\ (owner = Some pid -> Handle.Mutex ∈ handles p).
Definition system_inv (s : System) : Prop := exists owner, owned_by owner (processes s).

(** ** It is kept *)

Ltac handle_sets :=
  repeat match goal with
  | |- _ /\ _ => split
  | |- forall _, _ => intros ?
  | b : bool |- _ => progress (destruct b; cbn [negb])
  end; try done; try set_solver; try (apply leibniz_equiv; set_solver).

Lemma acquire_safe : safe false ∅ false false acquire.
Proof. unfold acquire. cbn [safe negb orb andb]. handle_sets. Qed.

Lemma drop_safe told :
  safe true {[Handle.Mutex; Handle.Wake; Handle.Shutdown]} true told drop_guard.
Proof. unfold drop_guard. cbn [safe]. rewrite orb_true_r. handle_sets. Qed.

Lemma owned_insert owner owner' pid p ps :
  owned_by owner ps ->
  (forall other, other <> pid -> is_Some (ps !! other) -> owner' = Some other <-> owner = Some other) ->
  process_ok (bool_decide (owner' = Some pid)) p -> (owner' = Some pid -> Handle.Mutex ∈ handles p) ->
  owned_by owner' (<[pid := p]> ps).
Proof.
  intros Ho Hsame Hp Hm other q [[<- <-]|[Hne Hq]]%lookup_insert_Some; [done|].
  destruct (Ho other q Hq) as [Hok Hmq].
  assert (He : owner' = Some other <-> owner = Some other) by (apply Hsame; [done|by eexists]).
  split; [|intros ?; by apply Hmq, He]. by rewrite (bool_decide_ext _ _ He).
Qed.

Lemma owned_delete owner pid ps : owned_by owner ps -> owned_by owner (delete pid ps).
Proof. intros Ho other q [_ Hq]%lookup_delete_Some. by apply Ho. Qed.

(** A process that owns the mutex keeps it from being new to another. *)
Lemma holds_owner owner s other :
  owned_by owner (processes s) -> is_Some (processes s !! other) -> owner = Some other ->
  holds Handle.Mutex s = true.
Proof.
  intros Ho [p Hp] Hpid. unfold holds. apply existsb_exists. exists p. split.
  - apply list_elem_of_In, list_elem_of_fmap. exists (other, p). split; [done|]. by apply elem_of_map_to_list.
  - apply bool_decide_eq_true. by apply (Ho other).
Qed.

(** The process goes on with the same owner. *)
Lemma owned_same owner pid p ps :
  owned_by owner ps -> process_ok (bool_decide (owner = Some pid)) p ->
  (owner = Some pid -> Handle.Mutex ∈ handles p) -> owned_by owner (<[pid := p]> ps).
Proof. intros Ho. by apply (owned_insert owner). Qed.

Lemma call_inv answer pid p s s' :
  system_inv s -> processes s !! pid = Some p -> call answer pid p s = Some s' -> system_inv s'.
Proof.
  intros [owner Ho] Hp Hc. destruct (Ho pid p Hp) as [(alive & told & Hs & Hmn & Ha & Hn & [Ht Hte] & Hw & Hq) Hm].
  destruct p as [code hs th sd q]. unfold call in Hc. cbn [pc handles guard_thread shutdown_set open_queue] in *.
  destruct code as [|k|event k|event k|h k|k|k]; cbn [safe] in Hs.
  - done.
  - destruct Hs as (Hni & Hmine & -> & Herr & Hok). apply bool_decide_eq_false in Hmine.
    destruct answer as [[]|e]; injection Hc as <-.
    + destruct (holds Handle.Mutex s) eqn:Eh.
      * exists owner. apply owned_same; [done| |done]. rewrite bool_decide_eq_false_2 by done.
        exists false, told. cbn. split_and!; try done; [apply (Hok true)|set_solver].
      * exists (Some pid). apply (owned_insert owner); [done| | |cbn; set_solver].
        -- intros other Hne Hl. split; [by intros [=]|]. intros Ho'.
           by rewrite (holds_owner owner s other Ho Hl Ho') in Eh.
        -- rewrite bool_decide_eq_true_2 by done. exists false, told. cbn.
           split_and!; try done; [apply (Hok false)|set_solver].
    + exists owner. apply owned_same; [done| |done]. rewrite bool_decide_eq_false_2 by done.
      exists false, told. cbn; by split_and!.
  - destruct Hs as (Hni & Hnm & -> & -> & Herr & Hok). exists owner.
    destruct answer as [[]|e]; injection Hc as <-; [|apply owned_same; [done| |done]; exists false, false; by cbn].
    destruct (decide (event = Handle.Shutdown)) as [He|He];
      [rewrite (bool_decide_eq_true_2 (event = _)) by done|rewrite (bool_decide_eq_false_2 (event = _)) by done];
      (apply owned_same; [done| |intros Hpid; specialize (Hm Hpid); cbn; set_solver]).
    + exists false, false. cbn. split_and!; try done. set_solver.
    + exists false, false. cbn. split_and!; try done. set_solver.
  - destruct Hs as (Hin & Hnm & Hok). exists owner.
    destruct event; [done|injection Hc as <-..].
    + apply owned_same; [done| |done]. exists alive, told. cbn. rewrite orb_false_r in Hok. done.
    + apply owned_same; [done| |done]. exists alive, true. cbn. rewrite orb_true_r in Hok. done.
  - destruct Hs as (Hin & -> & Hok). injection Hc as <-. cbn [settle processes put].
    destruct (decide (h = Handle.Mutex)) as [->|Hne].
    + exists (if bool_decide (owner = Some pid) then None else owner).
      apply (owned_insert owner); [done| | |].
      * intros other Hother _. case_bool_decide; [|done]. split; [done|]. congruence.
      * rewrite bool_decide_eq_false_2 by (case_bool_decide; congruence).
        rewrite (bool_decide_eq_false_2 (_ <> _)), andb_false_r in Hok by tauto.
        exists false, told. cbn. split_and!; try done. intros Hth. by destruct (Ha eq_refl).
      * case_bool_decide; [done|]. congruence.
    + exists owner. rewrite (bool_decide_eq_true_2 (h <> _)), andb_true_r in Hok by done.
      apply owned_same; [done| |].
      * exists false, told. cbn. split_and!; try done. intros Hth. by destruct (Ha eq_refl).
      * intros Hpid. cbn. specialize (Hm Hpid). set_solver.
  - destruct Hs as (-> & Hmine & Hin & _ & Herr & Hok). exists owner.
    destruct answer as [[]|e]; injection Hc as <-.
    + apply owned_same; [done| |done]. exists true, told. cbn; by split_and!.
    + apply owned_same; [done| |done]. exists false, told. cbn; by split_and!.
  - destruct Hs as (-> & -> & Hok). exists owner.
    destruct (bool_decide_reflect (th = Waiting)); [done|]. injection Hc as <-.
    apply owned_same; [done| |done]. exists false, true. cbn; by split_and!.
Qed.

Lemma wait_inv failed pid p s s' :
  system_inv s -> processes s !! pid = Some p -> wait failed pid p s = Some s' -> system_inv s'.
Proof.
  intros [owner Ho] Hp Hc. destruct (Ho pid p Hp) as [(alive & told & Hs & Hmn & Ha & Hn & [Ht Hte] & Hw & Hq) Hm].
  unfold wait in Hc. destruct (bool_decide_reflect (guard_thread p <> Waiting)) as [Hth|Hth]; [done|].
  exists owner.
  assert (Hend : forall th, th <> NotStarted -> th <> Waiting -> (th = Ended -> told = true) ->
    owned_by owner (<[pid := with_thread th p]> (processes s))).
  { intros th H1 H2 H3. apply owned_same; [done| |done]. exists alive, told. cbn. by split_and!. }
  destruct failed; [injection Hc as <-; by apply Hend|]. destruct (wake_set s).
  - apply (inj Some) in Hc as <-. apply owned_same; [done| |done]. exists alive, told.
    split_and!; try done. apply Nat.le_min_l.
  - destruct (shutdown_set p) eqn:Esd; [|done]. injection Hc as <-. apply Hend; [done..|]. intros _. congruence.
Qed.

Lemma system_step_inv s s' : step s s' -> system_inv s -> system_inv s'.
Proof.
  intros [pid s0 Hp|answer pid p s0 s1 Hp Hc|pid p s0 Hp Hpc|failed pid p s0 s1 Hp Hc|pid p n s0 Hp Hq|pid p s0 Hp] Hi.
  - destruct Hi as [owner Ho]. exists (if bool_decide (owner = Some pid) then None else owner).
    apply (owned_insert owner); [done| | |].
    + intros other Hne _. case_bool_decide; [|done]. split; [done|congruence].
    + rewrite bool_decide_eq_false_2 by (case_bool_decide; congruence).
      exists false, false. split_and!; try done; [exact acquire_safe|apply Nat.le_0_l].
    + case_bool_decide; [done|congruence].
  - by eapply call_inv.
  - destruct Hi as [owner Ho]. exists owner.
    destruct (Ho pid p Hp) as [(alive & told & Hs & Hmn & Ha & Hn & [Ht Hte] & Hw & Hqu) Hm].
    rewrite Hpc in Hs. destruct Hs as (Hmine & Hhs & -> & ->). apply owned_same; [done| |done].
    rewrite Hmine. exists true, false. unfold with_pc. cbn [pc handles guard_thread shutdown_set open_queue].
    rewrite Hhs. split_and!; try done; first [apply drop_safe|intros _; set_solver].
  - by eapply wait_inv.
  - destruct Hi as [owner Ho]. exists owner.
    destruct (Ho pid p Hp) as [(alive & told & Hs & Hmn & Ha & Hn & [Ht Hte] & Hw & Hqu) Hm].
    apply owned_same; [done| |done]. exists alive, told. cbn. split_and!; try done. lia.
  - destruct Hi as [owner Ho]. exists owner. by apply owned_delete.
Qed.

Lemma reachable_system_inv s : reachable s -> system_inv s.
Proof.
  intros H. assert (H0 : system_inv no_process) by (exists None; intros ? ? Hp; cbn in Hp; by rewrite lookup_empty in Hp).
  induction H; [done|]. eauto using system_step_inv.
Qed.

(** ** What it gives *)

Definition running (s : System) (pid : nat) : Prop :=
  exists p, processes s !! pid = Some p /\ pc p = Ret InstanceStart.Primary.

Lemma running_unique s p q : reachable s -> running s p -> running s q -> p = q.
Proof.
  intros [owner Ho]%reachable_system_inv.
  assert (Hrun : forall pid, running s pid -> owner = Some pid).
  { intros pid (pr & Hp & Hpc). destruct (Ho pid pr Hp) as [(alive & told & Hs & _) _].
    rewrite Hpc in Hs. destruct Hs as [Hs _]. by apply bool_decide_eq_true in Hs. }
  intros Hp%Hrun Hq%Hrun. congruence.
Qed.

(** C25: However the processes interleave, and whichever calls fail: at most one of
    them runs as the application; it holds the mutex, both events and a
    thread; one that ended - as the second instance, with an error, or after
    quitting - left nothing open and no thread; and no process ever closes or
    signals a handle it does not have, or closes an event its thread waits on. *)
Theorem single_instance s :
  reachable s ->
  (forall p q, running s p -> running s q -> p = q)
  /\ forall pid p, processes s !! pid = Some p ->
       match pc p with
       | Ret InstanceStart.Primary =>
           handles p = {[Handle.Mutex; Handle.Wake; Handle.Shutdown]} /\ guard_thread p <> NotStarted
       | Ret _ => handles p = ∅ /\ guard_thread p <> Waiting
       | CloseHandle h _ => h ∈ handles p /\ guard_thread p <> Waiting
       | SetEvent h _ => h ∈ handles p
       | _ => True
       end.
Proof.
  intros Hr. split; [by intros p q; apply running_unique|].
  apply reachable_system_inv in Hr as [owner Ho].
  - intros pid p Hp. destruct (Ho pid p Hp) as [(alive & told & Hs & Hmn & Ha & Hn & _) _].
    destruct (pc p) as [[]| | |h k|h k| |]; try done; cbn [safe] in Hs; naive_solver.
Qed.

(** Nobody waits for ever to quit: in whatever state the others are, a process
    that joins its thread is let go on after at most two steps of that thread,
    a pending wake-up and the end. *)
Theorem quitting_ends s pid p k :
  reachable s -> processes s !! pid = Some p -> pc p = JoinThread k ->
  exists s' p', rtc step s s' /\ processes s' !! pid = Some p' /\ pc p' = k /\ guard_thread p' <> Waiting.
Proof.
  intros Hr Hp Hpc. destruct (reachable_system_inv s Hr) as [owner Ho].
  destruct (Ho pid p Hp) as [(alive & told & Hs & Hmn & Ha & Hn & [Ht Hte] & Hw & Hq) _]. rewrite Hpc in Hs.
  destruct Hs as (_ & -> & _).
  assert (Hjoin : forall s p, processes s !! pid = Some p -> pc p = JoinThread k -> guard_thread p <> Waiting ->
    exists s' p', rtc step s s' /\ processes s' !! pid = Some p' /\ pc p' = k /\ guard_thread p' <> Waiting).
  { intros s0 p0 Hp0 Hpc0 Hth0. exists (put pid (with_pc k p0) s0), (with_pc k p0). split_and!; try done.
    - apply rtc_once, (step_call (Ok tt) pid p0); [done|]. unfold call. rewrite Hpc0.
      by rewrite bool_decide_eq_false_2.
    - apply lookup_insert_eq. }
  destruct (decide (guard_thread p = Waiting)) as [Hth|Hth]; [|by apply (Hjoin s p)].
  assert (Hend : forall s p, processes s !! pid = Some p -> pc p = JoinThread k -> guard_thread p = Waiting ->
    shutdown_set p = true -> wake_set s = false -> exists s' p',
    rtc step s s' /\ processes s' !! pid = Some p' /\ pc p' = k /\ guard_thread p' <> Waiting).
  { intros s0 p0 Hp0 Hpc0 Hth0 Hsd Hwk.
    destruct (Hjoin (put pid (with_thread Ended p0) s0) (with_thread Ended p0)) as (s' & p' & Hs' & ?);
      [apply lookup_insert_eq|done|done|]. exists s', p'. split; [|done]. etransitivity; [|exact Hs'].
    apply rtc_once, (step_wait false pid p0); [done|]. unfold wait.
    rewrite bool_decide_eq_false_2 by (by intros ?). by rewrite Hwk, Hsd. }
  destruct (wake_set s) eqn:Ewk; [|by apply (Hend s p)].
  set (p1 := with_queue (Nat.min OPEN_CAPACITY (S (open_queue p))) p).
  destruct (Hend (mkSystem (<[pid := p1]> (processes s)) false) p1) as (s' & p' & Hs' & ?);
    [apply lookup_insert_eq|done..|]. exists s', p'. split; [|done]. etransitivity; [|exact Hs'].
  apply rtc_once, (step_wait false pid p); [done|]. unfold wait.
  rewrite bool_decide_eq_false_2 by (by intros ?). by rewrite Ewk.
Qed.

(** ** The wake-up of the first instance *)

Lemma holds_other h ps w pid p :
  ps !! pid = Some p -> h ∈ handles p -> holds h (mkSystem ps w) = true.
Proof.
  intros Hp Hh. unfold holds. apply existsb_exists. exists p. split; [|by apply bool_decide_eq_true].
  apply list_elem_of_In, list_elem_of_fmap. exists (pid, p). split; [done|]. by apply elem_of_map_to_list.
Qed.

(** Only the owner has a thread. *)
Lemma waiting_owner owner s pid p :
  owned_by owner (processes s) -> processes s !! pid = Some p -> guard_thread p = Waiting ->
  owner = Some pid /\ Handle.Wake ∈ handles p
  /\ match pc p with CloseHandle _ _ => False | _ => True end.
Proof.
  intros Ho Hp Hth. destruct (Ho pid p Hp) as [(alive & told & Hs & Hmn & Ha & Hn & [Ht Hte] & Hw & Hq) _].
  destruct alive; [|by destruct (Ha eq_refl)].
  specialize (Hmn eq_refl). apply bool_decide_eq_true in Hmn. split_and!; [done|by apply Hw|].
  destruct (pc p); try done. cbn in Hs. naive_solver.
Qed.

(** A call changes its process, and resets the wake event only by closing a
    handle. *)
Lemma call_effect answer pid p s s' :
  call answer pid p s = Some s' -> wake_set s = true ->
  exists p', processes s' = <[pid := p']> (processes s)
    /\ (wake_set s' = true
        \/ s' = settle (put pid p' s) /\ match pc p with CloseHandle _ _ => True | _ => False end).
Proof.
  unfold call. intros Hc Hw.
  destruct (pc p) as [|k|[]|[]|h k|k|k], answer as [[]|]; try case_bool_decide; simplify_eq/=; eauto 10.
Qed.

Lemma settle_wake s : wake_set s = true -> holds Handle.Wake s = true -> wake_set (settle s) = true.
Proof. unfold settle. simpl. by intros -> ->. Qed.

(** The thread of a running application waits, unless a wait failed. *)
Lemma running_waits s pid p :
  reachable s -> processes s !! pid = Some p -> pc p = Ret InstanceStart.Primary ->
  guard_thread p = Waiting \/ guard_thread p = Broken.
Proof.
  intros [owner Ho]%reachable_system_inv Hp Hpc.
  destruct (Ho pid p Hp) as [(alive & told & Hs & Hmn & Ha & Hn & [Ht Hte] & Hw & Hq) _].
  rewrite Hpc in Hs. destruct Hs as (_ & _ & -> & ->). specialize (Hn eq_refl).
  destruct (guard_thread p); [done|by left|by discriminate Hte|by right].
Qed.

(** The request is in the channel - one more, up to its capacity -, and the
    thread waits again. *)
Definition delivered (p p' : Process) (s' : System) : Prop :=
  wake_set s' = false /\ guard_thread p' = Waiting
  /\ open_queue p' = Nat.min OPEN_CAPACITY (S (open_queue p)).

Lemma delivery pid p s :
  processes s !! pid = Some p -> guard_thread p = Waiting -> wake_set s = true ->
  exists s' p', wait false pid p s = Some s' /\ processes s' !! pid = Some p' /\ delivered p p' s'.
Proof.
  intros Hp Hth Hw. unfold wait. rewrite bool_decide_eq_false_2 by (by intros ?). rewrite Hw.
  do 2 eexists. split; [reflexivity|]. split; [apply lookup_insert_eq|done].
Qed.

(** C33: A wake-up is not lost on a running application. While it runs, and unless
    a wait of its guard's thread has failed: a wake event that is set can be
    turned into a request to open the window by the next step of that thread,
    and no other step of any process takes it away - the event stays set until
    that very thread puts the request into the channel, or leaves it there when
    the channel is full, and waits for the next wake-up; the only other way is
    that the application is killed. *)
Theorem wake_reaches_the_window s pid p :
  reachable s -> processes s !! pid = Some p -> pc p = Ret InstanceStart.Primary ->
  guard_thread p <> Broken -> wake_set s = true ->
  (exists s' p', step s s' /\ processes s' !! pid = Some p' /\ delivered p p' s')
  /\ forall s', step s s' ->
       processes s' !! pid = None
       \/ exists p', processes s' !! pid = Some p'
            /\ (delivered p p' s'
                \/ wake_set s' = true /\ (guard_thread p' = Waiting \/ guard_thread p' = Broken)).
Proof.
  intros Hr Hp Hpc Hnb Hwake.
  assert (Hth : guard_thread p = Waiting) by (by destruct (running_waits s pid p Hr Hp Hpc)).
  split.
  { destruct (delivery pid p s Hp Hth Hwake) as (s' & p' & Hw & ? & ?). exists s', p'.
    split; [|done]. by apply (step_wait false pid p). }
  intros s' Hstep. destruct (reachable_system_inv s Hr) as [owner Ho].
  destruct (waiting_owner owner s pid p Ho Hp Hth) as (Hown & Hwk & _).
  assert (Hother : forall other q s1, processes s1 = <[other := q]> (processes s) -> wake_set s1 = true ->
    (other = pid -> guard_thread q = Waiting \/ guard_thread q = Broken) ->
    processes s1 !! pid = None \/ exists p', processes s1 !! pid = Some p'
      /\ (delivered p p' s1 \/ wake_set s1 = true /\ (guard_thread p' = Waiting \/ guard_thread p' = Broken))).
  { intros other q s1 Hs1 Hw Hq. right. rewrite Hs1. destruct (decide (other = pid)) as [->|Hne].
    - eexists. split; [apply lookup_insert_eq|]. right. auto.
    - exists p. split; [by rewrite lookup_insert_ne|]. right. auto. }
  destruct Hstep as [other s0 Hn|answer other q s0 s1 Hq Hc|other q s0 Hq Hpcq|failed other q s0 s1 Hq Hc
    |other q n s0 Hq Hqu|other q s0 Hq].
  - eapply Hother; [done..|]. intros ->. congruence.
  - destruct (decide (other = pid)) as [->|Hne].
    { simplify_eq. unfold call in Hc. by rewrite Hpc in Hc. }
    destruct (call_effect _ _ _ _ _ Hc Hwake) as (q' & Hps & [Hw|[-> Hcl]]); [by eapply Hother|].
    eapply Hother; [exact Hps| |done]. apply settle_wake; [done|].
    eapply holds_other; [|exact Hwk]. cbn. by rewrite lookup_insert_ne.
  - eapply Hother; [done..|]. intros ->. simplify_eq. by left.
  - assert (other = pid) as ->.
    { unfold wait in Hc. destruct (bool_decide_reflect (guard_thread q <> Waiting)) as [|Hnw]; [done|].
      destruct (decide (guard_thread q = Waiting)) as [Hwq|]; [|done].
      destruct (waiting_owner owner s0 other q Ho Hq Hwq) as [Hown' _]. congruence. }
    simplify_eq. destruct failed.
    + unfold wait in Hc. rewrite bool_decide_eq_false_2 in Hc by tauto. apply (inj Some) in Hc as <-.
      eapply Hother; [done..|]. intros _. by right.
    + destruct (delivery pid p s0 Hp Hth Hwake) as (s' & p' & Hw & ? & ?). rewrite Hw in Hc.
      injection Hc as <-. right. exists p'. auto.
  - eapply Hother; [done..|]. intros ->. simplify_eq. by left.
  - destruct (decide (other = pid)) as [->|Hne]; [left; apply lookup_delete_eq|]. right.
    exists p. cbn [settle processes]. split; [by rewrite lookup_delete_ne|]. right. split; [|by left].
    apply settle_wake; [done|]. eapply holds_other; [|exact Hwk]. by rewrite lookup_delete_ne.
Qed.

(** ** Runs *)

(** The environment answers every call that may fail with success. *)
Inductive event := Launch (pid : nat) | CallOf (pid : nat) | WaitOf (pid : nat) | QuitOf (pid : nat).
Definition exec (s : System) (e : event) : System :=
  match e with
  | Launch pid => match processes s !! pid with None => put pid new_process s | Some _ => s end
  | CallOf pid =>
      match processes s !! pid with
      | Some p => default s (call (Ok tt) pid p s)
      | None => s
      end
  | WaitOf pid =>
      match processes s !! pid with
      | Some p => default s (wait false pid p s)
      | None => s
      end
  | QuitOf pid =>
      match processes s !! pid with
      | Some p => match pc p with
                  | Ret InstanceStart.Primary => put pid (with_pc drop_guard p) s
                  | _ => s
                  end
      | None => s
      end
  end.
Definition runs (events : list event) : System := foldl exec no_process events.

Lemma instance_exec_steps s e : rtc step s (exec s e).
Proof.
  destruct e as [pid|pid|pid|pid]; simpl; destruct (processes s !! pid) as [p|] eqn:E; try done.
  - by apply rtc_once, step_launch.
  - destruct (call (Ok tt) pid p s) eqn:Ec; [|done]. by eapply rtc_once, step_call.
  - destruct (wait false pid p s) eqn:Ec; [|done]. by eapply rtc_once, step_wait.
  - destruct (pc p) as [[]| | | | | |] eqn:Ec; try done. by apply rtc_once, (step_quit pid p).
Qed.

Lemma runs_reachable events : reachable (runs events).
Proof.
  unfold runs. generalize no_process. induction events as [|e events IH]; intros s; [done|].
  etransitivity; [apply instance_exec_steps|apply IH].
Qed.

Definition ended (s : System) (pid : nat) : option InstanceStart.t :=
  match processes s !! pid with Some p => match pc p with Ret r => Some r | _ => None end | None => None end.

(** The second instance wakes the first and ends. *)
Definition two_instances : list event :=
  [Launch 1] ++ replicate 4 (CallOf 1) ++ [Launch 2] ++ replicate 5 (CallOf 2).
Example second_instance_wakes_the_first :
  let s := exec (runs two_instances) (WaitOf 1) in
  ended s 1 = Some InstanceStart.Primary /\ ended s 2 = Some InstanceStart.Existing
  /\ (open_queue <$> processes s !! 1%nat) = Some 1%nat.
Proof. vm_compute. done. Qed.

(** But the first has to have its event by then: a second instance that comes
    between the two calls of the first creates the event, sets it and, being
    its only user, takes it away again; the first becomes the application and
    is never asked to show its window. *)
Theorem early_wake_is_lost :
  exists s, reachable s /\ ended s 1 = Some InstanceStart.Primary
    /\ ended s 2 = Some InstanceStart.Existing /\ wake_set s = false
    /\ (open_queue <$> processes s !! 1%nat) = Some 0%nat.
Proof.
  exists (runs ([Launch 1; CallOf 1; Launch 2] ++ replicate 5 (CallOf 2) ++ replicate 3 (CallOf 1))).
  split; [apply runs_reachable|]. vm_compute. done.
Qed.

Theorem single_instance_witness :
  exists p, processes (runs two_instances) !! 1%nat = Some p
    /\ pc p = Ret InstanceStart.Primary /\ handles p = {[Handle.Mutex; Handle.Wake; Handle.Shutdown]}
    /\ ~ running (runs two_instances) 2%nat.
Proof.
  destruct (processes (runs two_instances) !! 1%nat) as [p|] eqn:Hp; [|by vm_compute in Hp].
  assert (Hpc : pc p = Ret InstanceStart.Primary) by (vm_compute in Hp; by injection Hp as <-).
  destruct (single_instance (runs two_instances) (runs_reachable two_instances)) as [Hone Hall].
  exists p. split; [done|]. split; [done|]. split.
  - specialize (Hall 1%nat p Hp). rewrite Hpc in Hall. exact (proj1 Hall).
  - intros H2. discriminate (Hone 1%nat 2%nat (ex_intro _ p (conj Hp Hpc)) H2).
Defined.

Theorem quitting_ends_witness :
  let s := runs ([Launch 1] ++ replicate 4 (CallOf 1) ++ [QuitOf 1; CallOf 1]) in
  exists s', rtc step s s'.
Proof.
  intros s. destruct (processes s !! 1%nat) as [p|] eqn:Hp; [|by vm_compute in Hp].
  assert (Hpc : exists k, pc p = JoinThread k) by (vm_compute in Hp; injection Hp as <-; by eexists).
  destruct Hpc as [k Hpc].
  destruct (quitting_ends s 1 p k (runs_reachable _) Hp Hpc) as (s' & _ & Hs & _). by exists s'.
Defined.

(** The second wake-up finds the thread waiting as the first did. *)
Definition woken_twice : list event :=
  two_instances ++ [WaitOf 1; Launch 3] ++ replicate 5 (CallOf 3).

Theorem wake_reaches_the_window_witness :
  exists p s' p', processes (runs woken_twice) !! 1%nat = Some p /\ open_queue p = 1%nat
    /\ step (runs woken_twice) s' /\ processes s' !! 1%nat = Some p' /\ open_queue p' = 2%nat.
Proof.
  destruct (processes (runs woken_twice) !! 1%nat) as [p|] eqn:Hp; [|by vm_compute in Hp].
  assert (Hpc : pc p = Ret InstanceStart.Primary) by (vm_compute in Hp; by injection Hp as <-).
  assert (Hth : guard_thread p <> Broken) by (vm_compute in Hp; by injection Hp as <-).
  assert (Hq : open_queue p = 1%nat) by (vm_compute in Hp; by injection Hp as <-).
  assert (Hw : wake_set (runs woken_twice) = true) by (vm_compute; reflexivity).
  destruct (wake_reaches_the_window (runs woken_twice) 1 p (runs_reachable _) Hp Hpc Hth Hw)
    as [(s' & p' & Hs & Hp' & _ & _ & Hq') _].
  exists p, s', p'. rewrite Hq in Hq'. split_and!; done.
Defined.
