(* ===== verification/Main.v ===== *)
(** * Main: the start of the application (crates/app/src/main.rs, [main]).

    [main] asks for the instance guard, loads the configuration, starts the
    runtime and its manager, and builds tray and window; each part has a file
    of its own - Instance, Store, Host, Shell -, and this one puts them in the
    order of the code. The answers of Windows, tokio and gpui-kit come in one
    record. *)
From S2P Require Import Prelude Io Text Net Domain Validation Path Schema Fs Store Secrets Persist Russh HostKey Retry Supervisor SshImport Manager ManagerProps Editor Document Workspace Desktop View Tray Shell Host Instance.

(** [std::env::args_os().any(|arg| arg == "--background")] *)
Definition background (args : list string) : bool := existsb (String.eqb "--background") args.

(** [an_snapshot]: what the manager has published when the tray is built. *)
Record Answers := mkAnswers {
  an_runtime : result unit string;
  an_thread : result unit string;
  an_network : Z;
  an_snapshot : ManagerSnapshot;
  an_icon : result unit string;
  an_append : nat -> result unit string;
  an_tooltip : result unit string;
  an_window : result unit string
}.

(** What [main] has started when the event loop begins: the shell, with what its
    windows are given, and the runtime. *)
Record Started (K R : Type) := mkStarted {
  ap_shell : Shell;
  ap_runtime : option (RuntimeHost (K := K) (R := R))
}.
Arguments mkStarted {K R}.
Arguments ap_shell {K R}.
Arguments ap_runtime {K R}.

Section Main.
Context `{Russh} `{HT : Toml, HO : Os} `{HK : Keyring K} `{HR : Registry R} `{HG : Glob}.
Context (env : Env) (order : gset TunnelId -> list TunnelId).

(** The runtime of a configuration that loaded, or its error. *)
Definition start_runtime (startup : Startup) (an : Answers) (w : World K R)
    : option RuntimeHost * option string :=
  match startup with
  | Ok (directory, config) =>
      match host_new env order (an_runtime an) (an_thread an) (an_network an) config directory w with
      | Ok runtime => (Some runtime, None)
      | Err error => (None, Some error)
      end
  | Err _ => (None, None)
  end.

(** [instance]: what [InstanceGuard::acquire] returned; [s]: the file system. *)
Definition main (instance : InstanceStart.t) (args : list string) (s : Fs) (w : World K R)
    (an : Answers) : option (Started K R) :=
  match instance with
  | InstanceStart.Primary =>
      let startup := Host.startup env s in
      let '(runtime, runtime_error) := start_runtime startup an w in
      let manager := (fun host => (config_views (rh_manager host), an_snapshot an)) <$> runtime in
      let shell := Shell.new env (background args) startup manager runtime_error (an_icon an)
                     (an_append an) (an_tooltip an) (an_window an) in
      Some (mkStarted shell runtime)
  | _ => None
  end.
End Main.

(** ** Properties *)

(** The tray shows a configuration and its states, or tray-icon refused it. *)
Definition tray_outcome (an : Answers) (config : DomainConfig) (snapshot : ManagerSnapshot)
    (tray : option TrayController) : Prop :=
  let p := present config snapshot in
  match tray with
  | Some tray => tray_shows p tray
  | None => exists e, an_icon an = Err e \/ an_tooltip an = Err e
      \/ exists i, (i < length (menu_of p))%nat /\ an_append an i = Err e
  end.

Section Started.
Context (env : Env) (bg : bool) (startup : Startup) (manager : option (DomainConfig * ManagerSnapshot)).
Context (error : option string) (an : Answers).
Notation shell :=
  (Shell.new env bg startup manager error (an_icon an) (an_append an) (an_tooltip an) (an_window an)).
Notation opening := (mkOpening startup (bool_decide (is_Some manager)) error).

Lemma shell_new_tray config :
  tray_config env startup (fst <$> manager) = Some config ->
  tray_outcome an config (map_or ∅ snd manager) (sh_tray shell).
Proof.
  intros Hc. set (tray := match (let? _ := an_icon an in new_tray (an_append an) (an_tooltip an) config
                                   (map_or ∅ snd manager)) with Ok tray => Some tray | Err _ => None end).
  assert (Ht : sh_tray shell = tray).
  { unfold Shell.new. rewrite Hc. fold tray. destruct (initial_window _ _), (an_window an); done. }
  rewrite Ht. unfold tray, tray_outcome. destruct (an_icon an) as [[]|e]; cbn; [|by exists e; left].
  pose proof (new_tray_outcome (an_append an) (an_tooltip an) config (map_or ∅ snd manager)) as Hn.
  destruct (new_tray _ _ _ _) as [tray'|e]; [done|]. exists e. naive_solver.
Qed.

Lemma shell_new_windows :
  (forall n o, (n, o) ∈ sh_windows shell -> n = 0%nat /\ o = opening)
  /\ (an_window an = Ok tt -> sh_windows shell = [(0%nat, opening)]
       \/ sh_windows shell = [] /\ bg = true /\ sh_tray shell <> None).
Proof.
  unfold Shell.new. set (tray := match tray_config _ _ _ with None => None | Some _ => _ end).
  unfold initial_window. split.
  - intros n o. destruct bg, tray as [t|], (an_window an) as [[]|]; cbn;
      intros Hin; (by apply elem_of_nil in Hin) || (apply list_elem_of_singleton in Hin; by simplify_eq).
  - intros ->. destruct bg, tray as [t|]; cbn; auto.
Qed.

(** Any window of the application, the first or a later one. *)
Lemma later_windows `{Gpui} events n o :
  (n, o) ∈ sh_windows (Shell.run shell events) ->
  given_window startup (bool_decide (is_Some manager)) error o.
Proof.
  assert (Hg : shell_given startup (bool_decide (is_Some manager)) error (Shell.run shell events))
    by (apply run_given, shell_new_given).
  intros Hin. exact (proj1 (Forall_forall _ _) (sg_windows _ _ _ _ Hg) _ Hin).
Qed.
End Started.

(** The window, as it is opened, shows a text. *)
Definition window_says `{InputState} (o : Opening) (text : string) : Prop :=
  forall views, Text text ∈ render (window_view o views).

Lemma load_error_shown `{InputState} o error :
  op_startup o = Err error -> window_says o ("Could not load configuration: " +:+ error).
Proof.
  intros Ho views. unfold render, render_content, render_body, window_view. cbn [ws_startup new].
  rewrite Ho. apply elem_of_app. right. apply elem_of_app. right. apply elem_of_app. right.
  apply elem_of_app. left. left.
Qed.

Lemma runtime_error_shown `{InputState} o error :
  op_error o = Some error -> window_says o ("Could not start tunnel runtime: " +:+ error).
Proof.
  intros Ho views. unfold render, render_content, window_view. cbn [ws_command_error ws_runtime_error new].
  rewrite Ho. apply elem_of_app. right. do 3 (apply elem_of_app; right). left.
Qed.

Section MainClaims.
Context `{InputState} `{Gpui} `{Russh} `{TomlSyntaxLaws} `{HO : Os} `{HK : Keyring K} `{HR : Registry R} `{HG : Glob}.
Context (env : Env) (raw_os_text : Z -> string) (import_files : ImportFiles).
Context (order : gset TunnelId -> list TunnelId).
Hypothesis order_perm : forall s, order s ≡ₚ elements s.
Notation main := (main (HT := syntax_toml) (K := K) (R := R) env order).
Notation startup := (Host.startup (H := syntax_toml) env).

Lemma parsed_typed text d : from_str (Toml := syntax_toml) text = Ok d -> document_typed d.
Proof. intros Hd. by apply fits_typed, (parsed_fits text). Qed.

(** What runs once a configuration has loaded. *)
Definition runs_config (config : DomainConfig) (host : RuntimeHost (K := K) (R := R)) : Prop :=
  let m := rh_manager host in
  ManagerProps.reachable (HT := syntax_toml) env raw_os_text import_files order m
  /\ tunnels m = tunnel_map (dc_tunnels config) /\ Manager.hosts m = dc_hosts config
  /\ auto_start m = tunnel_id <$> List.filter tunnel_auto_start (dc_tunnels config)
  /\ config_views m ≡ config
  /\ forall views, started env m (Some (config, views)).

Lemma start_runtime_runs s w an directory config :
  home_ok env -> Manager.tasks w = ∅ -> Manager.replies w = [] -> startup s = Ok (directory, config) ->
  storable env config
  /\ match start_runtime env order (Ok (directory, config)) an w with
     | (Some host, error) => error = None /\ runs_config config host
     | (None, error) => exists e, error = Some e
         /\ (an_runtime an = Err e \/ an_runtime an = Ok tt /\ an_thread an = Err e)
     end.
Proof.
  intros Hh Ht Hr Hs.
  destruct (startup_runs (HT := syntax_toml) env raw_os_text import_files order order_perm parsed_typed s directory
    config (an_runtime an) (an_thread an) (an_network an) w Hh Ht Hr Hs) as [Hst Hm]. split; [done|].
  unfold start_runtime. destruct (host_new _ _ _ _ _ _ _ _) as [host|e]; [|eauto].
  destruct Hm as (? & ? & ? & ? & ? & ? & _). by split.
Qed.

End MainClaims.

(** ** Witness *)
Import ToyKeyring ToyGlob.

(** The first process starts from a file, in the background; nothing fails. *)
Definition main_files : Fs :=
  mkFs {[("/app/TunnelWarden", "config.toml") := "example"]} {["/app/TunnelWarden"]} [].
Definition main_world : World (gmap string string) (option (list Z)) :=
  mkWorld ∅ 0 1700000000 ∅ [] [] (mkDisk main_files ∅ None).
Definition all_well : Answers :=
  mkAnswers (Ok tt) (Ok tt) 0 ∅ (Ok tt) (fun _ => Ok tt) (Ok tt) (Ok tt).
Definition main_config : DomainConfig :=
  match into_domain ToyOrder.env example_document with
  | Ok c => c
  | Err _ => mkDomainConfig AppSettings_default [] [] []
  end.

Lemma main_loads :
  Host.startup (H := syntax_toml) ToyOrder.env main_files = Ok ("/app/TunnelWarden", main_config).
Proof. vm_compute. reflexivity. Qed.

Definition toy_main (args : list string) : option (Started (gmap string string) (option (list Z))) :=
  main (HT := syntax_toml) ToyOrder.env elements InstanceStart.Primary args main_files
    main_world all_well.

Definition running_main (app : Started (gmap string string) (option (list Z))) : bool :=
  bool_decide (is_Some (ap_runtime app)) && bool_decide (sh_windows (ap_shell app) = []).
Lemma toy_main_runs : map_or false running_main (toy_main ["TunnelWarden"; "--background"]) = true.
Proof. vm_compute. reflexivity. Qed.

