(* ===== verification/Probe.v ===== *)
(** * Probe: the manual test of window resources
    (crates/app/examples/window_probe.rs).

    The example opens one empty window behind the instance guard and opens it
    again, or brings it to the front, whenever a second instance asks. It is
    the application's handling of its window without tray and manager, and the
    refinement below says so: what it does, [Shell] does when its tray is asked
    to open the window. *)
From S2P Require Import Prelude Io Text Net Domain Schema HostKey Manager Editor Workspace Desktop Tray Shell Instance.

(** [pb_windows]: the windows gpui-kit has; [pb_window]: the handle of [Owner]. *)
Record Probe := mkProbe {
  pb_window : option nat;
  pb_windows : list nat;
  pb_opened : nat
}.

(** [open(app)] and the handle kept on success. *)
Definition probe_open (opened : result unit string) (s : Probe) : Probe :=
  match opened with
  | Ok _ => mkProbe (Some (pb_opened s)) (pb_windows s ++ [pb_opened s]) (S (pb_opened s))
  | Err _ => s
  end.

(** A message of the guard: [activate_window] succeeds if the window exists. *)
Definition probe_wake (opened : result unit string) (s : Probe) : Probe :=
  match pb_window s with
  | Some old => if bool_decide (old ∈ pb_windows s) then s else probe_open opened s
  | None => probe_open opened s
  end.

(** [run]: the closure given to gpui-kit, if the guard is the first. *)
Definition probe_run (instance : InstanceStart.t) (opened : result unit string) : option Probe :=
  match instance with
  | InstanceStart.Primary => Some (probe_open opened (mkProbe None [] 0))
  | _ => None
  end.

Inductive probe_event :=
  | Woken (opened : result unit string)
  | Closed (n : nat).                        (* by the user; the quit mode is explicit *)

Definition probe_step (s : Probe) (e : probe_event) : Probe :=
  match e with
  | Woken opened => probe_wake opened s
  | Closed n => mkProbe (pb_window s) (List.filter (fun m => negb (bool_decide (m = n))) (pb_windows s)) (pb_opened s)
  end.

(** ** The application does the same *)

(** The shell of an application with a tray that stays when its window closes. *)
Record follows (p : Probe) (s : Shell) : Prop := {
  fo_window : sh_window s = pb_window p;
  fo_windows : (sh_windows s).*1 = pb_windows p;
  fo_opened : sh_opened s = pb_opened p;
  fo_running : sh_running s = true;
  fo_actions : sh_actions s = true;
  fo_manager : sh_manager s = true;
  fo_mode : sh_quit_mode s = QuitMode.Explicit
}.

Section Follows.
Context `{GpuiLaws} (config : DomainConfig) (snapshot : ManagerSnapshot).
Hypothesis stays : minimize_to_tray (dc_app config) = true.

Definition shell_event (e : probe_event) : Shell.event :=
  match e with
  | Woken opened => Chosen TrayAction.Open config snapshot opened
  | Closed n => CloseWindow n config
  end.

Lemma open_follows opened startup p s :
  follows p s -> follows (probe_open opened p) (open_window startup opened s).
Proof.
  intros [Hw Hws Ho Hr Ha Hm Hq]. destruct opened as [[]|e]; [|by split].
  split; cbn; rewrite ?fmap_app, ?Hws, ?Ho; done.
Qed.

Lemma filter_first (l : list (nat * Opening)) n :
  (List.filter (fun w => negb (bool_decide (w.1 = n))) l).*1
  = List.filter (fun m => negb (bool_decide (m = n))) l.*1.
Proof. induction l as [|[m st] l IH]; [done|]. cbn. case_bool_decide; cbn; by rewrite IH. Qed.

Lemma step_follows p s e : follows p s -> follows (probe_step p e) (Shell.step s (shell_event e)).
Proof.
  intros Hf. pose proof Hf as [Hw Hws Ho Hr Ha Hm Hq]. unfold Shell.step. rewrite Hr.
  destruct e as [opened|n]; cbn [shell_event handle probe_step].
  - rewrite Ha. cbn [tray_effect fst]. unfold show_main_window, probe_wake, window_alive. rewrite Hw, Hws.
    destruct (pb_window p) as [old|]; cbn [map_or]; [destruct (bool_decide _); [done|]|]; by apply open_follows.
  - cbn [fst]. unfold close_window, window_alive. rewrite Hws. case_bool_decide as Hin.
    + unfold published. rewrite Hm. cbn [keep_running]. rewrite stays. cbv zeta.
      cbn [sh_quit_mode set_window]. rewrite Hq, quits_explicit. split; cbn; try done. by rewrite filter_first, Hws.
    + assert (Hsame : List.filter (fun m => negb (bool_decide (m = n))) (pb_windows p) = pb_windows p).
      { clear -Hin. induction (pb_windows p) as [|m l IH]; [done|]. cbn. apply not_elem_of_cons in Hin as [Hne Hin].
        rewrite bool_decide_eq_false_2 by done. cbn. by rewrite IH. }
      rewrite Hsame. by split.
Qed.

Lemma run_follows p s events :
  follows p s -> follows (foldl probe_step p events) (Shell.run s (shell_event <$> events)).
Proof.
  revert p s. induction events as [|e events IH]; intros p s Hf; [done|]. cbn. by apply IH, step_follows.
Qed.

Lemma new_follows env startup m error icon append tooltip opened :
  sh_tray (Shell.new env false startup (Some m) error icon append tooltip opened) <> None ->
  follows (probe_open opened (mkProbe None [] 0))
    (Shell.new env false startup (Some m) error icon append tooltip opened).
Proof.
  unfold Shell.new. set (tray := match tray_config _ _ _ with None => None | Some _ => _ end).
  cbn [initial_window negb orb]. intros Ht. destruct tray as [t|].
  - by apply open_follows.
  - exfalso. by destruct opened.
Qed.

Lemma one_window s : shell_inv s ->
  (sh_windows s).*1 = [] \/ exists n, (sh_windows s).*1 = [n] /\ sh_window s = Some n.
Proof.
  intros Hi. destruct (sv_one s Hi) as [->|(n & st & -> & Hn)]; [by left|right; by exists n].
Qed.

(** The probe measures what the application does. Started as the first
    instance, through any wake-ups and closings and whatever gpui-kit answers,
    its windows, its handle and the number of windows opened are those of an
    application that starts in the foreground with a manager, gets its tray
    icon, and is then asked to open its window and has it closed as often; so
    there is never a second window, and a wake-up leaves one open if one can be
    opened. A later instance opens nothing. *)
Theorem probe_behaves_like_the_application env startup m error icon append tooltip opened events p0 :
  let s0 := Shell.new env false startup (Some m) error icon append tooltip opened in
  sh_tray s0 <> None -> probe_run InstanceStart.Primary opened = Some p0 ->
  let p := foldl probe_step p0 events in
  follows p (Shell.run s0 (shell_event <$> events))
  /\ (length (pb_windows p) <= 1)%nat
  /\ pb_windows (probe_step p (Woken (Ok tt))) <> []
  /\ probe_run InstanceStart.Existing opened = None.
Proof.
  intros s0 Ht [= <-] p. pose proof (run_follows _ s0 events (new_follows _ _ _ _ _ _ _ _ Ht)) as Hr.
  fold p in Hr. split; [done|].
  destruct Hr as [Hw Hws _ _ _ _ _].
  pose proof (one_window _ (run_inv s0 (shell_event <$> events) (shell_new_inv _ _ _ _ _ _ _ _ _))) as Hone.
  rewrite Hws, Hw in Hone. split_and!; [| |done].
  - destruct Hone as [->|(n & -> & _)]; cbn; lia.
  - cbn [probe_step]. unfold probe_wake. destruct Hone as [E|(n & E & ->)].
    + destruct (pb_window p) as [old|]; [rewrite bool_decide_eq_false_2 by (rewrite E; apply not_elem_of_nil)|];
        cbn; by rewrite E.
    + rewrite bool_decide_eq_true_2 by (rewrite E; by apply list_elem_of_singleton). by rewrite E.
Qed.
End Follows.

(** ** Witness *)
#[local] Instance toy_gpui : Gpui := {|
  quits mode left := match mode with QuitMode.Explicit => false
                     | QuitMode.LastWindowClosed => bool_decide (left = 0%nat) end |}.
#[local] Instance toy_gpui_laws : GpuiLaws.
Proof. done. Qed.

Definition probe_config : DomainConfig := mkDomainConfig AppSettings_default [] [] [].

(** The window is closed, and a second instance asks for it. *)
Definition probe_events : list probe_event := [Closed 0; Woken (Ok tt)].
Definition probe_end : Probe := foldl probe_step (probe_open (Ok tt) (mkProbe None [] 0)) probe_events.

Theorem probe_behaves_like_the_application_witness :
  pb_windows probe_end = [1%nat] /\ (length (pb_windows probe_end) <= 1)%nat.
Proof.
  split; [vm_compute; reflexivity|].
  exact (proj1 (proj2 (probe_behaves_like_the_application probe_config ∅ eq_refl example_env
    (Ok ("/cfg", probe_config)) (probe_config, ∅) None (Ok tt) (fun _ => Ok tt) (Ok tt) (Ok tt) probe_events _
    ltac:(by vm_compute) eq_refl))).
Defined.
